(** * Intersophia FAQ: a shallow embedding of the page script

    The repository ships one script, [assets/js/main.js], in three
    iterations: the current one (version 2.0, a [state] object holding a
    [Map] of question records), an intermediate one ([questionMap] plus
    [flatList]) and the first one (module-level [flatQuestions] array and
    DOM queries).  The current iteration is embedded in [Module Faq], the
    first one in [Module Legacy], the intermediate one, where it is
    needed, in [Module Intermediate].

    Conventions:
    - a JavaScript string is a Rocq [string] holding its UTF-8 bytes;
    - a JavaScript [Map] is an association list in insertion order
      (iteration order, [keys()] and the [order] field depend on it);
    - DOM nodes the script keeps references to are stored in those maps,
      the DOM trees themselves hold the [data-question-id] of each node;
    - code that may throw returns an [Outcome];
    - style properties (max-height, opacity, chevron rotation, fade
      classes) and scroll geometry are presentation only: scrolling and
      focusing are recorded as entries of an effect log. *)

From Stdlib Require Import String Ascii List Bool Arith ZArith NArith Lia.
From Equations Require Import Equations.
Import ListNotations.
Open Scope string_scope.
Open Scope list_scope.

Set Implicit Arguments.

(* ===================================================================== *)
(** ** JavaScript string primitives *)
(* ===================================================================== *)

Module Js.

Definition code (a : ascii) : N := N_of_ascii a.

(** [s.startsWith(p)] *)
Fixpoint startsWith (p s : string) : bool :=
  match p, s with
  | EmptyString, _ => true
  | String a p', String b s' => Ascii.eqb a b && startsWith p' s'
  | String _ _, EmptyString => false
  end.

(** [s.slice(n)] and [s.substring(n)] for [n] within a checked prefix. *)
Fixpoint drop (n : nat) (s : string) : string :=
  match n, s with
  | O, _ => s
  | S n', String _ s' => drop n' s'
  | S _, EmptyString => EmptyString
  end.

Definition is_empty (s : string) : bool :=
  match s with EmptyString => true | _ => false end.

(** Truthiness of a value that is a string, [null] or [undefined]. *)
Definition truthy (v : option string) : bool :=
  match v with
  | Some s => negb (is_empty s)
  | None => false
  end.

(** [v || ''] for a string-or-missing [v]. *)
Definition or_empty (v : option string) : string :=
  match v with Some s => s | None => "" end.

Definition rev (s : string) : string :=
  string_of_list_ascii (List.rev (list_ascii_of_string s)).

(** White space and line terminators removed by [String.prototype.trim],
    as UTF-8: the one-byte ones (TAB, LF, VT, FF, CR, SP), U+00A0, and
    the three-byte ones (U+1680, U+2000..U+200A, U+2028, U+2029, U+202F,
    U+205F, U+3000, U+FEFF). *)
Definition ws1 (a : ascii) : bool :=
  let c := code a in
  ((9 <=? c) && (c <=? 13) || (c =? 32))%N.

Definition ws2 (a b : ascii) : bool :=
  ((code a =? 194) && (code b =? 160))%N.

Definition ws3 (a b c : ascii) : bool :=
  let x := code a in let y := code b in let z := code c in
  ((x =? 225) && (y =? 154) && (z =? 128)
   || (x =? 226) && (y =? 128)
      && ((128 <=? z) && (z <=? 138) || (z =? 168) || (z =? 169) || (z =? 175))
   || (x =? 226) && (y =? 129) && (z =? 159)
   || (x =? 227) && (y =? 128) && (z =? 128)
   || (x =? 239) && (y =? 187) && (z =? 191))%N.

(** Removes leading white space; [w2] and [w3] recognise the two- and
    three-byte characters in the order the bytes are met. *)
Fixpoint strip (w2 : ascii -> ascii -> bool)
               (w3 : ascii -> ascii -> ascii -> bool) (s : string) : string :=
  match s with
  | EmptyString => EmptyString
  | String a s1 =>
      if ws1 a then strip w2 w3 s1
      else match s1 with
           | EmptyString => s
           | String b s2 =>
               if w2 a b then strip w2 w3 s2
               else match s2 with
                    | EmptyString => s
                    | String c s3 => if w3 a b c then strip w2 w3 s3 else s
                    end
           end
  end.

Definition trimStart (s : string) : string := strip ws2 ws3 s.

Definition trimEnd (s : string) : string :=
  rev (strip (fun a b => ws2 b a) (fun a b c => ws3 c b a) (rev s)).

(** [s.trim()] *)
Definition trim (s : string) : string := trimEnd (trimStart s).

Definition newline : ascii := ascii_of_N 10.

(** [s.split('\n')]: never empty, [''.split('\n')] is [['']]. *)
Fixpoint split_lines (s : string) : list string :=
  match s with
  | EmptyString => [EmptyString]
  | String a s' =>
      if Ascii.eqb a newline then EmptyString :: split_lines s'
      else match split_lines s' with
           | [] => [String a EmptyString]
           | l :: ls => String a l :: ls
           end
  end.

(** [parts.join(sep)] *)
Fixpoint join (sep : string) (parts : list string) : string :=
  match parts with
  | [] => EmptyString
  | [p] => p
  | p :: rest => (p ++ sep ++ join sep rest)%string
  end.

Definition LF : string := String newline EmptyString.

(* ------------------------------------------------------------------- *)
(** *** [encodeURIComponent] and [decodeURIComponent] *)

Definition in_range (lo hi c : N) : bool := ((lo <=? c) && (c <=? hi))%N.

(** Characters [encodeURIComponent] leaves alone:
    [A-Z a-z 0-9 - _ . ! ~ * ' ( )]. *)
Definition unreserved (a : ascii) : bool :=
  let c := code a in
  in_range 65 90 c || in_range 97 122 c || in_range 48 57 c
  || (c =? 45)%N || (c =? 95)%N || (c =? 46)%N || (c =? 33)%N
  || (c =? 126)%N || (c =? 42)%N || (c =? 39)%N || (c =? 40)%N
  || (c =? 41)%N.

Definition hex_digit (n : N) : ascii :=
  if (n <? 10)%N then ascii_of_N (48 + n) else ascii_of_N (55 + n).

Definition hex_value (a : ascii) : option N :=
  let c := code a in
  if in_range 48 57 c then Some (c - 48)%N
  else if in_range 65 70 c then Some (c - 55)%N
  else if in_range 97 102 c then Some (c - 87)%N
  else None.

Definition percent : ascii := "%"%char.

Definition encode_byte (a : ascii) (rest : string) : string :=
  if unreserved a then String a rest
  else String percent
         (String (hex_digit (code a / 16))
            (String (hex_digit (code a mod 16)) rest)).

(** Every byte of the UTF-8 form that is not unreserved becomes [%XX]
    with upper-case digits. *)
Fixpoint encodeURIComponent (s : string) : string :=
  match s with
  | EmptyString => EmptyString
  | String a s' => encode_byte a (encodeURIComponent s')
  end.

(** Replaces each [%XX] by its byte; [None] when a [%] is not followed
    by two hexadecimal digits. *)
Fixpoint percent_decode (s : string) : option string :=
  match s with
  | EmptyString => Some EmptyString
  | String a s1 =>
      if Ascii.eqb a percent then
        match s1 with
        | String h (String l s3) =>
            match hex_value h, hex_value l, percent_decode s3 with
            | Some x, Some y, Some r => Some (String (ascii_of_N (16 * x + y)) r)
            | _, _, _ => None
            end
        | _ => None
        end
      else option_map (String a) (percent_decode s1)
  end.

Definition cont (a : ascii) : bool := in_range 128 191 (code a).

(** Well-formed UTF-8 (no overlong forms, no surrogates, at most
    U+10FFFF). *)
Fixpoint utf8_valid (s : string) : bool :=
  match s with
  | EmptyString => true
  | String a s1 =>
      let c := code a in
      if (c <? 128)%N then utf8_valid s1
      else match s1 with
           | EmptyString => false
           | String b s2 =>
               if in_range 194 223 c then cont b && utf8_valid s2
               else match s2 with
                    | EmptyString => false
                    | String d s3 =>
                        if in_range 224 239 c then
                          (if (c =? 224)%N then in_range 160 191 (code b)
                           else if (c =? 237)%N then in_range 128 159 (code b)
                           else cont b)
                          && cont d && utf8_valid s3
                        else match s3 with
                             | EmptyString => false
                             | String e s4 =>
                                 in_range 240 244 c
                                 && (if (c =? 240)%N then in_range 144 191 (code b)
                                     else if (c =? 244)%N then in_range 128 143 (code b)
                                     else cont b)
                                 && cont d && cont e && utf8_valid s4
                             end
                    end
           end
  end.

(** [decodeURIComponent]: [None] stands for the [URIError] thrown on a
    malformed escape or on escapes that do not form UTF-8. *)
Definition decodeURIComponent (s : string) : option string :=
  match percent_decode s with
  | Some d => if utf8_valid d then Some d else None
  | None => None
  end.

End Js.

Example trim_ex : Js.trim "  * a  " = "* a".
Proof. reflexivity. Qed.

Example split_ex : Js.split_lines ("a" ++ Js.LF ++ Js.LF ++ "b")%string = ["a"; ""; "b"].
Proof. reflexivity. Qed.

Example encode_ex : Js.encodeURIComponent "a b/c" = "a%20b%2Fc".
Proof. reflexivity. Qed.

Example decode_ex : Js.decodeURIComponent "a%20b%2fc" = Some "a b/c".
Proof. reflexivity. Qed.

Example decode_bad : Js.decodeURIComponent "%C3" = None /\ Js.decodeURIComponent "%zz" = None.
Proof. split; reflexivity. Qed.


(* ===================================================================== *)
(** ** JavaScript [Map] with string keys *)
(* ===================================================================== *)

Module JsMap.

Definition t (V : Type) : Type := list (string * V).

Definition empty {V} : t V := [].

Definition key_is {V} (k : string) (p : string * V) : bool := String.eqb (fst p) k.

(** [m.has(k)] *)
Definition has {V} (k : string) (m : t V) : bool := existsb (key_is k) m.

(** [m.get(k)], [None] for [undefined] *)
Definition get {V} (k : string) (m : t V) : option V :=
  option_map snd (find (key_is k) m).

(** [m.set(k, v)]: a known key keeps its place, a new one goes last. *)
Fixpoint set {V} (k : string) (v : V) (m : t V) : t V :=
  match m with
  | [] => [(k, v)]
  | (k', v') :: rest =>
      if String.eqb k' k then (k', v) :: rest else (k', v') :: set k v rest
  end.

(** [m.size] *)
Definition size {V} (m : t V) : nat := List.length m.

(** [Array.from(m.keys())] and [Array.from(m.values())] *)
Definition keys {V} (m : t V) : list string := map fst m.
Definition values {V} (m : t V) : list V := map snd m.

(** [m.forEach((v, k) => ...)] where the callback only mutates the object
    [v] it is handed. *)
Definition forEach {V} (f : V -> string -> V) (m : t V) : t V :=
  map (fun p => (fst p, f (snd p) (fst p))) m.

(** Mutation of the object stored under [k]. *)
Definition update {V} (k : string) (f : V -> V) (m : t V) : t V :=
  forEach (fun v k' => if String.eqb k' k then f v else v) m.

End JsMap.

(** [arr.indexOf(x)], [-1] when absent. *)
Fixpoint indexOf (x : string) (arr : list string) : Z :=
  match arr with
  | [] => (-1)%Z
  | y :: rest =>
      if String.eqb y x then 0%Z
      else let i := indexOf x rest in if (i <? 0)%Z then (-1)%Z else (i + 1)%Z
  end.

(** [arr[i]] for an integer [i], [None] for [undefined]. *)
Definition at_index {A} (arr : list A) (i : Z) : option A :=
  if (i <? 0)%Z then None else nth_error arr (Z.to_nat i).

(* ===================================================================== *)
(** ** The FAQ document and what the network returns *)
(* ===================================================================== *)

(** An item of [assets/faq-data.json]: [{ id, q, a }], every field a
    string or missing. *)
Record RawItem := {
  item_id : option string;
  item_q : option string;
  item_a : option string }.

(** A section: [{ section, hideHeading?, items }]; [raw_items] is [None]
    when [items] is not an array, an item is [None] when it is [null]. *)
Record RawSection := {
  raw_section : option string;
  raw_hideHeading : bool;
  raw_items : option (list (option RawItem)) }.

(** The parsed array; [None] stands for a [null] element. *)
Definition Document : Type := list (option RawSection).

Inductive JsonValue :=
| JsonArray (doc : Document)
| JsonObject
| JsonString (s : string)
| JsonNumber (n : Z)
| JsonBool (b : bool)
| JsonNull.

(** What [fetch] followed by [response.json()] can produce. *)
Inductive FetchResult :=
| NetworkFailure
| Response (ok : bool) (status : nat) (body : option JsonValue).

Inductive JsError :=
| HttpError (status : nat)
| FetchFailed
| JsonSyntaxError
| NotAnArray
| ReferenceError (name : string).

Inductive Effect :=
| Fetch (url : string) (cache : string)
| ScrollViewerTop
| ScrollAccordion (id : string)
| FocusAccordionButton (id : string)
| FocusSidebarButton (id : string)
| SocialGlow (indices : list nat)
| ConsoleError (e : JsError).

(** [Array.isArray(section?.items) ? section.items : []] *)
Definition items_of (section : option RawSection) : list (option RawItem) :=
  match section with
  | Some s => match raw_items s with Some items => items | None => [] end
  | None => []
  end.

(** [section?.section] *)
Definition name_of (section : option RawSection) : option string :=
  match section with Some s => raw_section s | None => None end.

Definition hideHeading_of (section : option RawSection) : bool :=
  match section with Some s => raw_hideHeading s | None => false end.

(** The text an element shows for a string-or-missing value. *)
Definition text (v : option string) : string := Js.or_empty v.

(* ===================================================================== *)
(** ** The current iteration (version 2.0) *)
(* ===================================================================== *)

Module Faq.

(** *** [CONFIG] *)

Definition AUTO_SCROLL : bool := false.

Definition STATIC_ACCORDION_IDS : list string := ["kim-jestesmy"].

Definition SOCIAL_GLOW_MAPPING : JsMap.t (list nat) :=
  [("jak-sie-dowiem-o-spotkaniach", [0; 1]);
   ("jak-moge-zlapac-kontakt", [1]);
   ("do-czego-uzywacie-onenote", [2])].

Definition is_static (id : string) : bool :=
  existsb (String.eqb id) STATIC_ACCORDION_IDS.

(** *** Data *)

(** A question record. *)
Record Entry := {
  e_id : string;
  e_section : string;
  e_question : string;
  e_answer : string;
  e_order : nat }.

Definition Index : Type := JsMap.t Entry.

(** [{ ...section, validItems }] *)
Record FaqSection := {
  s_section : option string;
  s_hideHeading : bool;
  s_validItems : list Entry }.

(** A [button.side-link]: classes [active] and [is-active], attribute
    [aria-current] ([None] while the attribute is not set). *)
Record SidebarButton := {
  sb_label : string;
  sb_active : bool;
  sb_is_active : bool;
  sb_aria_current : option bool }.

(** An [.acc-item]: its button and its panel. *)
Record AccordionItem := {
  ai_label : string;
  ai_body : string;
  ai_open : bool;
  ai_aria_hidden : bool;
  ai_data_open : bool;
  ai_body_tabindex : Z;
  ai_button_active : bool;
  ai_aria_expanded : bool }.

(** Content of [#contentInner]. *)
Inductive Viewer :=
| ViewerMarkup (has_children : bool)
| ViewerSkeleton
| ViewerQuestion (e : Entry)
| ViewerEmptyMessage
| ViewerErrorPanel (e : JsError)
| ViewerNoDataMessage.

Record SideSection := {
  ss_heading : option string;
  ss_links : list string }.

(** Content of [#sidebar]. *)
Inductive SidebarDom :=
| SidebarMarkup
| SidebarSkeleton
| SidebarCleared
| SidebarContent (sections : list SideSection).

Inductive AccordionNode :=
| AccHeading (title : string)
| AccStatic (id : string) (html : string)
| AccItem (id : string).

(** Content of [#mobileAccordion]. *)
Inductive AccordionDom :=
| AccordionMarkup
| AccordionSkeleton
| AccordionContent (nodes : list AccordionNode).

(** The [state] object. *)
Record AppState := {
  questions : Index;
  sections : list FaqSection;
  activeId : option string;
  elements_sidebar : JsMap.t SidebarButton;
  elements_accordion : JsMap.t AccordionItem;
  bound_sidebar : bool;
  bound_accordion : bool }.

(** The [dom] object: a host element is [None] when
    [document.getElementById] found nothing. *)
Record Dom := {
  viewer : option Viewer;
  sidebar : option SidebarDom;
  accordion : option AccordionDom;
  keyboard_navigation : bool }.

(** What the script reads from [window]. *)
Record Window := {
  location_hash : string;
  history_replaceState : bool;
  history_length : nat;
  layout_mobile : bool;
  reduced_motion : bool }.

(** The page: script state, DOM, browser, the queue of pending
    [setTimeout] updates of the viewer, and the effect log (latest
    first). *)
Record Page := {
  state : AppState;
  dom : Dom;
  window : Window;
  timers : list Entry;
  effects : list Effect }.

(** *** Field updates *)

Definition set_index (q : Index) (s : list FaqSection) (st : AppState) : AppState :=
  {| questions := q; sections := s; activeId := activeId st;
     elements_sidebar := elements_sidebar st;
     elements_accordion := elements_accordion st;
     bound_sidebar := bound_sidebar st; bound_accordion := bound_accordion st |}.

Definition set_activeId (v : option string) (st : AppState) : AppState :=
  {| questions := questions st; sections := sections st; activeId := v;
     elements_sidebar := elements_sidebar st;
     elements_accordion := elements_accordion st;
     bound_sidebar := bound_sidebar st; bound_accordion := bound_accordion st |}.

Definition set_elements_sidebar (v : JsMap.t SidebarButton) (st : AppState) : AppState :=
  {| questions := questions st; sections := sections st; activeId := activeId st;
     elements_sidebar := v;
     elements_accordion := elements_accordion st;
     bound_sidebar := bound_sidebar st; bound_accordion := bound_accordion st |}.

Definition set_elements_accordion (v : JsMap.t AccordionItem) (st : AppState) : AppState :=
  {| questions := questions st; sections := sections st; activeId := activeId st;
     elements_sidebar := elements_sidebar st;
     elements_accordion := v;
     bound_sidebar := bound_sidebar st; bound_accordion := bound_accordion st |}.

Definition set_bound_sidebar (v : bool) (st : AppState) : AppState :=
  {| questions := questions st; sections := sections st; activeId := activeId st;
     elements_sidebar := elements_sidebar st;
     elements_accordion := elements_accordion st;
     bound_sidebar := v; bound_accordion := bound_accordion st |}.

Definition set_bound_accordion (v : bool) (st : AppState) : AppState :=
  {| questions := questions st; sections := sections st; activeId := activeId st;
     elements_sidebar := elements_sidebar st;
     elements_accordion := elements_accordion st;
     bound_sidebar := bound_sidebar st; bound_accordion := v |}.

Definition set_viewer (v : option Viewer) (d : Dom) : Dom :=
  {| viewer := v; sidebar := sidebar d; accordion := accordion d;
     keyboard_navigation := keyboard_navigation d |}.

Definition set_sidebar (v : option SidebarDom) (d : Dom) : Dom :=
  {| viewer := viewer d; sidebar := v; accordion := accordion d;
     keyboard_navigation := keyboard_navigation d |}.

Definition set_accordion (v : option AccordionDom) (d : Dom) : Dom :=
  {| viewer := viewer d; sidebar := sidebar d; accordion := v;
     keyboard_navigation := keyboard_navigation d |}.

Definition set_keyboard_navigation (v : bool) (d : Dom) : Dom :=
  {| viewer := viewer d; sidebar := sidebar d; accordion := accordion d;
     keyboard_navigation := v |}.

Definition set_location_hash (v : string) (w : Window) : Window :=
  {| location_hash := v; history_replaceState := history_replaceState w;
     history_length := history_length w; layout_mobile := layout_mobile w;
     reduced_motion := reduced_motion w |}.

Definition set_history_length (v : nat) (w : Window) : Window :=
  {| location_hash := location_hash w; history_replaceState := history_replaceState w;
     history_length := v; layout_mobile := layout_mobile w;
     reduced_motion := reduced_motion w |}.

Definition set_layout_mobile (v : bool) (w : Window) : Window :=
  {| location_hash := location_hash w; history_replaceState := history_replaceState w;
     history_length := history_length w; layout_mobile := v;
     reduced_motion := reduced_motion w |}.

Definition set_reduced_motion (v : bool) (w : Window) : Window :=
  {| location_hash := location_hash w; history_replaceState := history_replaceState w;
     history_length := history_length w; layout_mobile := layout_mobile w;
     reduced_motion := v |}.

Definition on_state (f : AppState -> AppState) (p : Page) : Page :=
  {| state := f (state p); dom := dom p; window := window p;
     timers := timers p; effects := effects p |}.

Definition on_dom (f : Dom -> Dom) (p : Page) : Page :=
  {| state := state p; dom := f (dom p); window := window p;
     timers := timers p; effects := effects p |}.

Definition on_window (f : Window -> Window) (p : Page) : Page :=
  {| state := state p; dom := dom p; window := f (window p);
     timers := timers p; effects := effects p |}.

Definition set_timers (v : list Entry) (p : Page) : Page :=
  {| state := state p; dom := dom p; window := window p;
     timers := v; effects := effects p |}.

Definition log (e : Effect) (p : Page) : Page :=
  {| state := state p; dom := dom p; window := window p;
     timers := timers p; effects := e :: effects p |}.

(** *** [loadFaqData] *)

(** One [fetch('assets/faq-data.json', { cache: 'no-store' })]; the
    response must be [ok], parse as JSON and be an array. *)
Definition loadFaqData (net : FetchResult) (p : Page) : Page * (JsError + Document) :=
  let p := log (Fetch "assets/faq-data.json" "no-store") p in
  match net with
  | NetworkFailure => (p, inl FetchFailed)
  | Response ok status body =>
      if negb ok then (p, inl (HttpError status))
      else match body with
           | None => (p, inl JsonSyntaxError)
           | Some (JsonArray data) => (p, inr data)
           | Some _ => (p, inl NotAnArray)
           end
  end.

(** *** [formatBulletPoints] *)

(** A value handed to [formatBulletPoints]. *)
Inductive JsValue :=
| VUndefined
| VNull
| VBool (b : bool)
| VNumber (n : Z)
| VObject
| VString (s : string).

(** The variables of the loop: [result], [inList], [currentList]. *)
Record BulletLoop := {
  result : list string;
  inList : bool;
  currentList : list string }.

(** [`<ul>${currentList.map(item => `<li>${item}</li>`).join('')}</ul>`] *)
Definition list_html (currentList : list string) : string :=
  ("<ul>"
   ++ Js.join "" (map (fun item => "<li>" ++ item ++ "</li>")%string currentList)
   ++ "</ul>")%string.

(** One turn of [for (let line of lines)]. *)
Definition bullet_step (l : BulletLoop) (line : string) : BulletLoop :=
  let trimmed := Js.trim line in
  if Js.startsWith "* " trimmed then
    let bulletContent := Js.trim (Js.drop 2 trimmed) in
    let current := if inList l then currentList l else [] in
    {| result := result l; inList := true; currentList := current ++ [bulletContent] |}
  else
    let closed :=
      if inList l
      then {| result := result l ++ [list_html (currentList l)];
              inList := false; currentList := [] |}
      else l in
    if Js.is_empty trimmed then closed
    else {| result := result closed ++ [line];
            inList := inList closed; currentList := currentList closed |}.

Definition bullet_finish (l : BulletLoop) : list string :=
  if inList l && Nat.ltb 0 (List.length (currentList l))
  then result l ++ [list_html (currentList l)]
  else result l.

Definition format_lines (lines : list string) : list string :=
  bullet_finish
    (fold_left bullet_step lines {| result := []; inList := false; currentList := [] |}).

Definition formatBulletPoints (text : JsValue) : JsValue :=
  match text with
  | VString s =>
      if Js.is_empty s then text
      else VString (Js.join Js.LF (format_lines (Js.split_lines s)))
  | _ => text
  end.

(** What [innerHTML = v] shows for the values [formatBulletPoints] can
    return on a string. *)
Definition html_of (v : JsValue) : string :=
  match v with VString s => s | _ => "" end.

(** *** [buildQuestionIndex] *)

(** The body of [items.forEach]: [questions] and [validItems] grow. *)
Definition index_item (section : option RawSection)
    (acc : Index * list Entry) (item : option RawItem) : Index * list Entry :=
  let (questions, validItems) := acc in
  match item with
  | None => acc
  | Some it =>
      if negb (Js.truthy (item_id it)) then acc
      else
        let id := Js.or_empty (item_id it) in
        if JsMap.has id questions then acc
        else
          let entry := {| e_id := id;
                          e_section := Js.or_empty (name_of section);
                          e_question := Js.or_empty (item_q it);
                          e_answer := Js.or_empty (item_a it);
                          e_order := JsMap.size questions |} in
          (JsMap.set id entry questions, validItems ++ [entry])
  end.

(** The body of [sections.map]. *)
Definition index_section (acc : Index * list FaqSection)
    (section : option RawSection) : Index * list FaqSection :=
  let (questions, processed) := acc in
  let (questions', validItems) :=
    fold_left (index_item section) (items_of section) (questions, []) in
  (questions',
   processed ++ [{| s_section := name_of section;
                    s_hideHeading := hideHeading_of section;
                    s_validItems := validItems |}]).

Definition buildQuestionIndex (sections : Document) : Index * list FaqSection :=
  fold_left index_section sections (JsMap.empty, []).

(** *** Panels of the accordion *)

Definition setPanelAccessibilityState (isOpen : bool) (item : AccordionItem) : AccordionItem :=
  {| ai_label := ai_label item; ai_body := ai_body item; ai_open := ai_open item;
     ai_aria_hidden := negb isOpen; ai_data_open := isOpen;
     ai_body_tabindex := if isOpen then 0%Z else (-1)%Z;
     ai_button_active := ai_button_active item;
     ai_aria_expanded := ai_aria_expanded item |}.

(** [collapsePanel(panel)]; the button is [panel.previousElementSibling]
    of the same item. *)
Definition collapsePanel (item : AccordionItem) : AccordionItem :=
  let item := {| ai_label := ai_label item; ai_body := ai_body item; ai_open := false;
                 ai_aria_hidden := ai_aria_hidden item; ai_data_open := ai_data_open item;
                 ai_body_tabindex := ai_body_tabindex item;
                 ai_button_active := ai_button_active item;
                 ai_aria_expanded := ai_aria_expanded item |} in
  let item := setPanelAccessibilityState false item in
  {| ai_label := ai_label item; ai_body := ai_body item; ai_open := ai_open item;
     ai_aria_hidden := ai_aria_hidden item; ai_data_open := ai_data_open item;
     ai_body_tabindex := ai_body_tabindex item;
     ai_button_active := false; ai_aria_expanded := false |}.

Definition open_item (item : AccordionItem) : AccordionItem :=
  let item := {| ai_label := ai_label item; ai_body := ai_body item; ai_open := true;
                 ai_aria_hidden := ai_aria_hidden item; ai_data_open := ai_data_open item;
                 ai_body_tabindex := ai_body_tabindex item;
                 ai_button_active := ai_button_active item;
                 ai_aria_expanded := ai_aria_expanded item |} in
  let item := setPanelAccessibilityState true item in
  {| ai_label := ai_label item; ai_body := ai_body item; ai_open := ai_open item;
     ai_aria_hidden := ai_aria_hidden item; ai_data_open := ai_data_open item;
     ai_body_tabindex := ai_body_tabindex item;
     ai_button_active := true; ai_aria_expanded := true |}.

(** [expandPanel(panel, { scroll })] for the panel registered under [id];
    the scroll runs two animation frames later. *)
Definition expandPanel (id : string) (scroll : bool) (p : Page) : Page :=
  let p := on_state (fun st =>
             set_elements_accordion (JsMap.update id open_item (elements_accordion st)) st) p in
  if scroll then log (ScrollAccordion id) p else p.

(** The [forEach] that closes every open panel but the one of [id]. *)
Definition collapse_others (id : string) (m : JsMap.t AccordionItem) : JsMap.t AccordionItem :=
  JsMap.forEach
    (fun entry questionId =>
       if negb (String.eqb questionId id) && ai_open entry then collapsePanel entry
       else entry) m.

Definition syncMobileAccordion (id : option string) (scroll focus : bool) (p : Page) : Page :=
  match id with
  | None => p
  | Some i =>
      if Js.is_empty i || Nat.eqb (JsMap.size (elements_accordion (state p))) 0 then p
      else
        match JsMap.get i (elements_accordion (state p)) with
        | None => p
        | Some targetEntry =>
            let p := on_state (fun st =>
                       set_elements_accordion (collapse_others i (elements_accordion st)) st) p in
            let p :=
              if negb (ai_open targetEntry) then expandPanel i scroll p
              else if scroll then log (ScrollAccordion i) p
              else p in
            if focus then log (FocusAccordionButton i) p else p
        end
  end.

(** *** The desktop viewer and the sidebar *)

(** [dom.viewer.children.length > 0 &&
    !dom.viewer.querySelector('.loading-skeleton')] *)
Definition hasExistingContent (v : Viewer) : bool :=
  match v with
  | ViewerMarkup has_children => has_children
  | ViewerSkeleton => false
  | _ => true
  end.

Definition updateDesktopQuestionContent (entry : Entry) (p : Page) : Page :=
  log ScrollViewerTop (on_dom (set_viewer (Some (ViewerQuestion entry))) p).

Definition lookup (id : option string) (qs : Index) : option Entry :=
  match id with Some i => JsMap.get i qs | None => None end.

(** With content already shown and motion allowed the new content is
    written by a [setTimeout] callback, queued in [timers]. *)
Definition renderDesktopQuestion (id : option string) (p : Page) : Page :=
  match viewer (dom p) with
  | None => p
  | Some v =>
      match lookup id (questions (state p)) with
      | None => p
      | Some entry =>
          if hasExistingContent v && negb (reduced_motion (window p))
          then set_timers (timers p ++ [entry]) p
          else updateDesktopQuestionContent entry p
      end
  end.

(** The callback of the oldest pending [setTimeout]. *)
Definition timer_fires (p : Page) : Page :=
  match timers p with
  | [] => p
  | entry :: rest => updateDesktopQuestionContent entry (set_timers rest p)
  end.

Definition same_id (questionId : string) (id : option string) : bool :=
  match id with Some i => String.eqb questionId i | None => false end.

Definition mark (isActive : bool) (button : SidebarButton) : SidebarButton :=
  {| sb_label := sb_label button; sb_active := isActive; sb_is_active := isActive;
     sb_aria_current := Some isActive |}.

Definition updateSidebarActive (id : option string) (p : Page) : Page :=
  on_state (fun st =>
    set_elements_sidebar
      (JsMap.forEach (fun button questionId => mark (same_id questionId id) button)
         (elements_sidebar st)) st) p.

Definition scrollQuestionToTop (p : Page) : Page :=
  match viewer (dom p) with
  | None => p
  | Some _ => log ScrollViewerTop p
  end.

(** *** The URL hash *)

(** [window.location.hash.replace(/^#/, '')] *)
Definition without_hash_sign (h : string) : string :=
  if Js.startsWith "#" h then Js.drop 1 h else h.

Definition setHashQuestionId (id : option string) (p : Page) : Page :=
  match id with
  | None => p
  | Some i =>
      if Js.is_empty i then p
      else
        let encoded := Js.encodeURIComponent i in
        let current := without_hash_sign (location_hash (window p)) in
        if String.eqb current encoded then p
        else if history_replaceState (window p)
        then on_window (set_location_hash ("#" ++ encoded)%string) p
        else on_window (fun w =>
               set_history_length (S (history_length w))
                 (set_location_hash ("#" ++ encoded)%string w)) p
  end.

(** [location.hash] is empty or starts with [#]; a hash that does not
    decode is used as it stands. *)
Definition extractHashId (p : Page) : option string :=
  let h := location_hash (window p) in
  if Js.is_empty h then None
  else
    let hash := Js.drop 1 h in
    if Js.is_empty hash then None
    else
      let hash := match Js.decodeURIComponent hash with
                  | Some decoded => decoded
                  | None => hash
                  end in
      let trimmed := Js.trim hash in
      if Js.is_empty trimmed then None else Some trimmed.

Definition resolveQuestionId (questions : Index) (candidate : option string) : option string :=
  match candidate with
  | None => None
  | Some c =>
      if Js.is_empty c || Nat.eqb (JsMap.size questions) 0 then None
      else if JsMap.has c questions then Some c
      else if Js.startsWith "q-" c then
        let trimmed := Js.drop 2 c in
        if JsMap.has trimmed questions then Some trimmed else None
      else
        let prefixed := ("q-" ++ c)%string in
        if JsMap.has prefixed questions then Some prefixed else None
  end.

(** *** The coordinator *)

(** The icons pulse; which elements exist is the page's business. *)
Definition triggerSocialGlow (indices : list nat) (p : Page) : Page :=
  log (SocialGlow indices) p.

Definition applyActiveQuestion (id : option string) (syncHash scrollMobile : bool)
    (p : Page) : Page :=
  match id with
  | None => p
  | Some i =>
      if Js.is_empty i || negb (JsMap.has i (questions (state p))) then p
      else
        let p := on_state (set_activeId (Some i)) p in
        let p := renderDesktopQuestion (Some i) p in
        let p := updateSidebarActive (Some i) p in
        let p := if syncHash then setHashQuestionId (Some i) p else p in
        let p := syncMobileAccordion (Some i) scrollMobile false p in
        match JsMap.get i SOCIAL_GLOW_MAPPING with
        | Some glowIndices => triggerSocialGlow glowIndices p
        | None => p
        end
  end.

(** A click in the accordion: [target] is the [data-question-id] of the
    [.acc-item] around the clicked [.acc-btn], [None] when there is no
    such button or item. *)
Definition handleAccordionClick (target : option string) (p : Page) : Page :=
  match target with
  | None => p
  | Some id =>
      if Js.is_empty id then p
      else
        match JsMap.get id (elements_accordion (state p)) with
        | None => p
        | Some item =>
            let isOpen := ai_open item in
            let p := on_state (fun st =>
                       set_elements_accordion (collapse_others id (elements_accordion st)) st) p in
            if isOpen
            then on_state (fun st =>
                   set_elements_accordion
                     (JsMap.update id collapsePanel (elements_accordion st)) st) p
            else applyActiveQuestion (Some id) true false (expandPanel id AUTO_SCROLL p)
        end
  end.

(** A click in the sidebar: [target] is the [data-question-id] of the
    [.side-link] clicked, [None] when the click hit no link. *)
Definition handleSidebarClick (target : option string) (p : Page) : Page :=
  match target with
  | None => p
  | Some id =>
      if Js.is_empty id || negb (JsMap.has id (questions (state p))) then p
      else if same_id id (activeId (state p)) then scrollQuestionToTop p
      else applyActiveQuestion (Some id) true false p
  end.

Definition handleHashChange (p : Page) : Page :=
  match resolveQuestionId (questions (state p)) (extractHashId p) with
  | None => p
  | Some candidate =>
      if Js.is_empty candidate then p
      else if same_id candidate (activeId (state p))
      then syncMobileAccordion (Some candidate) (layout_mobile (window p)) false p
      else applyActiveQuestion (Some candidate) false (layout_mobile (window p)) p
  end.

Definition handleLayoutChange (p : Page) : Page :=
  if Nat.eqb (JsMap.size (questions (state p))) 0 then p
  else if layout_mobile (window p)
  then syncMobileAccordion (activeId (state p)) false false p
  else updateSidebarActive (activeId (state p))
         (renderDesktopQuestion (activeId (state p)) p).

(** [refreshOpenPanels] only re-measures [max-height]. *)
Definition refreshOpenPanels (p : Page) : Page := p.

Definition handleMotionPreferenceChange (p : Page) : Page :=
  if negb (reduced_motion (window p)) then refreshOpenPanels p else p.

(** *** Rendering *)

Definition getValidItems (section : FaqSection) : list Entry := s_validItems section.

Definition ensureSidebarContent (p : Page) : option Page :=
  match sidebar (dom p) with
  | None => None
  | Some _ =>
      Some (on_state (set_elements_sidebar JsMap.empty)
              (on_dom (set_sidebar (Some (SidebarContent []))) p))
  end.

Definition side_link (entry : Entry) : SidebarButton :=
  {| sb_label := e_question entry; sb_active := false; sb_is_active := false;
     sb_aria_current := None |}.

(** Body of [validItems.forEach] in [renderDesktop]: the links of the
    list and the registered buttons. *)
Definition render_link (acc : list string * JsMap.t SidebarButton) (entry : Entry)
  : list string * JsMap.t SidebarButton :=
  (fst acc ++ [e_id entry], JsMap.set (e_id entry) (side_link entry) (snd acc)).

(** Body of [state.sections.forEach] in [renderDesktop]. *)
Definition render_side_section (acc : list SideSection * JsMap.t SidebarButton)
    (section : FaqSection) : list SideSection * JsMap.t SidebarButton :=
  let validItems := getValidItems section in
  if Nat.eqb (List.length validItems) 0 then acc
  else
    let (links, buttons) := fold_left render_link validItems ([], snd acc) in
    (fst acc ++ [{| ss_heading := if s_hideHeading section then None
                                  else Some (text (s_section section));
                    ss_links := links |}],
     buttons).

Definition renderDesktop (p : Page) : Page :=
  match ensureSidebarContent p with
  | None => p
  | Some p =>
      let (fragment, buttons) :=
        fold_left render_side_section (sections (state p))
          ([], elements_sidebar (state p)) in
      let p := on_state (set_elements_sidebar buttons) p in
      let p := on_dom (set_sidebar (Some (SidebarContent fragment))) p in
      if negb (bound_sidebar (state p)) then on_state (set_bound_sidebar true) p else p
  end.

Definition createAccordionItem (entry : Entry) : AccordionItem :=
  setPanelAccessibilityState false
    {| ai_label := e_question entry;
       ai_body := html_of (formatBulletPoints (VString (e_answer entry)));
       ai_open := false; ai_aria_hidden := false; ai_data_open := false;
       ai_body_tabindex := 0%Z;
       ai_button_active := false; ai_aria_expanded := false |}.

Definition createStaticAccordionBlock (entry : Entry) : AccordionNode :=
  AccStatic (e_id entry) (html_of (formatBulletPoints (VString (e_answer entry)))).

(** Body of [validItems.forEach] in [renderMobile]. *)
Definition render_entry (acc : list AccordionNode * JsMap.t AccordionItem) (entry : Entry)
  : list AccordionNode * JsMap.t AccordionItem :=
  if is_static (e_id entry)
  then (fst acc ++ [createStaticAccordionBlock entry], snd acc)
  else (fst acc ++ [AccItem (e_id entry)],
        JsMap.set (e_id entry) (createAccordionItem entry) (snd acc)).

(** Body of [state.sections.forEach] in [renderMobile]. *)
Definition render_accordion_section (acc : list AccordionNode * JsMap.t AccordionItem)
    (section : FaqSection) : list AccordionNode * JsMap.t AccordionItem :=
  let validItems := getValidItems section in
  if Nat.eqb (List.length validItems) 0 then acc
  else
    let nodes := if s_hideHeading section then fst acc
                 else fst acc ++ [AccHeading (text (s_section section))] in
    fold_left render_entry validItems (nodes, snd acc).

Definition renderMobile (p : Page) : Page :=
  match accordion (dom p) with
  | None => p
  | Some _ =>
      let (fragment, items) :=
        fold_left render_accordion_section (sections (state p)) ([], JsMap.empty) in
      let p := on_state (set_elements_accordion items) p in
      let p := on_dom (set_accordion (Some (AccordionContent fragment))) p in
      let p := if negb (bound_accordion (state p))
               then on_state (set_bound_accordion true) p else p in
      if Js.truthy (activeId (state p))
      then syncMobileAccordion (activeId (state p)) false false p
      else p
  end.

(** *** [hydrate] *)

(** [arr.sort((a, b) => a.order - b.order)]; the sort is stable. *)
Fixpoint insert_by_order (e : Entry) (sorted : list Entry) : list Entry :=
  match sorted with
  | [] => [e]
  | x :: rest =>
      if Nat.leb (e_order e) (e_order x) then e :: sorted
      else x :: insert_by_order e rest
  end.

Definition sort_by_order (entries : list Entry) : list Entry :=
  fold_right insert_by_order [] entries.

(** [state.questions.has(state.activeId)] *)
Definition has_active (st : AppState) : bool :=
  match activeId st with
  | Some i => JsMap.has i (questions st)
  | None => false
  end.

Definition hydrate (sections : Document) (p : Page) : Page :=
  let rawSections := sections in
  let (questions', processedSections) := buildQuestionIndex rawSections in
  let p := on_state (set_index questions' processedSections) p in
  let hashCandidate := resolveQuestionId (questions (state p)) (extractHashId p) in
  let p :=
    if Js.truthy hashCandidate then on_state (set_activeId hashCandidate) p
    else if negb (Js.truthy (activeId (state p))) || negb (has_active (state p)) then
      let firstQuestion := hd_error (sort_by_order (JsMap.values (questions (state p)))) in
      let first_id := match firstQuestion with
                      | Some e => if Js.is_empty (e_id e) then None else Some (e_id e)
                      | None => None
                      end in
      on_state (set_activeId first_id) p
    else p in
  let p := renderDesktop p in
  let p := renderMobile p in
  if Js.truthy (activeId (state p)) && has_active (state p) then
    let p := renderDesktopQuestion (activeId (state p)) p in
    let p := updateSidebarActive (activeId (state p)) p in
    let p := setHashQuestionId (activeId (state p)) p in
    syncMobileAccordion (activeId (state p)) false false p
  else
    match viewer (dom p) with
    | Some _ => on_dom (set_viewer (Some ViewerEmptyMessage)) p
    | None => p
    end.

(** *** [init] and the failure path *)

Definition showLoadingState (p : Page) : Page :=
  let p := match viewer (dom p) with
           | Some _ => on_dom (set_viewer (Some ViewerSkeleton)) p
           | None => p
           end in
  let p := match sidebar (dom p) with
           | Some _ => on_dom (set_sidebar (Some SidebarSkeleton)) p
           | None => p
           end in
  match accordion (dom p) with
  | Some _ => on_dom (set_accordion (Some AccordionSkeleton)) p
  | None => p
  end.

Definition showErrorState (error : JsError) (p : Page) : Page :=
  let p := match viewer (dom p) with
           | Some _ => on_dom (set_viewer (Some (ViewerErrorPanel error))) p
           | None => p
           end in
  let p := match sidebar (dom p) with
           | Some _ => on_dom (set_sidebar (Some SidebarCleared)) p
           | None => p
           end in
  match accordion (dom p) with
  | Some _ => on_dom (set_accordion (Some (AccordionContent []))) p
  | None => p
  end.

Definition handleDataLoadError (error : JsError) (p : Page) : Page :=
  let p := log (ConsoleError error) p in
  match viewer (dom p) with
  | Some _ => on_dom (set_viewer (Some ViewerNoDataMessage)) p
  | None => p
  end.

(** [init], run once when the script loads: [net] is what the one
    request comes back with.  [bindGlobalListeners] registers the
    handlers that [dispatch] below calls. *)
Definition init (net : FetchResult) (p : Page) : Page :=
  let p := showLoadingState p in
  let (p, loaded) := loadFaqData net p in
  match loaded with
  | inr sections => hydrate sections p
  | inl error => handleDataLoadError error (showErrorState error p)
  end.

(** *** Keyboard navigation *)

(** [dom.sidebar?.querySelector(`[data-question-id="..."]`)] finds a link. *)
Definition side_links (d : option SidebarDom) : list string :=
  match d with
  | Some (SidebarContent secs) => flat_map ss_links secs
  | _ => []
  end.

Definition navigateToQuestion (targetIndex : Z) (questionIds : list string)
    (isMobile : bool) (p : Page) : Page :=
  if Nat.eqb (List.length questionIds) 0 then p
  else
    let len := Z.of_nat (List.length questionIds) in
    let wrappedIndex :=
      if (targetIndex >=? len)%Z then 0%Z
      else if (targetIndex <? 0)%Z then (len - 1)%Z
      else targetIndex in
    let targetId := at_index questionIds wrappedIndex in
    let p := applyActiveQuestion targetId true isMobile p in
    if isMobile then
      let shouldScroll := negb (reduced_motion (window p)) in
      syncMobileAccordion targetId shouldScroll true p
    else
      match targetId with
      | Some i =>
          if existsb (String.eqb i) (side_links (sidebar (dom p)))
          then log (FocusSidebarButton i) p else p
      | None => p
      end.

(** Where a key was pressed. *)
Inductive KeyTarget :=
| OnInput
| OnTextarea
| OnSideLink (id : string)
| OnAccordionButton (id : string)
| Elsewhere.

Record KeyEvent := {
  key : string;
  target : KeyTarget;
  ctrlKey : bool;
  metaKey : bool }.

Inductive Outcome :=
| Completed (p : Page)
| Threw (e : JsError) (p : Page).

Definition page_of (o : Outcome) : Page :=
  match o with Completed p => p | Threw _ p => p end.

Definition is_navigation_key (k : string) : bool :=
  existsb (String.eqb k) ["ArrowDown"; "ArrowUp"; "ArrowLeft"; "ArrowRight"; "Home"; "End"].

(** [handleKeyboardNavigation].  The handler reads an identifier
    [questionIndex]; [questionIndex] is what that identifier is bound to
    where the handler runs, [None] when nothing declares it (evaluating
    it is then a [ReferenceError]). *)
Definition handleKeyboardNavigation (questionIndex : option Index)
    (event : KeyEvent) (p : Page) : Outcome :=
  let p := if is_navigation_key (key event) && negb (keyboard_navigation (dom p))
           then on_dom (set_keyboard_navigation true) p else p in
  match target event with
  | OnInput | OnTextarea => Completed p
  | _ =>
      if ctrlKey event || metaKey event then Completed p
      else
        let isMobile := layout_mobile (window p) in
        match questionIndex with
        | None => Threw (ReferenceError "questionIndex") p
        | Some index =>
            let questionIds := JsMap.keys index in
            let currentIndex :=
              match activeId (state p) with
              | Some i => indexOf i questionIds
              | None => (-1)%Z
              end in
            let k := key event in
            if String.eqb k "ArrowDown" || String.eqb k "ArrowRight" then
              Completed (navigateToQuestion (currentIndex + 1) questionIds isMobile p)
            else if String.eqb k "ArrowUp" || String.eqb k "ArrowLeft" then
              Completed (navigateToQuestion (currentIndex - 1) questionIds isMobile p)
            else if String.eqb k "Home" then
              Completed (navigateToQuestion 0 questionIds isMobile p)
            else if String.eqb k "End" then
              Completed (navigateToQuestion
                           (Z.of_nat (List.length questionIds) - 1) questionIds isMobile p)
            else if String.eqb k "Enter" || String.eqb k " " then
              match target event with
              | OnSideLink id => Completed (handleSidebarClick (Some id) p)
              | OnAccordionButton id => Completed (handleAccordionClick (Some id) p)
              | _ => Completed p
              end
            else Completed p
        end
  end.

(** The bindings of the script's scope: [CONFIG], [layoutQuery],
    [reduceMotionQuery], [dom], [state] and the functions.  None is
    called [questionIndex]. *)
Definition declared_names : list string :=
  ["CONFIG"; "layoutQuery"; "reduceMotionQuery"; "dom"; "state"; "init";
   "initDomCache"; "loadFaqData"; "formatBulletPoints"; "hydrate";
   "buildQuestionIndex"; "renderDesktop"; "ensureSidebarContent"; "renderMobile";
   "createAccordionItem"; "createStaticAccordionBlock"; "getValidItems";
   "renderDesktopQuestion"; "updateDesktopQuestionContent"; "updateSidebarActive";
   "applyActiveQuestion"; "syncMobileAccordion"; "expandPanel"; "collapsePanel";
   "adjustPanelHeight"; "setPanelAccessibilityState"; "getMobileScrollOffset";
   "scrollAccordionTriggerIntoView"; "triggerSocialGlow"; "handleAccordionClick";
   "handleSidebarClick"; "refreshOpenPanels"; "scrollTo"; "scrollQuestionToTop";
   "setHashQuestionId"; "extractHashId"; "resolveQuestionId"; "handleHashChange";
   "handleKeyboardNavigation"; "showLoadingState"; "showErrorState";
   "navigateToQuestion"; "bindGlobalListeners"; "handleLayoutChange";
   "handleMotionPreferenceChange"; "observeMedia"; "isMobileLayout";
   "prefersReducedMotion"; "handleDataLoadError"].

Definition declares (name : string) : bool :=
  existsb (String.eqb name) declared_names.

(** The [keydown] listener as the script registers it. *)
Definition on_keydown (event : KeyEvent) (p : Page) : Outcome :=
  handleKeyboardNavigation None event p.

(** *** Events *)

(** What can happen to the page once the script has loaded. *)
Inductive Event :=
| Init (net : FetchResult)
| Hydrate (sections : Document)
| Activate (id : option string) (syncHash scrollMobile : bool)
| SidebarClick (target : option string)
| AccordionClick (target : option string)
| HashChange (hash : string)
| LayoutChange (mobile : bool)
| MotionChange (reduce : bool)
| Resize
| TimerFires
| Keydown (event : KeyEvent).

(** A [hashchange] arrives after the browser has changed
    [location.hash]; a media query change after [matches] has changed.
    An exception thrown by a listener ends that listener only. *)
Definition dispatch (p : Page) (ev : Event) : Page :=
  match ev with
  | Init net => init net p
  | Hydrate sections => hydrate sections p
  | Activate id syncHash scrollMobile => applyActiveQuestion id syncHash scrollMobile p
  | SidebarClick target => handleSidebarClick target p
  | AccordionClick target => handleAccordionClick target p
  | HashChange hash => handleHashChange (on_window (set_location_hash hash) p)
  | LayoutChange mobile => handleLayoutChange (on_window (set_layout_mobile mobile) p)
  | MotionChange reduce =>
      handleMotionPreferenceChange (on_window (set_reduced_motion reduce) p)
  | Resize => refreshOpenPanels p
  | TimerFires => timer_fires p
  | Keydown event => page_of (on_keydown event p)
  end.

Definition run (p : Page) (evs : list Event) : Page := fold_left dispatch evs p.

(** The page before the script runs: [d] says which host elements the
    document has, [hash] is [location.hash]. *)
Definition fresh (d : Dom) (w : Window) : Page :=
  {| state := {| questions := JsMap.empty; sections := []; activeId := None;
                 elements_sidebar := JsMap.empty; elements_accordion := JsMap.empty;
                 bound_sidebar := false; bound_accordion := false |};
     dom := d; window := w; timers := []; effects := [] |}.

(** A document with the three hosts of the DOM contract. *)
Definition full_dom : Dom :=
  {| viewer := Some (ViewerMarkup false); sidebar := Some SidebarMarkup;
     accordion := Some AccordionMarkup; keyboard_navigation := false |}.

Definition desktop (hash : string) : Window :=
  {| location_hash := hash; history_replaceState := true; history_length := 1;
     layout_mobile := false; reduced_motion := false |}.

(** *** What the page shows *)

Definition sidebar_link_count (p : Page) : nat :=
  List.length (side_links (sidebar (dom p))).

Definition accordion_nodes (p : Page) : list AccordionNode :=
  match accordion (dom p) with
  | Some (AccordionContent nodes) => nodes
  | _ => []
  end.

Definition is_item (n : AccordionNode) : bool :=
  match n with AccItem _ => true | _ => false end.

Definition is_static_block (n : AccordionNode) : bool :=
  match n with AccStatic _ _ => true | _ => false end.

(** Number of [.acc-item] elements. *)
Definition accordion_item_count (p : Page) : nat :=
  List.length (filter is_item (accordion_nodes p)).

(** Number of [.acc-static] blocks. *)
Definition static_block_count (p : Page) : nat :=
  List.length (filter is_static_block (accordion_nodes p)).

(** A sidebar control carries the active indicator: class [active],
    class [is-active] or [aria-current="true"]. *)
Definition marked (b : SidebarButton) : bool :=
  sb_active b || sb_is_active b
  || match sb_aria_current b with Some true => true | _ => false end.

Definition marked_count (p : Page) : nat :=
  List.length (filter marked (JsMap.values (elements_sidebar (state p)))).

Definition open_count (p : Page) : nat :=
  List.length (filter ai_open (JsMap.values (elements_accordion (state p)))).

End Faq.

(* ===================================================================== *)
(** ** The intermediate iteration ([questionMap] and [flatList]) *)
(* ===================================================================== *)

Module Intermediate.

(** An entry has no [order]; [flatList] keeps the order. *)
Record Entry := {
  e_id : string;
  e_section : string;
  e_question : string;
  e_answer : string }.

(** Body of [items.forEach] in [buildQuestionIndex]. *)
Definition index_item (section : option RawSection)
    (acc : list Entry * JsMap.t Entry) (item : option RawItem) : list Entry * JsMap.t Entry :=
  let (flatList, map) := acc in
  match item with
  | None => acc
  | Some it =>
      if negb (Js.truthy (item_id it)) then acc
      else
        let id := Js.or_empty (item_id it) in
        if JsMap.has id map then acc
        else
          let entry := {| e_id := id;
                          e_section := Js.or_empty (name_of section);
                          e_question := Js.or_empty (item_q it);
                          e_answer := Js.or_empty (item_a it) |} in
          (flatList ++ [entry], JsMap.set id entry map)
  end.

Definition buildQuestionIndex (sections : Document) : list Entry * JsMap.t Entry :=
  fold_left (fun acc section => fold_left (index_item section) (items_of section) acc)
    sections ([], JsMap.empty).

(** [extractHashId()]; [location_hash] is [window.location.hash].  A hash
    that does not decode is used as it stands. *)
Definition extractHashId (location_hash : string) : option string :=
  let h := location_hash in
  if Js.is_empty h then None
  else
    let hash := Js.drop 1 h in
    if Js.is_empty hash then None
    else
      let hash := match Js.decodeURIComponent hash with
                  | Some decoded => decoded
                  | None => hash
                  end in
      let trimmed := Js.trim hash in
      if Js.is_empty trimmed then None else Some trimmed.

Definition resolveQuestionId (questionMap : JsMap.t Entry) (candidate : option string)
  : option string :=
  match candidate with
  | None => None
  | Some c =>
      if Js.is_empty c || Nat.eqb (JsMap.size questionMap) 0 then None
      else if JsMap.has c questionMap then Some c
      else if Js.startsWith "q-" c then
        let trimmed := Js.drop 2 c in
        if JsMap.has trimmed questionMap then Some trimmed else None
      else
        let prefixed := ("q-" ++ c)%string in
        if JsMap.has prefixed questionMap then Some prefixed else None
  end.

End Intermediate.

(* ===================================================================== *)
(** ** The first iteration ([assets/js/main.js]) *)
(* ===================================================================== *)

Module Legacy.

Definition AUTO_SCROLL : bool := true.

(** An element of [flatQuestions]: the fields of the item as they are. *)
Record Question := {
  q_id : string;
  q_question : option string;
  q_answer : option string;
  q_section : option string }.

(** A [button.side-link] of [#sidebar]. *)
Record SidebarButton := {
  sb_id : string;
  sb_label : option string;
  sb_active : bool;
  sb_is_active : bool;
  sb_aria_current : option bool }.

Record SideSection := {
  ss_title : option string;
  ss_links : list SidebarButton }.

(** An [.acc-item] of [#mobileAccordion]. *)
Record AccordionItem := {
  ai_id : string;
  ai_label : option string;
  ai_body : option string;
  ai_open : bool;
  ai_button_active : bool;
  ai_aria_expanded : bool }.

Inductive AccordionNode :=
| AccHeading (title : option string)
| AccItem (item : AccordionItem).

Inductive Viewer :=
| ViewerMarkup
| ViewerQuestion (item : Question)
| ViewerEmptyMessage
| ViewerNoDataMessage.

(** The script's variables, the three host elements ([None] when
    missing, the sidebar and the accordion [Some None] before they are
    rendered), the browser, the effect log. *)
Record Page := {
  FAQ : Document;
  flatQuestions : list Question;
  activeDesktopId : option string;
  sidebarBound : bool;
  accordionBound : bool;
  viewer : option Viewer;
  sidebar : option (option (list SideSection));
  accordion : option (option (list AccordionNode));
  location_hash : string;
  history_replaceState : bool;
  history_length : nat;
  effects : list Effect }.

Definition set_data (faq : Document) (flat : list Question) (p : Page) : Page :=
  {| FAQ := faq; flatQuestions := flat; activeDesktopId := activeDesktopId p;
     sidebarBound := sidebarBound p; accordionBound := accordionBound p;
     viewer := viewer p; sidebar := sidebar p; accordion := accordion p;
     location_hash := location_hash p; history_replaceState := history_replaceState p;
     history_length := history_length p; effects := effects p |}.

Definition set_activeDesktopId (v : option string) (p : Page) : Page :=
  {| FAQ := FAQ p; flatQuestions := flatQuestions p; activeDesktopId := v;
     sidebarBound := sidebarBound p; accordionBound := accordionBound p;
     viewer := viewer p; sidebar := sidebar p; accordion := accordion p;
     location_hash := location_hash p; history_replaceState := history_replaceState p;
     history_length := history_length p; effects := effects p |}.

Definition set_bound (s a : bool) (p : Page) : Page :=
  {| FAQ := FAQ p; flatQuestions := flatQuestions p; activeDesktopId := activeDesktopId p;
     sidebarBound := s; accordionBound := a;
     viewer := viewer p; sidebar := sidebar p; accordion := accordion p;
     location_hash := location_hash p; history_replaceState := history_replaceState p;
     history_length := history_length p; effects := effects p |}.

Definition set_viewer (v : option Viewer) (p : Page) : Page :=
  {| FAQ := FAQ p; flatQuestions := flatQuestions p; activeDesktopId := activeDesktopId p;
     sidebarBound := sidebarBound p; accordionBound := accordionBound p;
     viewer := v; sidebar := sidebar p; accordion := accordion p;
     location_hash := location_hash p; history_replaceState := history_replaceState p;
     history_length := history_length p; effects := effects p |}.

Definition set_sidebar (v : option (option (list SideSection))) (p : Page) : Page :=
  {| FAQ := FAQ p; flatQuestions := flatQuestions p; activeDesktopId := activeDesktopId p;
     sidebarBound := sidebarBound p; accordionBound := accordionBound p;
     viewer := viewer p; sidebar := v; accordion := accordion p;
     location_hash := location_hash p; history_replaceState := history_replaceState p;
     history_length := history_length p; effects := effects p |}.

Definition set_accordion (v : option (option (list AccordionNode))) (p : Page) : Page :=
  {| FAQ := FAQ p; flatQuestions := flatQuestions p; activeDesktopId := activeDesktopId p;
     sidebarBound := sidebarBound p; accordionBound := accordionBound p;
     viewer := viewer p; sidebar := sidebar p; accordion := v;
     location_hash := location_hash p; history_replaceState := history_replaceState p;
     history_length := history_length p; effects := effects p |}.

Definition set_location (hash : string) (len : nat) (p : Page) : Page :=
  {| FAQ := FAQ p; flatQuestions := flatQuestions p; activeDesktopId := activeDesktopId p;
     sidebarBound := sidebarBound p; accordionBound := accordionBound p;
     viewer := viewer p; sidebar := sidebar p; accordion := accordion p;
     location_hash := hash; history_replaceState := history_replaceState p;
     history_length := len; effects := effects p |}.

Definition log (e : Effect) (p : Page) : Page :=
  {| FAQ := FAQ p; flatQuestions := flatQuestions p; activeDesktopId := activeDesktopId p;
     sidebarBound := sidebarBound p; accordionBound := accordionBound p;
     viewer := viewer p; sidebar := sidebar p; accordion := accordion p;
     location_hash := location_hash p; history_replaceState := history_replaceState p;
     history_length := history_length p; effects := e :: effects p |}.

Definition loadFAQ (net : FetchResult) (p : Page) : Page * (JsError + Document) :=
  let p := log (Fetch "assets/faq-data.json" "no-store") p in
  match net with
  | NetworkFailure => (p, inl FetchFailed)
  | Response ok status body =>
      if negb ok then (p, inl (HttpError status))
      else match body with
           | None => (p, inl JsonSyntaxError)
           | Some (JsonArray data) => (p, inr data)
           | Some _ => (p, inl NotAnArray)
           end
  end.

Definition extractHashId (p : Page) : option string :=
  let h := location_hash p in
  if Js.is_empty h then None
  else
    let hash := Js.drop 1 h in
    if Js.is_empty hash then None
    else
      let hash := match Js.decodeURIComponent hash with
                  | Some decoded => decoded
                  | None => hash
                  end in
      let trimmed := Js.trim hash in
      if Js.is_empty trimmed then None else Some trimmed.

(** [flatQuestions.some((item) => item.id === c)] *)
Definition some_id (c : string) (flatQuestions : list Question) : bool :=
  existsb (fun item => String.eqb (q_id item) c) flatQuestions.

Definition resolveQuestionId (flatQuestions : list Question) (candidate : option string)
  : option string :=
  match candidate with
  | None => None
  | Some c =>
      if Js.is_empty c || Nat.eqb (List.length flatQuestions) 0 then None
      else if some_id c flatQuestions then Some c
      else if Js.startsWith "q-" c then
        let trimmed := Js.drop 2 c in
        if some_id trimmed flatQuestions then Some trimmed else None
      else
        let prefixed := ("q-" ++ c)%string in
        if some_id prefixed flatQuestions then Some prefixed else None
  end.

Definition without_hash_sign (h : string) : string :=
  if Js.startsWith "#" h then Js.drop 1 h else h.

Definition setHashQuestionId (id : option string) (p : Page) : Page :=
  match id with
  | None => p
  | Some i =>
      if Js.is_empty i then p
      else
        let encoded := Js.encodeURIComponent i in
        let current := without_hash_sign (location_hash p) in
        if String.eqb current encoded then p
        else if history_replaceState p
        then set_location ("#" ++ encoded)%string (history_length p) p
        else set_location ("#" ++ encoded)%string (S (history_length p)) p
  end.

Definition collapsePanel (item : AccordionItem) : AccordionItem :=
  {| ai_id := ai_id item; ai_label := ai_label item; ai_body := ai_body item;
     ai_open := false; ai_button_active := false; ai_aria_expanded := false |}.

Definition open_item (item : AccordionItem) : AccordionItem :=
  {| ai_id := ai_id item; ai_label := ai_label item; ai_body := ai_body item;
     ai_open := true; ai_button_active := true; ai_aria_expanded := true |}.

Definition collapse_if_open (n : AccordionNode) : AccordionNode :=
  match n with
  | AccItem item => AccItem (if ai_open item then collapsePanel item else item)
  | AccHeading _ => n
  end.

Definition item_has_id (id : string) (n : AccordionNode) : bool :=
  match n with
  | AccItem item => String.eqb (ai_id item) id
  | AccHeading _ => false
  end.

(** [accordion.querySelector('.acc-item[data-question-id="..."]')]: the
    first such item. *)
Definition query_item (id : string) (nodes : list AccordionNode) : option AccordionItem :=
  match find (item_has_id id) nodes with
  | Some (AccItem item) => Some item
  | _ => None
  end.

(** Every open panel that is not the target's is collapsed, then the
    target's, the first item with [id], is expanded unless open. *)
Fixpoint sync_nodes (id : string) (nodes : list AccordionNode) : list AccordionNode :=
  match nodes with
  | [] => []
  | AccItem item :: rest =>
      if String.eqb (ai_id item) id
      then AccItem (if ai_open item then item else open_item item)
             :: map collapse_if_open rest
      else collapse_if_open (AccItem item) :: sync_nodes id rest
  | AccHeading t :: rest => AccHeading t :: sync_nodes id rest
  end.

Definition rendered_nodes (p : Page) : list AccordionNode :=
  match accordion p with
  | Some (Some nodes) => nodes
  | _ => []
  end.

Definition syncMobileAccordion (id : option string) (scroll focus : bool) (p : Page) : Page :=
  match id with
  | None => p
  | Some i =>
      if Js.is_empty i then p
      else
        match accordion p with
        | None => p
        | Some _ =>
            match query_item i (rendered_nodes p) with
            | None => p
            | Some targetItem =>
                let p := set_accordion (Some (Some (sync_nodes i (rendered_nodes p)))) p in
                let p :=
                  if negb (ai_open targetItem)
                  then (if scroll then log (ScrollAccordion i) p else p)
                  else if scroll then log (ScrollAccordion i) p
                  else p in
                if focus then log (FocusAccordionButton i) p else p
            end
        end
  end.

Definition renderDesktopQuestion (id : option string) (p : Page) : Page :=
  match viewer p with
  | None => p
  | Some _ =>
      match id with
      | None => p
      | Some i =>
          match find (fun entry => String.eqb (q_id entry) i) (flatQuestions p) with
          | None => p
          | Some item => log ScrollViewerTop (set_viewer (Some (ViewerQuestion item)) p)
          end
      end
  end.

Definition same_id (questionId : string) (id : option string) : bool :=
  match id with Some i => String.eqb questionId i | None => false end.

Definition mark (id : option string) (button : SidebarButton) : SidebarButton :=
  let isActive := same_id (sb_id button) id in
  {| sb_id := sb_id button; sb_label := sb_label button; sb_active := isActive;
     sb_is_active := isActive; sb_aria_current := Some isActive |}.

(** [document.querySelectorAll('#sidebar .side-link').forEach(...)] *)
Definition updateSidebarActive (id : option string) (p : Page) : Page :=
  match sidebar p with
  | Some (Some secs) =>
      set_sidebar
        (Some (Some (map (fun s => {| ss_title := ss_title s;
                                      ss_links := map (mark id) (ss_links s) |}) secs))) p
  | _ => p
  end.

Definition applyActiveQuestion (id : option string) (syncHash scrollMobile : bool)
    (p : Page) : Page :=
  match id with
  | None => p
  | Some i =>
      if Js.is_empty i then p
      else
        let p := set_activeDesktopId (Some i) p in
        let p := renderDesktopQuestion (Some i) p in
        let p := updateSidebarActive (Some i) p in
        let p := if syncHash then setHashQuestionId (Some i) p else p in
        syncMobileAccordion (Some i) scrollMobile false p
  end.

Definition scrollQuestionToTop (p : Page) : Page :=
  match viewer p with
  | None => p
  | Some _ => log ScrollViewerTop p
  end.

Definition handleSidebarClick (target : option string) (p : Page) : Page :=
  match target with
  | None => p
  | Some id =>
      if Js.is_empty id then p
      else if same_id id (activeDesktopId p) then scrollQuestionToTop p
      else applyActiveQuestion (Some id) true false p
  end.

(** [mobile] is [isMobileLayout()]. *)
Definition handleHashChange (mobile : bool) (p : Page) : Page :=
  match resolveQuestionId (flatQuestions p) (extractHashId p) with
  | None => p
  | Some candidate =>
      if Js.is_empty candidate || negb (some_id candidate (flatQuestions p)) then p
      else if same_id candidate (activeDesktopId p)
      then syncMobileAccordion (Some candidate) mobile false p
      else
        let p := set_activeDesktopId (Some candidate) p in
        let p := renderDesktopQuestion (Some candidate) p in
        let p := updateSidebarActive (Some candidate) p in
        syncMobileAccordion (Some candidate) mobile false p
  end.

(** Body of [section.items.forEach] in [renderDesktop]: one more element
    of [flatQuestions], one more link. *)
Definition render_link (section : RawSection)
    (acc : list Question * list SidebarButton) (item : option RawItem)
  : list Question * list SidebarButton :=
  match item with
  | None => acc
  | Some it =>
      match item_id it with
      | None => acc
      | Some id =>
          if Js.is_empty id then acc
          else
            (fst acc ++ [{| q_id := id; q_question := item_q it; q_answer := item_a it;
                            q_section := raw_section section |}],
             snd acc ++ [{| sb_id := id; sb_label := item_q it; sb_active := false;
                            sb_is_active := false; sb_aria_current := None |}])
      end
  end.

(** The guard [!section || !Array.isArray(section.items) ||
    !section.items.length]. *)
Definition renderable (section : option RawSection) : option (RawSection * list (option RawItem)) :=
  match section with
  | Some s =>
      match raw_items s with
      | Some (item :: items) => Some (s, item :: items)
      | _ => None
      end
  | None => None
  end.

(** Body of [FAQ.forEach] in [renderDesktop]. *)
Definition render_side_section (acc : list Question * list SideSection)
    (section : option RawSection) : list Question * list SideSection :=
  match renderable section with
  | None => acc
  | Some (s, items) =>
      let (flat, links) := fold_left (render_link s) items (fst acc, []) in
      (flat, snd acc ++ [{| ss_title := raw_section s; ss_links := links |}])
  end.

Definition renderDesktop (p : Page) : Page :=
  match viewer p, sidebar p with
  | Some _, Some _ =>
      let (flat, fragment) := fold_left render_side_section (FAQ p) ([], []) in
      let p := set_data (FAQ p) flat p in
      let p := set_sidebar (Some (Some fragment)) p in
      match flatQuestions p with
      | [] => set_viewer (Some ViewerEmptyMessage) p
      | first :: _ =>
          let hashCandidate := resolveQuestionId (flatQuestions p) (extractHashId p) in
          let p := if Js.truthy hashCandidate
                   then set_activeDesktopId hashCandidate p else p in
          let known := match activeDesktopId p with
                       | Some a => some_id a (flatQuestions p)
                       | None => false
                       end in
          let p := if negb (Js.truthy (activeDesktopId p)) || negb known
                   then set_activeDesktopId (Some (q_id first)) p else p in
          let p := renderDesktopQuestion (activeDesktopId p) p in
          let p := updateSidebarActive (activeDesktopId p) p in
          let p := setHashQuestionId (activeDesktopId p) p in
          set_bound true (accordionBound p) p
      end
  | _, _ => p
  end.

(** Body of [section.items.forEach] in [renderMobile]. *)
Definition render_item (nodes : list AccordionNode) (item : option RawItem)
  : list AccordionNode :=
  match item with
  | None => nodes
  | Some it =>
      match item_id it with
      | None => nodes
      | Some id =>
          if Js.is_empty id then nodes
          else nodes ++ [AccItem {| ai_id := id; ai_label := item_q it; ai_body := item_a it;
                                    ai_open := false; ai_button_active := false;
                                    ai_aria_expanded := false |}]
      end
  end.

(** Body of [FAQ.forEach] in [renderMobile]. *)
Definition render_accordion_section (nodes : list AccordionNode)
    (section : option RawSection) : list AccordionNode :=
  match renderable section with
  | None => nodes
  | Some (s, items) => fold_left render_item items (nodes ++ [AccHeading (raw_section s)])
  end.

Definition renderMobile (p : Page) : Page :=
  match accordion p with
  | None => p
  | Some _ =>
      let nodes := fold_left render_accordion_section (FAQ p) [] in
      let p := set_accordion (Some (Some nodes)) p in
      let p := set_bound (sidebarBound p) true p in
      if Js.truthy (activeDesktopId p)
      then syncMobileAccordion (activeDesktopId p) false false p
      else p
  end.

(** [init]: [net] is what the one request comes back with. *)
Definition init (net : FetchResult) (p : Page) : Page :=
  let (p, loaded) := loadFAQ net p in
  match loaded with
  | inr data => renderMobile (renderDesktop (set_data data (flatQuestions p) p))
  | inl error =>
      let p := log (ConsoleError error) p in
      match viewer p with
      | Some _ => set_viewer (Some ViewerNoDataMessage) p
      | None => p
      end
  end.

(** The page before the script runs, with its three hosts. *)
Definition fresh (hash : string) : Page :=
  {| FAQ := []; flatQuestions := []; activeDesktopId := None;
     sidebarBound := false; accordionBound := false;
     viewer := Some ViewerMarkup; sidebar := Some None; accordion := Some None;
     location_hash := hash; history_replaceState := true; history_length := 1;
     effects := [] |}.

Definition sidebar_links (p : Page) : list SidebarButton :=
  match sidebar p with
  | Some (Some secs) => flat_map ss_links secs
  | _ => []
  end.

Definition accordion_items (p : Page) : list AccordionNode :=
  filter (fun n => match n with AccItem _ => true | _ => false end) (rendered_nodes p).

Definition marked (b : SidebarButton) : bool :=
  sb_active b || sb_is_active b
  || match sb_aria_current b with Some true => true | _ => false end.

End Legacy.

(* ===================================================================== *)
(** ** Vocabulary of the specification *)
(* ===================================================================== *)

(** An item counts when it is not [null] and its id is truthy. *)
Definition valid_item (item : option RawItem) : list RawItem :=
  match item with
  | Some it => if Js.truthy (item_id it) then [it] else []
  | None => []
  end.

(** The items that count, in document order, each with its section. *)
Definition valid_items (doc : Document) : list (option RawSection * RawItem) :=
  flat_map (fun section =>
              map (fun it => (section, it)) (flat_map valid_item (items_of section))) doc.

Definition id_of (x : option RawSection * RawItem) : string :=
  Js.or_empty (item_id (snd x)).

(** The ids of the document, in document order, repeats included. *)
Definition doc_ids (doc : Document) : list string := map id_of (valid_items doc).

(** The first item of the document that carries [id]. *)
Definition first_occurrence (doc : Document) (id : string)
  : option (option RawSection * RawItem) :=
  find (fun x => String.eqb (id_of x) id) (valid_items doc).

Definition mem (x : string) (l : list string) : bool := existsb (String.eqb x) l.

(** [l] without the repeats, in order of first occurrence. *)
Definition first_seen (l : list string) : list string :=
  fold_left (fun seen x => if mem x seen then seen else seen ++ [x]) l [].

Definition unique_ids (doc : Document) : list string := first_seen (doc_ids doc).

(** The number of unique ids of a document. *)
Definition unique_id_count (doc : Document) : nat := List.length (unique_ids doc).

(** The record the specification derives from an item. *)
Definition record_of (order : nat) (x : option RawSection * RawItem) : Faq.Entry :=
  {| Faq.e_id := id_of x;
     Faq.e_section := Js.or_empty (name_of (fst x));
     Faq.e_question := Js.or_empty (item_q (snd x));
     Faq.e_answer := Js.or_empty (item_a (snd x));
     Faq.e_order := order |}.

(** The scenario document of the specification:
    [[{section:"A", items:[{id:"x1",q:"Q1",a:"A1"},{id:"x1",q:"Q1b",a:"A1b"}]}]]. *)
Definition scenario_doc : Document :=
  [Some {| raw_section := Some "A"; raw_hideHeading := false;
           raw_items := Some [Some {| item_id := Some "x1"; item_q := Some "Q1";
                                      item_a := Some "A1" |};
                              Some {| item_id := Some "x1"; item_q := Some "Q1b";
                                      item_a := Some "A1b" |}] |}].

(** The page of the first iteration after the scenario document has
    loaded. *)
Definition legacy_scenario : Legacy.Page :=
  Legacy.init (Response true 200 (Some (JsonArray scenario_doc))) (Legacy.fresh "").

(** A document with the two questions [a] and [b]. *)
Definition two_questions : Document :=
  [Some {| raw_section := Some "A"; raw_hideHeading := false;
           raw_items := Some [Some {| item_id := Some "a"; item_q := Some "Qa";
                                      item_a := Some "Aa" |};
                              Some {| item_id := Some "b"; item_q := Some "Qb";
                                      item_a := Some "Ab" |}] |}].

(** A document whose only question is the static block of the
    accordion. *)
Definition static_only : Document :=
  [Some {| raw_section := Some "A"; raw_hideHeading := false;
           raw_items := Some [Some {| item_id := Some "kim-jestesmy";
                                      item_q := Some "Kim jestesmy?";
                                      item_a := Some "Kolo naukowe." |}] |}].

(** A document with a plain question and the static block. *)
Definition plain_and_static : Document :=
  [Some {| raw_section := Some "A"; raw_hideHeading := false;
           raw_items := Some [Some {| item_id := Some "a"; item_q := Some "Qa";
                                      item_a := Some "Aa" |};
                              Some {| item_id := Some "kim-jestesmy";
                                      item_q := Some "Kim jestesmy?";
                                      item_a := Some "Kolo naukowe." |}] |}].

(** A string without an optional [q-] prefix. *)
Definition without_q_prefix (s : string) : string :=
  if Js.startsWith "q-" s then Js.drop 2 s else s.

(** The hash as the specification reads it back: stripped of an optional
    [q-] prefix and percent-decoded. *)
Definition hash_as_claimed (hash : string) : option string :=
  Js.decodeURIComponent (without_q_prefix (Faq.without_hash_sign hash)).

(** A document with the ids [a] and [q-a]. *)
Definition prefixed_id_doc : Document :=
  [Some {| raw_section := Some "A"; raw_hideHeading := false;
           raw_items := Some [Some {| item_id := Some "a"; item_q := Some "Qa";
                                      item_a := Some "Aa" |};
                              Some {| item_id := Some "q-a"; item_q := Some "Qb";
                                      item_a := Some "Ab" |}] |}].

(** A document whose only id is [q-x]. *)
Definition prefixed_only_doc : Document :=
  [Some {| raw_section := Some "A"; raw_hideHeading := false;
           raw_items := Some [Some {| item_id := Some "q-x"; item_q := Some "Q";
                                      item_a := Some "A" |}] |}].

(** A network request. *)
Definition is_fetch (e : Effect) : bool :=
  match e with Fetch _ _ => true | _ => false end.

(** The network requests among the effects. *)
Definition requests (effects : list Effect) : list Effect := filter is_fetch effects.

(** The legacy page once [two_questions] has been loaded, with an empty
    hash: question [a] is the active one. *)
Definition legacy_loaded : Legacy.Page :=
  Legacy.init (Response true 200 (Some (JsonArray two_questions))) (Legacy.fresh "").

(** The key [k] pressed outside any control, no modifier held. *)
Definition press (k : string) : Faq.KeyEvent :=
  {| Faq.key := k; Faq.target := Faq.Elsewhere; Faq.ctrlKey := false; Faq.metaKey := false |}.

(** The page hydrated from [two_questions] with [hash] in the address. *)
Definition hydrated (hash : string) : Faq.Page :=
  Faq.hydrate two_questions (Faq.fresh Faq.full_dom (Faq.desktop hash)).

(* ===================================================================== *)
(** ** Facts about strings and maps *)
(* ===================================================================== *)

Lemma is_empty_true (s : string) : Js.is_empty s = true <-> s = "".
Proof. destruct s; simpl; split; congruence. Qed.

Lemma is_empty_false (s : string) : Js.is_empty s = false <-> s <> "".
Proof. destruct s; simpl; split; congruence. Qed.

Lemma mem_In (x : string) (l : list string) : mem x l = true <-> In x l.
Proof.
  unfold mem. rewrite existsb_exists. split.
  - intros [y [Hy E]]. apply String.eqb_eq in E. now subst.
  - intros H. exists x. split; [assumption | apply String.eqb_refl].
Qed.

Lemma mem_false (x : string) (l : list string) : mem x l = false <-> ~ In x l.
Proof.
  rewrite <- mem_In. destruct (mem x l); split; congruence.
Qed.

Section JsMapFacts.

Variable V : Type.
Implicit Types (m : JsMap.t V) (k : string).

Lemma has_keys k m : JsMap.has k m = mem k (JsMap.keys m).
Proof.
  unfold JsMap.has, mem, JsMap.keys, JsMap.key_is.
  induction m as [|[k' v] m IH]; simpl; [reflexivity|].
  rewrite IH, (String.eqb_sym k' k). reflexivity.
Qed.

Lemma has_In k m : JsMap.has k m = true <-> In k (JsMap.keys m).
Proof. rewrite has_keys. apply mem_In. Qed.

Lemma has_app k m m' : JsMap.has k (m ++ m') = JsMap.has k m || JsMap.has k m'.
Proof. unfold JsMap.has. apply existsb_app. Qed.

Lemma get_None k m : JsMap.get k m = None <-> JsMap.has k m = false.
Proof.
  unfold JsMap.get, JsMap.has.
  induction m as [|p m IH]; simpl; [tauto|].
  destruct (JsMap.key_is k p); simpl; [split; discriminate | exact IH].
Qed.

Lemma get_Some_has k m v : JsMap.get k m = Some v -> JsMap.has k m = true.
Proof.
  intros H. destruct (JsMap.has k m) eqn:E; [reflexivity|].
  apply get_None in E. congruence.
Qed.

Lemma get_app k m m' :
  JsMap.get k (m ++ m') =
  match JsMap.get k m with Some v => Some v | None => JsMap.get k m' end.
Proof.
  unfold JsMap.get.
  induction m as [|p m IH]; simpl; [reflexivity|].
  destruct (JsMap.key_is k p); simpl; [reflexivity | exact IH].
Qed.

Lemma set_new k v m : JsMap.has k m = false -> JsMap.set k v m = m ++ [(k, v)].
Proof.
  unfold JsMap.has, JsMap.key_is.
  induction m as [|[k' v'] m IH]; simpl; intros H; [reflexivity|].
  apply orb_false_iff in H. destruct H as [H1 H2].
  rewrite H1. f_equal. apply IH, H2.
Qed.

Lemma keys_app m m' : JsMap.keys (m ++ m') = JsMap.keys m ++ JsMap.keys m'.
Proof. unfold JsMap.keys. apply map_app. Qed.

Lemma keys_forEach (f : V -> string -> V) m : JsMap.keys (JsMap.forEach f m) = JsMap.keys m.
Proof.
  unfold JsMap.keys, JsMap.forEach. rewrite map_map. reflexivity.
Qed.

Lemma has_forEach (f : V -> string -> V) k m :
  JsMap.has k (JsMap.forEach f m) = JsMap.has k m.
Proof. rewrite !has_keys, keys_forEach. reflexivity. Qed.

Lemma size_forEach (f : V -> string -> V) m :
  JsMap.size (JsMap.forEach f m) = JsMap.size m.
Proof. unfold JsMap.size, JsMap.forEach. apply length_map. Qed.

Lemma get_forEach (f : V -> string -> V) k m :
  JsMap.get k (JsMap.forEach f m) = option_map (fun v => f v k) (JsMap.get k m).
Proof.
  unfold JsMap.get, JsMap.forEach, JsMap.key_is.
  induction m as [|[k' v] m IH]; simpl; [reflexivity|].
  destruct (String.eqb k' k) eqn:E; simpl; [|exact IH].
  apply String.eqb_eq in E. subst. reflexivity.
Qed.

Lemma keys_set k v m :
  JsMap.keys (JsMap.set k v m) =
  if JsMap.has k m then JsMap.keys m else JsMap.keys m ++ [k].
Proof.
  unfold JsMap.has, JsMap.key_is, JsMap.keys.
  induction m as [|[k' v'] m IH]; simpl; [reflexivity|].
  destruct (String.eqb k' k) eqn:E; simpl; [reflexivity|].
  rewrite IH. destruct (existsb _ m); reflexivity.
Qed.

Lemma NoDup_keys_set k v m : NoDup (JsMap.keys m) -> NoDup (JsMap.keys (JsMap.set k v m)).
Proof.
  intros H. rewrite keys_set. destruct (JsMap.has k m) eqn:E; [assumption|].
  apply NoDup_app; [assumption | repeat constructor; simpl; tauto |].
  intros x Hx [<-|[]]. apply has_In in Hx. congruence.
Qed.

End JsMapFacts.

(* ===================================================================== *)
(** ** The question index *)
(* ===================================================================== *)

(** What one more item that counts does to an index. *)
Definition add_valid (index : Faq.Index) (x : option RawSection * RawItem) : Faq.Index :=
  if JsMap.has (id_of x) index then index
  else index ++ [(id_of x, record_of (JsMap.size index) x)].

Definition flat_index (xs : list (option RawSection * RawItem)) : Faq.Index :=
  fold_left add_valid xs [].

Lemma index_items_spec (section : option RawSection) (items : list (option RawItem)) :
  forall (q : Faq.Index) (v : list Faq.Entry),
  exists new,
    fold_left (Faq.index_item section) items (q, v) = (q ++ new, v ++ map snd new)
    /\ q ++ new
       = fold_left add_valid (map (fun it => (section, it)) (flat_map valid_item items)) q.
Proof.
  induction items as [|item items IH]; intros q v.
  - exists []. simpl. rewrite !app_nil_r. split; reflexivity.
  - simpl. destruct item as [it|]; simpl; [|apply IH].
    destruct (Js.truthy (item_id it)) eqn:T; simpl; [|apply IH].
    unfold add_valid at 2. unfold id_of at 1. simpl.
    destruct (JsMap.has (Js.or_empty (item_id it)) q) eqn:H; [apply IH|].
    rewrite set_new by exact H.
    destruct (IH (q ++ [(Js.or_empty (item_id it),
                         record_of (JsMap.size q) (section, it))])
                 (v ++ [record_of (JsMap.size q) (section, it)])) as [new [E1 E2]].
    exists ((Js.or_empty (item_id it), record_of (JsMap.size q) (section, it)) :: new).
    split.
    + unfold record_of, id_of in E1. simpl in E1. unfold Faq.Index in *.
      rewrite E1. simpl. rewrite <- !app_assoc. reflexivity.
    + change (id_of (section, it)) with (Js.or_empty (item_id it)).
      rewrite <- E2, <- app_assoc. reflexivity.
Qed.

Lemma valid_items_cons (section : option RawSection) (doc : Document) :
  valid_items (section :: doc)
  = map (fun it => (section, it)) (flat_map valid_item (items_of section)) ++ valid_items doc.
Proof. reflexivity. Qed.

Lemma index_sections_spec (doc : Document) :
  forall (q : Faq.Index) (processed : list Faq.FaqSection),
  exists new processed',
    fold_left Faq.index_section doc (q, processed) = (q ++ new, processed')
    /\ q ++ new = fold_left add_valid (valid_items doc) q
    /\ flat_map Faq.s_validItems processed'
       = flat_map Faq.s_validItems processed ++ map snd new.
Proof.
  induction doc as [|section doc IH]; intros q processed.
  - exists [], processed. simpl. rewrite !app_nil_r. repeat split.
  - simpl fold_left.
    destruct (index_items_spec section (items_of section) q []) as [new1 [E1 E2]].
    rewrite E1. simpl app.
    destruct (IH (q ++ new1)
                 (processed ++ [{| Faq.s_section := name_of section;
                                   Faq.s_hideHeading := hideHeading_of section;
                                   Faq.s_validItems := map snd new1 |}]))
      as [new2 [processed' [F1 [F2 F3]]]].
    exists (new1 ++ new2), processed'. rewrite app_assoc. split; [exact F1|]. split.
    + rewrite F2, fold_left_app, <- E2. reflexivity.
    + rewrite F3, flat_map_app. simpl. rewrite app_nil_r, map_app, app_assoc. reflexivity.
Qed.

Lemma buildQuestionIndex_flat (doc : Document) :
  fst (Faq.buildQuestionIndex doc) = flat_index (valid_items doc).
Proof.
  unfold Faq.buildQuestionIndex, flat_index.
  destruct (index_sections_spec doc [] []) as [new [pr [E1 [E2 _]]]].
  unfold Faq.Index, JsMap.t, JsMap.empty in *. rewrite E1. simpl. exact E2.
Qed.

Lemma buildQuestionIndex_validItems (doc : Document) :
  flat_map Faq.s_validItems (snd (Faq.buildQuestionIndex doc))
  = JsMap.values (fst (Faq.buildQuestionIndex doc)).
Proof.
  unfold Faq.buildQuestionIndex.
  destruct (index_sections_spec doc [] []) as [new [pr [E1 [_ E3]]]].
  unfold Faq.Index, JsMap.t, JsMap.empty in *. rewrite E1. simpl. exact E3.
Qed.

Lemma flat_index_snoc xs x : flat_index (xs ++ [x]) = add_valid (flat_index xs) x.
Proof. unfold flat_index. rewrite fold_left_app. reflexivity. Qed.

Lemma first_seen_snoc l x :
  first_seen (l ++ [x]) = if mem x (first_seen l) then first_seen l else first_seen l ++ [x].
Proof. unfold first_seen. rewrite fold_left_app. reflexivity. Qed.

Lemma first_seen_In l : forall x, In x (first_seen l) <-> In x l.
Proof.
  induction l as [|y l IH] using rev_ind; intros x; [simpl; tauto|].
  rewrite first_seen_snoc, in_app_iff. simpl.
  destruct (mem y (first_seen l)) eqn:M.
  - apply mem_In in M. rewrite IH in *. intuition (subst; auto).
  - rewrite in_app_iff, IH. simpl. tauto.
Qed.

Lemma first_seen_NoDup l : NoDup (first_seen l).
Proof.
  induction l as [|y l IH] using rev_ind; [constructor|].
  rewrite first_seen_snoc. destruct (mem y (first_seen l)) eqn:M; [assumption|].
  apply mem_false in M.
  apply NoDup_app; [assumption | repeat constructor; simpl; tauto |].
  intros x Hx [<-|[]]. contradiction.
Qed.

(** The keys of the index are the ids in order of first occurrence. *)
Lemma flat_index_keys xs : JsMap.keys (flat_index xs) = first_seen (map id_of xs).
Proof.
  induction xs as [|x xs IH] using rev_ind; [reflexivity|].
  rewrite flat_index_snoc, map_app. change (map id_of [x]) with [id_of x].
  rewrite first_seen_snoc. unfold add_valid.
  rewrite has_keys, IH. destruct (mem (id_of x) (first_seen (map id_of xs))); [exact IH|].
  rewrite keys_app, IH. reflexivity.
Qed.

(** The entry at position [n] is the record of an item, with order [n]. *)
Lemma flat_index_nth xs :
  forall n k e, nth_error (flat_index xs) n = Some (k, e) ->
  exists x, In x xs /\ k = id_of x /\ e = record_of n x.
Proof.
  induction xs as [|x xs IH] using rev_ind; intros n k e H.
  - destruct n; discriminate.
  - rewrite flat_index_snoc in H. unfold add_valid in H.
    destruct (JsMap.has (id_of x) (flat_index xs)).
    + destruct (IH _ _ _ H) as [y [Hy R]]. exists y. split; [|exact R].
      apply in_or_app. now left.
    + destruct (Nat.lt_ge_cases n (List.length (flat_index xs))) as [L|L].
      * rewrite nth_error_app1 in H by assumption.
        destruct (IH _ _ _ H) as [y [Hy R]]. exists y. split; [|exact R].
        apply in_or_app. now left.
      * rewrite nth_error_app2 in H by assumption.
        destruct (n - List.length (flat_index xs)) eqn:D; simpl in H.
        -- inversion H; subst. exists x. split; [apply in_or_app; right; now left|].
           split; [reflexivity|]. f_equal. unfold JsMap.size. lia.
        -- destruct n0; discriminate.
Qed.

Lemma find_snoc {A} (f : A -> bool) (l : list A) (x : A) :
  find f (l ++ [x]) =
  match find f l with Some y => Some y | None => if f x then Some x else None end.
Proof.
  induction l as [|y l IH]; simpl; [reflexivity|].
  destruct (f y); [reflexivity | exact IH].
Qed.

Lemma find_id_None xs id :
  find (fun x => String.eqb (id_of x) id) xs = None <-> ~ In id (map id_of xs).
Proof.
  induction xs as [|x xs IH]; simpl; [tauto|].
  destruct (String.eqb (id_of x) id) eqn:E.
  - apply String.eqb_eq in E. split; [discriminate | intros H; exfalso; apply H; now left].
  - apply String.eqb_neq in E. rewrite IH. tauto.
Qed.

(** First occurrence wins: the record of [id] is built from the first
    item that carries [id]. *)
Lemma flat_index_get xs id :
  match JsMap.get id (flat_index xs), find (fun x => String.eqb (id_of x) id) xs with
  | Some e, Some x => exists n, e = record_of n x
  | None, None => True
  | _, _ => False
  end.
Proof.
  induction xs as [|x xs IH] using rev_ind; [exact I|].
  rewrite flat_index_snoc, find_snoc. unfold add_valid.
  destruct (JsMap.has (id_of x) (flat_index xs)) eqn:H.
  - destruct (JsMap.get id (flat_index xs)) as [e|] eqn:G;
      destruct (find _ xs) as [y|] eqn:F; try exact IH; try contradiction.
    destruct (String.eqb (id_of x) id) eqn:E; [|exact I].
    apply String.eqb_eq in E. subst id. apply get_None in G. congruence.
  - rewrite get_app.
    destruct (JsMap.get id (flat_index xs)) as [e|] eqn:G;
      destruct (find _ xs) as [y|] eqn:F; try exact IH; try contradiction.
    unfold JsMap.get. simpl. unfold JsMap.key_is. simpl.
    destruct (String.eqb (id_of x) id); simpl; [eexists; reflexivity | exact I].
Qed.

(* ===================================================================== *)
(** ** What the first iteration renders *)
(* ===================================================================== *)

Definition legacy_question (x : option RawSection * RawItem) : Legacy.Question :=
  {| Legacy.q_id := id_of x;
     Legacy.q_question := item_q (snd x);
     Legacy.q_answer := item_a (snd x);
     Legacy.q_section := name_of (fst x) |}.

Definition legacy_link (it : RawItem) : Legacy.SidebarButton :=
  {| Legacy.sb_id := Js.or_empty (item_id it); Legacy.sb_label := item_q it;
     Legacy.sb_active := false; Legacy.sb_is_active := false;
     Legacy.sb_aria_current := None |}.

Definition legacy_item (it : RawItem) : Legacy.AccordionNode :=
  Legacy.AccItem {| Legacy.ai_id := Js.or_empty (item_id it); Legacy.ai_label := item_q it;
                    Legacy.ai_body := item_a it; Legacy.ai_open := false;
                    Legacy.ai_button_active := false; Legacy.ai_aria_expanded := false |}.

Lemma legacy_render_link_fold (s : RawSection) (items : list (option RawItem)) :
  forall flat links,
  fold_left (Legacy.render_link s) items (flat, links)
  = (flat ++ map (fun it => legacy_question (Some s, it)) (flat_map valid_item items),
     links ++ map legacy_link (flat_map valid_item items)).
Proof.
  induction items as [|item items IH]; intros flat links; simpl.
  - rewrite !app_nil_r. reflexivity.
  - destruct item as [it|]; simpl; [|apply IH].
    unfold Js.truthy.
    destruct (item_id it) as [id|] eqn:E; simpl; [|apply IH].
    destruct (Js.is_empty id) eqn:Em; simpl; [apply IH|].
    rewrite IH. simpl. rewrite <- !app_assoc. simpl.
    unfold legacy_question, legacy_link, id_of. simpl. rewrite E. reflexivity.
Qed.

Lemma renderable_items (section : option RawSection) :
  match Legacy.renderable section with
  | Some (s, items) => section = Some s /\ items = items_of section
  | None => items_of section = []
  end.
Proof.
  destruct section as [s|]; simpl; [|reflexivity].
  unfold Legacy.renderable, items_of. destruct (raw_items s) as [[|i l]|]; simpl; auto.
Qed.

Lemma legacy_sidebar_fold (doc : Document) :
  forall flat secs,
  exists secs',
    fold_left Legacy.render_side_section doc (flat, secs)
    = (flat ++ map legacy_question (valid_items doc), secs')
    /\ flat_map Legacy.ss_links secs'
       = flat_map Legacy.ss_links secs ++ map legacy_link (map snd (valid_items doc)).
Proof.
  induction doc as [|section doc IH]; intros flat secs.
  - exists secs. simpl. rewrite !app_nil_r. split; reflexivity.
  - rewrite valid_items_cons.
    change (fold_left Legacy.render_side_section (section :: doc) (flat, secs))
      with (fold_left Legacy.render_side_section doc
              (Legacy.render_side_section (flat, secs) section)).
    unfold Legacy.render_side_section at 2.
    pose proof (renderable_items section) as R.
    destruct (Legacy.renderable section) as [[s items]|].
    + destruct R as [R1 R2]. subst section items. simpl fst. simpl snd.
      rewrite legacy_render_link_fold.
      match goal with
      | |- context [fold_left _ doc (?f, ?x)] => destruct (IH f x) as [secs' [E1 E2]]
      end.
      exists secs'. split.
      * rewrite E1, map_app, map_map, <- app_assoc. reflexivity.
      * rewrite E2, flat_map_app, !map_app, !map_map. simpl.
        rewrite app_nil_r, <- app_assoc. reflexivity.
    + destruct (IH flat secs) as [secs' [E1 E2]]. exists secs'.
      rewrite R. simpl. split; assumption.
Qed.

Lemma legacy_render_item_fold (items : list (option RawItem)) :
  forall nodes,
  fold_left Legacy.render_item items nodes
  = nodes ++ map legacy_item (flat_map valid_item items).
Proof.
  induction items as [|item items IH]; intros nodes; simpl.
  - rewrite app_nil_r. reflexivity.
  - destruct item as [it|]; simpl; [|apply IH].
    unfold Js.truthy.
    destruct (item_id it) as [id|] eqn:E; simpl; [|apply IH].
    destruct (Js.is_empty id) eqn:Em; simpl; [apply IH|].
    rewrite IH, <- app_assoc. simpl. unfold legacy_item. rewrite E. reflexivity.
Qed.

Definition legacy_is_item (n : Legacy.AccordionNode) : bool :=
  match n with Legacy.AccItem _ => true | _ => false end.

Lemma legacy_items_only (its : list RawItem) :
  filter legacy_is_item (map legacy_item its) = map legacy_item its.
Proof. induction its as [|it its IH]; simpl; [reflexivity | now rewrite IH]. Qed.

Lemma legacy_accordion_fold (doc : Document) :
  forall nodes,
  filter legacy_is_item (fold_left Legacy.render_accordion_section doc nodes)
  = filter legacy_is_item nodes ++ map legacy_item (map snd (valid_items doc)).
Proof.
  induction doc as [|section doc IH]; intros nodes.
  - simpl. rewrite app_nil_r. reflexivity.
  - rewrite valid_items_cons.
    change (fold_left Legacy.render_accordion_section (section :: doc) nodes)
      with (fold_left Legacy.render_accordion_section doc
              (Legacy.render_accordion_section nodes section)).
    rewrite IH. unfold Legacy.render_accordion_section.
    pose proof (renderable_items section) as R.
    destruct (Legacy.renderable section) as [[s items]|].
    + destruct R as [R1 R2]. subst section items.
      rewrite legacy_render_item_fold, !filter_app, legacy_items_only. simpl.
      rewrite app_nil_r, !map_app, !map_map, <- app_assoc. reflexivity.
    + rewrite R. reflexivity.
Qed.

(** Marking links and synchronising panels keep the nodes and their ids. *)
Lemma legacy_mark_ids (id : option string) (links : list Legacy.SidebarButton) :
  map Legacy.sb_id (map (Legacy.mark id) links) = map Legacy.sb_id links.
Proof. rewrite map_map. reflexivity. Qed.

Definition legacy_node_id (n : Legacy.AccordionNode) : option string :=
  match n with
  | Legacy.AccItem item => Some (Legacy.ai_id item)
  | Legacy.AccHeading _ => None
  end.

Lemma legacy_collapse_ids (nodes : list Legacy.AccordionNode) :
  map legacy_node_id (map Legacy.collapse_if_open nodes) = map legacy_node_id nodes.
Proof.
  rewrite map_map. apply map_ext. intros [t|item]; simpl; [reflexivity|].
  destruct (Legacy.ai_open item); reflexivity.
Qed.

Lemma legacy_sync_ids (id : string) (nodes : list Legacy.AccordionNode) :
  map legacy_node_id (Legacy.sync_nodes id nodes) = map legacy_node_id nodes.
Proof.
  induction nodes as [|[t|item] nodes IH]; simpl; [reflexivity | now rewrite IH |].
  destruct (String.eqb (Legacy.ai_id item) id); simpl.
  - rewrite legacy_collapse_ids. destruct (Legacy.ai_open item); reflexivity.
  - rewrite IH. destruct (Legacy.ai_open item); reflexivity.
Qed.

(** What the coordinator's steps leave alone. *)
Ltac split_matches :=
  repeat match goal with
         | |- context [match ?x with _ => _ end] => destruct x eqn:?
         end.

Lemma legacy_renderDesktopQuestion_frame (id : option string) (p : Legacy.Page) :
  let p' := Legacy.renderDesktopQuestion id p in
  Legacy.FAQ p' = Legacy.FAQ p
  /\ Legacy.flatQuestions p' = Legacy.flatQuestions p
  /\ Legacy.activeDesktopId p' = Legacy.activeDesktopId p
  /\ Legacy.sidebar p' = Legacy.sidebar p
  /\ Legacy.accordion p' = Legacy.accordion p
  /\ Legacy.location_hash p' = Legacy.location_hash p
  /\ Legacy.history_replaceState p' = Legacy.history_replaceState p.
Proof.
  unfold Legacy.renderDesktopQuestion. split_matches; simpl; repeat split.
Qed.

Lemma legacy_updateSidebarActive_frame (id : option string) (p : Legacy.Page) :
  let p' := Legacy.updateSidebarActive id p in
  Legacy.FAQ p' = Legacy.FAQ p
  /\ Legacy.flatQuestions p' = Legacy.flatQuestions p
  /\ Legacy.activeDesktopId p' = Legacy.activeDesktopId p
  /\ Legacy.viewer p' = Legacy.viewer p
  /\ Legacy.accordion p' = Legacy.accordion p
  /\ Legacy.location_hash p' = Legacy.location_hash p
  /\ Legacy.history_replaceState p' = Legacy.history_replaceState p
  /\ map Legacy.sb_id (Legacy.sidebar_links p') = map Legacy.sb_id (Legacy.sidebar_links p).
Proof.
  unfold Legacy.updateSidebarActive, Legacy.sidebar_links.
  destruct (Legacy.sidebar p) as [[secs|]|] eqn:E; simpl; rewrite ?E; repeat split.
  clear E. induction secs as [|s secs IH]; simpl; [reflexivity|].
  rewrite !map_app, IH, legacy_mark_ids. reflexivity.
Qed.

Lemma legacy_setHashQuestionId_frame (id : option string) (p : Legacy.Page) :
  let p' := Legacy.setHashQuestionId id p in
  Legacy.FAQ p' = Legacy.FAQ p
  /\ Legacy.flatQuestions p' = Legacy.flatQuestions p
  /\ Legacy.activeDesktopId p' = Legacy.activeDesktopId p
  /\ Legacy.viewer p' = Legacy.viewer p
  /\ Legacy.sidebar p' = Legacy.sidebar p
  /\ Legacy.accordion p' = Legacy.accordion p.
Proof.
  unfold Legacy.setHashQuestionId. split_matches; simpl; repeat split.
Qed.

Lemma legacy_syncMobileAccordion_frame (id : option string) (scroll focus : bool)
    (p : Legacy.Page) :
  let p' := Legacy.syncMobileAccordion id scroll focus p in
  Legacy.FAQ p' = Legacy.FAQ p
  /\ Legacy.flatQuestions p' = Legacy.flatQuestions p
  /\ Legacy.activeDesktopId p' = Legacy.activeDesktopId p
  /\ Legacy.viewer p' = Legacy.viewer p
  /\ Legacy.sidebar p' = Legacy.sidebar p
  /\ Legacy.location_hash p' = Legacy.location_hash p
  /\ map legacy_node_id (Legacy.rendered_nodes p')
     = map legacy_node_id (Legacy.rendered_nodes p).
Proof.
  unfold Legacy.syncMobileAccordion. 
  destruct id as [i|]; [|simpl; repeat split].
  destruct (Js.is_empty i); [simpl; repeat split|].
  destruct (Legacy.accordion p) eqn:A; [|simpl; repeat split].
  destruct (Legacy.query_item i (Legacy.rendered_nodes p)); [|simpl; repeat split].
  assert (S : map legacy_node_id
                (Legacy.rendered_nodes
                   (Legacy.set_accordion
                      (Some (Some (Legacy.sync_nodes i (Legacy.rendered_nodes p)))) p))
              = map legacy_node_id (Legacy.rendered_nodes p))
    by (unfold Legacy.rendered_nodes at 1; simpl; apply legacy_sync_ids).
  destruct (Legacy.ai_open a), scroll, focus; simpl; repeat split; exact S.
Qed.

Lemma valid_item_truthy (item : option RawItem) (it : RawItem) :
  In it (valid_item item) -> Js.truthy (item_id it) = true.
Proof.
  destruct item as [i|]; simpl; [|tauto].
  destruct (Js.truthy (item_id i)) eqn:T; simpl; [|tauto].
  intros [<-|[]]. exact T.
Qed.

Lemma valid_items_truthy (doc : Document) (x : option RawSection * RawItem) :
  In x (valid_items doc) -> Js.truthy (item_id (snd x)) = true.
Proof.
  unfold valid_items. rewrite in_flat_map. intros [section [_ H]].
  apply in_map_iff in H. destruct H as [it [<- H]]. simpl.
  apply in_flat_map in H. destruct H as [item [_ H]].
  now apply valid_item_truthy in H.
Qed.

(** Every id that counts is a non-empty string. *)
Lemma doc_ids_nonempty (doc : Document) (id : string) :
  In id (doc_ids doc) -> id <> "".
Proof.
  unfold doc_ids. rewrite in_map_iff. intros [x [<- H]].
  apply valid_items_truthy in H. unfold id_of, Js.truthy in *.
  destruct (item_id (snd x)) as [s|]; [|discriminate]. simpl.
  destruct s; [discriminate | congruence].
Qed.

Lemma legacy_some_id (c : string) (xs : list (option RawSection * RawItem)) :
  Legacy.some_id c (map legacy_question xs) = mem c (map id_of xs).
Proof.
  unfold Legacy.some_id, mem. induction xs as [|x xs IH]; simpl; [reflexivity|].
  rewrite IH, (String.eqb_sym (id_of x) c). reflexivity.
Qed.

Lemma legacy_resolve_known (flat : list Legacy.Question) (candidate : option string)
    (id : string) :
  Legacy.resolveQuestionId flat candidate = Some id -> Legacy.some_id id flat = true.
Proof.
  unfold Legacy.resolveQuestionId. destruct candidate as [c|]; [|discriminate].
  destruct (Js.is_empty c || Nat.eqb (List.length flat) 0); [discriminate|].
  destruct (Legacy.some_id c flat) eqn:E1; [intros H; inversion H; subst; exact E1|].
  destruct (Js.startsWith "q-" c).
  - destruct (Legacy.some_id (Js.drop 2 c) flat) eqn:E2; [|discriminate].
    intros H; inversion H; subst; exact E2.
  - destruct (Legacy.some_id ("q-" ++ c) flat) eqn:E2; [|discriminate].
    intros H; inversion H; subst; exact E2.
Qed.

Lemma legacy_resolve_empty (candidate : option string) :
  Legacy.resolveQuestionId [] candidate = None.
Proof.
  destruct candidate as [c|]; simpl; [|reflexivity].
  rewrite orb_true_r. reflexivity.
Qed.

(** [renderDesktop] of the first iteration, on a page with a viewer and
    a sidebar and nothing active yet. *)
Lemma legacy_renderDesktop_spec (p : Legacy.Page) (v : Legacy.Viewer)
    (sb : option (list Legacy.SideSection)) :
  Legacy.viewer p = Some v -> Legacy.sidebar p = Some sb ->
  Legacy.activeDesktopId p = None ->
  let flat := map legacy_question (valid_items (Legacy.FAQ p)) in
  let p' := Legacy.renderDesktop p in
  Legacy.FAQ p' = Legacy.FAQ p
  /\ Legacy.flatQuestions p' = flat
  /\ map Legacy.sb_id (Legacy.sidebar_links p') = doc_ids (Legacy.FAQ p)
  /\ Legacy.accordion p' = Legacy.accordion p
  /\ Legacy.activeDesktopId p'
     = match Legacy.resolveQuestionId flat (Legacy.extractHashId p) with
       | Some id => Some id
       | None => hd_error (doc_ids (Legacy.FAQ p))
       end
  /\ (flat = [] -> Legacy.viewer p' = Some Legacy.ViewerEmptyMessage).
Proof.
  intros Hv Hs Ha flat p'. subst p'. unfold Legacy.renderDesktop. rewrite Hv, Hs.
  destruct (legacy_sidebar_fold (Legacy.FAQ p) [] []) as [secs' [E1 E2]].
  rewrite E1. simpl app in *. fold flat.
  assert (Hlinks : map Legacy.sb_id (flat_map Legacy.ss_links secs')
                   = doc_ids (Legacy.FAQ p)).
  { rewrite E2. unfold doc_ids. rewrite !map_map. reflexivity. }
  cbn [Legacy.flatQuestions Legacy.set_sidebar Legacy.set_data].
  destruct flat as [|first rest] eqn:F.
  - cbn. unfold Legacy.sidebar_links. cbn. repeat split; try assumption.
    assert (D : doc_ids (Legacy.FAQ p) = []).
    { unfold doc_ids. subst flat.
      destruct (valid_items (Legacy.FAQ p)); [reflexivity|discriminate]. }
    rewrite D, legacy_resolve_empty. exact Ha.
  - set (p1 := Legacy.set_sidebar _ _).
    assert (X : Legacy.extractHashId p1 = Legacy.extractHashId p) by reflexivity.
    rewrite X. clear X.
    assert (Hfirst : hd_error (doc_ids (Legacy.FAQ p)) = Some (Legacy.q_id first)).
    { unfold doc_ids. subst flat.
      destruct (valid_items (Legacy.FAQ p)) as [|x xs]; [discriminate|].
      simpl in F. inversion F. reflexivity. }
    set (h := Legacy.resolveQuestionId (first :: rest) (Legacy.extractHashId p)).
    assert (Hh : forall id, h = Some id ->
                 Js.truthy h = true /\ Legacy.some_id id (first :: rest) = true).
    { intros id Hid. pose proof (legacy_resolve_known _ _ Hid) as K. split; [|exact K].
      rewrite Hid. simpl. apply negb_true_iff, is_empty_false.
      apply (@doc_ids_nonempty (Legacy.FAQ p)). unfold doc_ids.
      rewrite <- F in K. subst flat. rewrite legacy_some_id in K. now apply mem_In. }
    match goal with
    | |- context [Legacy.set_bound true _ ?q] => set (p4 := q)
    end.
    assert (Core : Legacy.FAQ p4 = Legacy.FAQ p
                   /\ Legacy.flatQuestions p4 = first :: rest
                   /\ map Legacy.sb_id (Legacy.sidebar_links p4) = doc_ids (Legacy.FAQ p)
                   /\ Legacy.accordion p4 = Legacy.accordion p
                   /\ Legacy.activeDesktopId p4
                      = match h with Some id => Some id | None => Some (Legacy.q_id first) end).
    { subst p4.
      match goal with
      | |- context [Legacy.setHashQuestionId ?i ?q] =>
          destruct (legacy_setHashQuestionId_frame i q) as [A1 [A2 [A3 [_ [A5 A6]]]]];
          unfold Legacy.sidebar_links; rewrite A1, A2, A3, A5, A6; clear A1 A2 A3 A5 A6
      end.
      match goal with
      | |- context [Legacy.updateSidebarActive ?i ?q] =>
          destruct (legacy_updateSidebarActive_frame i q) as [A1 [A2 [A3 [_ [A5 [_ [_ A8]]]]]]];
          unfold Legacy.sidebar_links in A8; rewrite A1, A2, A3, A5, A8; clear A1 A2 A3 A5 A8
      end.
      match goal with
      | |- context [Legacy.renderDesktopQuestion ?i ?q] =>
          destruct (legacy_renderDesktopQuestion_frame i q) as [A1 [A2 [A3 [A4 [A5 _]]]]];
          rewrite A1, A2, A3, A4, A5; clear A1 A2 A3 A4 A5
      end.
      destruct h as [id|] eqn:Eh.
      - destruct (Hh id eq_refl) as [T K]. cbn in T, K |- *.
        rewrite T. cbn. rewrite T, K. cbn. repeat split; assumption.
      - cbn. rewrite Ha. cbn. repeat split; assumption. }
    destruct Core as [C1 [C2 [C3 [C4 C5]]]].
    unfold Legacy.sidebar_links in *. cbn. repeat split; try assumption.
    + rewrite C5, Hfirst. reflexivity.
    + discriminate.
Qed.

Definition is_some {A} (o : option A) : bool :=
  match o with Some _ => true | None => false end.

Lemma legacy_item_ids (nodes : list Legacy.AccordionNode) :
  map legacy_node_id (filter legacy_is_item nodes)
  = filter is_some (map legacy_node_id nodes).
Proof.
  induction nodes as [|[t|item] nodes IH]; simpl; [reflexivity | exact IH |].
  now rewrite IH.
Qed.

Lemma legacy_renderMobile_spec (p : Legacy.Page)
    (a : option (list Legacy.AccordionNode)) :
  Legacy.accordion p = Some a ->
  let p' := Legacy.renderMobile p in
  Legacy.FAQ p' = Legacy.FAQ p
  /\ Legacy.flatQuestions p' = Legacy.flatQuestions p
  /\ Legacy.activeDesktopId p' = Legacy.activeDesktopId p
  /\ Legacy.viewer p' = Legacy.viewer p
  /\ Legacy.sidebar p' = Legacy.sidebar p
  /\ map legacy_node_id (Legacy.accordion_items p') = map Some (doc_ids (Legacy.FAQ p)).
Proof.
  intros Ha p'. subst p'. unfold Legacy.renderMobile. rewrite Ha.
  set (p1 := Legacy.set_bound _ _ _).
  assert (N : map legacy_node_id (filter legacy_is_item (Legacy.rendered_nodes p1))
              = map Some (doc_ids (Legacy.FAQ p))).
  { unfold Legacy.rendered_nodes, p1. cbn.
    rewrite legacy_accordion_fold. simpl. unfold doc_ids, legacy_item.
    rewrite !map_map. reflexivity. }
  assert (T : exists p2, (if Js.truthy (Legacy.activeDesktopId p1)
                          then Legacy.syncMobileAccordion (Legacy.activeDesktopId p1)
                                 false false p1
                          else p1) = p2
                         /\ Legacy.FAQ p2 = Legacy.FAQ p1
                         /\ Legacy.flatQuestions p2 = Legacy.flatQuestions p1
                         /\ Legacy.activeDesktopId p2 = Legacy.activeDesktopId p1
                         /\ Legacy.viewer p2 = Legacy.viewer p1
                         /\ Legacy.sidebar p2 = Legacy.sidebar p1
                         /\ map legacy_node_id (Legacy.rendered_nodes p2)
                            = map legacy_node_id (Legacy.rendered_nodes p1)).
  { eexists. split; [reflexivity|].
    destruct (Js.truthy (Legacy.activeDesktopId p1)); [|repeat split].
    destruct (legacy_syncMobileAccordion_frame (Legacy.activeDesktopId p1) false false p1)
      as [A1 [A2 [A3 [A4 [A5 [_ A7]]]]]].
    repeat split; assumption. }
  destruct T as [p2 [-> [A1 [A2 [A3 [A4 [A5 A7]]]]]]].
  rewrite A1, A2, A3, A4, A5. unfold Legacy.accordion_items.
  fold legacy_is_item. rewrite legacy_item_ids, A7, <- legacy_item_ids, N.
  repeat split.
Qed.

(** A successful [init] of the first iteration, on a page with its
    three hosts. *)
Lemma legacy_init_spec (doc : Document) (hash : string) (status : nat) :
  let flat := map legacy_question (valid_items doc) in
  let p := Legacy.init (Response true status (Some (JsonArray doc))) (Legacy.fresh hash) in
  Legacy.flatQuestions p = flat
  /\ map Legacy.sb_id (Legacy.sidebar_links p) = doc_ids doc
  /\ map legacy_node_id (Legacy.accordion_items p) = map Some (doc_ids doc)
  /\ Legacy.activeDesktopId p
     = match Legacy.resolveQuestionId flat (Legacy.extractHashId (Legacy.fresh hash)) with
       | Some id => Some id
       | None => hd_error (doc_ids doc)
       end
  /\ (flat = [] -> Legacy.viewer p = Some Legacy.ViewerEmptyMessage).
Proof.
  intros flat p. subst p. unfold Legacy.init, Legacy.loadFAQ. cbn [negb].
  set (p0 := Legacy.set_data doc _ _).
  destruct (@legacy_renderDesktop_spec p0 Legacy.ViewerMarkup None
              eq_refl eq_refl eq_refl) as [B1 [B2 [B3 [B4 [B5 B6]]]]].
  destruct (@legacy_renderMobile_spec (Legacy.renderDesktop p0) None)
    as [A1 [A2 [A3 [A4 [A5 A6]]]]].
  { rewrite B4. reflexivity. }
  unfold Legacy.sidebar_links in *. rewrite A2, A3, A4, A5, A6, B1.
  repeat split; assumption.
Qed.

(* ===================================================================== *)
(** ** What the current iteration renders *)
(* ===================================================================== *)

(** The buttons [renderDesktop] registers for a list of entries. *)
Definition register_links (entries : list Faq.Entry) (m : JsMap.t Faq.SidebarButton)
  : JsMap.t Faq.SidebarButton :=
  fold_left (fun m e => JsMap.set (Faq.e_id e) (Faq.side_link e) m) entries m.

(** The node [renderMobile] appends for an entry. *)
Definition node_of (e : Faq.Entry) : Faq.AccordionNode :=
  if Faq.is_static (Faq.e_id e) then Faq.createStaticAccordionBlock e
  else Faq.AccItem (Faq.e_id e).

(** The items [renderMobile] registers for a list of entries. *)
Definition register_items (entries : list Faq.Entry) (m : JsMap.t Faq.AccordionItem)
  : JsMap.t Faq.AccordionItem :=
  fold_left (fun m e => if Faq.is_static (Faq.e_id e) then m
                        else JsMap.set (Faq.e_id e) (Faq.createAccordionItem e) m)
    entries m.

Definition is_heading (n : Faq.AccordionNode) : bool :=
  match n with Faq.AccHeading _ => true | _ => false end.

(** The nodes that stand for entries. *)
Definition entry_nodes (nodes : list Faq.AccordionNode) : list Faq.AccordionNode :=
  filter (fun n => negb (is_heading n)) nodes.

Lemma render_link_fold (entries : list Faq.Entry) :
  forall links m,
  fold_left Faq.render_link entries (links, m)
  = (links ++ map Faq.e_id entries, register_links entries m).
Proof.
  induction entries as [|e entries IH]; intros links m; simpl.
  - rewrite app_nil_r. reflexivity.
  - unfold Faq.render_link at 2. simpl. rewrite IH, <- app_assoc. reflexivity.
Qed.

Lemma register_links_app (a b : list Faq.Entry) (m : JsMap.t Faq.SidebarButton) :
  register_links (a ++ b) m = register_links b (register_links a m).
Proof. unfold register_links. apply fold_left_app. Qed.

Lemma register_items_app (a b : list Faq.Entry) (m : JsMap.t Faq.AccordionItem) :
  register_items (a ++ b) m = register_items b (register_items a m).
Proof. unfold register_items. apply fold_left_app. Qed.

Lemma render_side_sections_fold (secs : list Faq.FaqSection) :
  forall frag m,
  exists frag',
    fold_left Faq.render_side_section secs (frag, m)
    = (frag', register_links (flat_map Faq.s_validItems secs) m)
    /\ flat_map Faq.ss_links frag'
       = flat_map Faq.ss_links frag ++ map Faq.e_id (flat_map Faq.s_validItems secs).
Proof.
  induction secs as [|s secs IH]; intros frag m.
  - exists frag. simpl. rewrite app_nil_r. split; reflexivity.
  - change (fold_left Faq.render_side_section (s :: secs) (frag, m))
      with (fold_left Faq.render_side_section secs
              (Faq.render_side_section (frag, m) s)).
    unfold Faq.render_side_section, Faq.getValidItems.
    simpl flat_map. rewrite register_links_app, map_app.
    destruct (Faq.s_validItems s) as [|e es] eqn:V.
    + simpl. apply IH.
    + cbn [List.length Nat.eqb fst snd]. rewrite render_link_fold.
      match goal with
      | |- context [fold_left _ secs (?f, ?x)] => destruct (IH f x) as [frag' [E1 E2]]
      end.
      exists frag'. split; [exact E1|].
      rewrite E2, flat_map_app. simpl. rewrite app_nil_r, <- app_assoc. reflexivity.
Qed.

Lemma render_entry_fold (entries : list Faq.Entry) :
  forall nodes m,
  fold_left Faq.render_entry entries (nodes, m)
  = (nodes ++ map node_of entries, register_items entries m).
Proof.
  induction entries as [|e entries IH]; intros nodes m.
  - simpl. rewrite app_nil_r. reflexivity.
  - cbn [fold_left map]. unfold register_items at 1. cbn [fold_left].
    fold (register_items entries).
    assert (N : node_of e = if Faq.is_static (Faq.e_id e)
                            then Faq.createStaticAccordionBlock e
                            else Faq.AccItem (Faq.e_id e)) by reflexivity.
    rewrite N. unfold Faq.render_entry at 2. cbn [fst snd].
    destruct (Faq.is_static (Faq.e_id e)); rewrite IH, <- app_assoc; reflexivity.
Qed.

Lemma entry_nodes_app (a b : list Faq.AccordionNode) :
  entry_nodes (a ++ b) = entry_nodes a ++ entry_nodes b.
Proof. unfold entry_nodes. apply filter_app. Qed.

Lemma entry_nodes_node_of (entries : list Faq.Entry) :
  entry_nodes (map node_of entries) = map node_of entries.
Proof.
  induction entries as [|e entries IH]; simpl; [reflexivity|].
  unfold node_of at 1. unfold Faq.createStaticAccordionBlock.
  destruct (Faq.is_static (Faq.e_id e)); simpl; now rewrite IH.
Qed.

Lemma render_accordion_sections_fold (secs : list Faq.FaqSection) :
  forall nodes m,
  exists nodes',
    fold_left Faq.render_accordion_section secs (nodes, m)
    = (nodes', register_items (flat_map Faq.s_validItems secs) m)
    /\ entry_nodes nodes'
       = entry_nodes nodes ++ map node_of (flat_map Faq.s_validItems secs).
Proof.
  induction secs as [|s secs IH]; intros nodes m.
  - exists nodes. simpl. rewrite app_nil_r. split; reflexivity.
  - change (fold_left Faq.render_accordion_section (s :: secs) (nodes, m))
      with (fold_left Faq.render_accordion_section secs
              (Faq.render_accordion_section (nodes, m) s)).
    unfold Faq.render_accordion_section, Faq.getValidItems.
    simpl flat_map. rewrite register_items_app, map_app.
    destruct (Faq.s_validItems s) as [|e es] eqn:V.
    + simpl. apply IH.
    + cbn [List.length Nat.eqb fst snd]. rewrite render_entry_fold.
      match goal with
      | |- context [fold_left _ secs (?f, ?x)] => destruct (IH f x) as [nodes' [E1 E2]]
      end.
      exists nodes'. split; [exact E1|].
      rewrite E2, entry_nodes_app, entry_nodes_node_of, <- app_assoc. f_equal.
      destruct (Faq.s_hideHeading s); [reflexivity|].
      rewrite entry_nodes_app. simpl. rewrite app_nil_r. reflexivity.
Qed.

(* ===================================================================== *)
(** ** At most one registered node has a property *)
(* ===================================================================== *)

Section OnlyAt.

Variable V : Type.
Variable P : V -> bool.

(** No node registered under a key other than [i] has [P]. *)
Definition only_at (i : string) (m : JsMap.t V) : Prop :=
  forall k v, In (k, v) m -> k <> i -> P v = false.

Definition none_has (m : JsMap.t V) : Prop :=
  forall k v, In (k, v) m -> P v = false.

Lemma none_has_only_at (i : string) (m : JsMap.t V) : none_has m -> only_at i m.
Proof. intros H k v Hin _. exact (H k v Hin). Qed.

Lemma none_has_count (m : JsMap.t V) :
  none_has m -> List.length (filter P (JsMap.values m)) = 0.
Proof.
  induction m as [|[k v] m IH]; intros H; simpl; [reflexivity|].
  rewrite (H k v (or_introl eq_refl)). apply IH.
  intros k' v' Hin. apply (H k' v'). now right.
Qed.

Lemma only_at_absent (i : string) (m : JsMap.t V) :
  only_at i m -> ~ In i (JsMap.keys m) -> none_has m.
Proof.
  intros H Hn k v Hin. apply (H k v Hin). intros ->. apply Hn.
  unfold JsMap.keys. apply in_map_iff. exists (i, v). split; [reflexivity | assumption].
Qed.

(** With distinct keys, at most one registered node has [P]. *)
Lemma only_at_count (i : string) (m : JsMap.t V) :
  NoDup (JsMap.keys m) -> only_at i m -> List.length (filter P (JsMap.values m)) <= 1.
Proof.
  induction m as [|[k v] m IH]; intros Hnd H; simpl; [lia|].
  inversion Hnd as [|? ? Hk Hnd']; subst.
  assert (Hm : only_at i m) by (intros k' v' Hin; apply (H k' v'); now right).
  destruct (string_dec k i) as [->|Hne].
  - pose proof (none_has_count (only_at_absent Hm Hk)) as Z.
    destruct (P v); simpl; lia.
  - rewrite (H k v (or_introl eq_refl) Hne). now apply IH.
Qed.

Lemma in_forEach (f : V -> string -> V) (m : JsMap.t V) (k : string) (v' : V) :
  In (k, v') (JsMap.forEach f m) <-> exists v, In (k, v) m /\ v' = f v k.
Proof.
  unfold JsMap.forEach. rewrite in_map_iff. split.
  - intros [[k0 v0] [E Hin]]. simpl in E. inversion E; subst. now exists v0.
  - intros [v [Hin ->]]. now exists (k, v).
Qed.

(** Changing the node under [i] only keeps [only_at i]. *)
Lemma only_at_update (i : string) (f : V -> V) (m : JsMap.t V) :
  only_at i m -> only_at i (JsMap.update i f m).
Proof.
  intros H k v' Hin Hne. unfold JsMap.update in Hin. apply in_forEach in Hin.
  destruct Hin as [v [Hin ->]]. apply String.eqb_neq in Hne. rewrite Hne.
  apply String.eqb_neq in Hne. exact (H k v Hin Hne).
Qed.

Lemma get_update_same (i : string) (f : V -> V) (m : JsMap.t V) :
  JsMap.get i (JsMap.update i f m) = option_map f (JsMap.get i m).
Proof.
  unfold JsMap.update. rewrite get_forEach. rewrite String.eqb_refl. reflexivity.
Qed.

End OnlyAt.

Lemma marked_mark (isActive : bool) (b : Faq.SidebarButton) :
  Faq.marked (Faq.mark isActive b) = isActive.
Proof. destruct isActive; reflexivity. Qed.

Lemma same_id_true (k : string) (id : option string) :
  Faq.same_id k id = true <-> id = Some k.
Proof.
  destruct id as [i|]; simpl; [|split; discriminate].
  rewrite String.eqb_eq. split; [now intros -> | now intros [= ->]].
Qed.

(** The controls of the sidebar and the panels of the accordion are in
    order: distinct keys, and a key outside which nothing is marked or
    open. *)
Definition sidebar_ok (m : JsMap.t Faq.SidebarButton) : Prop :=
  NoDup (JsMap.keys m) /\ exists i, only_at Faq.marked i m.

Definition accordion_ok (m : JsMap.t Faq.AccordionItem) : Prop :=
  NoDup (JsMap.keys m) /\ exists i, only_at Faq.ai_open i m.

Definition page_ok (p : Faq.Page) : Prop :=
  sidebar_ok (Faq.elements_sidebar (Faq.state p))
  /\ accordion_ok (Faq.elements_accordion (Faq.state p)).

Lemma sidebar_ok_marks (id : option string) (m : JsMap.t Faq.SidebarButton) :
  NoDup (JsMap.keys m) ->
  sidebar_ok (JsMap.forEach (fun button questionId =>
                               Faq.mark (Faq.same_id questionId id) button) m).
Proof.
  intros H. split; [now rewrite keys_forEach|].
  exists (Js.or_empty id). intros k v' Hin Hne. apply in_forEach in Hin.
  destruct Hin as [v [_ ->]]. rewrite marked_mark.
  destruct (Faq.same_id k id) eqn:E; [|reflexivity].
  apply same_id_true in E. subst id. simpl in Hne. congruence.
Qed.

Lemma collapse_others_only_at (i : string) (m : JsMap.t Faq.AccordionItem) :
  only_at Faq.ai_open i (Faq.collapse_others i m).
Proof.
  intros k v' Hin Hne. unfold Faq.collapse_others in Hin. apply in_forEach in Hin.
  destruct Hin as [v [_ ->]]. apply String.eqb_neq in Hne. rewrite Hne. simpl.
  destruct (Faq.ai_open v) eqn:O; [reflexivity | exact O].
Qed.

Lemma keys_collapse_others (i : string) (m : JsMap.t Faq.AccordionItem) :
  JsMap.keys (Faq.collapse_others i m) = JsMap.keys m.
Proof. apply keys_forEach. Qed.

Lemma keys_update {V} (i : string) (f : V -> V) (m : JsMap.t V) :
  JsMap.keys (JsMap.update i f m) = JsMap.keys m.
Proof. apply keys_forEach. Qed.

(* ===================================================================== *)
(** ** What each step of the coordinator leaves alone *)
(* ===================================================================== *)

Lemma renderDesktopQuestion_frame (id : option string) (p : Faq.Page) :
  let p' := Faq.renderDesktopQuestion id p in
  Faq.state p' = Faq.state p
  /\ Faq.window p' = Faq.window p
  /\ Faq.sidebar (Faq.dom p') = Faq.sidebar (Faq.dom p)
  /\ Faq.accordion (Faq.dom p') = Faq.accordion (Faq.dom p)
  /\ Faq.keyboard_navigation (Faq.dom p') = Faq.keyboard_navigation (Faq.dom p).
Proof.
  unfold Faq.renderDesktopQuestion. split_matches; simpl; repeat split.
Qed.

Lemma updateSidebarActive_frame (id : option string) (p : Faq.Page) :
  let p' := Faq.updateSidebarActive id p in
  Faq.dom p' = Faq.dom p
  /\ Faq.window p' = Faq.window p
  /\ Faq.timers p' = Faq.timers p
  /\ Faq.effects p' = Faq.effects p
  /\ Faq.questions (Faq.state p') = Faq.questions (Faq.state p)
  /\ Faq.sections (Faq.state p') = Faq.sections (Faq.state p)
  /\ Faq.activeId (Faq.state p') = Faq.activeId (Faq.state p)
  /\ Faq.elements_accordion (Faq.state p') = Faq.elements_accordion (Faq.state p).
Proof. simpl. repeat split. Qed.

Lemma setHashQuestionId_frame (id : option string) (p : Faq.Page) :
  let p' := Faq.setHashQuestionId id p in
  Faq.state p' = Faq.state p
  /\ Faq.dom p' = Faq.dom p
  /\ Faq.timers p' = Faq.timers p
  /\ Faq.effects p' = Faq.effects p.
Proof.
  unfold Faq.setHashQuestionId. split_matches; simpl; repeat split.
Qed.

Lemma syncMobileAccordion_frame (id : option string) (scroll focus : bool) (p : Faq.Page) :
  let p' := Faq.syncMobileAccordion id scroll focus p in
  Faq.dom p' = Faq.dom p
  /\ Faq.window p' = Faq.window p
  /\ Faq.timers p' = Faq.timers p
  /\ Faq.questions (Faq.state p') = Faq.questions (Faq.state p)
  /\ Faq.sections (Faq.state p') = Faq.sections (Faq.state p)
  /\ Faq.activeId (Faq.state p') = Faq.activeId (Faq.state p)
  /\ Faq.elements_sidebar (Faq.state p') = Faq.elements_sidebar (Faq.state p).
Proof.
  unfold Faq.syncMobileAccordion, Faq.expandPanel.
  split_matches; simpl; repeat split.
Qed.

(** The panels after [syncMobileAccordion]: either nothing changed, or
    the panels of the other keys are closed and the target is open. *)
Lemma syncMobileAccordion_panels (id : option string) (scroll focus : bool) (p : Faq.Page) :
  let m := Faq.elements_accordion (Faq.state p) in
  let m' := Faq.elements_accordion
              (Faq.state (Faq.syncMobileAccordion id scroll focus p)) in
  m' = m
  \/ exists i target,
       id = Some i /\ JsMap.get i m = Some target
       /\ m' = (if Faq.ai_open target then Faq.collapse_others i m
                else JsMap.update i Faq.open_item (Faq.collapse_others i m)).
Proof.
  cbv zeta. unfold Faq.syncMobileAccordion.
  destruct id as [i|]; [|now left].
  destruct (Js.is_empty i || _); [now left|].
  destruct (JsMap.get i (Faq.elements_accordion (Faq.state p))) as [t|] eqn:G; [|now left].
  right. exists i, t. split; [reflexivity|]. split; [exact G|].
  unfold Faq.expandPanel. destruct (Faq.ai_open t), scroll, focus; reflexivity.
Qed.

Lemma accordion_ok_sync (i : string) (target : Faq.AccordionItem)
    (m : JsMap.t Faq.AccordionItem) :
  NoDup (JsMap.keys m) ->
  accordion_ok (if Faq.ai_open target then Faq.collapse_others i m
                else JsMap.update i Faq.open_item (Faq.collapse_others i m)).
Proof.
  intros H. destruct (Faq.ai_open target); split.
  - now rewrite keys_collapse_others.
  - exists i. apply collapse_others_only_at.
  - now rewrite keys_update, keys_collapse_others.
  - exists i. apply only_at_update, collapse_others_only_at.
Qed.

Lemma syncMobileAccordion_ok (id : option string) (scroll focus : bool) (p : Faq.Page) :
  page_ok p -> page_ok (Faq.syncMobileAccordion id scroll focus p).
Proof.
  intros [Hs Ha]. split.
  - destruct (syncMobileAccordion_frame id scroll focus p) as [_ [_ [_ [_ [_ [_ E]]]]]].
    now rewrite E.
  - destruct (syncMobileAccordion_panels id scroll focus p)
      as [E | [i [t [_ [_ E]]]]]; rewrite E; [assumption|].
    apply accordion_ok_sync. apply Ha.
Qed.

Lemma updateSidebarActive_ok (id : option string) (p : Faq.Page) :
  page_ok p -> page_ok (Faq.updateSidebarActive id p).
Proof.
  intros [Hs Ha]. split; [|exact Ha]. simpl. apply sidebar_ok_marks. apply Hs.
Qed.

(** A step that keeps the [state] object keeps the invariant. *)
Lemma page_ok_same_state (p p' : Faq.Page) :
  Faq.state p' = Faq.state p -> page_ok p -> page_ok p'.
Proof. unfold page_ok. now intros ->. Qed.

Lemma renderDesktopQuestion_ok (id : option string) (p : Faq.Page) :
  page_ok p -> page_ok (Faq.renderDesktopQuestion id p).
Proof. apply page_ok_same_state. apply renderDesktopQuestion_frame. Qed.

Lemma setHashQuestionId_ok (id : option string) (p : Faq.Page) :
  page_ok p -> page_ok (Faq.setHashQuestionId id p).
Proof. apply page_ok_same_state. apply setHashQuestionId_frame. Qed.

Lemma applyActiveQuestion_ok (id : option string) (syncHash scrollMobile : bool)
    (p : Faq.Page) :
  page_ok p -> page_ok (Faq.applyActiveQuestion id syncHash scrollMobile p).
Proof.
  intros H. unfold Faq.applyActiveQuestion.
  destruct id as [i|]; [|exact H].
  destruct (Js.is_empty i || _); [exact H|].
  assert (K : page_ok
                (Faq.syncMobileAccordion (Some i) scrollMobile false
                   (if syncHash
                    then Faq.setHashQuestionId (Some i)
                           (Faq.updateSidebarActive (Some i)
                              (Faq.renderDesktopQuestion (Some i)
                                 (Faq.on_state (Faq.set_activeId (Some i)) p)))
                    else Faq.updateSidebarActive (Some i)
                           (Faq.renderDesktopQuestion (Some i)
                              (Faq.on_state (Faq.set_activeId (Some i)) p))))).
  { apply syncMobileAccordion_ok.
    assert (U : page_ok (Faq.updateSidebarActive (Some i)
                           (Faq.renderDesktopQuestion (Some i)
                              (Faq.on_state (Faq.set_activeId (Some i)) p)))).
    { apply updateSidebarActive_ok, renderDesktopQuestion_ok. exact H. }
    destruct syncHash; [now apply setHashQuestionId_ok | exact U]. }
  destruct (JsMap.get i Faq.SOCIAL_GLOW_MAPPING); exact K.
Qed.

Lemma in_set {V} (k0 : string) (v0 : V) (m : JsMap.t V) (k : string) (v : V) :
  In (k, v) (JsMap.set k0 v0 m) -> (k, v) = (k0, v0) \/ In (k, v) m.
Proof.
  induction m as [|[k' v'] m IH]; simpl.
  - intros [E|[]]. left. now symmetry.
  - destruct (String.eqb k' k0) eqn:E; simpl.
    + apply String.eqb_eq in E. subst k'. intros [H|H]; [left; now symmetry | right; now right].
    + intros [H|H]; [right; now left|]. destruct (IH H); [now left | right; now right].
Qed.

Lemma register_links_ok (entries : list Faq.Entry) :
  forall m, NoDup (JsMap.keys m) -> none_has Faq.marked m ->
  NoDup (JsMap.keys (register_links entries m))
  /\ none_has Faq.marked (register_links entries m).
Proof.
  induction entries as [|e entries IH]; intros m Hnd Hn; [now split|].
  unfold register_links. cbn [fold_left]. apply IH.
  - now apply NoDup_keys_set.
  - intros k v Hin. apply in_set in Hin. destruct Hin as [E|Hin].
    + inversion E. reflexivity.
    + exact (Hn k v Hin).
Qed.

Lemma register_items_ok (entries : list Faq.Entry) :
  forall m, NoDup (JsMap.keys m) -> none_has Faq.ai_open m ->
  NoDup (JsMap.keys (register_items entries m))
  /\ none_has Faq.ai_open (register_items entries m).
Proof.
  induction entries as [|e entries IH]; intros m Hnd Hn; [now split|].
  unfold register_items. cbn [fold_left].
  destruct (Faq.is_static (Faq.e_id e)); [now apply IH|]. apply IH.
  - now apply NoDup_keys_set.
  - intros k v Hin. apply in_set in Hin. destruct Hin as [E|Hin].
    + inversion E. reflexivity.
    + exact (Hn k v Hin).
Qed.

(** All the entries of the sections, in order. *)
Definition entries_of (p : Faq.Page) : list Faq.Entry :=
  flat_map Faq.s_validItems (Faq.sections (Faq.state p)).

Lemma renderDesktop_absent (p : Faq.Page) :
  Faq.sidebar (Faq.dom p) = None -> Faq.renderDesktop p = p.
Proof.
  intros H. unfold Faq.renderDesktop, Faq.ensureSidebarContent. now rewrite H.
Qed.

Lemma renderDesktop_spec (p : Faq.Page) (sb : Faq.SidebarDom) :
  Faq.sidebar (Faq.dom p) = Some sb ->
  let p' := Faq.renderDesktop p in
  Faq.elements_sidebar (Faq.state p') = register_links (entries_of p) []
  /\ Faq.side_links (Faq.sidebar (Faq.dom p')) = map Faq.e_id (entries_of p)
  /\ Faq.questions (Faq.state p') = Faq.questions (Faq.state p)
  /\ Faq.sections (Faq.state p') = Faq.sections (Faq.state p)
  /\ Faq.activeId (Faq.state p') = Faq.activeId (Faq.state p)
  /\ Faq.elements_accordion (Faq.state p') = Faq.elements_accordion (Faq.state p)
  /\ Faq.window p' = Faq.window p
  /\ Faq.viewer (Faq.dom p') = Faq.viewer (Faq.dom p)
  /\ Faq.accordion (Faq.dom p') = Faq.accordion (Faq.dom p).
Proof.
  intros H. unfold Faq.renderDesktop, Faq.ensureSidebarContent. rewrite H.
  cbn [Faq.state Faq.on_state Faq.on_dom Faq.sections Faq.set_elements_sidebar
       Faq.elements_sidebar].
  destruct (render_side_sections_fold (Faq.sections (Faq.state p)) [] JsMap.empty)
    as [frag [E1 E2]].
  unfold Faq.Index, JsMap.t, JsMap.empty in *. rewrite E1.
  destruct (negb _); cbn; rewrite E2; repeat split.
Qed.

Lemma renderDesktop_ok (p : Faq.Page) : page_ok p -> page_ok (Faq.renderDesktop p).
Proof.
  intros H. destruct (Faq.sidebar (Faq.dom p)) as [sb|] eqn:E.
  - destruct (renderDesktop_spec p E) as [A1 [_ [_ [_ [_ [A6 _]]]]]].
    split; [|rewrite A6; apply H].
    rewrite A1. destruct (@register_links_ok (entries_of p) []) as [N Z].
    + constructor.
    + intros k v [].
    + split; [exact N|]. exists "". now apply none_has_only_at.
  - now rewrite renderDesktop_absent.
Qed.

Lemma renderMobile_absent (p : Faq.Page) :
  Faq.accordion (Faq.dom p) = None -> Faq.renderMobile p = p.
Proof. intros H. unfold Faq.renderMobile. now rewrite H. Qed.

Lemma renderMobile_spec (p : Faq.Page) (a : Faq.AccordionDom) :
  Faq.accordion (Faq.dom p) = Some a ->
  let p' := Faq.renderMobile p in
  entry_nodes (Faq.accordion_nodes p') = map node_of (entries_of p)
  /\ accordion_ok (Faq.elements_accordion (Faq.state p'))
  /\ JsMap.keys (Faq.elements_accordion (Faq.state p'))
     = JsMap.keys (register_items (entries_of p) [])
  /\ Faq.questions (Faq.state p') = Faq.questions (Faq.state p)
  /\ Faq.sections (Faq.state p') = Faq.sections (Faq.state p)
  /\ Faq.activeId (Faq.state p') = Faq.activeId (Faq.state p)
  /\ Faq.elements_sidebar (Faq.state p') = Faq.elements_sidebar (Faq.state p)
  /\ Faq.window p' = Faq.window p
  /\ Faq.viewer (Faq.dom p') = Faq.viewer (Faq.dom p)
  /\ Faq.sidebar (Faq.dom p') = Faq.sidebar (Faq.dom p).
Proof.
  intros H. unfold Faq.renderMobile. rewrite H.
  destruct (render_accordion_sections_fold (Faq.sections (Faq.state p)) [] JsMap.empty)
    as [nodes [E1 E2]].
  unfold Faq.Index, JsMap.t, JsMap.empty in *. rewrite E1.
  set (p1 := if negb _ then _ else _).
  assert (B : Faq.elements_accordion (Faq.state p1) = register_items (entries_of p) []
              /\ Faq.accordion_nodes p1 = nodes
              /\ Faq.questions (Faq.state p1) = Faq.questions (Faq.state p)
              /\ Faq.sections (Faq.state p1) = Faq.sections (Faq.state p)
              /\ Faq.activeId (Faq.state p1) = Faq.activeId (Faq.state p)
              /\ Faq.elements_sidebar (Faq.state p1) = Faq.elements_sidebar (Faq.state p)
              /\ Faq.window p1 = Faq.window p
              /\ Faq.viewer (Faq.dom p1) = Faq.viewer (Faq.dom p)
              /\ Faq.sidebar (Faq.dom p1) = Faq.sidebar (Faq.dom p)).
  { subst p1. unfold Faq.accordion_nodes. destruct (negb _); cbn; repeat split. }
  destruct B as [B1 [B2 [B3 [B4 [B5 [B6 [B7 [B8 B9]]]]]]]].
  destruct (@register_items_ok (entries_of p) []) as [N Z];
    [constructor | intros k v [] |].
  assert (Ok1 : accordion_ok (Faq.elements_accordion (Faq.state p1))).
  { rewrite B1. split; [exact N|]. exists "". now apply none_has_only_at. }
  destruct (Js.truthy (Faq.activeId (Faq.state p1))).
  - destruct (syncMobileAccordion_frame (Faq.activeId (Faq.state p1)) false false p1)
      as [F1 [F2 [_ [F4 [F5 [F6 F7]]]]]].
    assert (OkS : accordion_ok
                    (Faq.elements_accordion
                       (Faq.state (Faq.syncMobileAccordion
                                     (Faq.activeId (Faq.state p1)) false false p1)))).
    { destruct (syncMobileAccordion_panels (Faq.activeId (Faq.state p1)) false false p1)
        as [E | [i [t [_ [_ E]]]]]; rewrite E; [exact Ok1|].
      apply accordion_ok_sync. apply Ok1. }
    assert (KeysS : JsMap.keys
                      (Faq.elements_accordion
                         (Faq.state (Faq.syncMobileAccordion
                                       (Faq.activeId (Faq.state p1)) false false p1)))
                    = JsMap.keys (register_items (entries_of p) [])).
    { destruct (syncMobileAccordion_panels (Faq.activeId (Faq.state p1)) false false p1)
        as [E | [i [t [_ [_ E]]]]]; rewrite E; [now rewrite B1|].
      destruct (Faq.ai_open t); rewrite ?keys_update, keys_collapse_others, B1;
        reflexivity. }
    unfold Faq.accordion_nodes in *. rewrite F1, F2, F4, F5, F6, F7, B2, E2.
    split; [reflexivity|]. split; [exact OkS|]. split; [exact KeysS|].
    repeat split; assumption.
  - rewrite B2, E2. split; [reflexivity|]. split; [exact Ok1|].
    split; [now rewrite B1|]. repeat split; assumption.
Qed.

Lemma renderMobile_ok (p : Faq.Page) : page_ok p -> page_ok (Faq.renderMobile p).
Proof.
  intros H. destruct (Faq.accordion (Faq.dom p)) as [a|] eqn:E.
  - destruct (renderMobile_spec p E) as [_ [A2 [_ [_ [_ [_ [A7 _]]]]]]].
    split; [rewrite A7; apply H | exact A2].
  - now rewrite renderMobile_absent.
Qed.

Lemma page_ok_same_maps (p p' : Faq.Page) :
  Faq.elements_sidebar (Faq.state p') = Faq.elements_sidebar (Faq.state p) ->
  Faq.elements_accordion (Faq.state p') = Faq.elements_accordion (Faq.state p) ->
  page_ok p -> page_ok p'.
Proof. unfold page_ok. now intros -> ->. Qed.

Lemma accordion_ok_update (i : string) (f : Faq.AccordionItem -> Faq.AccordionItem)
    (m : JsMap.t Faq.AccordionItem) :
  NoDup (JsMap.keys m) -> accordion_ok (JsMap.update i f (Faq.collapse_others i m)).
Proof.
  intros H. split.
  - now rewrite keys_update, keys_collapse_others.
  - exists i. apply only_at_update, collapse_others_only_at.
Qed.

Lemma accordion_ok_collapse (i : string) (m : JsMap.t Faq.AccordionItem) :
  NoDup (JsMap.keys m) -> accordion_ok (Faq.collapse_others i m).
Proof.
  intros H. split; [now rewrite keys_collapse_others|].
  exists i. apply collapse_others_only_at.
Qed.

(** One step of a proof that a composed operation keeps [page_ok]. *)
Ltac ok_step :=
  match goal with
  | |- page_ok (Faq.syncMobileAccordion _ _ _ _) => apply syncMobileAccordion_ok
  | |- page_ok (Faq.updateSidebarActive _ _) => apply updateSidebarActive_ok
  | |- page_ok (Faq.renderDesktopQuestion _ _) => apply renderDesktopQuestion_ok
  | |- page_ok (Faq.setHashQuestionId _ _) => apply setHashQuestionId_ok
  | |- page_ok (Faq.renderDesktop _) => apply renderDesktop_ok
  | |- page_ok (Faq.renderMobile _) => apply renderMobile_ok
  | |- page_ok (Faq.applyActiveQuestion _ _ _ _) => apply applyActiveQuestion_ok
  | |- page_ok (Faq.on_dom _ ?p) => apply (@page_ok_same_state p); [reflexivity|]
  | |- page_ok (Faq.on_window _ ?p) => apply (@page_ok_same_state p); [reflexivity|]
  | |- page_ok (Faq.log _ ?p) => apply (@page_ok_same_state p); [reflexivity|]
  | |- page_ok (Faq.set_timers _ ?p) => apply (@page_ok_same_state p); [reflexivity|]
  | |- page_ok (Faq.on_state (Faq.set_activeId _) ?p) =>
      apply (@page_ok_same_maps p); [reflexivity | reflexivity |]
  | |- page_ok (Faq.on_state (Faq.set_index _ _) ?p) =>
      apply (@page_ok_same_maps p); [reflexivity | reflexivity |]
  | |- page_ok (if ?c then _ else _) => destruct c
  | |- page_ok (match ?x with _ => _ end) => destruct x
  | |- page_ok (let (_, _) := ?x in _) => destruct x
  end.

Lemma hydrate_ok (sections : Document) (p : Faq.Page) :
  page_ok p -> page_ok (Faq.hydrate sections p).
Proof. intros H. unfold Faq.hydrate. repeat ok_step; exact H. Qed.

Lemma handleSidebarClick_ok (target : option string) (p : Faq.Page) :
  page_ok p -> page_ok (Faq.handleSidebarClick target p).
Proof.
  intros H. unfold Faq.handleSidebarClick, Faq.scrollQuestionToTop.
  repeat ok_step; exact H.
Qed.

Lemma handleAccordionClick_ok (target : option string) (p : Faq.Page) :
  page_ok p -> page_ok (Faq.handleAccordionClick target p).
Proof.
  intros H. unfold Faq.handleAccordionClick.
  destruct target as [id|]; [|exact H].
  destruct (Js.is_empty id); [exact H|].
  destruct (JsMap.get id (Faq.elements_accordion (Faq.state p))) as [item|]; [|exact H].
  destruct H as [Hs [Hnd _]].
  destruct (Faq.ai_open item).
  - split; [exact Hs|]. cbn. now apply accordion_ok_update.
  - apply applyActiveQuestion_ok. unfold Faq.expandPanel.
    destruct Faq.AUTO_SCROLL; (split; [exact Hs|]); cbn; now apply accordion_ok_update.
Qed.

Lemma handleHashChange_ok (p : Faq.Page) : page_ok p -> page_ok (Faq.handleHashChange p).
Proof. intros H. unfold Faq.handleHashChange. repeat ok_step; exact H. Qed.

Lemma handleLayoutChange_ok (p : Faq.Page) :
  page_ok p -> page_ok (Faq.handleLayoutChange p).
Proof. intros H. unfold Faq.handleLayoutChange. repeat ok_step; exact H. Qed.

Lemma init_ok (net : FetchResult) (p : Faq.Page) : page_ok p -> page_ok (Faq.init net p).
Proof.
  intros H. unfold Faq.init, Faq.loadFaqData, Faq.handleDataLoadError,
    Faq.showErrorState.
  assert (L : page_ok (Faq.log (Fetch "assets/faq-data.json" "no-store")
                         (Faq.showLoadingState p))).
  { unfold Faq.showLoadingState. repeat ok_step; exact H. }
  destruct net as [|ok status body]; [repeat ok_step; exact L|].
  destruct ok; cbn [negb]; [|repeat ok_step; exact L].
  destruct body as [[doc| |s|n|b|]|];
    first [apply hydrate_ok; exact L | repeat ok_step; exact L].
Qed.

Lemma navigateToQuestion_ok (targetIndex : Z) (questionIds : list string) (isMobile : bool)
    (p : Faq.Page) :
  page_ok p -> page_ok (Faq.navigateToQuestion targetIndex questionIds isMobile p).
Proof. intros H. unfold Faq.navigateToQuestion. repeat ok_step; exact H. Qed.

Lemma handleKeyboardNavigation_ok (questionIndex : option Faq.Index) (event : Faq.KeyEvent)
    (p : Faq.Page) :
  page_ok p -> page_ok (Faq.page_of (Faq.handleKeyboardNavigation questionIndex event p)).
Proof.
  intros H. unfold Faq.handleKeyboardNavigation.
  set (p1 := if _ && _ then _ else _).
  assert (H1 : page_ok p1) by (subst p1; repeat ok_step; exact H).
  clearbody p1.
  destruct (Faq.target event); try exact H1;
    (destruct (Faq.ctrlKey event || Faq.metaKey event); [exact H1|]);
    (destruct questionIndex as [index|]; [|exact H1]);
    repeat match goal with
           | |- page_ok (Faq.page_of (if ?c then _ else _)) => destruct c
           end; cbn [Faq.page_of];
    first [ apply navigateToQuestion_ok; exact H1
          | apply handleSidebarClick_ok; exact H1
          | apply handleAccordionClick_ok; exact H1
          | exact H1 ].
Qed.

Lemma dispatch_ok (p : Faq.Page) (ev : Faq.Event) :
  page_ok p -> page_ok (Faq.dispatch p ev).
Proof.
  intros H. destruct ev; cbn [Faq.dispatch].
  - now apply init_ok.
  - now apply hydrate_ok.
  - now apply applyActiveQuestion_ok.
  - now apply handleSidebarClick_ok.
  - now apply handleAccordionClick_ok.
  - apply handleHashChange_ok. ok_step. exact H.
  - apply handleLayoutChange_ok. ok_step. exact H.
  - unfold Faq.handleMotionPreferenceChange, Faq.refreshOpenPanels.
    repeat ok_step; exact H.
  - exact H.
  - unfold Faq.timer_fires, Faq.updateDesktopQuestionContent. repeat ok_step; exact H.
  - now apply handleKeyboardNavigation_ok.
Qed.

Lemma fresh_ok (d : Faq.Dom) (w : Faq.Window) : page_ok (Faq.fresh d w).
Proof.
  split; (split; [constructor | exists ""; intros k v []]).
Qed.

Lemma run_ok (evs : list Faq.Event) :
  forall p, page_ok p -> page_ok (Faq.run p evs).
Proof.
  induction evs as [|ev evs IH]; intros p H; [exact H|].
  apply IH. now apply dispatch_ok.
Qed.

Lemma get_collapse_others (i : string) (m : JsMap.t Faq.AccordionItem) :
  JsMap.get i (Faq.collapse_others i m) = JsMap.get i m.
Proof.
  unfold Faq.collapse_others. rewrite get_forEach, String.eqb_refl. simpl.
  destruct (JsMap.get i m); reflexivity.
Qed.

(** The target of [syncMobileAccordion]: every other panel is closed and
    the target's is open. *)
Lemma syncMobileAccordion_target (i : string) (target : Faq.AccordionItem)
    (scroll focus : bool) (p : Faq.Page) :
  i <> "" ->
  JsMap.get i (Faq.elements_accordion (Faq.state p)) = Some target ->
  let m' := Faq.elements_accordion
              (Faq.state (Faq.syncMobileAccordion (Some i) scroll focus p)) in
  only_at Faq.ai_open i m'
  /\ exists t', JsMap.get i m' = Some t' /\ Faq.ai_open t' = true.
Proof.
  intros Hi G. cbv zeta. unfold Faq.syncMobileAccordion.
  apply is_empty_false in Hi. rewrite Hi.
  assert (Sz : Nat.eqb (JsMap.size (Faq.elements_accordion (Faq.state p))) 0 = false).
  { destruct (Faq.elements_accordion (Faq.state p)); [discriminate | reflexivity]. }
  rewrite Sz, G. cbn [orb].
  assert (K : let m' := if Faq.ai_open target
                        then Faq.collapse_others i (Faq.elements_accordion (Faq.state p))
                        else JsMap.update i Faq.open_item
                               (Faq.collapse_others i (Faq.elements_accordion (Faq.state p)))
              in only_at Faq.ai_open i m'
                 /\ exists t', JsMap.get i m' = Some t' /\ Faq.ai_open t' = true).
  { cbv zeta. destruct (Faq.ai_open target) eqn:O; split.
    - apply collapse_others_only_at.
    - exists target. rewrite get_collapse_others. now split.
    - apply only_at_update, collapse_others_only_at.
    - exists (Faq.open_item target).
      rewrite get_update_same, get_collapse_others, G. now split. }
  unfold Faq.expandPanel. destruct (Faq.ai_open target), scroll, focus; exact K.
Qed.

Lemma applyActiveQuestion_frame (id : option string) (syncHash scrollMobile : bool)
    (p : Faq.Page) :
  let p' := Faq.applyActiveQuestion id syncHash scrollMobile p in
  Faq.questions (Faq.state p') = Faq.questions (Faq.state p)
  /\ Faq.sections (Faq.state p') = Faq.sections (Faq.state p)
  /\ Faq.sidebar (Faq.dom p') = Faq.sidebar (Faq.dom p)
  /\ Faq.accordion (Faq.dom p') = Faq.accordion (Faq.dom p).
Proof.
  cbv zeta. unfold Faq.applyActiveQuestion, Faq.triggerSocialGlow.
  destruct id as [i|]; [|repeat split].
  destruct (Js.is_empty i || _); [repeat split|].
  set (p1 := Faq.renderDesktopQuestion (Some i)
               (Faq.on_state (Faq.set_activeId (Some i)) p)).
  destruct (renderDesktopQuestion_frame (Some i)
              (Faq.on_state (Faq.set_activeId (Some i)) p)) as [R1 [_ [R3 [R4 _]]]].
  fold p1 in R1, R3, R4.
  set (p2 := Faq.updateSidebarActive (Some i) p1).
  set (p3 := if syncHash then Faq.setHashQuestionId (Some i) p2 else p2).
  assert (H3 : Faq.questions (Faq.state p3) = Faq.questions (Faq.state p)
               /\ Faq.sections (Faq.state p3) = Faq.sections (Faq.state p)
               /\ Faq.dom p3 = Faq.dom p1).
  { subst p3. destruct syncHash.
    - destruct (setHashQuestionId_frame (Some i) p2) as [S1 [S2 _]].
      rewrite S1, S2. subst p2. cbn. rewrite R1. repeat split.
    - subst p2. cbn. rewrite R1. repeat split. }
  destruct H3 as [Q3 [S3 D3]].
  destruct (syncMobileAccordion_frame (Some i) scrollMobile false p3)
    as [F1 [_ [_ [F4 [F5 _]]]]].
  destruct (JsMap.get i Faq.SOCIAL_GLOW_MAPPING); cbn [Faq.log Faq.state Faq.dom];
    rewrite F1, F4, F5, D3, Q3, S3, R3, R4; repeat split.
Qed.

(** An activation whose target has a panel closes every other panel and
    leaves the target's open. *)
Lemma applyActiveQuestion_panels (i : string) (syncHash scrollMobile : bool) (p : Faq.Page) :
  i <> "" ->
  JsMap.has i (Faq.questions (Faq.state p)) = true ->
  JsMap.has i (Faq.elements_accordion (Faq.state p)) = true ->
  let m' := Faq.elements_accordion
              (Faq.state (Faq.applyActiveQuestion (Some i) syncHash scrollMobile p)) in
  only_at Faq.ai_open i m'
  /\ exists t', JsMap.get i m' = Some t' /\ Faq.ai_open t' = true.
Proof.
  intros Hi Hq Ha. cbv zeta. unfold Faq.applyActiveQuestion, Faq.triggerSocialGlow.
  rewrite Hq. pose proof Hi as Hi'. apply is_empty_false in Hi'. rewrite Hi'. cbn [orb negb].
  destruct (JsMap.get i (Faq.elements_accordion (Faq.state p))) as [t|] eqn:G;
    [|apply get_None in G; congruence].
  set (p3 := if syncHash then _ else _).
  assert (G3 : JsMap.get i (Faq.elements_accordion (Faq.state p3)) = Some t).
  { subst p3. destruct syncHash.
    - destruct (setHashQuestionId_frame (Some i)
                  (Faq.updateSidebarActive (Some i)
                     (Faq.renderDesktopQuestion (Some i)
                        (Faq.on_state (Faq.set_activeId (Some i)) p)))) as [S1 _].
      rewrite S1. cbn.
      destruct (renderDesktopQuestion_frame (Some i)
                  (Faq.on_state (Faq.set_activeId (Some i)) p)) as [R1 _].
      rewrite R1. exact G.
    - cbn.
      destruct (renderDesktopQuestion_frame (Some i)
                  (Faq.on_state (Faq.set_activeId (Some i)) p)) as [R1 _].
      rewrite R1. exact G. }
  pose proof (@syncMobileAccordion_target i t scrollMobile false p3 Hi G3) as K.
  destruct (JsMap.get i Faq.SOCIAL_GLOW_MAPPING); exact K.
Qed.

(* ===================================================================== *)
(** ** Percent-encoding round trip *)
(* ===================================================================== *)

Lemma percent_decode_encode_byte (a : ascii) (rest : string) :
  Js.percent_decode (Js.encode_byte a rest)
  = option_map (String a) (Js.percent_decode rest).
Proof.
  destruct a as [[] [] [] [] [] [] [] []]; reflexivity.
Qed.

Lemma percent_decode_encode (s : string) :
  Js.percent_decode (Js.encodeURIComponent s) = Some s.
Proof.
  induction s as [|a s IH]; [reflexivity|].
  cbn [Js.encodeURIComponent]. rewrite percent_decode_encode_byte, IH. reflexivity.
Qed.

(** Decoding what [encodeURIComponent] wrote gives the string back. *)
Lemma decode_encode (s : string) :
  Js.utf8_valid s = true ->
  Js.decodeURIComponent (Js.encodeURIComponent s) = Some s.
Proof.
  intros H. unfold Js.decodeURIComponent. rewrite percent_decode_encode, H. reflexivity.
Qed.

Lemma encode_nonempty (s : string) :
  s <> "" -> Js.is_empty (Js.encodeURIComponent s) = false.
Proof.
  destruct s as [|a s]; [congruence|]. intros _. cbn [Js.encodeURIComponent].
  unfold Js.encode_byte. destruct (Js.unreserved a); reflexivity.
Qed.

Lemma without_hash_sign_written (s : string) :
  Faq.without_hash_sign ("#" ++ s) = s.
Proof. reflexivity. Qed.

(** [setHashQuestionId] leaves the encoded id in the hash, whether it
    writes or finds it there. *)
Lemma setHashQuestionId_written (id : string) (p : Faq.Page) :
  id <> "" ->
  Faq.without_hash_sign (Faq.location_hash (Faq.window (Faq.setHashQuestionId (Some id) p)))
  = Js.encodeURIComponent id.
Proof.
  intros H. unfold Faq.setHashQuestionId. apply is_empty_false in H. rewrite H.
  destruct (String.eqb _ _) eqn:E.
  - now apply String.eqb_eq in E.
  - destruct (Faq.history_replaceState (Faq.window p)); reflexivity.
Qed.

(* ===================================================================== *)
(** ** Bullet points *)
(* ===================================================================== *)

(** A line is a bullet when its trimmed form starts with the marker. *)
Definition is_bullet (line : string) : bool := Js.startsWith "* " (Js.trim line).

(** The trimmed text after the marker. *)
Definition bullet_text (line : string) : string := Js.trim (Js.drop 2 (Js.trim line)).

(** A line is empty when nothing is left of it once trimmed. *)
Definition is_blank (line : string) : bool := Js.is_empty (Js.trim line).

(** The longest run of bullet lines [lines] starts with, and the rest. *)
Fixpoint run_of (lines : list string) : list string :=
  match lines with
  | l :: rest => if is_bullet l then l :: run_of rest else []
  | [] => []
  end.

Fixpoint after_run (lines : list string) : list string :=
  match lines with
  | l :: rest => if is_bullet l then after_run rest else lines
  | [] => []
  end.

Lemma after_run_length (lines : list string) :
  List.length (after_run lines) <= List.length lines.
Proof.
  induction lines as [|l rest IH]; simpl; [lia|].
  destruct (is_bullet l); simpl; lia.
Qed.

(** Following the specification's words: every maximal run of consecutive bullet
    lines becomes one [<ul>] holding the text of each, the other lines
    are kept in order unless they are empty. *)
Equations? grouped (lines : list string) : list string by wf (List.length lines) lt :=
  grouped [] := [];
  grouped (l :: rest) with is_bullet l := {
    | true := Faq.list_html (map bullet_text (l :: run_of rest))
                :: grouped (after_run rest);
    | false := if is_blank l then grouped rest else l :: grouped rest }.
Proof.
  - pose proof (after_run_length rest). simpl. lia.
Qed.

Lemma grouped_bullet (l : string) (rest : list string) :
  is_bullet l = true ->
  grouped (l :: rest)
  = Faq.list_html (map bullet_text (l :: run_of rest)) :: grouped (after_run rest).
Proof. intros H. simp grouped. rewrite H. reflexivity. Qed.

Lemma grouped_other (l : string) (rest : list string) :
  is_bullet l = false ->
  grouped (l :: rest) = if is_blank l then grouped rest else l :: grouped rest.
Proof. intros H. simp grouped. rewrite H. reflexivity. Qed.

(** The loop of [formatBulletPoints], from any point: outside a list it
    appends the grouping of the lines left, inside a list it first
    completes the run. *)
Lemma bullet_loop (lines : list string) :
  (forall res cur,
     Faq.bullet_finish
       (fold_left Faq.bullet_step lines
          {| Faq.result := res; Faq.inList := false; Faq.currentList := cur |})
     = res ++ grouped lines)
  /\ (forall res cur, cur <> [] ->
        Faq.bullet_finish
          (fold_left Faq.bullet_step lines
             {| Faq.result := res; Faq.inList := true; Faq.currentList := cur |})
        = res ++ Faq.list_html (cur ++ map bullet_text (run_of lines))
                   :: grouped (after_run lines)).
Proof.
  induction lines as [|l rest [IH1 IH2]]; split; intros res cur.
  - simpl. unfold Faq.bullet_finish. simpl. now rewrite app_nil_r.
  - intros Hc. simpl. unfold Faq.bullet_finish. simpl.
    destruct cur; [congruence|]. simpl. now rewrite app_nil_r.
  - cbn [fold_left]. unfold Faq.bullet_step at 2. cbn [Faq.inList Faq.result Faq.currentList].
    fold (is_bullet l). fold (bullet_text l). fold (is_blank l).
    destruct (is_bullet l) eqn:B.
    + rewrite IH2 by discriminate. rewrite grouped_bullet by exact B. reflexivity.
    + rewrite grouped_other by exact B. destruct (is_blank l).
      * apply IH1.
      * cbn [Faq.inList Faq.result Faq.currentList]. rewrite IH1, <- app_assoc. reflexivity.
  - intros Hc. cbn [fold_left]. unfold Faq.bullet_step at 2.
    cbn [Faq.inList Faq.result Faq.currentList].
    fold (is_bullet l). fold (bullet_text l). fold (is_blank l).
    cbn [run_of after_run]. destruct (is_bullet l) eqn:B.
    + rewrite IH2 by (destruct cur; discriminate).
      cbn [map]. rewrite <- app_assoc. reflexivity.
    + cbn [map]. rewrite app_nil_r, grouped_other by exact B. destruct (is_blank l).
      * rewrite IH1, <- app_assoc. reflexivity.
      * cbn [Faq.inList Faq.result Faq.currentList].
        rewrite IH1, <- !app_assoc. reflexivity.
Qed.

(** The loop computes the grouping. *)
Lemma format_lines_grouped (lines : list string) : Faq.format_lines lines = grouped lines.
Proof. unfold Faq.format_lines. now rewrite (proj1 (bullet_loop lines)). Qed.

(* ===================================================================== *)
(** ** The properties of the specification *)
(* ===================================================================== *)

Lemma get_nth {V} (k : string) (v : V) (m : JsMap.t V) :
  JsMap.get k m = Some v -> exists n, nth_error m n = Some (k, v).
Proof.
  unfold JsMap.get. destruct (find (JsMap.key_is k) m) as [[k' v']|] eqn:F; [|discriminate].
  simpl. intros [= <-]. apply find_some in F. destruct F as [Hin E].
  unfold JsMap.key_is in E. simpl in E. apply String.eqb_eq in E. subst k'.
  now apply In_nth_error.
Qed.

Lemma legacy_find_first (xs : list (option RawSection * RawItem)) (id : string) :
  find (fun entry => String.eqb (Legacy.q_id entry) id) (map legacy_question xs)
  = option_map legacy_question (find (fun x => String.eqb (id_of x) id) xs).
Proof.
  induction xs as [|x xs IH]; simpl; [reflexivity|].
  destruct (String.eqb (id_of x) id); [reflexivity | exact IH].
Qed.

(** C3, as stated, fails on [assets/js/main.js]: for the scenario
    document the list [renderDesktop] builds holds two entries for [x1],
    the second with question text [Q1b], and the sidebar and the
    accordion show two entries each. *)
Lemma legacy_scenario_keeps_both :
  map (fun e => (Legacy.q_id e, Legacy.q_question e)) (Legacy.flatQuestions legacy_scenario)
  = [("x1", Some "Q1"); ("x1", Some "Q1b")]
  /\ List.length (Legacy.sidebar_links legacy_scenario) = 2
  /\ List.length (Legacy.accordion_items legacy_scenario) = 2.
Proof. repeat split. Qed.

(** C3 (amended).  Where a question index is built ([buildQuestionIndex]),
    for every input sequence of sections: the keys of the index are
    distinct and are the ids of the document in order of first
    occurrence; the record of an id is built from the first item that
    carries it (its section, question and answer text), its [order] is
    its rank among the keys; an id no item carries has no record; the
    builder is a total function; for the scenario document the index is
    the single entry [x1] with question [Q1].  The first iteration builds
    no index: [flatQuestions] keeps every item that counts, repeats
    included, and a look-up by id finds the first. *)
Theorem question_index_first_occurrence_wins (doc : Document) :
  let index := fst (Faq.buildQuestionIndex doc) in
  NoDup (JsMap.keys index)
  /\ JsMap.keys index = unique_ids doc
  /\ (forall id x, first_occurrence doc id = Some x ->
        exists n, JsMap.get id index = Some (record_of n x)
                  /\ nth_error index n = Some (id, record_of n x))
  /\ (forall id, first_occurrence doc id = None -> JsMap.get id index = None)
  /\ fst (Faq.buildQuestionIndex scenario_doc)
     = [("x1", {| Faq.e_id := "x1"; Faq.e_section := "A"; Faq.e_question := "Q1";
                  Faq.e_answer := "A1"; Faq.e_order := 0 |})]
  /\ (forall hash status,
        let p := Legacy.init (Response true status (Some (JsonArray doc)))
                   (Legacy.fresh hash) in
        Legacy.flatQuestions p = map legacy_question (valid_items doc)
        /\ forall id,
             find (fun entry => String.eqb (Legacy.q_id entry) id) (Legacy.flatQuestions p)
             = option_map legacy_question (first_occurrence doc id)).
Proof.
  cbv zeta. rewrite buildQuestionIndex_flat.
  split; [rewrite flat_index_keys; apply first_seen_NoDup|].
  split; [apply flat_index_keys|].
  split; [|split; [|split; [reflexivity|]]].
  - intros id x F. unfold first_occurrence in F.
    pose proof (flat_index_get (valid_items doc) id) as G. rewrite F in G.
    destruct (JsMap.get id (flat_index (valid_items doc))) as [e|] eqn:E; [|contradiction].
    destruct G as [n0 ->].
    destruct (get_nth _ _ E) as [n Hn].
    destruct (flat_index_nth _ _ Hn) as [y [_ [_ R]]].
    assert (n0 = n) by (apply (f_equal Faq.e_order) in R; exact R). subst n0.
    exists n. split; [reflexivity | exact Hn].
  - intros id F. unfold first_occurrence in F.
    pose proof (flat_index_get (valid_items doc) id) as G. rewrite F in G.
    destruct (JsMap.get id (flat_index (valid_items doc))); [contradiction | reflexivity].
  - intros hash status.
    destruct (legacy_init_spec doc hash status) as [E _]. cbv zeta in E.
    split; [exact E|]. intros id. rewrite E. apply legacy_find_first.
Qed.

(** The theorem at the scenario document: [x1] occurs first with [Q1],
    and that is its record. *)
Lemma question_index_first_occurrence_wins_witness :
  first_occurrence scenario_doc "x1"
  = Some (Some {| raw_section := Some "A"; raw_hideHeading := false;
                  raw_items := Some [Some {| item_id := Some "x1"; item_q := Some "Q1";
                                             item_a := Some "A1" |};
                                     Some {| item_id := Some "x1"; item_q := Some "Q1b";
                                             item_a := Some "A1b" |}] |},
           {| item_id := Some "x1"; item_q := Some "Q1"; item_a := Some "A1" |})
  /\ first_occurrence scenario_doc "x2" = None
  /\ (exists n, JsMap.get "x1" (fst (Faq.buildQuestionIndex scenario_doc))
                = Some {| Faq.e_id := "x1"; Faq.e_section := "A"; Faq.e_question := "Q1";
                          Faq.e_answer := "A1"; Faq.e_order := n |})
  /\ JsMap.get "x2" (fst (Faq.buildQuestionIndex scenario_doc)) = None.
Proof.
  split; [reflexivity|]. split; [reflexivity|].
  pose proof (question_index_first_occurrence_wins scenario_doc) as T. cbv zeta in T.
  destruct T as [_ [_ [T1 [T2 _]]]]. split.
  - destruct (T1 "x1" _ eq_refl) as [n [G _]]. exists n. exact G.
  - apply T2. reflexivity.
Defined.

(** *** C4: the initial active question *)

Lemma resolve_known (index : Faq.Index) (candidate : option string) (id : string) :
  Faq.resolveQuestionId index candidate = Some id -> JsMap.has id index = true.
Proof.
  unfold Faq.resolveQuestionId. destruct candidate as [c|]; [|discriminate].
  destruct (Js.is_empty c || Nat.eqb (JsMap.size index) 0); [discriminate|].
  destruct (JsMap.has c index) eqn:E1; [intros H; inversion H; subst; exact E1|].
  destruct (Js.startsWith "q-" c).
  - destruct (JsMap.has (Js.drop 2 c) index) eqn:E2; [|discriminate].
    intros H; inversion H; subst; exact E2.
  - destruct (JsMap.has ("q-" ++ c) index) eqn:E2; [|discriminate].
    intros H; inversion H; subst; exact E2.
Qed.


(** The keys of a built index are non-empty strings. *)
Lemma index_keys_nonempty (doc : Document) (k : string) :
  JsMap.has k (fst (Faq.buildQuestionIndex doc)) = true -> k <> "".
Proof.
  rewrite has_In, buildQuestionIndex_flat, flat_index_keys, first_seen_In.
  apply doc_ids_nonempty.
Qed.

Lemma flat_index_ids xs :
  map Faq.e_id (JsMap.values (flat_index xs)) = JsMap.keys (flat_index xs).
Proof.
  induction xs as [|x xs IH] using rev_ind; [reflexivity|].
  rewrite flat_index_snoc. unfold add_valid.
  destruct (JsMap.has (id_of x) (flat_index xs)); [exact IH|].
  unfold JsMap.values, JsMap.keys in *. rewrite !map_app, IH. reflexivity.
Qed.

Lemma flat_index_orders xs :
  map Faq.e_order (JsMap.values (flat_index xs)) = seq 0 (List.length (flat_index xs)).
Proof.
  induction xs as [|x xs IH] using rev_ind; [reflexivity|].
  rewrite flat_index_snoc. unfold add_valid.
  destruct (JsMap.has (id_of x) (flat_index xs)); [exact IH|].
  unfold JsMap.values in *. rewrite length_app, !map_app, IH. simpl.
  rewrite Nat.add_1_r, seq_S. reflexivity.
Qed.

(** Sorting by [order] leaves a list whose orders are consecutive as it
    is. *)
Lemma sort_by_order_sorted (l : list Faq.Entry) :
  forall a, map Faq.e_order l = seq a (List.length l) -> Faq.sort_by_order l = l.
Proof.
  induction l as [|e r IH]; intros a H; [reflexivity|].
  simpl in H. injection H as H1 H2.
  unfold Faq.sort_by_order in *. cbn [fold_right]. rewrite (IH _ H2).
  destruct r as [|x r']; [reflexivity|].
  simpl in H2. injection H2 as H3 _.
  cbn [Faq.insert_by_order]. rewrite H3, <- H1.
  destruct (Nat.leb_spec (Faq.e_order e) (S (Faq.e_order e))); [reflexivity | lia].
Qed.

Lemma first_seen_head (x : string) (l : list string) :
  hd_error (first_seen (x :: l)) = Some x.
Proof.
  unfold first_seen. cbn [fold_left mem existsb app].
  assert (G : forall l acc, exists t,
                fold_left (fun seen y => if mem y seen then seen else seen ++ [y]) l acc
                = acc ++ t).
  { clear. induction l as [|y l IH]; intros acc.
    - exists []. now rewrite app_nil_r.
    - cbn [fold_left]. destruct (mem y acc).
      + apply IH.
      + destruct (IH (acc ++ [y])) as [t E]. exists (y :: t).
        rewrite E, <- app_assoc. reflexivity. }
  destruct (G l [x]) as [t E]. rewrite E. reflexivity.
Qed.

Lemma first_seen_hd (l : list string) : hd_error (first_seen l) = hd_error l.
Proof. destruct l as [|x l]; [reflexivity | apply first_seen_head]. Qed.

(** The first question by [order] is the first question of the
    document. *)
Lemma first_by_order (doc : Document) :
  let index := fst (Faq.buildQuestionIndex doc) in
  option_map Faq.e_id (hd_error (Faq.sort_by_order (JsMap.values index)))
  = hd_error (doc_ids doc).
Proof.
  cbv zeta. rewrite buildQuestionIndex_flat.
  rewrite (@sort_by_order_sorted _ 0).
  - rewrite <- first_seen_hd. fold (unique_ids doc). unfold unique_ids, doc_ids.
    rewrite <- flat_index_keys, <- flat_index_ids.
    destruct (JsMap.values (flat_index (valid_items doc))); reflexivity.
  - rewrite flat_index_orders. unfold JsMap.values. now rewrite length_map.
Qed.

Lemma renderDesktop_core (p : Faq.Page) :
  let p' := Faq.renderDesktop p in
  Faq.questions (Faq.state p') = Faq.questions (Faq.state p)
  /\ Faq.sections (Faq.state p') = Faq.sections (Faq.state p)
  /\ Faq.activeId (Faq.state p') = Faq.activeId (Faq.state p)
  /\ Faq.window p' = Faq.window p
  /\ Faq.viewer (Faq.dom p') = Faq.viewer (Faq.dom p)
  /\ Faq.accordion (Faq.dom p') = Faq.accordion (Faq.dom p).
Proof.
  destruct (Faq.sidebar (Faq.dom p)) as [sb|] eqn:E.
  - destruct (renderDesktop_spec p E) as [_ [_ [A3 [A4 [A5 [_ [A7 [A8 A9]]]]]]]].
    repeat split; assumption.
  - cbv zeta. rewrite renderDesktop_absent by exact E. repeat split.
Qed.

Lemma renderMobile_core (p : Faq.Page) :
  let p' := Faq.renderMobile p in
  Faq.questions (Faq.state p') = Faq.questions (Faq.state p)
  /\ Faq.sections (Faq.state p') = Faq.sections (Faq.state p)
  /\ Faq.activeId (Faq.state p') = Faq.activeId (Faq.state p)
  /\ Faq.window p' = Faq.window p
  /\ Faq.viewer (Faq.dom p') = Faq.viewer (Faq.dom p)
  /\ Faq.sidebar (Faq.dom p') = Faq.sidebar (Faq.dom p).
Proof.
  destruct (Faq.accordion (Faq.dom p)) as [a|] eqn:E.
  - destruct (renderMobile_spec p E) as [_ [_ [_ [A3 [A4 [A5 [_ [A7 [A8 A9]]]]]]]]].
    repeat split; assumption.
  - cbv zeta. rewrite renderMobile_absent by exact E. repeat split.
Qed.

(** The last part of [hydrate]: the active question is shown, or the
    empty-state message. *)
Definition hydrate_show (p : Faq.Page) : Faq.Page :=
  if Js.truthy (Faq.activeId (Faq.state p)) && Faq.has_active (Faq.state p) then
    let p := Faq.renderDesktopQuestion (Faq.activeId (Faq.state p)) p in
    let p := Faq.updateSidebarActive (Faq.activeId (Faq.state p)) p in
    let p := Faq.setHashQuestionId (Faq.activeId (Faq.state p)) p in
    Faq.syncMobileAccordion (Faq.activeId (Faq.state p)) false false p
  else
    match Faq.viewer (Faq.dom p) with
    | Some _ => Faq.on_dom (Faq.set_viewer (Some Faq.ViewerEmptyMessage)) p
    | None => p
    end.

Lemma hydrate_show_frame (p : Faq.Page) :
  let p' := hydrate_show p in
  Faq.questions (Faq.state p') = Faq.questions (Faq.state p)
  /\ Faq.sections (Faq.state p') = Faq.sections (Faq.state p)
  /\ Faq.activeId (Faq.state p') = Faq.activeId (Faq.state p)
  /\ Faq.sidebar (Faq.dom p') = Faq.sidebar (Faq.dom p)
  /\ Faq.accordion (Faq.dom p') = Faq.accordion (Faq.dom p).
Proof.
  cbv zeta. unfold hydrate_show.
  destruct (Js.truthy _ && _).
  - destruct (renderDesktopQuestion_frame (Faq.activeId (Faq.state p)) p)
      as [R1 [_ [R3 [R4 _]]]].
    set (p1 := Faq.renderDesktopQuestion _ p) in *.
    destruct (updateSidebarActive_frame (Faq.activeId (Faq.state p1)) p1)
      as [U1 [_ [_ [_ [U5 [U6 [U7 _]]]]]]].
    set (p2 := Faq.updateSidebarActive _ p1) in *.
    destruct (setHashQuestionId_frame (Faq.activeId (Faq.state p2)) p2) as [S1 [S2 _]].
    set (p3 := Faq.setHashQuestionId _ p2) in *.
    destruct (syncMobileAccordion_frame (Faq.activeId (Faq.state p3)) false false p3)
      as [F1 [_ [_ [F4 [F5 [F6 _]]]]]].
    rewrite F1, F4, F5, F6, S1, S2, U1, U5, U6, U7, R1, R3, R4. repeat split.
  - destruct (Faq.viewer (Faq.dom p)); repeat split.
Qed.

Lemma hydrate_unfold (sections : Document) (p : Faq.Page) :
  Faq.hydrate sections p
  = let p1 := Faq.on_state (Faq.set_index (fst (Faq.buildQuestionIndex sections))
                              (snd (Faq.buildQuestionIndex sections))) p in
    let hashCandidate :=
      Faq.resolveQuestionId (Faq.questions (Faq.state p1)) (Faq.extractHashId p1) in
    let p2 :=
      if Js.truthy hashCandidate then Faq.on_state (Faq.set_activeId hashCandidate) p1
      else if negb (Js.truthy (Faq.activeId (Faq.state p1)))
              || negb (Faq.has_active (Faq.state p1)) then
        Faq.on_state
          (Faq.set_activeId
             match hd_error (Faq.sort_by_order
                               (JsMap.values (Faq.questions (Faq.state p1)))) with
             | Some e => if Js.is_empty (Faq.e_id e) then None else Some (Faq.e_id e)
             | None => None
             end) p1
      else p1 in
    hydrate_show (Faq.renderMobile (Faq.renderDesktop p2)).
Proof.
  unfold Faq.hydrate, hydrate_show.
  destruct (Faq.buildQuestionIndex sections) as [index processed].
  cbn [fst snd]. cbv zeta. reflexivity.
Qed.

(** The page [hydrate] hands to the renderers. *)
Lemma hydrate_resolution (doc : Document) (p : Faq.Page) :
  Faq.activeId (Faq.state p) = None ->
  let index := fst (Faq.buildQuestionIndex doc) in
  let resolved := Faq.resolveQuestionId index (Faq.extractHashId p) in
  let p' := Faq.hydrate doc p in
  Faq.questions (Faq.state p') = index
  /\ Faq.sections (Faq.state p') = snd (Faq.buildQuestionIndex doc)
  /\ Faq.activeId (Faq.state p')
     = match resolved with
       | Some id => Some id
       | None => hd_error (doc_ids doc)
       end.
Proof.
  intros Ha. cbv zeta. rewrite hydrate_unfold. cbv zeta.
  set (p1 := Faq.on_state _ p).
  change (Faq.questions (Faq.state p1)) with (fst (Faq.buildQuestionIndex doc)).
  change (Faq.extractHashId p1) with (Faq.extractHashId p).
  change (Faq.activeId (Faq.state p1)) with (Faq.activeId (Faq.state p)).
  rewrite Ha. cbn [Js.truthy negb orb].
  set (h := Faq.resolveQuestionId _ _).
  match goal with
  | |- context [Faq.renderDesktop ?q] => set (p2 := q)
  end.
  assert (H2 : Faq.questions (Faq.state p2) = fst (Faq.buildQuestionIndex doc)
               /\ Faq.sections (Faq.state p2) = snd (Faq.buildQuestionIndex doc)
               /\ Faq.activeId (Faq.state p2)
                  = match h with Some id => Some id | None => hd_error (doc_ids doc) end).
  { subst p2. destruct h as [id|] eqn:Eh.
    - assert (T : Js.truthy (Some id) = true).
      { simpl. apply negb_true_iff, is_empty_false.
        apply (@index_keys_nonempty doc). now apply (@resolve_known _ _ _ Eh). }
      rewrite T. repeat split.
    - cbn [Js.truthy]. cbn [Faq.on_state Faq.state Faq.set_activeId Faq.questions
                            Faq.sections Faq.activeId].
      repeat split.
      pose proof (first_by_order doc) as F. cbv zeta in F.
      destruct (hd_error (Faq.sort_by_order
                            (JsMap.values (fst (Faq.buildQuestionIndex doc)))))
        as [e|] eqn:E; simpl in F; rewrite <- F; [|reflexivity].
      assert (Hne : Js.is_empty (Faq.e_id e) = false).
      { apply is_empty_false. apply (@doc_ids_nonempty doc).
        destruct (doc_ids doc); [discriminate|]. simpl in F. inversion F. now left. }
      rewrite Hne. reflexivity. }
  destruct H2 as [Q2 [S2 A2]].
  destruct (renderDesktop_core p2) as [D1 [D2 [D3 _]]].
  destruct (renderMobile_core (Faq.renderDesktop p2)) as [M1 [M2 [M3 _]]].
  destruct (hydrate_show_frame (Faq.renderMobile (Faq.renderDesktop p2)))
    as [W1 [W2 [W3 _]]].
  rewrite W1, W2, W3, M1, M2, M3, D1, D2, D3. repeat split; assumption.
Qed.





(** *** C6: how many entries are rendered *)

Lemma filter_is_item_entry_nodes (nodes : list Faq.AccordionNode) :
  filter Faq.is_item (entry_nodes nodes) = filter Faq.is_item nodes.
Proof.
  unfold entry_nodes. induction nodes as [|[t|i h|i] nodes IH]; simpl; now rewrite ?IH.
Qed.

Lemma filter_is_static_entry_nodes (nodes : list Faq.AccordionNode) :
  filter Faq.is_static_block (entry_nodes nodes) = filter Faq.is_static_block nodes.
Proof.
  unfold entry_nodes. induction nodes as [|[t|i h|i] nodes IH]; simpl; now rewrite ?IH.
Qed.

Lemma node_of_counts (entries : list Faq.Entry) :
  List.length (filter Faq.is_item (map node_of entries))
  = List.length (filter (fun id => negb (Faq.is_static id)) (map Faq.e_id entries))
  /\ List.length (filter Faq.is_static_block (map node_of entries))
     = List.length (filter Faq.is_static (map Faq.e_id entries)).
Proof.
  induction entries as [|e entries [IH1 IH2]]; [split; reflexivity|].
  cbn [map filter].
  assert (N : node_of e = if Faq.is_static (Faq.e_id e)
                          then Faq.AccStatic (Faq.e_id e)
                                 (Faq.html_of (Faq.formatBulletPoints
                                                 (Faq.VString (Faq.e_answer e))))
                          else Faq.AccItem (Faq.e_id e)) by reflexivity.
  rewrite N. destruct (Faq.is_static (Faq.e_id e)); cbn [Faq.is_item Faq.is_static_block negb List.length];
    rewrite IH1, IH2; split; reflexivity.
Qed.

Lemma filter_split_length {A} (f : A -> bool) (l : list A) :
  List.length (filter (fun x => negb (f x)) l) + List.length (filter f l) = List.length l.
Proof.
  induction l as [|x l IH]; simpl; [reflexivity|].
  destruct (f x); simpl; lia.
Qed.

(** What [hydrate] renders on a page with a sidebar and an accordion. *)
Lemma hydrate_rendered (doc : Document) (d : Faq.Dom) (w : Faq.Window)
    (sb : Faq.SidebarDom) (ac : Faq.AccordionDom) :
  Faq.sidebar d = Some sb -> Faq.accordion d = Some ac ->
  let p := Faq.hydrate doc (Faq.fresh d w) in
  Faq.side_links (Faq.sidebar (Faq.dom p)) = unique_ids doc
  /\ map Faq.e_id (JsMap.values (Faq.questions (Faq.state p))) = unique_ids doc
  /\ entry_nodes (Faq.accordion_nodes p)
     = map node_of (JsMap.values (Faq.questions (Faq.state p))).
Proof.
  intros Hs Ha. cbv zeta.
  destruct (@hydrate_resolution doc (Faq.fresh d w) eq_refl) as [Q _]. rewrite Q.
  assert (K : map Faq.e_id (JsMap.values (fst (Faq.buildQuestionIndex doc)))
              = unique_ids doc).
  { rewrite buildQuestionIndex_flat, flat_index_ids, flat_index_keys. reflexivity. }
  rewrite hydrate_unfold. cbv zeta.
  match goal with
  | |- context [Faq.renderDesktop ?q] => set (p2 := q)
  end.
  assert (E2 : entries_of p2 = JsMap.values (fst (Faq.buildQuestionIndex doc))
               /\ Faq.sidebar (Faq.dom p2) = Some sb
               /\ Faq.accordion (Faq.dom p2) = Some ac).
  { unfold entries_of. subst p2.
    destruct (Js.truthy _); [|destruct (_ || _)]; cbn;
      rewrite buildQuestionIndex_validItems; repeat split; assumption. }
  destruct E2 as [E2 [S2 A2]].
  destruct (renderDesktop_spec p2 S2) as [_ [D2 [_ [D4 [_ [_ [_ [_ D9]]]]]]]].
  set (p3 := Faq.renderDesktop p2) in *.
  assert (A3 : Faq.accordion (Faq.dom p3) = Some ac) by (now rewrite D9).
  destruct (renderMobile_spec p3 A3) as [M1 [_ [_ [_ [_ [_ [_ [_ [_ M10]]]]]]]]].
  set (p4 := Faq.renderMobile p3) in *.
  destruct (hydrate_show_frame p4) as [_ [_ [_ [W4 W5]]]].
  unfold Faq.accordion_nodes in *. rewrite W4, W5, M10, D2, M1.
  unfold entries_of in *. rewrite D4, E2, K. repeat split.
Qed.

(** C6, as stated, fails: for a document whose only id is the configured
    static id, one sidebar link is rendered and no accordion item (the
    question is shown as a static block), while the document has one
    unique id; and in the first iteration the scenario document, whose
    two items share the id [x1], gets two sidebar links and two accordion
    items for its one unique id. *)
Lemma static_question_has_no_accordion_item :
  let p := Faq.hydrate static_only (Faq.fresh Faq.full_dom (Faq.desktop "")) in
  let q := Legacy.init (Response true 200 (Some (JsonArray scenario_doc)))
             (Legacy.fresh "") in
  unique_id_count static_only = 1
  /\ Faq.sidebar_link_count p = 1
  /\ Faq.accordion_item_count p = 0
  /\ Faq.static_block_count p = 1
  /\ Faq.sidebar_link_count p <> Faq.accordion_item_count p
  /\ unique_id_count scenario_doc = 1
  /\ List.length (Legacy.sidebar_links q) = 2
  /\ List.length (Legacy.accordion_items q) = 2.
Proof. vm_compute. repeat split. discriminate. Qed.

(** C6 (amended).  For every document, after rendering on a page with
    its hosts: the sidebar has one link per unique id; the accordion has
    one node per unique id, an item when the id is not among
    [STATIC_ACCORDION_IDS] and a static block when it is, so the number of
    items is the number of unique ids that are not static.  In the first
    iteration the sidebar links and the accordion items are as many as
    the items with a truthy id, repeats included. *)
Theorem rendered_entry_counts (doc : Document) (w : Faq.Window) (hash : string)
    (status : nat) :
  let p := Faq.hydrate doc (Faq.fresh Faq.full_dom w) in
  let q := Legacy.init (Response true status (Some (JsonArray doc))) (Legacy.fresh hash) in
  Faq.sidebar_link_count p = unique_id_count doc
  /\ Faq.accordion_item_count p + Faq.static_block_count p = unique_id_count doc
  /\ Faq.accordion_item_count p
     = List.length (filter (fun id => negb (Faq.is_static id)) (unique_ids doc))
  /\ Faq.static_block_count p = List.length (filter Faq.is_static (unique_ids doc))
  /\ List.length (Legacy.sidebar_links q) = List.length (doc_ids doc)
  /\ List.length (Legacy.accordion_items q) = List.length (doc_ids doc).
Proof.
  cbv zeta.
  destruct (@hydrate_rendered doc Faq.full_dom w Faq.SidebarMarkup Faq.AccordionMarkup
              eq_refl eq_refl) as [H1 [H2 H3]].
  unfold Faq.sidebar_link_count, Faq.accordion_item_count, Faq.static_block_count,
    unique_id_count.
  rewrite <- filter_is_item_entry_nodes, <- filter_is_static_entry_nodes, H3, H1.
  destruct (node_of_counts
              (JsMap.values
                 (Faq.questions
                    (Faq.state (Faq.hydrate doc (Faq.fresh Faq.full_dom w))))))
    as [N1 N2].
  rewrite N1, N2, H2.
  destruct (legacy_init_spec doc hash status) as [_ [L1 [L2 _]]].
  split; [reflexivity|]. split; [apply filter_split_length|].
  split; [reflexivity|]. split; [reflexivity|]. split.
  - rewrite <- (length_map Legacy.sb_id), L1. reflexivity.
  - rewrite <- (length_map legacy_node_id), L2, length_map. reflexivity.
Qed.

(** *** C5: activation and the URL hash *)

Lemma unreserved_not (c a : ascii) :
  Js.unreserved c = true -> Js.unreserved a = false -> Ascii.eqb c a = false.
Proof.
  intros Hc Ha. destruct (Ascii.eqb c a) eqn:E; [|reflexivity].
  apply Ascii.eqb_eq in E. congruence.
Qed.

Lemma startsWith_dash_encode (s : string) :
  Js.startsWith "-" (Js.encodeURIComponent s) = Js.startsWith "-" s.
Proof.
  destruct s as [|b s]; [reflexivity|]. cbn [Js.encodeURIComponent].
  unfold Js.encode_byte. destruct (Js.unreserved b) eqn:U; [reflexivity|].
  cbn [Js.startsWith]. rewrite (@unreserved_not "-" b eq_refl U). reflexivity.
Qed.

(** Encoding neither adds nor removes a [q-] prefix. *)
Lemma startsWith_q_encode (s : string) :
  Js.startsWith "q-" (Js.encodeURIComponent s) = Js.startsWith "q-" s.
Proof.
  destruct s as [|a s]; [reflexivity|]. cbn [Js.encodeURIComponent].
  unfold Js.encode_byte. destruct (Js.unreserved a) eqn:U.
  - change (Js.startsWith "q-" (String a (Js.encodeURIComponent s)))
      with (Ascii.eqb "q" a && Js.startsWith "-" (Js.encodeURIComponent s)).
    rewrite startsWith_dash_encode. reflexivity.
  - cbn [Js.startsWith]. rewrite (@unreserved_not "q" a eq_refl U). reflexivity.
Qed.

Lemma applyActiveQuestion_known (id : string) (syncHash scrollMobile : bool) (p : Faq.Page) :
  id <> "" -> JsMap.has id (Faq.questions (Faq.state p)) = true ->
  let p' := Faq.applyActiveQuestion (Some id) syncHash scrollMobile p in
  Faq.activeId (Faq.state p') = Some id
  /\ (syncHash = true ->
      Faq.without_hash_sign (Faq.location_hash (Faq.window p')) = Js.encodeURIComponent id).
Proof.
  intros Hi Hq. cbv zeta. unfold Faq.applyActiveQuestion, Faq.triggerSocialGlow.
  rewrite Hq. pose proof Hi as Hi'. apply is_empty_false in Hi'. rewrite Hi'. cbn [orb negb].
  set (p2 := Faq.updateSidebarActive (Some id)
               (Faq.renderDesktopQuestion (Some id)
                  (Faq.on_state (Faq.set_activeId (Some id)) p))).
  assert (A2 : Faq.activeId (Faq.state p2) = Some id).
  { subst p2. cbn.
    destruct (renderDesktopQuestion_frame (Some id)
                (Faq.on_state (Faq.set_activeId (Some id)) p)) as [R1 _].
    rewrite R1. reflexivity. }
  set (p3 := if syncHash then Faq.setHashQuestionId (Some id) p2 else p2).
  assert (A3 : Faq.activeId (Faq.state p3) = Some id
               /\ (syncHash = true ->
                   Faq.without_hash_sign (Faq.location_hash (Faq.window p3))
                   = Js.encodeURIComponent id)).
  { subst p3. destruct syncHash.
    - destruct (setHashQuestionId_frame (Some id) p2) as [S1 _]. rewrite S1.
      split; [exact A2|]. intros _. now apply setHashQuestionId_written.
    - split; [exact A2 | discriminate]. }
  destruct A3 as [A3 W3].
  destruct (syncMobileAccordion_frame (Some id) scrollMobile false p3)
    as [_ [F2 [_ [_ [_ [F6 _]]]]]].
  destruct (JsMap.get id Faq.SOCIAL_GLOW_MAPPING); cbn [Faq.log Faq.state Faq.window];
    rewrite F2, F6; split; assumption.
Qed.

(** C5, as stated, fails for an id that itself starts with [q-]: after
    [q-a] is activated the hash is [#q-a]; stripped of the prefix and
    decoded it reads [a], another id of the index. *)
Lemma prefixed_id_is_not_read_back :
  let p := Faq.hydrate prefixed_id_doc (Faq.fresh Faq.full_dom (Faq.desktop "")) in
  let p' := Faq.applyActiveQuestion (Some "q-a") true false p in
  JsMap.has "q-a" (Faq.questions (Faq.state p)) = true
  /\ Faq.activeId (Faq.state p') = Some "q-a"
  /\ Faq.location_hash (Faq.window p') = "#q-a"
  /\ hash_as_claimed (Faq.location_hash (Faq.window p')) = Some "a"
  /\ hash_as_claimed (Faq.location_hash (Faq.window p')) <> Some "q-a".
Proof. vm_compute. repeat split. discriminate. Qed.

(** C5 (amended).  For every id of an index built from a document (a
    well-formed string), after [activate(id)] with hash syncing: [id] is
    active; the hash, without its [#], is exactly [encodeURIComponent(id)],
    no prefix added; percent-decoded it equals [id]; stripped of an
    optional [q-] prefix and decoded it equals [id] when [id] does not
    itself start with [q-]. *)
Theorem activation_writes_the_id (doc : Document) (p : Faq.Page) (id : string)
    (scrollMobile : bool) :
  Faq.questions (Faq.state p) = fst (Faq.buildQuestionIndex doc) ->
  JsMap.has id (Faq.questions (Faq.state p)) = true ->
  Js.utf8_valid id = true ->
  let p' := Faq.applyActiveQuestion (Some id) true scrollMobile p in
  let written := Faq.without_hash_sign (Faq.location_hash (Faq.window p')) in
  Faq.activeId (Faq.state p') = Some id
  /\ written = Js.encodeURIComponent id
  /\ Js.decodeURIComponent written = Some id
  /\ (Js.startsWith "q-" id = false ->
      hash_as_claimed (Faq.location_hash (Faq.window p')) = Some id).
Proof.
  intros Hq Hin Hu. cbv zeta.
  assert (Hi : id <> "").
  { apply (@index_keys_nonempty doc). now rewrite <- Hq. }
  destruct (@applyActiveQuestion_known id true scrollMobile p Hi Hin) as [A W].
  specialize (W eq_refl).
  split; [exact A|]. split; [exact W|]. split.
  - rewrite W. now apply decode_encode.
  - intros Hs. unfold hash_as_claimed, without_q_prefix.
    rewrite W, startsWith_q_encode, Hs. now apply decode_encode.
Qed.

(** The theorem at the id [a] of the two-id document. *)
Lemma activation_writes_the_id_witness :
  let p := Faq.hydrate prefixed_id_doc (Faq.fresh Faq.full_dom (Faq.desktop "#q-a")) in
  let p' := Faq.applyActiveQuestion (Some "a") true false p in
  Faq.questions (Faq.state p) = fst (Faq.buildQuestionIndex prefixed_id_doc)
  /\ JsMap.has "a" (Faq.questions (Faq.state p)) = true
  /\ Js.utf8_valid "a" = true
  /\ Js.startsWith "q-" "a" = false
  /\ Faq.activeId (Faq.state p') = Some "a"
  /\ Faq.without_hash_sign (Faq.location_hash (Faq.window p')) = "a"
  /\ hash_as_claimed (Faq.location_hash (Faq.window p')) = Some "a".
Proof.
  cbv zeta.
  assert (H1 : Faq.questions
                 (Faq.state (Faq.hydrate prefixed_id_doc
                               (Faq.fresh Faq.full_dom (Faq.desktop "#q-a"))))
               = fst (Faq.buildQuestionIndex prefixed_id_doc))
    by (vm_compute; reflexivity).
  assert (H2 : JsMap.has "a"
                 (Faq.questions
                    (Faq.state (Faq.hydrate prefixed_id_doc
                                  (Faq.fresh Faq.full_dom (Faq.desktop "#q-a"))))) = true)
    by (vm_compute; reflexivity).
  assert (H3 : Js.utf8_valid "a" = true) by (vm_compute; reflexivity).
  assert (H4 : Js.startsWith "q-" "a" = false) by (vm_compute; reflexivity).
  destruct (@activation_writes_the_id prefixed_id_doc _ "a" false H1 H2 H3)
    as [T1 [T2 [_ T4]]].
  split; [exact H1|]. split; [exact H2|]. split; [exact H3|]. split; [exact H4|].
  split; [exact T1|]. split; [exact T2|]. exact (T4 H4).
Defined.

(** *** C9: resolution of a hash candidate *)

Lemma has_nonempty {V} (k : string) (m : JsMap.t V) :
  JsMap.has k m = true -> Nat.eqb (JsMap.size m) 0 = false.
Proof. destruct m; [discriminate | reflexivity]. Qed.

Lemma some_id_nonempty (k : string) (flat : list Legacy.Question) :
  Legacy.some_id k flat = true -> Nat.eqb (List.length flat) 0 = false.
Proof. destruct flat; [discriminate | reflexivity]. Qed.

(** What [extractHashId] returns is never the empty string: the function
    ends in [hash.trim() || null]. *)
Lemma extractHashId_nonempty (p : Faq.Page) (c : string) :
  Faq.extractHashId p = Some c -> c <> "".
Proof.
  unfold Faq.extractHashId. cbv zeta.
  destruct (Js.is_empty (Faq.location_hash (Faq.window p))); [discriminate|].
  destruct (Js.is_empty (Js.drop 1 (Faq.location_hash (Faq.window p)))); [discriminate|].
  destruct (Js.is_empty (Js.trim _)) eqn:E; [discriminate|].
  intros [= <-]. now apply is_empty_false.
Qed.

Lemma intermediate_extractHashId_nonempty (hash c : string) :
  Intermediate.extractHashId hash = Some c -> c <> "".
Proof.
  unfold Intermediate.extractHashId. cbv zeta.
  destruct (Js.is_empty hash); [discriminate|].
  destruct (Js.is_empty (Js.drop 1 hash)); [discriminate|].
  destruct (Js.is_empty (Js.trim _)) eqn:E; [discriminate|].
  intros [= <-]. now apply is_empty_false.
Qed.

Lemma legacy_extractHashId_nonempty (q : Legacy.Page) (c : string) :
  Legacy.extractHashId q = Some c -> c <> "".
Proof.
  unfold Legacy.extractHashId. cbv zeta.
  destruct (Js.is_empty (Legacy.location_hash q)); [discriminate|].
  destruct (Js.is_empty (Js.drop 1 (Legacy.location_hash q))); [discriminate|].
  destruct (Js.is_empty (Js.trim _)) eqn:E; [discriminate|].
  intros [= <-]. now apply is_empty_false.
Qed.

Lemma resolve_prefixed (index : Faq.Index) (c : string) :
  c <> "" -> JsMap.has c index = false -> Js.startsWith "q-" c = false ->
  JsMap.has ("q-" ++ c) index = true ->
  Faq.resolveQuestionId index (Some c) = Some ("q-" ++ c)%string.
Proof.
  intros Hc H1 H2 H3. unfold Faq.resolveQuestionId.
  apply is_empty_false in Hc. rewrite Hc, (has_nonempty _ _ H3), H1, H2, H3. reflexivity.
Qed.

Lemma resolve_key (index : Faq.Index) (c : string) :
  c <> "" -> JsMap.has c index = true -> Faq.resolveQuestionId index (Some c) = Some c.
Proof.
  intros Hc H. unfold Faq.resolveQuestionId.
  apply is_empty_false in Hc. rewrite Hc, (has_nonempty _ _ H), H. reflexivity.
Qed.

Lemma intermediate_resolve_prefixed (questionMap : JsMap.t Intermediate.Entry)
    (c : string) :
  c <> "" -> JsMap.has c questionMap = false -> Js.startsWith "q-" c = false ->
  JsMap.has ("q-" ++ c) questionMap = true ->
  Intermediate.resolveQuestionId questionMap (Some c) = Some ("q-" ++ c)%string.
Proof.
  intros Hc H1 H2 H3. unfold Intermediate.resolveQuestionId.
  apply is_empty_false in Hc. rewrite Hc, (has_nonempty _ _ H3), H1, H2, H3. reflexivity.
Qed.

Lemma intermediate_resolve_key (questionMap : JsMap.t Intermediate.Entry) (c : string) :
  c <> "" -> JsMap.has c questionMap = true ->
  Intermediate.resolveQuestionId questionMap (Some c) = Some c.
Proof.
  intros Hc H. unfold Intermediate.resolveQuestionId.
  apply is_empty_false in Hc. rewrite Hc, (has_nonempty _ _ H), H. reflexivity.
Qed.

Lemma legacy_resolve_prefixed (flatQuestions : list Legacy.Question) (c : string) :
  c <> "" -> Legacy.some_id c flatQuestions = false -> Js.startsWith "q-" c = false ->
  Legacy.some_id ("q-" ++ c) flatQuestions = true ->
  Legacy.resolveQuestionId flatQuestions (Some c) = Some ("q-" ++ c)%string.
Proof.
  intros Hc H1 H2 H3. unfold Legacy.resolveQuestionId.
  apply is_empty_false in Hc.
  rewrite Hc, (some_id_nonempty _ _ H3), H1, H2, H3. reflexivity.
Qed.

Lemma legacy_resolve_key (flatQuestions : list Legacy.Question) (c : string) :
  c <> "" -> Legacy.some_id c flatQuestions = true ->
  Legacy.resolveQuestionId flatQuestions (Some c) = Some c.
Proof.
  intros Hc H. unfold Legacy.resolveQuestionId.
  apply is_empty_false in Hc. rewrite Hc, (some_id_nonempty _ _ H), H. reflexivity.
Qed.

(** C9.  In the three iterations the candidate handed to
    [resolveQuestionId] is what [extractHashId] returns, which is never
    the empty string.  For every such hash candidate [c]: when [c] is no
    key, does not start with [q-] and [q-] followed by [c] is a key, the
    resolution is that key; when [c] is a key, the resolution is [c]
    itself, whatever its prefix.  The same holds of the function on every
    non-empty string, and every key of an index built from a document
    resolves to itself. *)
Theorem resolution_adds_the_prefix :
  ((forall (p : Faq.Page) (c : string), Faq.extractHashId p = Some c -> c <> "")
   /\ (forall (index : Faq.Index) (p : Faq.Page) (c : string),
         Faq.extractHashId p = Some c ->
         JsMap.has c index = false -> Js.startsWith "q-" c = false ->
         JsMap.has ("q-" ++ c) index = true ->
         Faq.resolveQuestionId index (Faq.extractHashId p) = Some ("q-" ++ c)%string)
   /\ (forall (index : Faq.Index) (p : Faq.Page) (c : string),
         Faq.extractHashId p = Some c -> JsMap.has c index = true ->
         Faq.resolveQuestionId index (Faq.extractHashId p) = Some c)
   /\ (forall (index : Faq.Index) (c : string),
         c <> "" -> JsMap.has c index = false -> Js.startsWith "q-" c = false ->
         JsMap.has ("q-" ++ c) index = true ->
         Faq.resolveQuestionId index (Some c) = Some ("q-" ++ c)%string)
   /\ (forall (index : Faq.Index) (c : string),
         c <> "" -> JsMap.has c index = true ->
         Faq.resolveQuestionId index (Some c) = Some c)
   /\ (forall (doc : Document) (c : string),
         JsMap.has c (fst (Faq.buildQuestionIndex doc)) = true ->
         Faq.resolveQuestionId (fst (Faq.buildQuestionIndex doc)) (Some c) = Some c))
  /\ ((forall hash c : string, Intermediate.extractHashId hash = Some c -> c <> "")
      /\ (forall (questionMap : JsMap.t Intermediate.Entry) (hash c : string),
            Intermediate.extractHashId hash = Some c ->
            JsMap.has c questionMap = false -> Js.startsWith "q-" c = false ->
            JsMap.has ("q-" ++ c) questionMap = true ->
            Intermediate.resolveQuestionId questionMap (Intermediate.extractHashId hash)
            = Some ("q-" ++ c)%string)
      /\ (forall (questionMap : JsMap.t Intermediate.Entry) (hash c : string),
            Intermediate.extractHashId hash = Some c -> JsMap.has c questionMap = true ->
            Intermediate.resolveQuestionId questionMap (Intermediate.extractHashId hash)
            = Some c)
      /\ (forall (questionMap : JsMap.t Intermediate.Entry) (c : string),
            c <> "" -> JsMap.has c questionMap = false -> Js.startsWith "q-" c = false ->
            JsMap.has ("q-" ++ c) questionMap = true ->
            Intermediate.resolveQuestionId questionMap (Some c) = Some ("q-" ++ c)%string)
      /\ (forall (questionMap : JsMap.t Intermediate.Entry) (c : string),
            c <> "" -> JsMap.has c questionMap = true ->
            Intermediate.resolveQuestionId questionMap (Some c) = Some c))
  /\ ((forall (q : Legacy.Page) (c : string), Legacy.extractHashId q = Some c -> c <> "")
      /\ (forall (flatQuestions : list Legacy.Question) (q : Legacy.Page) (c : string),
            Legacy.extractHashId q = Some c ->
            Legacy.some_id c flatQuestions = false -> Js.startsWith "q-" c = false ->
            Legacy.some_id ("q-" ++ c) flatQuestions = true ->
            Legacy.resolveQuestionId flatQuestions (Legacy.extractHashId q)
            = Some ("q-" ++ c)%string)
      /\ (forall (flatQuestions : list Legacy.Question) (q : Legacy.Page) (c : string),
            Legacy.extractHashId q = Some c -> Legacy.some_id c flatQuestions = true ->
            Legacy.resolveQuestionId flatQuestions (Legacy.extractHashId q) = Some c)
      /\ (forall (flatQuestions : list Legacy.Question) (c : string),
            c <> "" -> Legacy.some_id c flatQuestions = false ->
            Js.startsWith "q-" c = false ->
            Legacy.some_id ("q-" ++ c) flatQuestions = true ->
            Legacy.resolveQuestionId flatQuestions (Some c) = Some ("q-" ++ c)%string)
      /\ (forall (flatQuestions : list Legacy.Question) (c : string),
            c <> "" -> Legacy.some_id c flatQuestions = true ->
            Legacy.resolveQuestionId flatQuestions (Some c) = Some c)).
Proof.
  split; [|split].
  - split; [exact extractHashId_nonempty|].
    split; [|split; [|split; [exact resolve_prefixed|split; [exact resolve_key|]]]].
    + intros index p c E. rewrite E. apply resolve_prefixed.
      exact (@extractHashId_nonempty p c E).
    + intros index p c E. rewrite E. apply resolve_key.
      exact (@extractHashId_nonempty p c E).
    + intros doc c H. apply resolve_key; [|exact H]. now apply (@index_keys_nonempty doc).
  - split; [exact intermediate_extractHashId_nonempty|].
    split; [|split; [|split; [exact intermediate_resolve_prefixed
                             |exact intermediate_resolve_key]]].
    + intros m hash c E. rewrite E. apply intermediate_resolve_prefixed.
      exact (@intermediate_extractHashId_nonempty hash c E).
    + intros m hash c E. rewrite E. apply intermediate_resolve_key.
      exact (@intermediate_extractHashId_nonempty hash c E).
  - split; [exact legacy_extractHashId_nonempty|].
    split; [|split; [|split; [exact legacy_resolve_prefixed|exact legacy_resolve_key]]].
    + intros flat q c E. rewrite E. apply legacy_resolve_prefixed.
      exact (@legacy_extractHashId_nonempty q c E).
    + intros flat q c E. rewrite E. apply legacy_resolve_key.
      exact (@legacy_extractHashId_nonempty q c E).
Qed.

(** The theorem at the hashes [#x] and [#q-x], against an index whose
    only key is [q-x]. *)
Lemma resolution_adds_the_prefix_witness :
  let index := fst (Faq.buildQuestionIndex prefixed_only_doc) in
  let p := Faq.fresh Faq.full_dom (Faq.desktop "#x") in
  let p' := Faq.fresh Faq.full_dom (Faq.desktop "#q-x") in
  Faq.extractHashId p = Some "x" /\ Faq.extractHashId p' = Some "q-x"
  /\ JsMap.has "x" index = false /\ Js.startsWith "q-" "x" = false
  /\ JsMap.has ("q-" ++ "x") index = true
  /\ Faq.resolveQuestionId index (Faq.extractHashId p) = Some "q-x"
  /\ Faq.resolveQuestionId index (Faq.extractHashId p') = Some "q-x".
Proof.
  cbv zeta. destruct resolution_adds_the_prefix as [[_ [T1 [T2 _]]] _].
  assert (E : Faq.extractHashId (Faq.fresh Faq.full_dom (Faq.desktop "#x")) = Some "x")
    by (vm_compute; reflexivity).
  assert (E' : Faq.extractHashId (Faq.fresh Faq.full_dom (Faq.desktop "#q-x"))
               = Some "q-x") by (vm_compute; reflexivity).
  assert (H1 : JsMap.has "x" (fst (Faq.buildQuestionIndex prefixed_only_doc)) = false)
    by (vm_compute; reflexivity).
  assert (H2 : Js.startsWith "q-" "x" = false) by (vm_compute; reflexivity).
  assert (H3 : JsMap.has ("q-" ++ "x") (fst (Faq.buildQuestionIndex prefixed_only_doc))
               = true) by (vm_compute; reflexivity).
  assert (H4 : JsMap.has "q-x" (fst (Faq.buildQuestionIndex prefixed_only_doc)) = true)
    by (vm_compute; reflexivity).
  split; [exact E|]. split; [exact E'|]. split; [exact H1|]. split; [exact H2|].
  split; [exact H3|].
  split; [exact (T1 _ _ "x" E H1 H2 H3) | exact (T2 _ _ "q-x" E' H4)].
Defined.

(** *** C8: loading the document *)

Lemma requests_syncMobileAccordion (id : option string) (scroll focus : bool) (p : Faq.Page) :
  requests (Faq.effects (Faq.syncMobileAccordion id scroll focus p))
  = requests (Faq.effects p).
Proof.
  unfold Faq.syncMobileAccordion, Faq.expandPanel. split_matches; reflexivity.
Qed.

Lemma requests_renderDesktopQuestion (id : option string) (p : Faq.Page) :
  requests (Faq.effects (Faq.renderDesktopQuestion id p)) = requests (Faq.effects p).
Proof. unfold Faq.renderDesktopQuestion. split_matches; reflexivity. Qed.

Lemma requests_setHashQuestionId (id : option string) (p : Faq.Page) :
  requests (Faq.effects (Faq.setHashQuestionId id p)) = requests (Faq.effects p).
Proof. unfold Faq.setHashQuestionId. split_matches; reflexivity. Qed.

Lemma requests_renderDesktop (p : Faq.Page) :
  requests (Faq.effects (Faq.renderDesktop p)) = requests (Faq.effects p).
Proof.
  unfold Faq.renderDesktop, Faq.ensureSidebarContent.
  destruct (Faq.sidebar (Faq.dom p)); [|reflexivity].
  destruct (fold_left _ _ _). destruct (negb _); reflexivity.
Qed.

Lemma requests_renderMobile (p : Faq.Page) :
  requests (Faq.effects (Faq.renderMobile p)) = requests (Faq.effects p).
Proof.
  unfold Faq.renderMobile.
  destruct (Faq.accordion (Faq.dom p)); [|reflexivity].
  destruct (fold_left _ _ _).
  destruct (Js.truthy _); [rewrite requests_syncMobileAccordion|];
    destruct (negb _); reflexivity.
Qed.

Lemma requests_hydrate (doc : Document) (p : Faq.Page) :
  requests (Faq.effects (Faq.hydrate doc p)) = requests (Faq.effects p).
Proof.
  rewrite hydrate_unfold. cbv zeta. unfold hydrate_show.
  match goal with
  | |- context [Faq.renderDesktop ?q] => set (p2 := q)
  end.
  assert (E : requests (Faq.effects (Faq.renderMobile (Faq.renderDesktop p2)))
              = requests (Faq.effects p)).
  { rewrite requests_renderMobile, requests_renderDesktop. subst p2.
    destruct (Js.truthy _); [|destruct (_ || _)]; reflexivity. }
  destruct (_ && _).
  - rewrite requests_syncMobileAccordion, requests_setHashQuestionId.
    cbn [Faq.updateSidebarActive Faq.on_state Faq.effects].
    rewrite requests_renderDesktopQuestion. exact E.
  - destruct (Faq.viewer _); exact E.
Qed.

Lemma legacy_requests_syncMobileAccordion (id : option string) (scroll focus : bool)
    (p : Legacy.Page) :
  requests (Legacy.effects (Legacy.syncMobileAccordion id scroll focus p))
  = requests (Legacy.effects p).
Proof. unfold Legacy.syncMobileAccordion. split_matches; reflexivity. Qed.

Lemma legacy_requests_renderDesktopQuestion (id : option string) (p : Legacy.Page) :
  requests (Legacy.effects (Legacy.renderDesktopQuestion id p)) = requests (Legacy.effects p).
Proof. unfold Legacy.renderDesktopQuestion. split_matches; reflexivity. Qed.

Lemma legacy_requests_updateSidebarActive (id : option string) (p : Legacy.Page) :
  requests (Legacy.effects (Legacy.updateSidebarActive id p)) = requests (Legacy.effects p).
Proof. unfold Legacy.updateSidebarActive. split_matches; reflexivity. Qed.

Lemma legacy_requests_setHashQuestionId (id : option string) (p : Legacy.Page) :
  requests (Legacy.effects (Legacy.setHashQuestionId id p)) = requests (Legacy.effects p).
Proof. unfold Legacy.setHashQuestionId. split_matches; reflexivity. Qed.

Lemma legacy_requests_renderDesktop (p : Legacy.Page) :
  requests (Legacy.effects (Legacy.renderDesktop p)) = requests (Legacy.effects p).
Proof.
  unfold Legacy.renderDesktop.
  destruct (Legacy.viewer p); [|reflexivity].
  destruct (Legacy.sidebar p); [|reflexivity].
  destruct (fold_left _ _ _) as [flat fragment].
  cbn [Legacy.flatQuestions Legacy.set_sidebar Legacy.set_data].
  destruct flat as [|first rest]; [reflexivity|].
  cbn [Legacy.set_bound Legacy.effects].
  rewrite legacy_requests_setHashQuestionId, legacy_requests_updateSidebarActive,
    legacy_requests_renderDesktopQuestion.
  destruct (_ || _); destruct (Js.truthy _); reflexivity.
Qed.

Lemma legacy_requests_renderMobile (p : Legacy.Page) :
  requests (Legacy.effects (Legacy.renderMobile p)) = requests (Legacy.effects p).
Proof.
  unfold Legacy.renderMobile.
  destruct (Legacy.accordion p); [|reflexivity].
  destruct (Js.truthy _); [rewrite legacy_requests_syncMobileAccordion|]; reflexivity.
Qed.

(** C8.  [init] sends exactly one request, for [assets/faq-data.json]
    with the cache disabled, whatever comes back.  When what comes back
    is an [ok] response whose body parses to an array, that array is
    hydrated.  In every other case (network failure, non-success status,
    body that does not parse, value that is not an array) the loader
    raises one error, nothing is hydrated, there is no second request,
    the viewer shows the no-data message and neither sidebar links nor
    accordion nodes are shown.  The same holds for the first iteration. *)
Theorem load_failure_is_fatal (net : FetchResult) (d : Faq.Dom) (w : Faq.Window)
    (v : Faq.Viewer) (hash : string) :
  Faq.viewer d = Some v ->
  let p := Faq.init net (Faq.fresh d w) in
  let q := Legacy.init net (Legacy.fresh hash) in
  requests (Faq.effects p) = [Fetch "assets/faq-data.json" "no-store"]
  /\ requests (Legacy.effects q) = [Fetch "assets/faq-data.json" "no-store"]
  /\ match net with
     | Response true _ (Some (JsonArray doc)) =>
         snd (Faq.loadFaqData net (Faq.fresh d w)) = inr doc
         /\ Faq.questions (Faq.state p) = fst (Faq.buildQuestionIndex doc)
         /\ Legacy.FAQ q = doc
     | _ =>
         (exists error,
            snd (Faq.loadFaqData net (Faq.fresh d w)) = inl error
            /\ Faq.effects p = [ConsoleError error; Fetch "assets/faq-data.json" "no-store"]
            /\ Legacy.effects q
               = [ConsoleError error; Fetch "assets/faq-data.json" "no-store"])
         /\ Faq.state p = Faq.state (Faq.fresh d w)
         /\ Faq.viewer (Faq.dom p) = Some Faq.ViewerNoDataMessage
         /\ Faq.side_links (Faq.sidebar (Faq.dom p)) = []
         /\ Faq.accordion_nodes p = []
         /\ Legacy.flatQuestions q = []
         /\ Legacy.activeDesktopId q = None
         /\ Legacy.viewer q = Some Legacy.ViewerNoDataMessage
         /\ Legacy.sidebar_links q = []
         /\ Legacy.accordion_items q = []
     end.
Proof.
  intros Hv. cbv zeta.
  destruct d as [dv sb ac kb]. simpl in Hv. subst dv.
  set (d := {| Faq.viewer := Some v; Faq.sidebar := sb; Faq.accordion := ac;
               Faq.keyboard_navigation := kb |}).
  assert (L : Faq.effects (Faq.showLoadingState (Faq.fresh d w)) = []
              /\ Faq.state (Faq.showLoadingState (Faq.fresh d w))
                 = Faq.state (Faq.fresh d w)).
  { subst d. destruct sb, ac; split; reflexivity. }
  destruct L as [L1 L2].
  assert (Fail : forall error,
            let p := Faq.handleDataLoadError error
                       (Faq.showErrorState error
                          (Faq.log (Fetch "assets/faq-data.json" "no-store")
                             (Faq.showLoadingState (Faq.fresh d w)))) in
            Faq.effects p = [ConsoleError error; Fetch "assets/faq-data.json" "no-store"]
            /\ Faq.state p = Faq.state (Faq.fresh d w)
            /\ Faq.viewer (Faq.dom p) = Some Faq.ViewerNoDataMessage
            /\ Faq.side_links (Faq.sidebar (Faq.dom p)) = []
            /\ Faq.accordion_nodes p = []).
  { intros error. cbv zeta. subst d.
    unfold Faq.accordion_nodes. destruct sb, ac; repeat split. }
  destruct net as [|ok status body].
  - destruct (Fail FetchFailed) as [F1 [F2 [F3 [F4 F5]]]].
    unfold Faq.init, Faq.loadFaqData. cbv zeta. rewrite F1.
    repeat split; try assumption. exists FetchFailed. repeat split.
  - destruct ok.
    + destruct body as [[doc| |s|n|b|]|].
      * unfold Faq.init, Faq.loadFaqData, Legacy.init, Legacy.loadFAQ. cbn [negb snd].
        rewrite requests_hydrate, legacy_requests_renderMobile,
          legacy_requests_renderDesktop.
        cbn [Faq.log Faq.effects]. rewrite L1.
        split; [reflexivity|]. split; [reflexivity|]. split; [reflexivity|]. split.
        -- match goal with
           | |- context [Faq.hydrate doc ?p0] =>
               assert (A0 : Faq.activeId (Faq.state p0) = None)
                 by (cbn [Faq.log Faq.state]; rewrite L2; reflexivity);
               destruct (@hydrate_resolution doc p0 A0) as [Q _]
           end.
           exact Q.
        -- match goal with
           | |- context [Legacy.renderMobile ?p1] =>
               destruct (legacy_renderMobile_spec p1 (a := None)) as [M1 _]
           end.
           { match goal with
             | |- context [Legacy.renderDesktop ?p0] =>
                 destruct (@legacy_renderDesktop_spec p0 Legacy.ViewerMarkup None
                             eq_refl eq_refl eq_refl) as [_ [_ [_ [B4 _]]]]
             end.
             rewrite B4. reflexivity. }
           rewrite M1.
           match goal with
           | |- context [Legacy.renderDesktop ?p0] =>
               destruct (@legacy_renderDesktop_spec p0 Legacy.ViewerMarkup None
                           eq_refl eq_refl eq_refl) as [B1 _]
           end.
           rewrite B1. reflexivity.
      * destruct (Fail NotAnArray) as [F1 [F2 [F3 [F4 F5]]]].
        unfold Faq.init, Faq.loadFaqData. cbv zeta. cbn [negb]. rewrite F1.
        repeat split; try assumption. exists NotAnArray. repeat split.
      * destruct (Fail NotAnArray) as [F1 [F2 [F3 [F4 F5]]]].
        unfold Faq.init, Faq.loadFaqData. cbv zeta. cbn [negb]. rewrite F1.
        repeat split; try assumption. exists NotAnArray. repeat split.
      * destruct (Fail NotAnArray) as [F1 [F2 [F3 [F4 F5]]]].
        unfold Faq.init, Faq.loadFaqData. cbv zeta. cbn [negb]. rewrite F1.
        repeat split; try assumption. exists NotAnArray. repeat split.
      * destruct (Fail NotAnArray) as [F1 [F2 [F3 [F4 F5]]]].
        unfold Faq.init, Faq.loadFaqData. cbv zeta. cbn [negb]. rewrite F1.
        repeat split; try assumption. exists NotAnArray. repeat split.
      * destruct (Fail NotAnArray) as [F1 [F2 [F3 [F4 F5]]]].
        unfold Faq.init, Faq.loadFaqData. cbv zeta. cbn [negb]. rewrite F1.
        repeat split; try assumption. exists NotAnArray. repeat split.
      * destruct (Fail JsonSyntaxError) as [F1 [F2 [F3 [F4 F5]]]].
        unfold Faq.init, Faq.loadFaqData. cbv zeta. cbn [negb]. rewrite F1.
        repeat split; try assumption. exists JsonSyntaxError. repeat split.
    + destruct (Fail (HttpError status)) as [F1 [F2 [F3 [F4 F5]]]].
      unfold Faq.init, Faq.loadFaqData. cbv zeta. cbn [negb]. rewrite F1.
      repeat split; try assumption. exists (HttpError status). repeat split.
Qed.

(** The theorem at a 404 response, on a page with its hosts. *)
Lemma load_failure_is_fatal_witness :
  let p := Faq.init (Response false 404 None) (Faq.fresh Faq.full_dom (Faq.desktop "")) in
  Faq.viewer Faq.full_dom = Some (Faq.ViewerMarkup false)
  /\ requests (Faq.effects p) = [Fetch "assets/faq-data.json" "no-store"]
  /\ Faq.effects p = [ConsoleError (HttpError 404); Fetch "assets/faq-data.json" "no-store"]
  /\ Faq.viewer (Faq.dom p) = Some Faq.ViewerNoDataMessage
  /\ Faq.side_links (Faq.sidebar (Faq.dom p)) = []
  /\ Faq.accordion_nodes p = [].
Proof.
  cbv zeta.
  pose proof (@load_failure_is_fatal (Response false 404 None) Faq.full_dom
                (Faq.desktop "") (Faq.ViewerMarkup false) "" eq_refl) as T.
  cbv zeta in T. cbv iota in T.
  destruct T as [T1 [_ [[error [E1 [E2 _]]] [_ [T5 [T6 [T7 _]]]]]]].
  split; [reflexivity|]. split; [exact T1|]. split; [|split; [exact T5|split; assumption]].
  rewrite E2. clear - E1. vm_compute in E1. injection E1 as <-. reflexivity.
Defined.

(** *** C10: bullet points *)

(** C10.  [formatBulletPoints] is a total function on the values it can
    be handed; it returns anything that is not a non-empty string as it
    is; on a non-empty string it returns the lines of the grouping
    joined by line feeds, where every maximal run of consecutive bullet
    lines (lines whose trimmed form starts with the marker) has become
    one [<ul>] with an [<li>] for the trimmed text after each marker
    (a run at the end included), the other lines are kept in order and
    the lines that are empty once trimmed are dropped; and the body of
    every accordion item and of every static block is the answer so
    formatted. *)
Theorem bullet_points_are_grouped :
  (forall text : Faq.JsValue,
     match text with
     | Faq.VString (String a s) =>
         Faq.formatBulletPoints text
         = Faq.VString (Js.join Js.LF (grouped (Js.split_lines (String a s))))
     | _ => Faq.formatBulletPoints text = text
     end)
  /\ grouped [] = []
  /\ (forall l rest,
        grouped (l :: rest)
        = if is_bullet l
          then Faq.list_html (map bullet_text (l :: run_of rest)) :: grouped (after_run rest)
          else if is_blank l then grouped rest
          else l :: grouped rest)
  /\ (forall items,
        Faq.list_html items
        = ("<ul>" ++ Js.join "" (map (fun item => "<li>" ++ item ++ "</li>") items)
           ++ "</ul>")%string)
  /\ (forall entry : Faq.Entry,
        Faq.ai_body (Faq.createAccordionItem entry)
        = Faq.html_of (Faq.formatBulletPoints (Faq.VString (Faq.e_answer entry)))
        /\ Faq.createStaticAccordionBlock entry
           = Faq.AccStatic (Faq.e_id entry)
               (Faq.html_of (Faq.formatBulletPoints (Faq.VString (Faq.e_answer entry)))))
  /\ Faq.formatBulletPoints
       (Faq.VString ("intro" ++ Js.LF ++ "* a" ++ Js.LF ++ "  *  b " ++ Js.LF ++ "   "
                     ++ Js.LF ++ "* c" ++ Js.LF ++ "end" ++ Js.LF ++ "* d"))
     = Faq.VString ("intro" ++ Js.LF ++ "<ul><li>a</li><li>b</li></ul>" ++ Js.LF
                    ++ "<ul><li>c</li></ul>" ++ Js.LF ++ "end" ++ Js.LF
                    ++ "<ul><li>d</li></ul>").
Proof.
  split; [|split; [|split; [|split; [|split]]]].
  - intros [| | | | |[|a s]]; try reflexivity.
    unfold Faq.formatBulletPoints. cbn [Js.is_empty].
    rewrite format_lines_grouped. reflexivity.
  - reflexivity.
  - intros l rest. destruct (is_bullet l) eqn:B.
    + now apply grouped_bullet.
    + now apply grouped_other.
  - reflexivity.
  - intros entry. split; reflexivity.
  - vm_compute. reflexivity.
Qed.

(** *** C2: one active control, one open panel *)

(** What an activation does to the panels: nothing, or every panel other
    than the target's is collapsed first and the target's is then opened
    unless it was open already. *)
Lemma applyActiveQuestion_accordion (id : option string) (syncHash scrollMobile : bool)
    (p : Faq.Page) :
  let m := Faq.elements_accordion (Faq.state p) in
  let m' := Faq.elements_accordion
              (Faq.state (Faq.applyActiveQuestion id syncHash scrollMobile p)) in
  m' = m
  \/ exists i target,
       id = Some i /\ JsMap.get i m = Some target
       /\ m' = (if Faq.ai_open target then Faq.collapse_others i m
                else JsMap.update i Faq.open_item (Faq.collapse_others i m)).
Proof.
  cbv zeta. unfold Faq.applyActiveQuestion, Faq.triggerSocialGlow.
  destruct id as [i|]; [|now left].
  destruct (Js.is_empty i || _); [now left|].
  set (p3 := if syncHash then _ else _).
  assert (E3 : Faq.elements_accordion (Faq.state p3) = Faq.elements_accordion (Faq.state p)).
  { subst p3.
    destruct (renderDesktopQuestion_frame (Some i)
                (Faq.on_state (Faq.set_activeId (Some i)) p)) as [R1 _].
    destruct syncHash.
    - destruct (setHashQuestionId_frame (Some i)
                  (Faq.updateSidebarActive (Some i)
                     (Faq.renderDesktopQuestion (Some i)
                        (Faq.on_state (Faq.set_activeId (Some i)) p)))) as [S1 _].
      rewrite S1. cbn. rewrite R1. reflexivity.
    - cbn. rewrite R1. reflexivity. }
  pose proof (syncMobileAccordion_panels (Some i) scrollMobile false p3) as K.
  cbv zeta in K. rewrite E3 in K.
  destruct (JsMap.get i Faq.SOCIAL_GLOW_MAPPING); exact K.
Qed.

(** C2, as stated, fails for a question shown as a static block: on
    the page hydrated from [plain_and_static], where [a] is active and
    its panel open, the activation of [kim-jestesmy], a key of the index,
    is accepted and makes it the active question, but it has no panel, so
    [syncMobileAccordion] returns before its collapse loop: the panels
    are left as they were and the panel of [a], another question, is
    still open. *)
Lemma static_activation_collapses_nothing :
  let p := Faq.hydrate plain_and_static (Faq.fresh Faq.full_dom (Faq.desktop "")) in
  let p' := Faq.applyActiveQuestion (Some "kim-jestesmy") true false p in
  Faq.activeId (Faq.state p) = Some "a"
  /\ JsMap.has "kim-jestesmy" (Faq.questions (Faq.state p)) = true
  /\ JsMap.has "kim-jestesmy" (Faq.elements_accordion (Faq.state p)) = false
  /\ Faq.activeId (Faq.state p') = Some "kim-jestesmy"
  /\ Faq.location_hash (Faq.window p') = "#kim-jestesmy"
  /\ Faq.elements_accordion (Faq.state p') = Faq.elements_accordion (Faq.state p)
  /\ option_map Faq.ai_open (JsMap.get "a" (Faq.elements_accordion (Faq.state p')))
     = Some true
  /\ "a" <> "kim-jestesmy".
Proof. vm_compute. repeat split. discriminate. Qed.

(** C2 (amended).  After any sequence of events on a fresh page
    (hydration, activations, sidebar and accordion clicks, hash, layout
    and motion changes, resizes, timers and key presses), at most one
    sidebar control carries the active indicator and at most one
    accordion panel is open.  An activation either leaves the panels as
    they are, or collapses every panel other than the target's first and
    then opens the target's unless it is open already.  The activation of
    a question that has a panel does the second: afterwards no other
    panel is open and the target's is.  The activation of a question of
    the index that has no panel (one shown as a static block) is
    accepted, the question becomes the active one, and the panels are
    left as they are: nothing is collapsed. *)
Theorem at_most_one_marked_and_open (d : Faq.Dom) (w : Faq.Window) (evs : list Faq.Event) :
  let p := Faq.run (Faq.fresh d w) evs in
  let m := Faq.elements_accordion (Faq.state p) in
  Faq.marked_count p <= 1
  /\ Faq.open_count p <= 1
  /\ forall (id : option string) (syncHash scrollMobile : bool),
       let p' := Faq.applyActiveQuestion id syncHash scrollMobile p in
       let m' := Faq.elements_accordion (Faq.state p') in
       (m' = m
        \/ exists i target,
             id = Some i /\ JsMap.get i m = Some target
             /\ m' = (if Faq.ai_open target then Faq.collapse_others i m
                      else JsMap.update i Faq.open_item (Faq.collapse_others i m)))
       /\ (forall i, id = Some i -> i <> "" ->
             JsMap.has i (Faq.questions (Faq.state p)) = true ->
             JsMap.has i m = true ->
             (forall k entry, In (k, entry) m' -> k <> i -> Faq.ai_open entry = false)
             /\ exists entry, JsMap.get i m' = Some entry /\ Faq.ai_open entry = true)
       /\ (forall i, id = Some i -> i <> "" ->
             JsMap.has i (Faq.questions (Faq.state p)) = true ->
             JsMap.has i m = false ->
             Faq.activeId (Faq.state p') = Some i /\ m' = m).
Proof.
  cbv zeta.
  destruct (run_ok evs (fresh_ok d w)) as [[Ns [i Hs]] [Na [j Ha]]].
  split; [|split].
  - unfold Faq.marked_count. exact (only_at_count Ns Hs).
  - unfold Faq.open_count. exact (only_at_count Na Ha).
  - intros id syncHash scrollMobile. split; [|split].
    + apply applyActiveQuestion_accordion.
    + intros k -> Hk Hq Hm.
      exact (@applyActiveQuestion_panels k syncHash scrollMobile _ Hk Hq Hm).
    + intros k -> Hk Hq Hm.
      destruct (@applyActiveQuestion_known k syncHash scrollMobile _ Hk Hq) as [A _].
      split; [exact A|].
      destruct (applyActiveQuestion_accordion (Some k) syncHash scrollMobile
                  (Faq.run (Faq.fresh d w) evs)) as [E | [i0 [t [Ei [G _]]]]];
        [exact E|].
      injection Ei as <-. apply get_Some_has in G. congruence.
Qed.

(** The theorem after a hydration and a click on the second panel, with
    the first question activated next. *)
Lemma at_most_one_marked_and_open_witness :
  let p := Faq.run (Faq.fresh Faq.full_dom (Faq.desktop ""))
             [Faq.Hydrate two_questions; Faq.AccordionClick (Some "b")] in
  let m' := Faq.elements_accordion
              (Faq.state (Faq.applyActiveQuestion (Some "a") true false p)) in
  Faq.marked_count p = 1 /\ Faq.open_count p = 1
  /\ Faq.marked_count p <= 1 /\ Faq.open_count p <= 1
  /\ JsMap.has "a" (Faq.questions (Faq.state p)) = true
  /\ JsMap.has "a" (Faq.elements_accordion (Faq.state p)) = true
  /\ (forall k entry, In (k, entry) m' -> k <> "a" -> Faq.ai_open entry = false)
  /\ exists entry, JsMap.get "a" m' = Some entry /\ Faq.ai_open entry = true.
Proof.
  cbv zeta.
  pose proof (at_most_one_marked_and_open Faq.full_dom (Faq.desktop "")
                [Faq.Hydrate two_questions; Faq.AccordionClick (Some "b")]) as T.
  cbv zeta in T. destruct T as [T1 [T2 T3]].
  assert (Hq : JsMap.has "a" (Faq.questions (Faq.state
                 (Faq.run (Faq.fresh Faq.full_dom (Faq.desktop ""))
                    [Faq.Hydrate two_questions; Faq.AccordionClick (Some "b")]))) = true)
    by (vm_compute; reflexivity).
  assert (Hm : JsMap.has "a" (Faq.elements_accordion (Faq.state
                 (Faq.run (Faq.fresh Faq.full_dom (Faq.desktop ""))
                    [Faq.Hydrate two_questions; Faq.AccordionClick (Some "b")]))) = true)
    by (vm_compute; reflexivity).
  assert (Hi : "a" <> "") by discriminate.
  destruct (T3 (Some "a") true false) as [_ [T4 _]].
  specialize (T4 "a" eq_refl Hi Hq Hm).
  split; [vm_compute; reflexivity|]. split; [vm_compute; reflexivity|].
  split; [exact T1|]. split; [exact T2|]. split; [exact Hq|]. split; [exact Hm|].
  exact T4.
Defined.

(** *** C1: activating an id the index does not have *)

(** C1.  With the index built by [buildQuestionIndex], the activation
    of an id that is missing, empty or not a key of [state.questions]
    returns the page as it was: active id, viewer, sidebar marks, hash
    and panels.  The legacy script's [applyActiveQuestion] tests only
    that the id is truthy: on the page loaded from [two_questions],
    where [a] is active, the activation of [zzz], which no question
    has, makes [zzz] the active id, takes the mark off the control of
    [a] so that no control is marked, and rewrites the hash from [#a] to
    [#zzz]; the viewer and the panels stay as they were. *)
Theorem legacy_activation_of_unknown_id :
  (forall (id : option string) (syncHash scrollMobile : bool) (p : Faq.Page),
     match id with
     | Some i => JsMap.has i (Faq.questions (Faq.state p)) = false
     | None => True
     end ->
     Faq.applyActiveQuestion id syncHash scrollMobile p = p)
  /\ let p := legacy_loaded in
     let p' := Legacy.applyActiveQuestion (Some "zzz") true false p in
     Legacy.some_id "zzz" (Legacy.flatQuestions p) = false
     /\ Legacy.activeDesktopId p = Some "a"
     /\ Legacy.activeDesktopId p' = Some "zzz"
     /\ map Legacy.marked (Legacy.sidebar_links p) = [true; false]
     /\ map Legacy.marked (Legacy.sidebar_links p') = [false; false]
     /\ Legacy.location_hash p = "#a"
     /\ Legacy.location_hash p' = "#zzz"
     /\ Legacy.viewer p' = Legacy.viewer p
     /\ Legacy.accordion p' = Legacy.accordion p
     /\ Legacy.effects p' = Legacy.effects p.
Proof.
  split.
  - intros [i|] syncHash scrollMobile p H; [|reflexivity].
    unfold Faq.applyActiveQuestion. rewrite H.
    destruct (Js.is_empty i); reflexivity.
  - vm_compute. repeat split.
Qed.

(** *** C7: keyboard navigation *)

(** The key handler as registered leaves the state of the page as it
    was. *)
Lemma on_keydown_state (event : Faq.KeyEvent) (p : Faq.Page) :
  Faq.state (Faq.page_of (Faq.on_keydown event p)) = Faq.state p.
Proof.
  unfold Faq.on_keydown, Faq.handleKeyboardNavigation.
  destruct (Faq.is_navigation_key (Faq.key event) && _), (Faq.target event);
    try reflexivity; destruct (Faq.ctrlKey event || Faq.metaKey event); reflexivity.
Qed.

(** The last element of an array and its index. *)
Lemma at_index_last (front : list string) (x : string) :
  at_index (front ++ [x]) (Z.of_nat (List.length (front ++ [x])) - 1) = Some x.
Proof.
  unfold at_index. rewrite length_app. cbn [List.length].
  replace (Z.of_nat (List.length front + 1) - 1)%Z with (Z.of_nat (List.length front)) by lia.
  destruct (Z.of_nat (List.length front) <? 0)%Z eqn:E; [apply Z.ltb_lt in E; lia|].
  rewrite Nat2Z.id, nth_error_app2, Nat.sub_diag by lia. reflexivity.
Qed.

Lemma indexOf_last (front : list string) (x : string) :
  ~ In x front -> indexOf x (front ++ [x]) = Z.of_nat (List.length front).
Proof.
  induction front as [|y front IH]; intros H; simpl.
  - now rewrite String.eqb_refl.
  - destruct (String.eqb y x) eqn:E.
    + apply String.eqb_eq in E. subst. exfalso. apply H. now left.
    + rewrite IH by (intros K; apply H; now right).
      destruct (Z.of_nat (List.length front) <? 0)%Z eqn:L; [apply Z.ltb_lt in L; lia|].
      lia.
Qed.

(** [navigateToQuestion] activates the id at the wrapped index. *)
Lemma navigateToQuestion_active (targetIndex : Z) (questionIds : list string)
    (isMobile : bool) (p : Faq.Page) (i : string) :
  let len := Z.of_nat (List.length questionIds) in
  at_index questionIds
    (if (targetIndex >=? len)%Z then 0%Z
     else if (targetIndex <? 0)%Z then (len - 1)%Z else targetIndex) = Some i ->
  i <> "" -> JsMap.has i (Faq.questions (Faq.state p)) = true ->
  Faq.activeId (Faq.state (Faq.navigateToQuestion targetIndex questionIds isMobile p))
  = Some i.
Proof.
  cbv zeta. intros A Hi Hq. unfold Faq.navigateToQuestion.
  destruct (Nat.eqb (List.length questionIds) 0) eqn:E.
  { apply Nat.eqb_eq in E. destruct questionIds; [|discriminate].
    revert A. generalize (if (targetIndex >=? Z.of_nat (@List.length string []))%Z then 0%Z
                          else if (targetIndex <? 0)%Z
                               then (Z.of_nat (@List.length string []) - 1)%Z
                               else targetIndex).
    intros z. unfold at_index. destruct (z <? 0)%Z; [discriminate|].
    destruct (Z.to_nat z); discriminate. }
  cbv zeta. rewrite A.
  destruct (@applyActiveQuestion_known i true isMobile p Hi Hq) as [K _].
  destruct isMobile.
  - destruct (syncMobileAccordion_frame (Some i)
                (negb (Faq.reduced_motion
                         (Faq.window (Faq.applyActiveQuestion (Some i) true true p))))
                true (Faq.applyActiveQuestion (Some i) true true p))
      as [_ [_ [_ [_ [_ [F _]]]]]].
    rewrite F. exact K.
  - destruct (existsb _ _); exact K.
Qed.

(** With the index of a document bound to the name the handler reads,
    the arrow keys wrap at both ends and Home and End jump to the first
    and the last key. *)
Lemma keyboard_wraps_when_bound (doc : Document) (p : Faq.Page) (first lastId : string)
    (rest front : list string) :
  Faq.questions (Faq.state p) = fst (Faq.buildQuestionIndex doc) ->
  JsMap.keys (Faq.questions (Faq.state p)) = first :: rest ->
  JsMap.keys (Faq.questions (Faq.state p)) = front ++ [lastId] ->
  let after k :=
    Faq.activeId
      (Faq.state (Faq.page_of (Faq.handleKeyboardNavigation
                                 (Some (Faq.questions (Faq.state p))) (press k) p))) in
  (Faq.activeId (Faq.state p) = Some lastId -> after "ArrowDown" = Some first)
  /\ (Faq.activeId (Faq.state p) = Some first -> after "ArrowUp" = Some lastId)
  /\ after "Home" = Some first
  /\ after "End" = Some lastId.
Proof.
  intros Hq Hf Hl.
  assert (Hin : forall k, In k (JsMap.keys (Faq.questions (Faq.state p))) ->
                          k <> "" /\ JsMap.has k (Faq.questions (Faq.state p)) = true).
  { intros k Hk. apply has_In in Hk. split; [|exact Hk].
    apply (@index_keys_nonempty doc). now rewrite <- Hq. }
  assert (Nd : NoDup (JsMap.keys (Faq.questions (Faq.state p)))).
  { rewrite Hq, buildQuestionIndex_flat, flat_index_keys. apply first_seen_NoDup. }
  destruct (Hin first) as [N1 Q1]; [rewrite Hf; now left|].
  destruct (Hin lastId) as [N2 Q2]; [rewrite Hl; apply in_or_app; right; now left|].
  set (ids := JsMap.keys (Faq.questions (Faq.state p))) in *.
  assert (F1 : indexOf lastId ids = (Z.of_nat (List.length ids) - 1)%Z).
  { rewrite Hl in Nd |- *. apply NoDup_remove_2 in Nd. rewrite app_nil_r in Nd.
    rewrite indexOf_last by exact Nd. rewrite length_app. cbn [List.length]. lia. }
  assert (F2 : indexOf first ids = 0%Z).
  { rewrite Hf. simpl. now rewrite String.eqb_refl. }
  assert (F3 : at_index ids 0 = Some first) by (rewrite Hf; reflexivity).
  assert (F4 : at_index ids (Z.of_nat (List.length ids) - 1) = Some lastId).
  { rewrite Hl. apply at_index_last. }
  assert (F5 : (1 <= Z.of_nat (List.length ids))%Z) by (rewrite Hf; cbn [List.length]; lia).
  clear Hin Nd Hf Hl.
  assert (S1 : forall k,
            exists p1, Faq.state p1 = Faq.state p
                       /\ (if Faq.is_navigation_key k
                              && negb (Faq.keyboard_navigation (Faq.dom p))
                           then Faq.on_dom (Faq.set_keyboard_navigation true) p else p) = p1).
  { intros k. eexists. split; [|reflexivity]. destruct (_ && _); reflexivity. }
  cbv zeta. unfold Faq.handleKeyboardNavigation.
  cbn [press Faq.key Faq.target Faq.ctrlKey Faq.metaKey orb].
  fold ids.
  repeat split.
  - intros Ha. destruct (S1 "ArrowDown") as [p1 [E1 ->]]. rewrite E1, Ha, F1.
    cbn [String.eqb Ascii.eqb Bool.eqb orb Faq.page_of].
    apply navigateToQuestion_active; [|exact N1|now rewrite E1].
    cbv zeta. rewrite Z.geb_leb.
    destruct (Z.leb_spec (Z.of_nat (List.length ids)) (Z.of_nat (List.length ids) - 1 + 1));
      [exact F3 | lia].
  - intros Ha. destruct (S1 "ArrowUp") as [p1 [E1 ->]]. rewrite E1, Ha, F2.
    cbn [String.eqb Ascii.eqb Bool.eqb orb Faq.page_of].
    apply navigateToQuestion_active; [|exact N2|now rewrite E1].
    cbv zeta. rewrite Z.geb_leb.
    destruct (Z.leb_spec (Z.of_nat (List.length ids)) (0 - 1)); [lia|].
    exact F4.
  - destruct (S1 "Home") as [p1 [E1 ->]]. rewrite E1.
    cbn [String.eqb Ascii.eqb Bool.eqb orb Faq.page_of].
    apply navigateToQuestion_active; [|exact N1|now rewrite E1].
    cbv zeta. rewrite Z.geb_leb.
    destruct (Z.leb_spec (Z.of_nat (List.length ids)) 0); [lia|]. exact F3.
  - destruct (S1 "End") as [p1 [E1 ->]]. rewrite E1.
    cbn [String.eqb Ascii.eqb Bool.eqb orb Faq.page_of].
    apply navigateToQuestion_active; [|exact N2|now rewrite E1].
    cbv zeta. rewrite Z.geb_leb.
    destruct (Z.leb_spec (Z.of_nat (List.length ids)) (Z.of_nat (List.length ids) - 1));
      [lia|].
    destruct (Z.ltb_spec (Z.of_nat (List.length ids) - 1) 0); [lia|]. exact F4.
Qed.

(** C7.  Nothing in the script declares [questionIndex], the name the
    key handler reads the ids from, so every key press that passes the
    guard on inputs and modifier keys ends in a [ReferenceError] before
    [navigateToQuestion] is reached, and no key press changes the state:
    with the last question [b] active, ArrowDown leaves [b] active; with
    the first question [a] active, ArrowUp leaves [a] active; Home and
    End leave the active id as it was.  With the name bound to
    [state.questions] the same presses wrap: ArrowDown from [b] gives
    [a], ArrowUp from [a] gives [b], Home gives [a] and End gives [b];
    and so for the index of every document: ArrowDown from the last key
    gives the first, ArrowUp from the first gives the last, Home gives
    the first and End the last. *)
Theorem keydown_throws_before_navigating :
  Faq.declares "questionIndex" = false
  /\ (forall (event : Faq.KeyEvent) (p : Faq.Page),
        Faq.state (Faq.page_of (Faq.on_keydown event p)) = Faq.state p
        /\ match Faq.on_keydown event p with
           | Faq.Threw e _ => e = ReferenceError "questionIndex"
           | Faq.Completed _ =>
               Faq.target event = Faq.OnInput \/ Faq.target event = Faq.OnTextarea
               \/ Faq.ctrlKey event || Faq.metaKey event = true
           end)
  /\ Faq.activeId (Faq.state (hydrated "#b")) = Some "b"
  /\ Faq.activeId (Faq.state (hydrated "#a")) = Some "a"
  /\ (exists q, Faq.on_keydown (press "ArrowDown") (hydrated "#b")
                = Faq.Threw (ReferenceError "questionIndex") q
                /\ Faq.activeId (Faq.state q) = Some "b")
  /\ (exists q, Faq.on_keydown (press "ArrowUp") (hydrated "#a")
                = Faq.Threw (ReferenceError "questionIndex") q
                /\ Faq.activeId (Faq.state q) = Some "a")
  /\ (exists q, Faq.on_keydown (press "Home") (hydrated "#b")
                = Faq.Threw (ReferenceError "questionIndex") q
                /\ Faq.activeId (Faq.state q) = Some "b")
  /\ (exists q, Faq.on_keydown (press "End") (hydrated "#a")
                = Faq.Threw (ReferenceError "questionIndex") q
                /\ Faq.activeId (Faq.state q) = Some "a")
  /\ (let bound p := Some (Faq.questions (Faq.state p)) in
      let after k p :=
        Faq.activeId (Faq.state (Faq.page_of
                                   (Faq.handleKeyboardNavigation (bound p) (press k) p))) in
      after "ArrowDown" (hydrated "#b") = Some "a"
      /\ after "ArrowUp" (hydrated "#a") = Some "b"
      /\ after "ArrowDown" (hydrated "#a") = Some "b"
      /\ after "ArrowUp" (hydrated "#b") = Some "a"
      /\ after "Home" (hydrated "#b") = Some "a"
      /\ after "End" (hydrated "#a") = Some "b")
  /\ (forall (doc : Document) (p : Faq.Page) (first lastId : string)
             (rest front : list string),
        Faq.questions (Faq.state p) = fst (Faq.buildQuestionIndex doc) ->
        JsMap.keys (Faq.questions (Faq.state p)) = first :: rest ->
        JsMap.keys (Faq.questions (Faq.state p)) = front ++ [lastId] ->
        let after k :=
          Faq.activeId
            (Faq.state (Faq.page_of (Faq.handleKeyboardNavigation
                                       (Some (Faq.questions (Faq.state p))) (press k) p))) in
        (Faq.activeId (Faq.state p) = Some lastId -> after "ArrowDown" = Some first)
        /\ (Faq.activeId (Faq.state p) = Some first -> after "ArrowUp" = Some lastId)
        /\ after "Home" = Some first
        /\ after "End" = Some lastId).
Proof.
  split; [reflexivity|]. split.
  - intros event p. split; [apply on_keydown_state|].
    unfold Faq.on_keydown, Faq.handleKeyboardNavigation.
    destruct (Faq.target event); auto;
      destruct (Faq.ctrlKey event || Faq.metaKey event); auto.
  - split; [vm_compute; reflexivity|]. split; [vm_compute; reflexivity|].
    split; [eexists; split; vm_compute; reflexivity|].
    split; [eexists; split; vm_compute; reflexivity|].
    split; [eexists; split; vm_compute; reflexivity|].
    split; [eexists; split; vm_compute; reflexivity|].
    split; [vm_compute; repeat split | exact keyboard_wraps_when_bound].
Qed.

(* ===================================================================== *)
(** ** Further properties of the script *)
(* ===================================================================== *)

(** *** Resolution of a hash candidate *)

Lemma startsWith_drop (p s : string) :
  Js.startsWith p s = true -> s = (p ++ Js.drop (String.length p) s)%string.
Proof.
  revert s. induction p as [|a p IH]; intros s H; [reflexivity|].
  destruct s as [|b s]; [discriminate|]. simpl in H.
  apply andb_true_iff in H. destruct H as [E H]. apply Ascii.eqb_eq in E. subst b.
  simpl. f_equal. now apply IH.
Qed.

(** What [resolveQuestionId] does with a candidate [c], given the
    membership test [known] of the iteration. *)
Definition resolution (known : string -> bool) (c : string) (r : option string) : Prop :=
  match r with
  | Some id =>
      known id = true /\ c <> ""
      /\ (id = c
          \/ (known c = false /\ c = ("q-" ++ id)%string)
          \/ (known c = false /\ Js.startsWith "q-" c = false /\ id = ("q-" ++ c)%string))
  | None =>
      c = ""
      \/ (known c = false
          /\ if Js.startsWith "q-" c then known (Js.drop 2 c) = false
             else known ("q-" ++ c)%string = false)
  end.

Lemma resolution_steps (known : string -> bool) (empty : bool) (c : string) :
  (empty = true -> forall k, known k = false) ->
  resolution known c
    (if Js.is_empty c || empty then None
     else if known c then Some c
     else if Js.startsWith "q-" c
          then (if known (Js.drop 2 c) then Some (Js.drop 2 c) else None)
          else (if known ("q-" ++ c)%string then Some ("q-" ++ c)%string else None)).
Proof.
  intros He. destruct (Js.is_empty c) eqn:Ec.
  - left. now apply is_empty_true.
  - apply is_empty_false in Ec. destruct empty; cbn [orb].
    + right. split; [apply (He eq_refl)|].
      destruct (Js.startsWith "q-" c); apply (He eq_refl).
    + destruct (known c) eqn:K; [split; [exact K|split; [exact Ec|now left]]|].
      destruct (Js.startsWith "q-" c) eqn:S.
      * destruct (known (Js.drop 2 c)) eqn:K2.
        -- split; [exact K2|]. split; [exact Ec|]. right. left. split; [exact K|].
           exact (startsWith_drop "q-" c S).
        -- right. split; [exact K|]. rewrite S. exact K2.
      * destruct (known ("q-" ++ c)%string) eqn:K2.
        -- split; [exact K2|]. split; [exact Ec|]. right. right.
           split; [exact K|]. split; [exact S | reflexivity].
        -- right. split; [exact K|]. rewrite S. exact K2.
Qed.

(** X1.  [resolveQuestionId], in the three iterations: a result is
    always a key of the index, and it is the candidate itself, or the
    candidate without its [q-] prefix, or the candidate with [q-] put in
    front, the two last only when the candidate is no key; no result
    means that the candidate is missing or empty, or that neither the
    candidate nor its other form is a key. *)
Theorem resolveQuestionId_result :
  (forall (index : Faq.Index) (candidate : option string),
     match candidate with
     | Some c => resolution (fun k => JsMap.has k index) c
                   (Faq.resolveQuestionId index candidate)
     | None => Faq.resolveQuestionId index candidate = None
     end)
  /\ (forall (questionMap : JsMap.t Intermediate.Entry) (candidate : option string),
        match candidate with
        | Some c => resolution (fun k => JsMap.has k questionMap) c
                      (Intermediate.resolveQuestionId questionMap candidate)
        | None => Intermediate.resolveQuestionId questionMap candidate = None
        end)
  /\ (forall (flatQuestions : list Legacy.Question) (candidate : option string),
        match candidate with
        | Some c => resolution (fun k => Legacy.some_id k flatQuestions) c
                      (Legacy.resolveQuestionId flatQuestions candidate)
        | None => Legacy.resolveQuestionId flatQuestions candidate = None
        end).
Proof.
  split; [|split].
  - intros index [c|]; [|reflexivity]. unfold Faq.resolveQuestionId.
    apply resolution_steps. intros E k. apply Nat.eqb_eq in E.
    destruct index; [reflexivity | discriminate].
  - intros m [c|]; [|reflexivity]. unfold Intermediate.resolveQuestionId.
    apply resolution_steps. intros E k. apply Nat.eqb_eq in E.
    destruct m; [reflexivity | discriminate].
  - intros flat [c|]; [|reflexivity]. unfold Legacy.resolveQuestionId.
    apply resolution_steps. intros E k. apply Nat.eqb_eq in E.
    destruct flat; [reflexivity | discriminate].
Qed.

(** *** The URL hash *)

(** [location.hash] is empty or begins with [#]. *)
Definition hash_shape (h : string) : bool := Js.is_empty h || Js.startsWith "#" h.

Lemma hash_shape_cases (h : string) :
  hash_shape h = true -> h = "" \/ h = ("#" ++ Js.drop 1 h)%string.
Proof.
  unfold hash_shape. intros H. apply orb_true_iff in H. destruct H as [H|H].
  - left. now apply is_empty_true.
  - right. exact (startsWith_drop "#" h H).
Qed.

(** What [extractHashId] reads from a hash that holds an encoded id. *)
Lemma extract_encoded (id : string) :
  id <> "" -> Js.utf8_valid id = true ->
  (let hash := Js.drop 1 ("#" ++ Js.encodeURIComponent id) in
   if Js.is_empty hash then None
   else let hash := match Js.decodeURIComponent hash with
                    | Some decoded => decoded
                    | None => hash
                    end in
        let trimmed := Js.trim hash in
        if Js.is_empty trimmed then None else Some trimmed)
  = if Js.is_empty (Js.trim id) then None else Some (Js.trim id).
Proof.
  intros Hi Hu. cbv zeta. change (Js.drop 1 ("#" ++ Js.encodeURIComponent id))
    with (Js.encodeURIComponent id).
  rewrite (encode_nonempty Hi), (decode_encode _ Hu). reflexivity.
Qed.

Lemma setHashQuestionId_hash (id : string) (p : Faq.Page) :
  id <> "" -> hash_shape (Faq.location_hash (Faq.window p)) = true ->
  Faq.location_hash (Faq.window (Faq.setHashQuestionId (Some id) p))
  = ("#" ++ Js.encodeURIComponent id)%string.
Proof.
  intros Hi Hs. unfold Faq.setHashQuestionId.
  pose proof Hi as Hi'. apply is_empty_false in Hi'. rewrite Hi'.
  destruct (String.eqb _ _) eqn:E.
  - apply String.eqb_eq in E. unfold Faq.without_hash_sign in E.
    destruct (hash_shape_cases _ Hs) as [H0|H1].
    + rewrite H0 in E. simpl in E. pose proof (encode_nonempty Hi) as N.
      rewrite <- E in N. discriminate.
    + rewrite H1 in E |- *. simpl in E. rewrite <- E. simpl. reflexivity.
  - destruct (Faq.history_replaceState (Faq.window p)); reflexivity.
Qed.

Lemma legacy_setHashQuestionId_hash (id : string) (p : Legacy.Page) :
  id <> "" -> hash_shape (Legacy.location_hash p) = true ->
  Legacy.location_hash (Legacy.setHashQuestionId (Some id) p)
  = ("#" ++ Js.encodeURIComponent id)%string.
Proof.
  intros Hi Hs. unfold Legacy.setHashQuestionId.
  pose proof Hi as Hi'. apply is_empty_false in Hi'. rewrite Hi'.
  destruct (String.eqb _ _) eqn:E.
  - apply String.eqb_eq in E. unfold Legacy.without_hash_sign in E.
    destruct (hash_shape_cases _ Hs) as [H0|H1].
    + rewrite H0 in E. simpl in E. pose proof (encode_nonempty Hi) as N.
      rewrite <- E in N. discriminate.
    + rewrite H1 in E |- *. simpl in E. rewrite <- E. simpl. reflexivity.
  - destruct (Legacy.history_replaceState p); reflexivity.
Qed.

(** X2.  The hash written by [setHashQuestionId] and read by
    [extractHashId]: for a non-empty well-formed id, after
    [setHashQuestionId(id)] the hash is [#] followed by the encoded id,
    and [extractHashId()] returns the id with the white space around it
    removed ([null] when nothing is left); so an id without white space
    around it is read back as it is, and [resolveQuestionId] then
    returns it when it is a key.  The same in the first iteration. *)
Theorem written_hash_is_read_back (id : string) :
  id <> "" -> Js.utf8_valid id = true ->
  (forall p : Faq.Page,
     hash_shape (Faq.location_hash (Faq.window p)) = true ->
     let p' := Faq.setHashQuestionId (Some id) p in
     Faq.location_hash (Faq.window p') = ("#" ++ Js.encodeURIComponent id)%string
     /\ Faq.extractHashId p'
        = (if Js.is_empty (Js.trim id) then None else Some (Js.trim id))
     /\ (Js.trim id = id ->
         Faq.extractHashId p' = Some id
         /\ forall index : Faq.Index,
              JsMap.has id index = true ->
              Faq.resolveQuestionId index (Faq.extractHashId p') = Some id))
  /\ (forall q : Legacy.Page,
        hash_shape (Legacy.location_hash q) = true ->
        let q' := Legacy.setHashQuestionId (Some id) q in
        Legacy.location_hash q' = ("#" ++ Js.encodeURIComponent id)%string
        /\ Legacy.extractHashId q'
           = (if Js.is_empty (Js.trim id) then None else Some (Js.trim id))
        /\ (Js.trim id = id ->
            Legacy.extractHashId q' = Some id
            /\ forall flatQuestions : list Legacy.Question,
                 Legacy.some_id id flatQuestions = true ->
                 Legacy.resolveQuestionId flatQuestions (Legacy.extractHashId q')
                 = Some id)).
Proof.
  intros Hi Hu. pose proof Hi as Hi'. apply is_empty_false in Hi'. split.
  - intros p Hs. cbv zeta.
    pose proof (setHashQuestionId_hash p Hi Hs) as W.
    assert (X : Faq.extractHashId (Faq.setHashQuestionId (Some id) p)
                = if Js.is_empty (Js.trim id) then None else Some (Js.trim id)).
    { unfold Faq.extractHashId. rewrite W. cbv zeta.
      change (Js.is_empty ("#" ++ Js.encodeURIComponent id)) with false. cbv iota.
      exact (extract_encoded Hi Hu). }
    split; [exact W|]. split; [exact X|]. intros T. rewrite X, T, Hi'.
    split; [reflexivity|]. intros index H. unfold Faq.resolveQuestionId.
    rewrite Hi', (has_nonempty _ _ H), H. reflexivity.
  - intros q Hs. cbv zeta.
    pose proof (legacy_setHashQuestionId_hash q Hi Hs) as W.
    assert (X : Legacy.extractHashId (Legacy.setHashQuestionId (Some id) q)
                = if Js.is_empty (Js.trim id) then None else Some (Js.trim id)).
    { unfold Legacy.extractHashId. rewrite W. cbv zeta.
      change (Js.is_empty ("#" ++ Js.encodeURIComponent id)) with false. cbv iota.
      exact (extract_encoded Hi Hu). }
    split; [exact W|]. split; [exact X|]. intros T. rewrite X, T, Hi'.
    split; [reflexivity|]. intros flat H. unfold Legacy.resolveQuestionId.
    rewrite Hi', (some_id_nonempty _ _ H), H. reflexivity.
Qed.

(** The theorem at the id [a b], written as [#a%20b], on the page
    hydrated from [two_questions]. *)
Lemma written_hash_is_read_back_witness :
  let p' := Faq.setHashQuestionId (Some "a b") (hydrated "") in
  "a b" <> "" /\ Js.utf8_valid "a b" = true
  /\ hash_shape (Faq.location_hash (Faq.window (hydrated ""))) = true
  /\ Js.trim "a b" = "a b"
  /\ Faq.location_hash (Faq.window p') = "#a%20b"
  /\ Faq.extractHashId p' = Some "a b".
Proof.
  cbv zeta.
  assert (H1 : "a b" <> "") by discriminate.
  assert (H2 : Js.utf8_valid "a b" = true) by reflexivity.
  assert (H3 : hash_shape (Faq.location_hash (Faq.window (hydrated ""))) = true)
    by (vm_compute; reflexivity).
  assert (H4 : Js.trim "a b" = "a b") by (vm_compute; reflexivity).
  destruct (written_hash_is_read_back H1 H2) as [T _].
  destruct (T (hydrated "") H3) as [T1 [_ T3]]. destruct (T3 H4) as [T4 _].
  split; [exact H1|]. split; [exact H2|]. split; [exact H3|]. split; [exact H4|].
  split; [exact T1 | exact T4].
Defined.

(** X3.  [setHashQuestionId] touches nothing but the address: the
    script's state and the DOM stay as they are; with
    [history.replaceState] the history never grows; without it the
    history grows by one entry, and only when the hash changes; a call
    for a missing or empty id does nothing; and a second call with the
    same id does nothing.  The same in the first iteration. *)
Theorem setHashQuestionId_history :
  (forall (id : option string) (p : Faq.Page),
     let p' := Faq.setHashQuestionId id p in
     Faq.state p' = Faq.state p /\ Faq.dom p' = Faq.dom p
     /\ Faq.effects p' = Faq.effects p
     /\ (Js.truthy id = false -> p' = p)
     /\ (Faq.history_replaceState (Faq.window p) = true ->
         Faq.history_length (Faq.window p') = Faq.history_length (Faq.window p))
     /\ (Faq.history_length (Faq.window p') = Faq.history_length (Faq.window p)
         \/ (Faq.history_length (Faq.window p') = S (Faq.history_length (Faq.window p))
             /\ Faq.history_replaceState (Faq.window p) = false
             /\ Faq.location_hash (Faq.window p') <> Faq.location_hash (Faq.window p)))
     /\ Faq.setHashQuestionId id p' = p')
  /\ (forall (id : option string) (q : Legacy.Page),
        let q' := Legacy.setHashQuestionId id q in
        Legacy.activeDesktopId q' = Legacy.activeDesktopId q
        /\ Legacy.flatQuestions q' = Legacy.flatQuestions q
        /\ Legacy.viewer q' = Legacy.viewer q /\ Legacy.sidebar q' = Legacy.sidebar q
        /\ Legacy.accordion q' = Legacy.accordion q
        /\ (Js.truthy id = false -> q' = q)
        /\ (Legacy.history_replaceState q = true ->
            Legacy.history_length q' = Legacy.history_length q)
        /\ (Legacy.history_length q' = Legacy.history_length q
            \/ (Legacy.history_length q' = S (Legacy.history_length q)
                /\ Legacy.history_replaceState q = false
                /\ Legacy.location_hash q' <> Legacy.location_hash q))
        /\ Legacy.setHashQuestionId id q' = q').
Proof.
  split.
  - intros [i|] p; cbv zeta;
      [|split; [|split; [|split; [|split; [|split; [|split]]]]]; auto].
    remember (Faq.setHashQuestionId (Some i) p) as p' eqn:Hp.
    unfold Faq.setHashQuestionId in Hp. cbv zeta in Hp.
    destruct (Js.is_empty i) eqn:Ei.
    { subst p'. split; [|split; [|split; [|split; [|split; [|split]]]]]; auto.
      unfold Faq.setHashQuestionId. now rewrite Ei. }
    destruct (String.eqb (Faq.without_hash_sign (Faq.location_hash (Faq.window p)))
                (Js.encodeURIComponent i)) eqn:E.
    { subst p'. split; [|split; [|split; [|split; [|split; [|split]]]]]; auto.
      unfold Faq.setHashQuestionId. now rewrite Ei, E. }
    assert (N : ("#" ++ Js.encodeURIComponent i)%string
                <> Faq.location_hash (Faq.window p)).
    { intros K. rewrite <- K in E. simpl in E. rewrite String.eqb_refl in E.
      discriminate. }
    assert (T : Js.truthy (Some i) = false -> p' = p).
    { simpl. rewrite Ei. discriminate. }
    destruct (Faq.history_replaceState (Faq.window p)) eqn:R; subst p';
      (split; [reflexivity|]); (split; [reflexivity|]); (split; [reflexivity|]);
      (split; [exact T|]); (split; [cbn; congruence|]); split.
    + now left.
    + unfold Faq.setHashQuestionId. rewrite Ei. cbn. now rewrite String.eqb_refl.
    + right. split; [reflexivity|]. split; [reflexivity | exact N].
    + unfold Faq.setHashQuestionId. rewrite Ei. cbn. now rewrite String.eqb_refl.
  - intros [i|] q; cbv zeta;
      [|split; [|split; [|split; [|split; [|split; [|split; [|split; [|split]]]]]]]; auto].
    remember (Legacy.setHashQuestionId (Some i) q) as q' eqn:Hq.
    unfold Legacy.setHashQuestionId in Hq. cbv zeta in Hq.
    destruct (Js.is_empty i) eqn:Ei.
    { subst q'. split; [|split; [|split; [|split; [|split; [|split; [|split; [|split]]]]]]];
        auto.
      unfold Legacy.setHashQuestionId. now rewrite Ei. }
    destruct (String.eqb (Legacy.without_hash_sign (Legacy.location_hash q))
                (Js.encodeURIComponent i)) eqn:E.
    { subst q'. split; [|split; [|split; [|split; [|split; [|split; [|split; [|split]]]]]]];
        auto.
      unfold Legacy.setHashQuestionId. now rewrite Ei, E. }
    assert (N : ("#" ++ Js.encodeURIComponent i)%string <> Legacy.location_hash q).
    { intros K. rewrite <- K in E. simpl in E. rewrite String.eqb_refl in E.
      discriminate. }
    assert (T : Js.truthy (Some i) = false -> q' = q).
    { simpl. rewrite Ei. discriminate. }
    destruct (Legacy.history_replaceState q) eqn:R; subst q';
      do 5 (split; [reflexivity|]);
      (split; [exact T|]); (split; [cbn; congruence|]); split.
    + now left.
    + unfold Legacy.setHashQuestionId. rewrite Ei. cbn. rewrite String.eqb_refl.
      reflexivity.
    + right. split; [reflexivity|]. split; [reflexivity | exact N].
    + unfold Legacy.setHashQuestionId. rewrite Ei. cbn. rewrite String.eqb_refl.
      reflexivity.
Qed.

(** Without hash syncing an activation leaves [window] alone. *)
Lemma applyActiveQuestion_window (id : option string) (scrollMobile : bool) (p : Faq.Page) :
  Faq.window (Faq.applyActiveQuestion id false scrollMobile p) = Faq.window p.
Proof.
  unfold Faq.applyActiveQuestion, Faq.triggerSocialGlow.
  destruct id as [i|]; [|reflexivity].
  destruct (Js.is_empty i || _); [reflexivity|].
  set (p2 := Faq.updateSidebarActive (Some i)
               (Faq.renderDesktopQuestion (Some i)
                  (Faq.on_state (Faq.set_activeId (Some i)) p))).
  assert (W2 : Faq.window p2 = Faq.window p).
  { subst p2. cbn.
    destruct (renderDesktopQuestion_frame (Some i)
                (Faq.on_state (Faq.set_activeId (Some i)) p)) as [_ [R2 _]].
    rewrite R2. reflexivity. }
  destruct (syncMobileAccordion_frame (Some i) scrollMobile false p2) as [_ [F2 _]].
  destruct (JsMap.get i Faq.SOCIAL_GLOW_MAPPING); cbn [Faq.log Faq.window];
    rewrite F2; exact W2.
Qed.

Lemma legacy_syncMobileAccordion_address (id : option string) (scroll focus : bool)
    (p : Legacy.Page) :
  let p' := Legacy.syncMobileAccordion id scroll focus p in
  Legacy.location_hash p' = Legacy.location_hash p
  /\ Legacy.history_length p' = Legacy.history_length p
  /\ Legacy.activeDesktopId p' = Legacy.activeDesktopId p
  /\ Legacy.flatQuestions p' = Legacy.flatQuestions p.
Proof.
  unfold Legacy.syncMobileAccordion. split_matches; simpl; repeat split.
Qed.

Lemma legacy_show_address (id : option string) (p : Legacy.Page) :
  let p' := Legacy.updateSidebarActive id (Legacy.renderDesktopQuestion id p) in
  Legacy.location_hash p' = Legacy.location_hash p
  /\ Legacy.history_length p' = Legacy.history_length p
  /\ Legacy.activeDesktopId p' = Legacy.activeDesktopId p
  /\ Legacy.flatQuestions p' = Legacy.flatQuestions p.
Proof.
  unfold Legacy.updateSidebarActive, Legacy.renderDesktopQuestion.
  split_matches; simpl; repeat split.
Qed.

(** X4.  The [hashchange] handler reads the address and never writes
    it: [window] (hash and history) and the index stay as they are;
    the active id becomes the id the hash resolves to, and stays as it
    is when the hash resolves to nothing; in that case the page is left
    untouched.  The same in the first iteration. *)
Theorem hashchange_reads_only :
  (forall p : Faq.Page,
     let resolved := Faq.resolveQuestionId (Faq.questions (Faq.state p))
                       (Faq.extractHashId p) in
     let p' := Faq.handleHashChange p in
     Faq.window p' = Faq.window p
     /\ Faq.questions (Faq.state p') = Faq.questions (Faq.state p)
     /\ Faq.activeId (Faq.state p')
        = match resolved with
          | Some id => if Js.is_empty id then Faq.activeId (Faq.state p) else Some id
          | None => Faq.activeId (Faq.state p)
          end
     /\ (resolved = None -> p' = p))
  /\ (forall (mobile : bool) (q : Legacy.Page),
        let resolved := Legacy.resolveQuestionId (Legacy.flatQuestions q)
                          (Legacy.extractHashId q) in
        let q' := Legacy.handleHashChange mobile q in
        Legacy.location_hash q' = Legacy.location_hash q
        /\ Legacy.history_length q' = Legacy.history_length q
        /\ Legacy.flatQuestions q' = Legacy.flatQuestions q
        /\ Legacy.activeDesktopId q'
           = match resolved with
             | Some id => if Js.is_empty id then Legacy.activeDesktopId q else Some id
             | None => Legacy.activeDesktopId q
             end
        /\ (resolved = None -> q' = q)).
Proof.
  split.
  - intros p. cbv zeta. unfold Faq.handleHashChange.
    destruct (Faq.resolveQuestionId _ _) as [c|] eqn:R; [|repeat split].
    pose proof (resolve_known _ _ R) as K.
    destruct (Js.is_empty c) eqn:Ec; [repeat split; discriminate|].
    destruct (Faq.same_id c (Faq.activeId (Faq.state p))) eqn:S.
    + destruct (syncMobileAccordion_frame (Some c)
                  (Faq.layout_mobile (Faq.window p)) false p)
        as [_ [F2 [_ [F4 [_ [F6 _]]]]]].
      rewrite F2, F4, F6. apply same_id_true in S.
      split; [reflexivity|]. split; [reflexivity|]. split; [exact S | discriminate].
    + apply is_empty_false in Ec.
      destruct (@applyActiveQuestion_known c false (Faq.layout_mobile (Faq.window p))
                  p Ec K) as [A _].
      destruct (applyActiveQuestion_frame (Some c) false
                  (Faq.layout_mobile (Faq.window p)) p) as [Q _].
      rewrite applyActiveQuestion_window, Q, A. repeat split. discriminate.
  - intros mobile q. cbv zeta. unfold Legacy.handleHashChange.
    destruct (Legacy.resolveQuestionId _ _) as [c|] eqn:R; [|repeat split].
    pose proof (legacy_resolve_known _ _ R) as K. rewrite K.
    destruct (Js.is_empty c) eqn:Ec; [repeat split; discriminate|]. cbn [orb negb].
    destruct (Legacy.same_id c (Legacy.activeDesktopId q)) eqn:S.
    + destruct (legacy_syncMobileAccordion_address (Some c) mobile false q)
        as [F1 [F2 [F3 F4]]].
      rewrite F1, F2, F3, F4.
      assert (A : Legacy.activeDesktopId q = Some c).
      { unfold Legacy.same_id in S. destruct (Legacy.activeDesktopId q) as [a|];
          [|discriminate]. apply String.eqb_eq in S. now subst. }
      repeat split; [exact A | discriminate].
    + set (q1 := Legacy.set_activeDesktopId (Some c) q).
      destruct (legacy_show_address (Some c) q1) as [G1 [G2 [G3 G4]]].
      destruct (legacy_syncMobileAccordion_address (Some c) mobile false
                  (Legacy.updateSidebarActive (Some c)
                     (Legacy.renderDesktopQuestion (Some c) q1)))
        as [F1 [F2 [F3 F4]]].
      rewrite F1, F2, F3, F4, G1, G2, G3, G4. repeat split. discriminate.
Qed.

(** *** Accessibility attributes follow the visual state *)

(** A panel's attributes agree with its [open] class: [aria-hidden] is
    its negation, [data-open], the button's [is-active] class and
    [aria-expanded] equal it, the body can be focused only when open. *)
Definition panel_consistent (t : Faq.AccordionItem) : Prop :=
  Faq.ai_aria_hidden t = negb (Faq.ai_open t)
  /\ Faq.ai_data_open t = Faq.ai_open t
  /\ Faq.ai_body_tabindex t = (if Faq.ai_open t then 0 else -1)%Z
  /\ Faq.ai_button_active t = Faq.ai_open t
  /\ Faq.ai_aria_expanded t = Faq.ai_open t.

(** A sidebar control's classes [active] and [is-active] agree, and
    [aria-current], once set, says the same. *)
Definition control_consistent (b : Faq.SidebarButton) : Prop :=
  Faq.sb_is_active b = Faq.sb_active b
  /\ (Faq.sb_aria_current b = Some (Faq.sb_active b)
      \/ (Faq.sb_aria_current b = None /\ Faq.sb_active b = false)).

Definition aria_ok (p : Faq.Page) : Prop :=
  (forall k t, In (k, t) (Faq.elements_accordion (Faq.state p)) -> panel_consistent t)
  /\ (forall k b, In (k, b) (Faq.elements_sidebar (Faq.state p)) -> control_consistent b).

Lemma collapsePanel_consistent (t : Faq.AccordionItem) :
  panel_consistent (Faq.collapsePanel t).
Proof. repeat split. Qed.

Lemma open_item_consistent (t : Faq.AccordionItem) : panel_consistent (Faq.open_item t).
Proof. repeat split. Qed.

Lemma createAccordionItem_consistent (e : Faq.Entry) :
  panel_consistent (Faq.createAccordionItem e).
Proof. repeat split. Qed.

Lemma mark_consistent (isActive : bool) (b : Faq.SidebarButton) :
  control_consistent (Faq.mark isActive b).
Proof. split; [reflexivity | now left]. Qed.

Lemma side_link_consistent (e : Faq.Entry) : control_consistent (Faq.side_link e).
Proof. split; [reflexivity | now right]. Qed.

Lemma in_collapse_others (i k : string) (t : Faq.AccordionItem)
    (m : JsMap.t Faq.AccordionItem) :
  In (k, t) (Faq.collapse_others i m) ->
  exists v, In (k, v) m
            /\ t = if negb (String.eqb k i) && Faq.ai_open v then Faq.collapsePanel v else v.
Proof. unfold Faq.collapse_others. intros H. now apply in_forEach in H. Qed.

Lemma in_update {V} (i k : string) (f : V -> V) (t : V) (m : JsMap.t V) :
  In (k, t) (JsMap.update i f m) ->
  exists v, In (k, v) m /\ t = if String.eqb k i then f v else v.
Proof. unfold JsMap.update. intros H. now apply in_forEach in H. Qed.

Lemma in_register_links (entries : list Faq.Entry) :
  forall m k b, In (k, b) (register_links entries m) ->
  (exists e, In e entries /\ k = Faq.e_id e /\ b = Faq.side_link e) \/ In (k, b) m.
Proof.
  induction entries as [|e entries IH]; intros m k b H; [now right|].
  unfold register_links in H. cbn [fold_left] in H. apply IH in H.
  destruct H as [[e' [H1 H2]]|H].
  - left. exists e'. split; [now right | exact H2].
  - apply in_set in H. destruct H as [E|H]; [|now right].
    left. exists e. inversion E. split; [now left | now split].
Qed.

Lemma in_register_items (entries : list Faq.Entry) :
  forall m k t, In (k, t) (register_items entries m) ->
  (exists e, In e entries /\ k = Faq.e_id e /\ t = Faq.createAccordionItem e
             /\ Faq.is_static (Faq.e_id e) = false)
  \/ In (k, t) m.
Proof.
  induction entries as [|e entries IH]; intros m k t H; [now right|].
  unfold register_items in H. cbn [fold_left] in H.
  destruct (Faq.is_static (Faq.e_id e)) eqn:S.
  - apply IH in H. destruct H as [[e' [H1 H2]]|H]; [|now right].
    left. exists e'. split; [now right | exact H2].
  - apply IH in H. destruct H as [[e' [H1 H2]]|H].
    + left. exists e'. split; [now right | exact H2].
    + apply in_set in H. destruct H as [E|H]; [|now right].
      left. exists e. inversion E. split; [now left|]. repeat split. exact S.
Qed.

(** The panels [renderMobile] registers: those of the entries, with the
    active one opened when it has a panel. *)
Lemma renderMobile_elements (p : Faq.Page) (a : Faq.AccordionDom) :
  Faq.accordion (Faq.dom p) = Some a ->
  let m0 := register_items (entries_of p) [] in
  let m' := Faq.elements_accordion (Faq.state (Faq.renderMobile p)) in
  m' = m0
  \/ exists i t,
       Faq.activeId (Faq.state p) = Some i /\ JsMap.get i m0 = Some t
       /\ m' = (if Faq.ai_open t then Faq.collapse_others i m0
                else JsMap.update i Faq.open_item (Faq.collapse_others i m0)).
Proof.
  intros H. cbv zeta. unfold Faq.renderMobile. rewrite H.
  destruct (render_accordion_sections_fold (Faq.sections (Faq.state p)) [] JsMap.empty)
    as [nodes [E1 E2]].
  unfold Faq.Index, JsMap.t, JsMap.empty in *. rewrite E1.
  set (p1 := if negb _ then _ else _).
  assert (B : Faq.elements_accordion (Faq.state p1) = register_items (entries_of p) []
              /\ Faq.activeId (Faq.state p1) = Faq.activeId (Faq.state p)).
  { subst p1. destruct (negb _); cbn; repeat split. }
  destruct B as [B1 B2].
  destruct (Js.truthy (Faq.activeId (Faq.state p1))); [|now left].
  destruct (syncMobileAccordion_panels (Faq.activeId (Faq.state p1)) false false p1)
    as [E | [i [t [Ei [Gi E]]]]]; cbv zeta in *; rewrite E, B1; [now left|].
  right. exists i, t. rewrite <- B2, <- B1. repeat split; assumption.
Qed.

Lemma synced_panels_consistent (i : string) (t0 : Faq.AccordionItem)
    (m : JsMap.t Faq.AccordionItem) :
  (forall k t, In (k, t) m -> panel_consistent t) ->
  forall k t,
    In (k, t) (if Faq.ai_open t0 then Faq.collapse_others i m
               else JsMap.update i Faq.open_item (Faq.collapse_others i m)) ->
    panel_consistent t.
Proof.
  intros H k t Hin.
  assert (C : forall k t, In (k, t) (Faq.collapse_others i m) -> panel_consistent t).
  { intros k' t' H'. apply in_collapse_others in H'. destruct H' as [v [Hv ->]].
    destruct (negb _ && _); [apply collapsePanel_consistent | exact (H _ _ Hv)]. }
  destruct (Faq.ai_open t0); [exact (C _ _ Hin)|].
  apply in_update in Hin. destruct Hin as [v [Hv ->]].
  destruct (String.eqb k i); [apply open_item_consistent | exact (C _ _ Hv)].
Qed.

Lemma aria_same_maps (p p' : Faq.Page) :
  Faq.elements_sidebar (Faq.state p') = Faq.elements_sidebar (Faq.state p) ->
  Faq.elements_accordion (Faq.state p') = Faq.elements_accordion (Faq.state p) ->
  aria_ok p -> aria_ok p'.
Proof. unfold aria_ok. now intros -> ->. Qed.

Lemma aria_same_state (p p' : Faq.Page) :
  Faq.state p' = Faq.state p -> aria_ok p -> aria_ok p'.
Proof. unfold aria_ok. now intros ->. Qed.

Lemma aria_sync (id : option string) (scroll focus : bool) (p : Faq.Page) :
  aria_ok p -> aria_ok (Faq.syncMobileAccordion id scroll focus p).
Proof.
  intros [Ha Hs].
  destruct (syncMobileAccordion_frame id scroll focus p) as [_ [_ [_ [_ [_ [_ F7]]]]]].
  split; [|now rewrite F7].
  destruct (syncMobileAccordion_panels id scroll focus p) as [E | [i [t0 [_ [_ E]]]]];
    cbv zeta in *; rewrite E; [exact Ha|].
  now apply synced_panels_consistent.
Qed.

Lemma aria_mark (id : option string) (p : Faq.Page) :
  aria_ok p -> aria_ok (Faq.updateSidebarActive id p).
Proof.
  intros [Ha Hs]. split; [exact Ha|]. cbn. intros k b H.
  apply in_forEach in H. destruct H as [v [_ ->]]. apply mark_consistent.
Qed.

Lemma aria_renderDesktopQuestion (id : option string) (p : Faq.Page) :
  aria_ok p -> aria_ok (Faq.renderDesktopQuestion id p).
Proof. apply aria_same_state. apply renderDesktopQuestion_frame. Qed.

Lemma aria_setHashQuestionId (id : option string) (p : Faq.Page) :
  aria_ok p -> aria_ok (Faq.setHashQuestionId id p).
Proof. apply aria_same_state. apply setHashQuestionId_frame. Qed.

Lemma aria_renderDesktop (p : Faq.Page) : aria_ok p -> aria_ok (Faq.renderDesktop p).
Proof.
  intros [Ha Hs]. destruct (Faq.sidebar (Faq.dom p)) as [sb|] eqn:E.
  - destruct (renderDesktop_spec p E) as [A1 [_ [_ [_ [_ [A6 _]]]]]].
    split; [now rewrite A6|]. rewrite A1. intros k b H.
    apply in_register_links in H. destruct H as [[e [_ [_ ->]]]|[]].
    apply side_link_consistent.
  - rewrite renderDesktop_absent by exact E. now split.
Qed.

Lemma aria_renderMobile (p : Faq.Page) : aria_ok p -> aria_ok (Faq.renderMobile p).
Proof.
  intros [Ha Hs]. destruct (Faq.accordion (Faq.dom p)) as [a|] eqn:E.
  - destruct (renderMobile_spec p E) as [_ [_ [_ [_ [_ [_ [A7 _]]]]]]].
    split; [|now rewrite A7].
    assert (C0 : forall k t, In (k, t) (register_items (entries_of p) []) ->
                             panel_consistent t).
    { intros k t H. apply in_register_items in H.
      destruct H as [[e [_ [_ [-> _]]]]|[]]. apply createAccordionItem_consistent. }
    destruct (renderMobile_elements p E) as [M | [i [t0 [_ [_ M]]]]];
      cbv zeta in M; rewrite M; [exact C0|].
    now apply synced_panels_consistent.
  - rewrite renderMobile_absent by exact E. now split.
Qed.

Lemma aria_applyActiveQuestion (id : option string) (syncHash scrollMobile : bool)
    (p : Faq.Page) :
  aria_ok p -> aria_ok (Faq.applyActiveQuestion id syncHash scrollMobile p).
Proof.
  intros H. unfold Faq.applyActiveQuestion, Faq.triggerSocialGlow.
  destruct id as [i|]; [|exact H].
  destruct (Js.is_empty i || _); [exact H|].
  assert (K : aria_ok
                (Faq.syncMobileAccordion (Some i) scrollMobile false
                   (if syncHash
                    then Faq.setHashQuestionId (Some i)
                           (Faq.updateSidebarActive (Some i)
                              (Faq.renderDesktopQuestion (Some i)
                                 (Faq.on_state (Faq.set_activeId (Some i)) p)))
                    else Faq.updateSidebarActive (Some i)
                           (Faq.renderDesktopQuestion (Some i)
                              (Faq.on_state (Faq.set_activeId (Some i)) p))))).
  { apply aria_sync.
    assert (U : aria_ok (Faq.updateSidebarActive (Some i)
                           (Faq.renderDesktopQuestion (Some i)
                              (Faq.on_state (Faq.set_activeId (Some i)) p)))).
    { apply aria_mark, aria_renderDesktopQuestion. exact H. }
    destruct syncHash; [now apply aria_setHashQuestionId | exact U]. }
  destruct (JsMap.get i Faq.SOCIAL_GLOW_MAPPING); exact K.
Qed.

(** One step of a proof that a composed operation keeps [aria_ok]. *)
Ltac aria_step :=
  match goal with
  | |- aria_ok (Faq.syncMobileAccordion _ _ _ _) => apply aria_sync
  | |- aria_ok (Faq.updateSidebarActive _ _) => apply aria_mark
  | |- aria_ok (Faq.renderDesktopQuestion _ _) => apply aria_renderDesktopQuestion
  | |- aria_ok (Faq.setHashQuestionId _ _) => apply aria_setHashQuestionId
  | |- aria_ok (Faq.renderDesktop _) => apply aria_renderDesktop
  | |- aria_ok (Faq.renderMobile _) => apply aria_renderMobile
  | |- aria_ok (Faq.applyActiveQuestion _ _ _ _) => apply aria_applyActiveQuestion
  | |- aria_ok (Faq.on_dom _ ?p) => apply (@aria_same_state p); [reflexivity|]
  | |- aria_ok (Faq.on_window _ ?p) => apply (@aria_same_state p); [reflexivity|]
  | |- aria_ok (Faq.log _ ?p) => apply (@aria_same_state p); [reflexivity|]
  | |- aria_ok (Faq.set_timers _ ?p) => apply (@aria_same_state p); [reflexivity|]
  | |- aria_ok (Faq.on_state (Faq.set_activeId _) ?p) =>
      apply (@aria_same_maps p); [reflexivity | reflexivity |]
  | |- aria_ok (Faq.on_state (Faq.set_index _ _) ?p) =>
      apply (@aria_same_maps p); [reflexivity | reflexivity |]
  | |- aria_ok (if ?c then _ else _) => destruct c
  | |- aria_ok (match ?x with _ => _ end) => destruct x
  | |- aria_ok (let (_, _) := ?x in _) => destruct x
  end.

Lemma aria_handleAccordionClick (target : option string) (p : Faq.Page) :
  aria_ok p -> aria_ok (Faq.handleAccordionClick target p).
Proof.
  intros H. unfold Faq.handleAccordionClick.
  destruct target as [id|]; [|exact H].
  destruct (Js.is_empty id); [exact H|].
  destruct (JsMap.get id (Faq.elements_accordion (Faq.state p))) as [item|]; [|exact H].
  destruct H as [Ha Hs].
  assert (C : forall k t, In (k, t) (Faq.collapse_others id
                                       (Faq.elements_accordion (Faq.state p))) ->
                          panel_consistent t).
  { intros k t H'. apply in_collapse_others in H'. destruct H' as [v [Hv ->]].
    destruct (negb _ && _); [apply collapsePanel_consistent | exact (Ha _ _ Hv)]. }
  destruct (Faq.ai_open item).
  - split; [|exact Hs]. cbn. intros k t H'. apply in_update in H'.
    destruct H' as [v [Hv ->]].
    destruct (String.eqb k id); [apply collapsePanel_consistent | exact (C _ _ Hv)].
  - apply aria_applyActiveQuestion. unfold Faq.expandPanel.
    destruct Faq.AUTO_SCROLL; (split; [|exact Hs]); cbn; intros k t H';
      apply in_update in H'; destruct H' as [v [Hv ->]];
      (destruct (String.eqb k id); [apply open_item_consistent | exact (C _ _ Hv)]).
Qed.

Lemma aria_dispatch (p : Faq.Page) (ev : Faq.Event) :
  aria_ok p -> aria_ok (Faq.dispatch p ev).
Proof.
  intros H. destruct ev; cbn [Faq.dispatch].
  - unfold Faq.init, Faq.loadFaqData, Faq.handleDataLoadError, Faq.showErrorState.
    assert (L : aria_ok (Faq.log (Fetch "assets/faq-data.json" "no-store")
                           (Faq.showLoadingState p))).
    { unfold Faq.showLoadingState. repeat aria_step; exact H. }
    destruct net as [|ok status body]; [repeat aria_step; exact L|].
    destruct ok; cbn [negb]; [|repeat aria_step; exact L].
    destruct body as [[doc| |s|n|b|]|];
      first [unfold Faq.hydrate; repeat aria_step; exact L | repeat aria_step; exact L].
  - unfold Faq.hydrate. repeat aria_step; exact H.
  - now apply aria_applyActiveQuestion.
  - unfold Faq.handleSidebarClick, Faq.scrollQuestionToTop. repeat aria_step; exact H.
  - now apply aria_handleAccordionClick.
  - unfold Faq.handleHashChange. repeat aria_step; exact H.
  - unfold Faq.handleLayoutChange. repeat aria_step; exact H.
  - unfold Faq.handleMotionPreferenceChange, Faq.refreshOpenPanels.
    repeat aria_step; exact H.
  - exact H.
  - unfold Faq.timer_fires, Faq.updateDesktopQuestionContent. repeat aria_step; exact H.
  - apply (@aria_same_state p); [|exact H]. apply on_keydown_state.
Qed.

Lemma aria_run (evs : list Faq.Event) :
  forall p, aria_ok p -> aria_ok (Faq.run p evs).
Proof.
  induction evs as [|ev evs IH]; intros p H; [exact H|].
  apply IH. now apply aria_dispatch.
Qed.

(** X5.  After any sequence of events on a fresh page, the
    accessibility attributes of every registered accordion item follow
    its [open] class ([aria-hidden] is its negation; [data-open], the
    button's [is-active] class and [aria-expanded] equal it; the body's
    [tabindex] is 0 when open and -1 when not), and on every registered
    sidebar control the classes [active] and [is-active] agree and
    [aria-current], once set, equals them. *)
Theorem aria_follows_visual_state (d : Faq.Dom) (w : Faq.Window) (evs : list Faq.Event) :
  let p := Faq.run (Faq.fresh d w) evs in
  (forall k t, In (k, t) (Faq.elements_accordion (Faq.state p)) ->
     Faq.ai_aria_hidden t = negb (Faq.ai_open t)
     /\ Faq.ai_data_open t = Faq.ai_open t
     /\ Faq.ai_body_tabindex t = (if Faq.ai_open t then 0 else -1)%Z
     /\ Faq.ai_button_active t = Faq.ai_open t
     /\ Faq.ai_aria_expanded t = Faq.ai_open t)
  /\ (forall k b, In (k, b) (Faq.elements_sidebar (Faq.state p)) ->
        Faq.sb_is_active b = Faq.sb_active b
        /\ (Faq.sb_aria_current b = Some (Faq.sb_active b)
            \/ (Faq.sb_aria_current b = None /\ Faq.sb_active b = false))).
Proof.
  cbv zeta. apply (aria_run evs). split; intros k v [].
Qed.

(** *** The two views follow the active question *)

Definition has_panel (id : option string) (m : JsMap.t Faq.AccordionItem) : bool :=
  match id with Some a => JsMap.has a m | None => false end.

(** The active id is a non-empty key of the index; nothing is active
    only when the index is empty. *)
Definition active_ok (st : Faq.AppState) : Prop :=
  match Faq.activeId st with
  | Some i => i <> "" /\ JsMap.has i (Faq.questions st) = true
  | None => Faq.questions st = []
  end.

(** The registered panels and the cached entries belong to questions of
    the index, and nothing is registered for a host the page lacks. *)
Definition base (p : Faq.Page) : Prop :=
  active_ok (Faq.state p)
  /\ (forall k, JsMap.has k (Faq.elements_accordion (Faq.state p)) = true ->
        JsMap.has k (Faq.questions (Faq.state p)) = true)
  /\ (forall e, In e (entries_of p) ->
        JsMap.has (Faq.e_id e) (Faq.questions (Faq.state p)) = true)
  /\ (Faq.accordion (Faq.dom p) = None -> Faq.elements_accordion (Faq.state p) = [])
  /\ (Faq.sidebar (Faq.dom p) = None -> Faq.elements_sidebar (Faq.state p) = []).

(** A control is marked exactly when it is the active question's. *)
Definition marks_ok (p : Faq.Page) : Prop :=
  forall k b, In (k, b) (Faq.elements_sidebar (Faq.state p)) ->
  Faq.marked b = Faq.same_id k (Faq.activeId (Faq.state p)).

(** An open panel is the active question's, unless the active question
    has no panel. *)
Definition panels_ok (p : Faq.Page) : Prop :=
  forall k t, In (k, t) (Faq.elements_accordion (Faq.state p)) ->
  Faq.ai_open t = true ->
  Faq.activeId (Faq.state p) = Some k
  \/ has_panel (Faq.activeId (Faq.state p)) (Faq.elements_accordion (Faq.state p)) = false.

Definition synced (p : Faq.Page) : Prop := base p /\ marks_ok p /\ panels_ok p.

Definition hosts_le (p' p : Faq.Page) : Prop :=
  (Faq.accordion (Faq.dom p') = None -> Faq.accordion (Faq.dom p) = None)
  /\ (Faq.sidebar (Faq.dom p') = None -> Faq.sidebar (Faq.dom p) = None).

Lemma hosts_le_same (p' p : Faq.Page) :
  Faq.accordion (Faq.dom p') = Faq.accordion (Faq.dom p) ->
  Faq.sidebar (Faq.dom p') = Faq.sidebar (Faq.dom p) -> hosts_le p' p.
Proof. intros A S. split; congruence. Qed.

Lemma base_frame (p p' : Faq.Page) :
  Faq.state p' = Faq.state p -> hosts_le p' p -> base p -> base p'.
Proof.
  intros E [Ha Hs] [B1 [B2 [B3 [B4 B5]]]]. unfold base, entries_of in *. rewrite E.
  repeat split; auto.
Qed.

Lemma synced_frame (p p' : Faq.Page) :
  Faq.state p' = Faq.state p -> hosts_le p' p -> synced p -> synced p'.
Proof.
  intros E H [B [M P]]. split; [exact (base_frame E H B)|].
  unfold marks_ok, panels_ok in *. rewrite E. now split.
Qed.

Lemma has_synced_panels (i : string) (t0 : Faq.AccordionItem)
    (m : JsMap.t Faq.AccordionItem) (k : string) :
  JsMap.has k (if Faq.ai_open t0 then Faq.collapse_others i m
               else JsMap.update i Faq.open_item (Faq.collapse_others i m))
  = JsMap.has k m.
Proof.
  destruct (Faq.ai_open t0); unfold JsMap.update, Faq.collapse_others;
    rewrite ?has_forEach; reflexivity.
Qed.

Lemma base_sync (id : option string) (scroll focus : bool) (p : Faq.Page) :
  base p -> base (Faq.syncMobileAccordion id scroll focus p).
Proof.
  intros [B1 [B2 [B3 [B4 B5]]]].
  destruct (syncMobileAccordion_frame id scroll focus p)
    as [F1 [_ [_ [F4 [F5 [F6 F7]]]]]].
  unfold base, active_ok, entries_of in *. rewrite F1, F4, F5, F6, F7.
  destruct (syncMobileAccordion_panels id scroll focus p) as [E | [i [t0 [_ [G E]]]]];
    cbv zeta in *; rewrite E; [repeat split; assumption|].
  repeat split; try assumption.
  - intros k H. rewrite has_synced_panels in H. now apply B2.
  - intros H. rewrite (B4 H) in G. discriminate.
Qed.

Lemma base_mark (id : option string) (p : Faq.Page) :
  base p -> base (Faq.updateSidebarActive id p).
Proof.
  intros [B1 [B2 [B3 [B4 B5]]]]. unfold base. cbn. repeat split; try assumption.
  intros H. now rewrite (B5 H).
Qed.

Lemma marks_mark (id : option string) (p : Faq.Page) :
  Faq.activeId (Faq.state p) = id -> marks_ok (Faq.updateSidebarActive id p).
Proof.
  intros <- k b H. cbn in *. apply in_forEach in H. destruct H as [v [_ ->]].
  apply marked_mark.
Qed.

Lemma panels_sync (id : option string) (scroll focus : bool) (p : Faq.Page) :
  Faq.activeId (Faq.state p) = id -> active_ok (Faq.state p) ->
  panels_ok (Faq.syncMobileAccordion id scroll focus p).
Proof.
  intros Ea Ha. unfold panels_ok.
  destruct (syncMobileAccordion_frame id scroll focus p) as [_ [_ [_ [_ [_ [F6 _]]]]]].
  rewrite F6, Ea. unfold active_ok in Ha. rewrite Ea in Ha.
  destruct id as [i|]; [|intros; now right]. destruct Ha as [Hi _].
  destruct (JsMap.get i (Faq.elements_accordion (Faq.state p))) as [t0|] eqn:G.
  - destruct (@syncMobileAccordion_target i t0 scroll focus p Hi G) as [O _].
    intros k t Hin Ho. left. destruct (string_dec k i) as [->|N]; [reflexivity|].
    rewrite (O k t Hin N) in Ho. discriminate.
  - intros k t Hin Ho. right. unfold Faq.syncMobileAccordion.
    apply is_empty_false in Hi. rewrite Hi, G.
    destruct (Nat.eqb _ 0); simpl; now apply get_None.
Qed.

(** The part common to [applyActiveQuestion] and [hydrate]: the viewer,
    the sidebar, the hash when asked, then the accordion. *)
Lemma synced_show (a : option string) (syncHash scroll focus : bool) (p : Faq.Page) :
  base p -> Faq.activeId (Faq.state p) = a ->
  synced (Faq.syncMobileAccordion a scroll focus
            (if syncHash
             then Faq.setHashQuestionId a
                    (Faq.updateSidebarActive a (Faq.renderDesktopQuestion a p))
             else Faq.updateSidebarActive a (Faq.renderDesktopQuestion a p))).
Proof.
  intros B Ea.
  destruct (renderDesktopQuestion_frame a p) as [R1 [_ [R3 [R4 _]]]].
  set (p1 := Faq.renderDesktopQuestion a p) in *.
  assert (B1 : base p1) by (apply (base_frame R1); [now apply hosts_le_same | exact B]).
  assert (A1 : Faq.activeId (Faq.state p1) = a) by now rewrite R1.
  set (p2 := Faq.updateSidebarActive a p1).
  assert (B2 : base p2) by now apply base_mark.
  assert (M2 : marks_ok p2) by now apply marks_mark.
  assert (A2 : Faq.activeId (Faq.state p2) = a) by exact A1.
  set (p3 := if syncHash then Faq.setHashQuestionId a p2 else p2).
  assert (E3 : Faq.state p3 = Faq.state p2 /\ Faq.dom p3 = Faq.dom p2).
  { subst p3. destruct syncHash; [|now split].
    destruct (setHashQuestionId_frame a p2) as [S1 [S2 _]]. now split. }
  destruct E3 as [E3 D3].
  assert (B3 : base p3).
  { apply (base_frame E3); [apply hosts_le_same; now rewrite D3 | exact B2]. }
  assert (M3 : marks_ok p3) by (unfold marks_ok in *; now rewrite E3).
  assert (A3 : Faq.activeId (Faq.state p3) = a) by now rewrite E3.
  split; [now apply base_sync|]. split.
  - destruct (syncMobileAccordion_frame a scroll focus p3)
      as [_ [_ [_ [_ [_ [F6 F7]]]]]].
    unfold marks_ok in *. now rewrite F6, F7.
  - apply panels_sync; [exact A3 | apply B3].
Qed.

Lemma applyActiveQuestion_synced (i : string) (syncHash scrollMobile : bool)
    (p : Faq.Page) :
  base p -> i <> "" -> JsMap.has i (Faq.questions (Faq.state p)) = true ->
  synced (Faq.applyActiveQuestion (Some i) syncHash scrollMobile p).
Proof.
  intros [B1 [B2 [B3 [B4 B5]]]] Hi Hq. unfold Faq.applyActiveQuestion, Faq.triggerSocialGlow.
  rewrite Hq. pose proof Hi as Hi'. apply is_empty_false in Hi'. rewrite Hi'.
  cbn [orb negb].
  assert (B0 : base (Faq.on_state (Faq.set_activeId (Some i)) p)).
  { unfold base, active_ok. cbn. repeat split; assumption. }
  pose proof (@synced_show (Some i) syncHash scrollMobile false _ B0 eq_refl) as K.
  destruct (JsMap.get i Faq.SOCIAL_GLOW_MAPPING); [|exact K].
  apply (synced_frame (p := Faq.syncMobileAccordion (Some i) scrollMobile false
                               (if syncHash
                                then Faq.setHashQuestionId (Some i)
                                       (Faq.updateSidebarActive (Some i)
                                          (Faq.renderDesktopQuestion (Some i)
                                             (Faq.on_state (Faq.set_activeId (Some i)) p)))
                                else Faq.updateSidebarActive (Some i)
                                       (Faq.renderDesktopQuestion (Some i)
                                          (Faq.on_state (Faq.set_activeId (Some i)) p)))));
    [reflexivity | now apply hosts_le_same | exact K].
Qed.

Lemma applyActiveQuestion_keeps_synced (id : option string) (syncHash scrollMobile : bool)
    (p : Faq.Page) :
  synced p -> synced (Faq.applyActiveQuestion id syncHash scrollMobile p).
Proof.
  intros H. destruct id as [i|]; [|exact H].
  destruct (Js.is_empty i) eqn:Ei.
  { unfold Faq.applyActiveQuestion. now rewrite Ei. }
  destruct (JsMap.has i (Faq.questions (Faq.state p))) eqn:Hq.
  - apply applyActiveQuestion_synced; [apply H | now apply is_empty_false | exact Hq].
  - unfold Faq.applyActiveQuestion. rewrite Ei, Hq. exact H.
Qed.

Lemma keys_nil {V} (m : JsMap.t V) : JsMap.keys m = [] -> m = [].
Proof. destruct m; [reflexivity | discriminate]. Qed.

Lemma index_values_known (doc : Document) (e : Faq.Entry) :
  In e (JsMap.values (fst (Faq.buildQuestionIndex doc))) ->
  JsMap.has (Faq.e_id e) (fst (Faq.buildQuestionIndex doc)) = true.
Proof.
  intros H. apply has_In. rewrite buildQuestionIndex_flat in *.
  rewrite <- flat_index_ids. now apply in_map.
Qed.

(** The active id [hydrate] settles on, whatever was active before. *)
Lemma hydrate_active (doc : Document) (p : Faq.Page) :
  let index := fst (Faq.buildQuestionIndex doc) in
  let p1 := Faq.on_state (Faq.set_index index (snd (Faq.buildQuestionIndex doc))) p in
  let hashCandidate :=
    Faq.resolveQuestionId (Faq.questions (Faq.state p1)) (Faq.extractHashId p1) in
  let p2 :=
    if Js.truthy hashCandidate then Faq.on_state (Faq.set_activeId hashCandidate) p1
    else if negb (Js.truthy (Faq.activeId (Faq.state p1)))
            || negb (Faq.has_active (Faq.state p1)) then
      Faq.on_state
        (Faq.set_activeId
           match hd_error (Faq.sort_by_order (JsMap.values (Faq.questions (Faq.state p1)))) with
           | Some e => if Js.is_empty (Faq.e_id e) then None else Some (Faq.e_id e)
           | None => None
           end) p1
    else p1 in
  Faq.questions (Faq.state p2) = index
  /\ Faq.sections (Faq.state p2) = snd (Faq.buildQuestionIndex doc)
  /\ Faq.elements_sidebar (Faq.state p2) = Faq.elements_sidebar (Faq.state p)
  /\ Faq.elements_accordion (Faq.state p2) = Faq.elements_accordion (Faq.state p)
  /\ Faq.dom p2 = Faq.dom p /\ Faq.window p2 = Faq.window p
  /\ Faq.timers p2 = Faq.timers p /\ Faq.effects p2 = Faq.effects p
  /\ active_ok (Faq.state p2)
  /\ Faq.activeId (Faq.state p2)
     = match hashCandidate with
       | Some id => Some id
       | None =>
           match Faq.activeId (Faq.state p) with
           | Some a =>
               if negb (Js.is_empty a) && JsMap.has a index then Some a
               else hd_error (doc_ids doc)
           | None => hd_error (doc_ids doc)
           end
       end.
Proof.
  cbv zeta.
  set (index := fst (Faq.buildQuestionIndex doc)).
  set (p1 := Faq.on_state _ p).
  change (Faq.resolveQuestionId (Faq.questions (Faq.state p1)) (Faq.extractHashId p1))
    with (Faq.resolveQuestionId index (Faq.extractHashId p)).
  assert (First : match hd_error (doc_ids doc) with
                  | Some i => i <> "" /\ JsMap.has i index = true
                  | None => index = []
                  end).
  { destruct (doc_ids doc) as [|i l] eqn:D; simpl.
    - apply keys_nil. subst index.
      rewrite buildQuestionIndex_flat, flat_index_keys. fold (doc_ids doc).
      now rewrite D.
    - split; [apply (@doc_ids_nonempty doc); rewrite D; now left|].
      apply has_In. subst index. rewrite buildQuestionIndex_flat, flat_index_keys.
      fold (doc_ids doc). apply first_seen_In. rewrite D. now left. }
  assert (Hd : match hd_error (Faq.sort_by_order (JsMap.values index)) with
               | Some e => if Js.is_empty (Faq.e_id e) then None else Some (Faq.e_id e)
               | None => None
               end = hd_error (doc_ids doc)).
  { pose proof (first_by_order doc) as F. cbv zeta in F. fold index in F.
    destruct (hd_error (Faq.sort_by_order (JsMap.values index))) as [e|];
      simpl in F; rewrite <- F; [|reflexivity].
    rewrite <- F in First. simpl in First. destruct First as [N _].
    apply is_empty_false in N. now rewrite N. }
  destruct (Faq.resolveQuestionId index (Faq.extractHashId p)) as [id|] eqn:R.
  - pose proof (resolve_known _ _ R) as K.
    assert (N : id <> "") by (apply (@index_keys_nonempty doc); exact K).
    assert (T : Js.truthy (Some id) = true)
      by (simpl; now apply negb_true_iff, is_empty_false).
    rewrite T. cbn. unfold active_ok. cbn. repeat split; assumption.
  - cbn [Js.truthy].
    change (Faq.questions (Faq.state p1)) with index.
    change (Faq.activeId (Faq.state p1)) with (Faq.activeId (Faq.state p)).
    unfold Faq.has_active. change (Faq.activeId (Faq.state p1)) with (Faq.activeId (Faq.state p)).
    change (Faq.questions (Faq.state p1)) with index.
    destruct (Faq.activeId (Faq.state p)) as [a|] eqn:A.
    + cbn [Js.truthy]. destruct (Js.is_empty a) eqn:Ea; cbn [negb orb andb].
      * rewrite Hd. unfold active_ok. cbn. repeat split. exact First.
      * destruct (JsMap.has a index) eqn:Ha; cbn [negb].
        -- unfold active_ok. subst p1. cbn. rewrite A. repeat split;
             [now apply is_empty_false | exact Ha].
        -- rewrite Hd. unfold active_ok. cbn. repeat split. exact First.
    + cbn [Js.truthy negb orb]. rewrite Hd. unfold active_ok. cbn. repeat split.
      exact First.
Qed.

Lemma renderDesktop_host (p : Faq.Page) (sb : Faq.SidebarDom) :
  Faq.sidebar (Faq.dom p) = Some sb ->
  exists c, Faq.sidebar (Faq.dom (Faq.renderDesktop p)) = Some c.
Proof.
  intros H. unfold Faq.renderDesktop, Faq.ensureSidebarContent. rewrite H.
  destruct (fold_left _ _ _) as [fragment buttons]. destruct (negb _); cbn; eauto.
Qed.

Lemma renderMobile_host (p : Faq.Page) (a : Faq.AccordionDom) :
  Faq.accordion (Faq.dom p) = Some a ->
  exists c, Faq.accordion (Faq.dom (Faq.renderMobile p)) = Some c.
Proof.
  intros H. unfold Faq.renderMobile. rewrite H.
  destruct (fold_left _ _ _) as [fragment items].
  set (p1 := if negb _ then _ else _).
  assert (D : exists c, Faq.accordion (Faq.dom p1) = Some c)
    by (subst p1; destruct (negb _); cbn; eauto).
  destruct (Js.truthy _); [|exact D].
  destruct (syncMobileAccordion_frame (Faq.activeId (Faq.state p1)) false false p1)
    as [F1 _].
  now rewrite F1.
Qed.

Lemma hydrate_synced (doc : Document) (p : Faq.Page) :
  synced p -> synced (Faq.hydrate doc p).
Proof.
  intros [[_ [_ [_ [H4 H5]]]] _]. rewrite hydrate_unfold.
  pose proof (hydrate_active doc p) as HA. cbv zeta in HA |- *.
  match goal with |- context [Faq.renderDesktop ?q] => set (p2 := q) in * end.
  destruct HA as [Q2 [S2 [SB2 [AC2 [D2 [_ [_ [_ [A2 _]]]]]]]]].
  assert (EK : forall e, In e (entries_of p2) ->
                         JsMap.has (Faq.e_id e) (Faq.questions (Faq.state p2)) = true).
  { unfold entries_of. rewrite S2, Q2, buildQuestionIndex_validItems.
    apply index_values_known. }
  (* the sidebar *)
  set (p3 := Faq.renderDesktop p2).
  destruct (renderDesktop_core p2) as [DQ [DS [DA [_ [_ DAcc]]]]]. fold p3 in DQ, DS, DA, DAcc.
  assert (SB3 : (forall k b, In (k, b) (Faq.elements_sidebar (Faq.state p3)) ->
                             Faq.marked b = false)
                /\ (Faq.sidebar (Faq.dom p3) = None ->
                    Faq.elements_sidebar (Faq.state p3) = [])
                /\ Faq.elements_accordion (Faq.state p3)
                   = Faq.elements_accordion (Faq.state p)).
  { destruct (Faq.sidebar (Faq.dom p2)) as [sb|] eqn:E.
    - destruct (renderDesktop_spec p2 E) as [A1 [_ [_ [_ [_ [A6 _]]]]]]. fold p3 in A1, A6.
      destruct (renderDesktop_host p2 E) as [c Hc]. fold p3 in Hc.
      split; [|split; [rewrite Hc; discriminate | now rewrite A6]].
      intros k b H. rewrite A1 in H. apply in_register_links in H.
      destruct H as [[e [_ [_ ->]]]|[]]. reflexivity.
    - subst p3. rewrite renderDesktop_absent by exact E.
      rewrite D2 in E. rewrite SB2, AC2, (H5 E). repeat split. intros k b []. }
  destruct SB3 as [SB3 [SH3 AC3]].
  (* the accordion *)
  set (p4 := Faq.renderMobile p3).
  destruct (renderMobile_core p3) as [MQ [MS [MA [_ [_ MSb]]]]]. fold p4 in MQ, MS, MA, MSb.
  assert (AC4 : (forall k, JsMap.has k (Faq.elements_accordion (Faq.state p4)) = true ->
                           JsMap.has k (Faq.questions (Faq.state p4)) = true)
                /\ (Faq.accordion (Faq.dom p4) = None ->
                    Faq.elements_accordion (Faq.state p4) = [])
                /\ Faq.elements_sidebar (Faq.state p4)
                   = Faq.elements_sidebar (Faq.state p3)).
  { destruct (Faq.accordion (Faq.dom p3)) as [a|] eqn:E.
    - destruct (renderMobile_spec p3 E) as [_ [_ [_ [_ [_ [_ [A7 _]]]]]]]. fold p4 in A7.
      destruct (renderMobile_host p3 E) as [c Hc]. fold p4 in Hc.
      split; [|split; [rewrite Hc; discriminate | exact A7]].
      intros k H.
      assert (H0 : JsMap.has k (register_items (entries_of p3) []) = true).
      { destruct (renderMobile_elements p3 E) as [M | [i [t0 [_ [_ M]]]]];
          cbv zeta in M; fold p4 in M; rewrite M in H; [exact H|].
        now rewrite has_synced_panels in H. }
      apply has_In in H0. unfold JsMap.keys in H0. apply in_map_iff in H0.
      destruct H0 as [[k' t] [Ek Hin]]. simpl in Ek. subst k'.
      apply in_register_items in Hin. destruct Hin as [[e [He [-> _]]]|[]].
      rewrite MQ, DQ. apply EK. unfold entries_of in *. now rewrite <- DS.
    - assert (E0 : Faq.accordion (Faq.dom p) = None) by (rewrite <- D2; now symmetry).
      subst p4. rewrite renderMobile_absent by exact E.
      rewrite AC3, (H4 E0). repeat split. discriminate. }
  destruct AC4 as [AK4 [AH4 SB4]].
  assert (B4 : base p4).
  { unfold base, active_ok, entries_of in *. rewrite MQ, MS, MA, DQ, DS, DA.
    split; [exact A2|]. split; [intros k H; rewrite <- DQ, <- MQ; now apply AK4|].
    split; [exact EK|]. split; [exact AH4|]. rewrite SB4, MSb. exact SH3. }
  (* the active question is shown *)
  unfold hydrate_show.
  destruct (Js.truthy (Faq.activeId (Faq.state p4)) && Faq.has_active (Faq.state p4)) eqn:C.
  - cbv zeta. set (a := Faq.activeId (Faq.state p4)).
    destruct (renderDesktopQuestion_frame a p4) as [R1 _].
    assert (E1 : Faq.activeId (Faq.state (Faq.renderDesktopQuestion a p4)) = a)
      by now rewrite R1.
    rewrite E1.
    assert (E2 : Faq.activeId
                   (Faq.state (Faq.updateSidebarActive a (Faq.renderDesktopQuestion a p4)))
                 = a) by exact E1.
    rewrite E2.
    destruct (setHashQuestionId_frame a
                (Faq.updateSidebarActive a (Faq.renderDesktopQuestion a p4))) as [S1 _].
    rewrite S1, E2.
    exact (@synced_show a true false false p4 B4 eq_refl).
  - assert (N : Faq.activeId (Faq.state p4) = None).
    { destruct B4 as [A4 _]. unfold active_ok, Faq.has_active in *.
      destruct (Faq.activeId (Faq.state p4)) as [i|]; [|reflexivity].
      destruct A4 as [Hi Hq]. apply is_empty_false in Hi. simpl in C.
      rewrite Hi, Hq in C. discriminate. }
    assert (S4 : synced p4).
    { split; [exact B4|]. split.
      - intros k b H. rewrite N. simpl. rewrite SB4 in H. exact (SB3 k b H).
      - intros k t _ _. right. now rewrite N. }
    destruct (Faq.viewer (Faq.dom p4)); [|exact S4].
    apply (synced_frame (p := p4)); [reflexivity | now apply hosts_le_same | exact S4].
Qed.

Lemma handleAccordionClick_synced (target : option string) (p : Faq.Page) :
  synced p -> synced (Faq.handleAccordionClick target p).
Proof.
  intros H. unfold Faq.handleAccordionClick.
  destruct target as [id|]; [|exact H].
  destruct (Js.is_empty id) eqn:Ei; [exact H|].
  destruct (JsMap.get id (Faq.elements_accordion (Faq.state p))) as [item|] eqn:G;
    [|exact H].
  destruct H as [[B1 [B2 [B3 [B4 B5]]]] [M P]].
  assert (Hq : JsMap.has id (Faq.questions (Faq.state p)) = true)
    by (apply B2; now apply get_Some_has in G).
  set (p1 := Faq.on_state _ p).
  assert (Bs : forall f, base (Faq.on_state
                                 (fun st => Faq.set_elements_accordion
                                              (JsMap.update id f (Faq.elements_accordion st))
                                              st) p1)).
  { intros f. unfold base, active_ok, entries_of. subst p1.
    cbn [Faq.state Faq.on_state Faq.elements_accordion Faq.set_elements_accordion
         Faq.questions Faq.activeId Faq.sections Faq.dom Faq.elements_sidebar].
    split; [exact B1|]. split.
    - intros k Hk. unfold JsMap.update, Faq.collapse_others in Hk.
      rewrite !has_forEach in Hk. now apply B2.
    - split; [exact B3|]. split; [|exact B5].
      intros E. now rewrite (B4 E). }
  destruct (Faq.ai_open item).
  - split; [apply Bs|]. split; [exact M|].
    intros k t Hin Ho. exfalso. cbn in Hin. apply in_update in Hin.
    destruct Hin as [v [Hv ->]]. destruct (String.eqb k id) eqn:E; [discriminate|].
    apply String.eqb_neq in E.
    rewrite (@collapse_others_only_at id _ k v Hv E) in Ho. discriminate.
  - apply applyActiveQuestion_synced; [|now apply is_empty_false|exact Hq].
    unfold Faq.expandPanel. destruct Faq.AUTO_SCROLL.
    + apply (base_frame (p := Faq.on_state
                                  (fun st => Faq.set_elements_accordion
                                               (JsMap.update id Faq.open_item
                                                  (Faq.elements_accordion st)) st) p1));
        [reflexivity | now apply hosts_le_same | apply Bs].
    + apply Bs.
Qed.

Lemma showLoadingState_hosts (p : Faq.Page) :
  Faq.state (Faq.showLoadingState p) = Faq.state p
  /\ hosts_le (Faq.showLoadingState p) p.
Proof.
  destruct p as [st [v sb ac kb] w t e]. unfold Faq.showLoadingState, hosts_le.
  destruct v, sb, ac; cbn; repeat split; congruence.
Qed.

Lemma showErrorState_hosts (error : JsError) (p : Faq.Page) :
  Faq.state (Faq.handleDataLoadError error (Faq.showErrorState error p)) = Faq.state p
  /\ hosts_le (Faq.handleDataLoadError error (Faq.showErrorState error p)) p.
Proof.
  destruct p as [st [v sb ac kb] w t e].
  unfold Faq.handleDataLoadError, Faq.showErrorState, hosts_le.
  destruct v, sb, ac; cbn; repeat split; congruence.
Qed.

Lemma dispatch_synced (p : Faq.Page) (ev : Faq.Event) :
  synced p -> synced (Faq.dispatch p ev).
Proof.
  intros H. destruct ev; cbn [Faq.dispatch].
  - (* init *)
    unfold Faq.init, Faq.loadFaqData.
    assert (L : synced (Faq.log (Fetch "assets/faq-data.json" "no-store")
                          (Faq.showLoadingState p))).
    { destruct (showLoadingState_hosts p) as [E0 H0].
      apply (synced_frame (p := p)); [exact E0 | exact H0 | exact H]. }
    assert (Err : forall error,
              synced (Faq.handleDataLoadError error
                        (Faq.showErrorState error
                           (Faq.log (Fetch "assets/faq-data.json" "no-store")
                              (Faq.showLoadingState p))))).
    { intros error. destruct (showErrorState_hosts error
                                (Faq.log (Fetch "assets/faq-data.json" "no-store")
                                   (Faq.showLoadingState p))) as [E0 H0].
      apply (synced_frame (p := Faq.log (Fetch "assets/faq-data.json" "no-store")
                                   (Faq.showLoadingState p))); [exact E0 | exact H0 | exact L]. }
    destruct net as [|ok status body]; [apply Err|].
    destruct ok; cbn [negb]; [|apply Err].
    destruct body as [[doc| |s|n|b|]|]; first [now apply hydrate_synced | apply Err].
  - now apply hydrate_synced.
  - now apply applyActiveQuestion_keeps_synced.
  - (* sidebar click *)
    unfold Faq.handleSidebarClick, Faq.scrollQuestionToTop.
    destruct target as [id|]; [|exact H].
    destruct (Js.is_empty id || _); [exact H|].
    destruct (Faq.same_id id _); [|now apply applyActiveQuestion_keeps_synced].
    destruct (Faq.viewer (Faq.dom p)); [|exact H].
    apply (synced_frame (p := p)); [reflexivity | now apply hosts_le_same | exact H].
  - now apply handleAccordionClick_synced.
  - (* hashchange *)
    set (p0 := Faq.on_window _ p).
    assert (H0 : synced p0)
      by (apply (synced_frame (p := p)); [reflexivity | now apply hosts_le_same | exact H]).
    unfold Faq.handleHashChange.
    destruct (Faq.resolveQuestionId _ _) as [c|]; [|exact H0].
    destruct (Js.is_empty c); [exact H0|].
    destruct (Faq.same_id c (Faq.activeId (Faq.state p0))) eqn:S;
      [|now apply applyActiveQuestion_keeps_synced].
    apply same_id_true in S. destruct H0 as [B0 [M0 P0]].
    split; [now apply base_sync|]. split.
    + destruct (syncMobileAccordion_frame (Some c) (Faq.layout_mobile (Faq.window p0))
                  false p0) as [_ [_ [_ [_ [_ [F6 F7]]]]]].
      unfold marks_ok in *. now rewrite F6, F7.
    + apply panels_sync; [exact S | apply B0].
  - (* layout change *)
    set (p0 := Faq.on_window _ p).
    assert (H0 : synced p0)
      by (apply (synced_frame (p := p)); [reflexivity | now apply hosts_le_same | exact H]).
    unfold Faq.handleLayoutChange.
    destruct (Nat.eqb _ 0); [exact H0|]. destruct H0 as [B0 [M0 P0]].
    destruct (Faq.layout_mobile (Faq.window p0)).
    + split; [now apply base_sync|]. split.
      * destruct (syncMobileAccordion_frame (Faq.activeId (Faq.state p0)) false false p0)
          as [_ [_ [_ [_ [_ [F6 F7]]]]]].
        unfold marks_ok in *. now rewrite F6, F7.
      * apply panels_sync; [reflexivity | apply B0].
    + destruct (renderDesktopQuestion_frame (Faq.activeId (Faq.state p0)) p0)
        as [R1 [_ [R3 [R4 _]]]].
      set (p1 := Faq.renderDesktopQuestion _ p0) in *.
      assert (B1 : base p1)
        by (apply (base_frame R1); [now apply hosts_le_same | exact B0]).
      split; [now apply base_mark|]. split.
      * apply marks_mark. now rewrite R1.
      * unfold panels_ok in *. cbn. rewrite R1. exact P0.
  - (* motion preference *)
    unfold Faq.handleMotionPreferenceChange, Faq.refreshOpenPanels.
    assert (H0 : synced (Faq.on_window (Faq.set_reduced_motion reduce) p))
      by (apply (synced_frame (p := p)); [reflexivity | now apply hosts_le_same | exact H]).
    destruct (negb _); exact H0.
  - exact H.
  - (* a timer *)
    unfold Faq.timer_fires, Faq.updateDesktopQuestionContent.
    destruct (Faq.timers p); [exact H|].
    apply (synced_frame (p := p)); [reflexivity | now apply hosts_le_same | exact H].
  - (* a key *)
    apply (synced_frame (p := p)); [apply on_keydown_state| |exact H].
    unfold Faq.on_keydown, Faq.handleKeyboardNavigation, hosts_le.
    destruct (Faq.is_navigation_key _ && _), (Faq.target event);
      try (destruct (Faq.ctrlKey event || Faq.metaKey event)); cbn; split; congruence.
Qed.

Lemma fresh_synced (d : Faq.Dom) (w : Faq.Window) : synced (Faq.fresh d w).
Proof.
  split; [|split].
  - unfold base, active_ok, entries_of. cbn. repeat split; try discriminate.
    intros e [].
  - intros k b [].
  - intros k t [].
Qed.

Lemma run_synced (evs : list Faq.Event) :
  forall p, synced p -> synced (Faq.run p evs).
Proof.
  induction evs as [|ev evs IH]; intros p H; [exact H|].
  apply IH. now apply dispatch_synced.
Qed.

(** X6.  After any sequence of events on a fresh page, the active id
    is a non-empty key of the index, and nothing is active only when the
    index is empty; every registered panel and every cached valid item
    belongs to a question of the index. *)
Theorem active_id_is_a_key (d : Faq.Dom) (w : Faq.Window) (evs : list Faq.Event) :
  let p := Faq.run (Faq.fresh d w) evs in
  match Faq.activeId (Faq.state p) with
  | Some i => i <> "" /\ JsMap.has i (Faq.questions (Faq.state p)) = true
  | None => Faq.questions (Faq.state p) = []
  end
  /\ (forall k, JsMap.has k (Faq.elements_accordion (Faq.state p)) = true ->
        JsMap.has k (Faq.questions (Faq.state p)) = true)
  /\ (forall section e, In section (Faq.sections (Faq.state p)) ->
        In e (Faq.getValidItems section) ->
        JsMap.has (Faq.e_id e) (Faq.questions (Faq.state p)) = true).
Proof.
  cbv zeta. destruct (run_synced evs (fresh_synced d w)) as [[B1 [B2 [B3 _]]] _].
  split; [exact B1|]. split; [exact B2|].
  intros section e Hs He. apply B3. unfold entries_of. apply in_flat_map.
  exists section. now split.
Qed.

(** X7.  After any sequence of events on a fresh page, a registered
    sidebar control carries the active indicator exactly when it is the
    control of the active question. *)
Theorem sidebar_marks_the_active_question (d : Faq.Dom) (w : Faq.Window)
    (evs : list Faq.Event) :
  let p := Faq.run (Faq.fresh d w) evs in
  forall k b, In (k, b) (Faq.elements_sidebar (Faq.state p)) ->
  Faq.marked b = true <-> Faq.activeId (Faq.state p) = Some k.
Proof.
  cbv zeta. destruct (run_synced evs (fresh_synced d w)) as [_ [M _]].
  intros k b H. rewrite (M k b H). apply same_id_true.
Qed.

(** The theorem on the loaded two-question page after a click on the
    second link: the control of [b] is marked. *)
Lemma sidebar_marks_the_active_question_witness :
  let p := Faq.run (Faq.fresh Faq.full_dom (Faq.desktop ""))
             [Faq.Init (Response true 200 (Some (JsonArray two_questions)));
              Faq.SidebarClick (Some "b")] in
  Faq.activeId (Faq.state p) = Some "b"
  /\ exists b, In ("b", b) (Faq.elements_sidebar (Faq.state p)) /\ Faq.marked b = true.
Proof.
  cbv zeta.
  set (evs := [Faq.Init (Response true 200 (Some (JsonArray two_questions)));
               Faq.SidebarClick (Some "b")]).
  assert (A : Faq.activeId
                (Faq.state (Faq.run (Faq.fresh Faq.full_dom (Faq.desktop "")) evs))
              = Some "b") by (vm_compute; reflexivity).
  split; [exact A|].
  destruct (JsMap.get "b"
              (Faq.elements_sidebar
                 (Faq.state (Faq.run (Faq.fresh Faq.full_dom (Faq.desktop "")) evs))))
    as [b|] eqn:G; [|vm_compute in G; discriminate].
  apply get_nth in G. destruct G as [n G]. apply nth_error_In in G.
  exists b. split; [exact G|].
  exact (proj2 (@sidebar_marks_the_active_question Faq.full_dom (Faq.desktop "") evs
                  "b" b G) A).
Defined.

(** X8.  After any sequence of events on a fresh page, an open
    accordion panel is the panel of the active question, unless the
    active question has no panel (it is shown as a static block): then
    the panel opened last may stay open. *)
Theorem open_panel_is_the_active_question (d : Faq.Dom) (w : Faq.Window)
    (evs : list Faq.Event) :
  let p := Faq.run (Faq.fresh d w) evs in
  forall k t, In (k, t) (Faq.elements_accordion (Faq.state p)) ->
  Faq.ai_open t = true ->
  Faq.activeId (Faq.state p) = Some k
  \/ exists a, Faq.activeId (Faq.state p) = Some a
               /\ JsMap.get a (Faq.elements_accordion (Faq.state p)) = None.
Proof.
  cbv zeta. destruct (run_synced evs (fresh_synced d w)) as [[B1 [B2 _]] [_ P]].
  intros k t Hin Ho. destruct (P k t Hin Ho) as [E|E]; [now left|].
  destruct (Faq.activeId (Faq.state (Faq.run (Faq.fresh d w) evs))) as [a|] eqn:A.
  - right. exists a. split; [reflexivity|]. now apply get_None.
  - exfalso. unfold active_ok in B1. rewrite A in B1.
    assert (Hk : JsMap.has k (Faq.elements_accordion
                                (Faq.state (Faq.run (Faq.fresh d w) evs))) = true).
    { apply has_In. unfold JsMap.keys. apply in_map_iff. now exists (k, t). }
    apply B2 in Hk. rewrite B1 in Hk. discriminate.
Qed.

(** The theorem on the loaded two-question page: the panel of the
    active question [a] is the open one. *)
Lemma open_panel_is_the_active_question_witness :
  let p := Faq.run (Faq.fresh Faq.full_dom (Faq.desktop ""))
             [Faq.Init (Response true 200 (Some (JsonArray two_questions)))] in
  exists t, In ("a", t) (Faq.elements_accordion (Faq.state p))
            /\ Faq.ai_open t = true
            /\ (Faq.activeId (Faq.state p) = Some "a"
                \/ exists a, Faq.activeId (Faq.state p) = Some a
                             /\ JsMap.get a (Faq.elements_accordion (Faq.state p)) = None).
Proof.
  cbv zeta.
  set (evs := [Faq.Init (Response true 200 (Some (JsonArray two_questions)))]).
  destruct (JsMap.get "a"
              (Faq.elements_accordion
                 (Faq.state (Faq.run (Faq.fresh Faq.full_dom (Faq.desktop "")) evs))))
    as [t|] eqn:G; [|vm_compute in G; discriminate].
  assert (O : Faq.ai_open t = true) by (vm_compute in G; now injection G as <-).
  apply get_nth in G. destruct G as [n G]. apply nth_error_In in G.
  exists t. split; [exact G|]. split; [exact O|].
  exact (@open_panel_is_the_active_question Faq.full_dom (Faq.desktop "") evs "a" t G O).
Defined.

(** *** A click in the accordion *)

(** Projections of a page after updates of its fields. *)
Ltac page_fields :=
  cbn [Faq.state Faq.dom Faq.window Faq.timers Faq.effects Faq.on_state Faq.on_dom
       Faq.on_window Faq.log Faq.set_timers Faq.questions Faq.sections Faq.activeId
       Faq.elements_sidebar Faq.elements_accordion Faq.bound_sidebar Faq.bound_accordion
       Faq.set_elements_accordion Faq.set_elements_sidebar Faq.set_activeId
       Faq.set_index].

(** X9.  A click on the button of a registered panel toggles it: on an
    open panel the click closes it, so that no panel is open, and
    changes neither the active id nor the address, the sidebar or the
    DOM; on a closed panel of a question of the index the click makes
    that question active, writes its id to the hash, and leaves its
    panel open and no other. *)
Theorem accordion_click_toggles (id : string) (item : Faq.AccordionItem) (p : Faq.Page) :
  id <> "" ->
  JsMap.get id (Faq.elements_accordion (Faq.state p)) = Some item ->
  let p' := Faq.handleAccordionClick (Some id) p in
  let m' := Faq.elements_accordion (Faq.state p') in
  (Faq.ai_open item = true ->
   (forall k t, In (k, t) m' -> Faq.ai_open t = false)
   /\ JsMap.keys m' = JsMap.keys (Faq.elements_accordion (Faq.state p))
   /\ Faq.activeId (Faq.state p') = Faq.activeId (Faq.state p)
   /\ Faq.elements_sidebar (Faq.state p') = Faq.elements_sidebar (Faq.state p)
   /\ Faq.window p' = Faq.window p /\ Faq.dom p' = Faq.dom p
   /\ Faq.effects p' = Faq.effects p)
  /\ (Faq.ai_open item = false ->
      JsMap.has id (Faq.questions (Faq.state p)) = true ->
      Faq.activeId (Faq.state p') = Some id
      /\ Faq.without_hash_sign (Faq.location_hash (Faq.window p'))
         = Js.encodeURIComponent id
      /\ (forall k t, In (k, t) m' -> Faq.ai_open t = true -> k = id)
      /\ exists t, JsMap.get id m' = Some t /\ Faq.ai_open t = true).
Proof.
  intros Hi G. cbv zeta. unfold Faq.handleAccordionClick.
  pose proof Hi as Hi'. apply is_empty_false in Hi'. rewrite Hi', G. split.
  - intros O. rewrite O. page_fields.
    split; [|rewrite keys_update, keys_collapse_others; repeat split].
    intros k t Hin. apply in_update in Hin. destruct Hin as [v [Hv ->]].
    destruct (String.eqb k id) eqn:E; [reflexivity|]. apply String.eqb_neq in E.
    exact (@collapse_others_only_at id _ k v Hv E).
  - intros O Hq. rewrite O.
    set (p2 := Faq.expandPanel id Faq.AUTO_SCROLL _).
    assert (Q2 : JsMap.has id (Faq.questions (Faq.state p2)) = true) by exact Hq.
    assert (A2 : JsMap.has id (Faq.elements_accordion (Faq.state p2)) = true).
    { subst p2. unfold Faq.expandPanel. destruct Faq.AUTO_SCROLL; page_fields;
        unfold JsMap.update, Faq.collapse_others;
        rewrite !has_forEach; now apply get_Some_has in G. }
    destruct (@applyActiveQuestion_known id true false p2 Hi Q2) as [K1 K2].
    destruct (@applyActiveQuestion_panels id true false p2 Hi Q2 A2) as [P1 P2].
    split; [exact K1|]. split; [exact (K2 eq_refl)|]. split; [|exact P2].
    intros k t Hin Ho. destruct (string_dec k id) as [E|N]; [exact E|].
    rewrite (P1 k t Hin N) in Ho. discriminate.
Qed.

(** The theorem on the page hydrated from [two_questions]: the panel of
    [a] is open, that of [b] closed. *)
Lemma accordion_click_toggles_witness :
  let p := hydrated "" in
  let on_a := Faq.handleAccordionClick (Some "a") p in
  let on_b := Faq.handleAccordionClick (Some "b") p in
  Faq.open_count p = 1 /\ Faq.activeId (Faq.state p) = Some "a"
  /\ Faq.open_count on_a = 0 /\ Faq.activeId (Faq.state on_a) = Some "a"
  /\ (forall k t, In (k, t) (Faq.elements_accordion (Faq.state on_a)) ->
        Faq.ai_open t = false)
  /\ Faq.activeId (Faq.state on_b) = Some "b"
  /\ Faq.location_hash (Faq.window on_b) = "#b"
  /\ (forall k t, In (k, t) (Faq.elements_accordion (Faq.state on_b)) ->
        Faq.ai_open t = true -> k = "b").
Proof.
  cbv zeta.
  assert (Na : "a" <> "") by discriminate.
  assert (Nb : "b" <> "") by discriminate.
  destruct (JsMap.get "a" (Faq.elements_accordion (Faq.state (hydrated "")))) as [ta|] eqn:Ga;
    [|vm_compute in Ga; discriminate].
  destruct (JsMap.get "b" (Faq.elements_accordion (Faq.state (hydrated "")))) as [tb|] eqn:Gb;
    [|vm_compute in Gb; discriminate].
  assert (Oa : Faq.ai_open ta = true) by (vm_compute in Ga; now injection Ga as <-).
  assert (Ob : Faq.ai_open tb = false) by (vm_compute in Gb; now injection Gb as <-).
  assert (Qb : JsMap.has "b" (Faq.questions (Faq.state (hydrated ""))) = true)
    by (vm_compute; reflexivity).
  destruct (@accordion_click_toggles "a" ta (hydrated "") Na Ga) as [Ta _].
  destruct (@accordion_click_toggles "b" tb (hydrated "") Nb Gb) as [_ Tb].
  destruct (Ta Oa) as [T1 [_ [T2 _]]]. destruct (Tb Ob Qb) as [T3 [_ [T5 _]]].
  split; [vm_compute; reflexivity|]. split; [vm_compute; reflexivity|].
  split; [vm_compute; reflexivity|]. split; [vm_compute; reflexivity|].
  split; [exact T1|]. split; [exact T3|]. split; [vm_compute; reflexivity | exact T5].
Defined.

(** *** The viewer and its pending updates *)

(** Every pending [setTimeout] update of the viewer has run. *)
Definition settled (p : Faq.Page) : Faq.Page :=
  Nat.iter (List.length (Faq.timers p)) Faq.timer_fires p.

Lemma last_cons {A} (l : list A) : forall x d, List.last (x :: l) d = List.last l x.
Proof.
  induction l as [|y l IH]; intros x d; [reflexivity|].
  change (List.last (x :: y :: l) d) with (List.last (y :: l) d).
  now rewrite !IH.
Qed.

Lemma last_snoc {A} (l : list A) (x : A) : forall d, List.last (l ++ [x]) d = x.
Proof.
  induction l as [|y l IH]; intros d; [reflexivity|].
  change ((y :: l) ++ [x]) with (y :: (l ++ [x])). rewrite last_cons. apply IH.
Qed.

Lemma drain (ts : list Faq.Entry) :
  forall (p : Faq.Page) (v : Faq.Viewer),
  Faq.timers p = ts -> Faq.viewer (Faq.dom p) = Some v ->
  Faq.timers (Nat.iter (List.length ts) Faq.timer_fires p) = []
  /\ Faq.viewer (Faq.dom (Nat.iter (List.length ts) Faq.timer_fires p))
     = match ts with
       | [] => Some v
       | e :: rest => Some (Faq.ViewerQuestion (List.last rest e))
       end
  /\ Faq.state (Nat.iter (List.length ts) Faq.timer_fires p) = Faq.state p
  /\ Faq.window (Nat.iter (List.length ts) Faq.timer_fires p) = Faq.window p.
Proof.
  induction ts as [|e ts IH]; intros p v Ht Hv; [now repeat split|].
  cbn [List.length]. rewrite Nat.iter_succ_r.
  assert (S1 : Faq.timers (Faq.timer_fires p) = ts
               /\ Faq.viewer (Faq.dom (Faq.timer_fires p)) = Some (Faq.ViewerQuestion e)
               /\ Faq.state (Faq.timer_fires p) = Faq.state p
               /\ Faq.window (Faq.timer_fires p) = Faq.window p).
  { unfold Faq.timer_fires. rewrite Ht. repeat split. }
  destruct S1 as [T1 [V1 [E1 W1]]].
  destruct (IH (Faq.timer_fires p) _ T1 V1) as [I1 [I2 [I3 I4]]].
  rewrite I1, I2, I3, I4, E1, W1. repeat split.
  destruct ts as [|e0 ts]; [reflexivity|]. now rewrite last_cons.
Qed.

(** X10.  What the viewer shows once every pending update has run,
    after the activation of a question [id] of the index on a page with
    a viewer: when the new content is written by a timer (content is on
    show and motion is allowed), it is the record of [id]; when it is
    written at once, it is the record of [id] only if no update was
    pending, and otherwise the record queued last before the
    activation, which replaces it.  On a page with nothing pending the
    viewer therefore ends on the record of [id]. *)
Theorem viewer_after_activation (id : string) (e : Faq.Entry) (v : Faq.Viewer)
    (syncHash scrollMobile : bool) (p : Faq.Page) :
  id <> "" ->
  JsMap.get id (Faq.questions (Faq.state p)) = Some e ->
  Faq.viewer (Faq.dom p) = Some v ->
  let p' := Faq.applyActiveQuestion (Some id) syncHash scrollMobile p in
  Faq.timers (settled p') = []
  /\ Faq.activeId (Faq.state (settled p')) = Some id
  /\ Faq.viewer (Faq.dom (settled p'))
     = Some (Faq.ViewerQuestion
               (if Faq.hasExistingContent v && negb (Faq.reduced_motion (Faq.window p))
                then e else List.last (Faq.timers p) e))
  /\ (Faq.timers p = [] -> Faq.viewer (Faq.dom (settled p')) = Some (Faq.ViewerQuestion e)).
Proof.
  intros Hi G Hv. cbv zeta.
  assert (Hq : JsMap.has id (Faq.questions (Faq.state p)) = true)
    by now apply get_Some_has in G.
  destruct (@applyActiveQuestion_known id syncHash scrollMobile p Hi Hq) as [A _].
  set (defer := Faq.hasExistingContent v && negb (Faq.reduced_motion (Faq.window p))).
  assert (S : Faq.timers (Faq.applyActiveQuestion (Some id) syncHash scrollMobile p)
              = (if defer then Faq.timers p ++ [e] else Faq.timers p)
              /\ Faq.viewer (Faq.dom (Faq.applyActiveQuestion (Some id) syncHash
                                        scrollMobile p))
                 = if defer then Some v else Some (Faq.ViewerQuestion e)).
  { unfold Faq.applyActiveQuestion, Faq.triggerSocialGlow. rewrite Hq.
    pose proof Hi as Hi'. apply is_empty_false in Hi'. rewrite Hi'. cbn [orb negb].
    set (p1 := Faq.renderDesktopQuestion (Some id)
                 (Faq.on_state (Faq.set_activeId (Some id)) p)).
    assert (S1 : Faq.timers p1 = (if defer then Faq.timers p ++ [e] else Faq.timers p)
                 /\ Faq.viewer (Faq.dom p1)
                    = if defer then Some v else Some (Faq.ViewerQuestion e)).
    { subst p1. unfold Faq.renderDesktopQuestion. cbn. rewrite Hv, G.
      fold defer. destruct defer; cbn; now rewrite ?Hv. }
    destruct S1 as [T1 V1].
    set (p3 := if syncHash then _ else _).
    assert (S3 : Faq.timers p3 = Faq.timers p1 /\ Faq.dom p3 = Faq.dom p1).
    { subst p3. destruct syncHash; [|now split].
      destruct (setHashQuestionId_frame (Some id)
                  (Faq.updateSidebarActive (Some id) p1)) as [_ [S2 [S3 _]]].
      now split. }
    destruct S3 as [T3 D3].
    destruct (syncMobileAccordion_frame (Some id) scrollMobile false p3)
      as [F1 [_ [F3 _]]].
    destruct (JsMap.get id Faq.SOCIAL_GLOW_MAPPING); cbn [Faq.log Faq.timers Faq.dom];
      rewrite F1, F3, T3, D3; now split. }
  destruct S as [T V]. unfold settled.
  set (p' := Faq.applyActiveQuestion (Some id) syncHash scrollMobile p) in *.
  clearbody defer. destruct defer.
  - destruct (@drain (Faq.timers p') p' _ eq_refl V) as [D1 [D2 [D3 _]]].
    rewrite D1, D2, D3, A, T. split; [reflexivity|]. split; [reflexivity|].
    assert (L : match Faq.timers p ++ [e] with
                | [] => Some v
                | x :: rest => Some (Faq.ViewerQuestion (List.last rest x))
                end = Some (Faq.ViewerQuestion e)).
    { destruct (Faq.timers p) as [|x ts]; [reflexivity|].
      change ((x :: ts) ++ [e]) with (x :: (ts ++ [e])). cbv iota.
      now rewrite last_snoc. }
    rewrite L. split; [reflexivity|]. intros _. reflexivity.
  - destruct (@drain (Faq.timers p') p' _ eq_refl V) as [D1 [D2 [D3 _]]].
    rewrite D1, D2, D3, A, T. split; [reflexivity|]. split; [reflexivity|]. split.
    + destruct (Faq.timers p) as [|x rest]; [reflexivity|]. now rewrite last_cons.
    + intros ->. reflexivity.
Qed.

(** The theorem on the page hydrated from [two_questions], where [a] is
    on show and motion is allowed: the record of [b] is queued and
    reaches the viewer when the timer fires. *)
Lemma viewer_after_activation_witness :
  let e := {| Faq.e_id := "b"; Faq.e_section := "A"; Faq.e_question := "Qb";
              Faq.e_answer := "Ab"; Faq.e_order := 1 |} in
  let p' := Faq.applyActiveQuestion (Some "b") true false (hydrated "") in
  "b" <> "" /\ JsMap.get "b" (Faq.questions (Faq.state (hydrated ""))) = Some e
  /\ Faq.timers (hydrated "") = []
  /\ Faq.timers p' = [e]
  /\ Faq.viewer (Faq.dom (settled p')) = Some (Faq.ViewerQuestion e).
Proof.
  cbv zeta.
  assert (N : "b" <> "") by discriminate.
  assert (G : JsMap.get "b" (Faq.questions (Faq.state (hydrated "")))
              = Some {| Faq.e_id := "b"; Faq.e_section := "A"; Faq.e_question := "Qb";
                        Faq.e_answer := "Ab"; Faq.e_order := 1 |})
    by (vm_compute; reflexivity).
  assert (T : Faq.timers (hydrated "") = []) by (vm_compute; reflexivity).
  destruct (Faq.viewer (Faq.dom (hydrated ""))) as [v|] eqn:V;
    [|vm_compute in V; discriminate].
  destruct (@viewer_after_activation "b" _ v true false (hydrated "") N G V)
    as [_ [_ [_ K]]].
  split; [exact N|]. split; [exact G|]. split; [exact T|].
  split; [vm_compute; reflexivity | exact (K T)].
Defined.

(* ===================================================================== *)
(** ** What the rendered elements say *)
(* ===================================================================== *)

Lemma get_of_In {V} (k : string) (v : V) (m : JsMap.t V) :
  NoDup (JsMap.keys m) -> In (k, v) m -> JsMap.get k m = Some v.
Proof.
  unfold JsMap.get, JsMap.keys, JsMap.key_is.
  induction m as [|[k' v'] m IH]; simpl; intros N H; [contradiction|].
  inversion N as [|? ? N1 N2]; subst.
  destruct H as [E|H].
  - inversion E; subst. now rewrite String.eqb_refl.
  - destruct (String.eqb k' k) eqn:E.
    + apply String.eqb_eq in E. subst. exfalso. apply N1.
      apply in_map_iff. now exists (k, v).
    + now apply IH.
Qed.

(** An entry of the index is stored under its own id. *)
Lemma index_entry (doc : Document) (k : string) (e : Faq.Entry) :
  In (k, e) (fst (Faq.buildQuestionIndex doc)) ->
  JsMap.get k (fst (Faq.buildQuestionIndex doc)) = Some e /\ k = Faq.e_id e.
Proof.
  rewrite buildQuestionIndex_flat. intros H. split.
  - apply get_of_In; [rewrite flat_index_keys; apply first_seen_NoDup | exact H].
  - apply In_nth_error in H. destruct H as [n H].
    destruct (flat_index_nth _ _ H) as [x [_ [-> ->]]]. reflexivity.
Qed.

Lemma index_value (doc : Document) (e : Faq.Entry) :
  In e (JsMap.values (fst (Faq.buildQuestionIndex doc))) ->
  JsMap.get (Faq.e_id e) (fst (Faq.buildQuestionIndex doc)) = Some e.
Proof.
  unfold JsMap.values. intros H. apply in_map_iff in H.
  destruct H as [[k e'] [E H]]. simpl in E. subst e'.
  destruct (@index_entry doc k e H) as [G ->]. exact G.
Qed.

Lemma keys_register_links (entries : list Faq.Entry) :
  forall m, NoDup (JsMap.keys m ++ map Faq.e_id entries) ->
  JsMap.keys (register_links entries m) = JsMap.keys m ++ map Faq.e_id entries.
Proof.
  induction entries as [|e entries IH]; intros m N; [simpl; now rewrite app_nil_r|].
  unfold register_links. cbn [fold_left map] in *.
  fold (register_links entries (JsMap.set (Faq.e_id e) (Faq.side_link e) m)).
  assert (F : JsMap.has (Faq.e_id e) m = false).
  { rewrite has_keys. apply mem_false. apply NoDup_remove_2 in N.
    intros H. apply N. apply in_or_app. now left. }
  rewrite set_new by exact F.
  rewrite IH; rewrite keys_app; simpl; rewrite <- app_assoc; [reflexivity | exact N].
Qed.

Lemma keys_register_items (entries : list Faq.Entry) :
  forall m, NoDup (JsMap.keys m ++ map Faq.e_id entries) ->
  JsMap.keys (register_items entries m)
  = JsMap.keys m ++ filter (fun k => negb (Faq.is_static k)) (map Faq.e_id entries).
Proof.
  induction entries as [|e entries IH]; intros m N; [simpl; now rewrite app_nil_r|].
  unfold register_items. cbn [fold_left map filter] in *.
  destruct (Faq.is_static (Faq.e_id e)) eqn:S; cbn [negb].
  - apply IH. now apply NoDup_remove_1 in N.
  - fold (register_items entries
            (JsMap.set (Faq.e_id e) (Faq.createAccordionItem e) m)).
    assert (F : JsMap.has (Faq.e_id e) m = false).
    { rewrite has_keys. apply mem_false. apply NoDup_remove_2 in N.
      intros H. apply N. apply in_or_app. now left. }
    rewrite set_new by exact F.
    rewrite IH; rewrite keys_app; simpl; rewrite <- app_assoc; [reflexivity | exact N].
Qed.

(** Opening and closing panels leaves their text alone. *)
Definition same_text (t t' : Faq.AccordionItem) : Prop :=
  Faq.ai_label t' = Faq.ai_label t /\ Faq.ai_body t' = Faq.ai_body t.

Lemma synced_text (i : string) (t0 : Faq.AccordionItem) (m : JsMap.t Faq.AccordionItem)
    (k : string) (t' : Faq.AccordionItem) :
  In (k, t') (if Faq.ai_open t0 then Faq.collapse_others i m
              else JsMap.update i Faq.open_item (Faq.collapse_others i m)) ->
  exists t, In (k, t) m /\ same_text t t'.
Proof.
  assert (C : forall k t', In (k, t') (Faq.collapse_others i m) ->
                           exists t, In (k, t) m /\ same_text t t').
  { intros k0 t1 H. apply in_collapse_others in H. destruct H as [v [Hv ->]].
    exists v. split; [exact Hv|]. destruct (negb _ && _); now split. }
  destruct (Faq.ai_open t0); [apply C|]. intros H.
  apply in_update in H. destruct H as [v [Hv ->]].
  destruct (C _ _ Hv) as [t [Ht [T1 T2]]]. exists t. split; [exact Ht|].
  destruct (String.eqb k i); split; assumption.
Qed.

Lemma synced_keys (i : string) (t0 : Faq.AccordionItem) (m : JsMap.t Faq.AccordionItem) :
  JsMap.keys (if Faq.ai_open t0 then Faq.collapse_others i m
              else JsMap.update i Faq.open_item (Faq.collapse_others i m))
  = JsMap.keys m.
Proof. destruct (Faq.ai_open t0); now rewrite ?keys_update, keys_collapse_others. Qed.

Lemma renderMobile_sidebar (p : Faq.Page) :
  Faq.elements_sidebar (Faq.state (Faq.renderMobile p))
  = Faq.elements_sidebar (Faq.state p).
Proof.
  destruct (Faq.accordion (Faq.dom p)) as [a|] eqn:E.
  - now destruct (renderMobile_spec p E) as [_ [_ [_ [_ [_ [_ [A7 _]]]]]]].
  - now rewrite renderMobile_absent.
Qed.

Lemma renderDesktop_accordion (p : Faq.Page) :
  Faq.elements_accordion (Faq.state (Faq.renderDesktop p))
  = Faq.elements_accordion (Faq.state p).
Proof.
  destruct (Faq.sidebar (Faq.dom p)) as [a|] eqn:E.
  - now destruct (renderDesktop_spec p E) as [_ [_ [_ [_ [_ [A6 _]]]]]].
  - now rewrite renderDesktop_absent.
Qed.

(** The last part of [hydrate] keeps the registered elements and their
    text. *)
Lemma hydrate_show_elements (p : Faq.Page) :
  let p' := hydrate_show p in
  JsMap.keys (Faq.elements_sidebar (Faq.state p'))
  = JsMap.keys (Faq.elements_sidebar (Faq.state p))
  /\ (forall k b', In (k, b') (Faq.elements_sidebar (Faq.state p')) ->
        exists b, In (k, b) (Faq.elements_sidebar (Faq.state p))
                  /\ Faq.sb_label b' = Faq.sb_label b)
  /\ JsMap.keys (Faq.elements_accordion (Faq.state p'))
     = JsMap.keys (Faq.elements_accordion (Faq.state p))
  /\ (forall k t', In (k, t') (Faq.elements_accordion (Faq.state p')) ->
        exists t, In (k, t) (Faq.elements_accordion (Faq.state p)) /\ same_text t t').
Proof.
  cbv zeta. unfold hydrate_show.
  destruct (Js.truthy _ && _).
  - destruct (renderDesktopQuestion_frame (Faq.activeId (Faq.state p)) p) as [R1 _].
    set (p1 := Faq.renderDesktopQuestion _ p) in *.
    set (p2 := Faq.updateSidebarActive (Faq.activeId (Faq.state p1)) p1).
    assert (U : Faq.elements_sidebar (Faq.state p2)
                = JsMap.forEach
                    (fun button questionId =>
                       Faq.mark (Faq.same_id questionId (Faq.activeId (Faq.state p1))) button)
                    (Faq.elements_sidebar (Faq.state p))
                /\ Faq.elements_accordion (Faq.state p2)
                   = Faq.elements_accordion (Faq.state p)).
    { subst p2. cbn [Faq.updateSidebarActive Faq.on_state Faq.state
                     Faq.set_elements_sidebar Faq.elements_sidebar
                     Faq.elements_accordion].
      rewrite R1. split; reflexivity. }
    destruct U as [U1 U2].
    destruct (setHashQuestionId_frame (Faq.activeId (Faq.state p2)) p2) as [S1 _].
    set (p3 := Faq.setHashQuestionId _ p2) in *.
    destruct (syncMobileAccordion_frame (Faq.activeId (Faq.state p3)) false false p3)
      as [_ [_ [_ [_ [_ [_ F7]]]]]].
    pose proof (syncMobileAccordion_panels (Faq.activeId (Faq.state p3)) false false p3)
      as P. cbv zeta in P.
    set (p4 := Faq.syncMobileAccordion _ false false p3) in *.
    rewrite F7, S1, U1.
    split; [apply keys_forEach|]. split.
    { intros k b' H. apply in_forEach in H. destruct H as [b [Hb ->]].
      exists b. now split. }
    destruct P as [E | [i [t0 [_ [_ E]]]]]; rewrite E, S1, U2.
    + split; [reflexivity|]. intros k t' H. exists t'. split; [exact H | now split].
    + split; [apply synced_keys|]. intros k t'. apply synced_text.
  - assert (E : Faq.state (match Faq.viewer (Faq.dom p) with
                           | Some _ => Faq.on_dom (Faq.set_viewer (Some Faq.ViewerEmptyMessage)) p
                           | None => p
                           end) = Faq.state p)
      by (destruct (Faq.viewer (Faq.dom p)); reflexivity).
    rewrite E. split; [reflexivity|]. split.
    { intros k b' H. now exists b'. }
    split; [reflexivity|]. intros k t' H. exists t'. split; [exact H | now split].
Qed.

(** X11.  What [hydrate] renders, whatever the page was before.  With a
    sidebar host, the links of the sidebar are the keys of the index in
    order, one button is registered per key, and a button is labelled
    with the question text of its record.  With an accordion host, the
    accordion has one node per record in index order (a static block or
    an item), the registered panels are the keys that are not static, in
    order, and a panel carries the question text and the formatted answer
    of its record.  Without the host nothing is rendered for it: the host
    stays absent and the registered keys are the ones from before. *)
Theorem rendering_follows_the_index (doc : Document) (p : Faq.Page) :
  let p' := Faq.hydrate doc p in
  let index := fst (Faq.buildQuestionIndex doc) in
  (forall sb, Faq.sidebar (Faq.dom p) = Some sb ->
     Faq.side_links (Faq.sidebar (Faq.dom p')) = JsMap.keys index
     /\ JsMap.keys (Faq.elements_sidebar (Faq.state p')) = JsMap.keys index
     /\ forall k b, In (k, b) (Faq.elements_sidebar (Faq.state p')) ->
          exists e, JsMap.get k index = Some e /\ Faq.sb_label b = Faq.e_question e)
  /\ (forall ac, Faq.accordion (Faq.dom p) = Some ac ->
     entry_nodes (Faq.accordion_nodes p') = map node_of (JsMap.values index)
     /\ JsMap.keys (Faq.elements_accordion (Faq.state p'))
        = filter (fun k => negb (Faq.is_static k)) (JsMap.keys index)
     /\ forall k t, In (k, t) (Faq.elements_accordion (Faq.state p')) ->
          exists e, JsMap.get k index = Some e
                    /\ Faq.ai_label t = Faq.e_question e
                    /\ Faq.ai_body t
                       = Faq.html_of (Faq.formatBulletPoints (Faq.VString (Faq.e_answer e))))
  /\ (Faq.sidebar (Faq.dom p) = None ->
      Faq.sidebar (Faq.dom p') = None
      /\ JsMap.keys (Faq.elements_sidebar (Faq.state p'))
         = JsMap.keys (Faq.elements_sidebar (Faq.state p)))
  /\ (Faq.accordion (Faq.dom p) = None ->
      Faq.accordion (Faq.dom p') = None
      /\ JsMap.keys (Faq.elements_accordion (Faq.state p'))
         = JsMap.keys (Faq.elements_accordion (Faq.state p))).
Proof.
  cbv zeta. rewrite hydrate_unfold.
  pose proof (hydrate_active doc p) as HA. cbv zeta in HA |- *.
  match goal with |- context [Faq.renderDesktop ?q] => set (p2 := q) in * end.
  destruct HA as [Q2 [S2 [SB2 [AC2 [D2 _]]]]].
  set (index := fst (Faq.buildQuestionIndex doc)) in *.
  assert (E2 : entries_of p2 = JsMap.values index).
  { unfold entries_of. rewrite S2. apply buildQuestionIndex_validItems. }
  assert (K : map Faq.e_id (JsMap.values index) = JsMap.keys index).
  { subst index. rewrite buildQuestionIndex_flat. apply flat_index_ids. }
  assert (ND : NoDup (JsMap.keys index)).
  { subst index. rewrite buildQuestionIndex_flat, flat_index_keys. apply first_seen_NoDup. }
  set (p3 := Faq.renderDesktop p2).
  destruct (renderDesktop_core p2) as [_ [DS [_ [_ [_ DAcc]]]]]. fold p3 in DS, DAcc.
  pose proof (renderDesktop_accordion p2) as DE. fold p3 in DE.
  assert (E3 : entries_of p3 = JsMap.values index).
  { unfold entries_of in *. now rewrite DS. }
  set (p4 := Faq.renderMobile p3).
  destruct (renderMobile_core p3) as [_ [_ [_ [_ [_ MSb]]]]]. fold p4 in MSb.
  pose proof (renderMobile_sidebar p3) as ME. fold p4 in ME.
  destruct (hydrate_show_frame p4) as [_ [_ [_ [W4 W5]]]].
  destruct (hydrate_show_elements p4) as [HS1 [HS2 [HS3 HS4]]].
  split; [|split; [|split]].
  - intros sb Hsb. rewrite <- D2 in Hsb.
    destruct (renderDesktop_spec p2 Hsb) as [A1 [A2 _]]. fold p3 in A1, A2.
    rewrite W4, MSb, A2, HS1, ME, A1, E2.
    rewrite keys_register_links by (simpl; now rewrite K).
    simpl. rewrite K. split; [reflexivity|]. split; [reflexivity|].
    intros k b' H. apply HS2 in H. destruct H as [b [H L]].
    rewrite ME, A1, E2 in H. apply in_register_links in H.
    destruct H as [[e [He [-> ->]]]|[]].
    exists e. split; [now apply index_value | exact L].
  - intros ac Hac. rewrite <- D2, <- DAcc in Hac.
    destruct (renderMobile_spec p3 Hac) as [M1 [_ [M3 _]]]. fold p4 in M1, M3.
    split; [|split].
    + unfold Faq.accordion_nodes in *. rewrite W5, M1, E3. reflexivity.
    + rewrite HS3, M3, E3.
      rewrite keys_register_items by (simpl; now rewrite K).
      simpl. now rewrite K.
    + intros k t' H. apply HS4 in H. destruct H as [t1 [H [L1 L2]]].
      assert (H0 : exists t, In (k, t) (register_items (JsMap.values index) [])
                             /\ same_text t t1).
      { destruct (renderMobile_elements p3 Hac) as [M | [i [t0 [_ [_ M]]]]];
          cbv zeta in M; fold p4 in M; rewrite M, E3 in H.
        - exists t1. split; [exact H | now split].
        - now apply synced_text in H. }
      destruct H0 as [t [Ht [T1 T2]]].
      apply in_register_items in Ht. destruct Ht as [[e [He [-> [-> _]]]]|[]].
      exists e. split; [now apply index_value|].
      rewrite L1, L2, T1, T2. split; reflexivity.
  - intros Hsb. rewrite <- D2 in Hsb.
    rewrite W4, MSb, HS1, ME. subst p3. rewrite renderDesktop_absent by exact Hsb.
    split; [exact Hsb | now rewrite SB2].
  - intros Hac. rewrite <- D2, <- DAcc in Hac.
    rewrite W5, HS3. subst p4. rewrite renderMobile_absent by exact Hac.
    split; [exact Hac | now rewrite DE, AC2].
Qed.

(* ===================================================================== *)
(** ** The first load *)
(* ===================================================================== *)

Lemma renderDesktop_content (p : Faq.Page) (sb : Faq.SidebarDom) :
  Faq.sidebar (Faq.dom p) = Some sb ->
  exists secs, Faq.sidebar (Faq.dom (Faq.renderDesktop p)) = Some (Faq.SidebarContent secs).
Proof.
  intros H. unfold Faq.renderDesktop, Faq.ensureSidebarContent. rewrite H.
  destruct (fold_left _ _ _) as [fragment buttons]. destruct (negb _); cbn; eauto.
Qed.

Lemma renderMobile_content (p : Faq.Page) (a : Faq.AccordionDom) :
  Faq.accordion (Faq.dom p) = Some a ->
  exists nodes,
    Faq.accordion (Faq.dom (Faq.renderMobile p)) = Some (Faq.AccordionContent nodes).
Proof.
  intros H. unfold Faq.renderMobile. rewrite H.
  destruct (fold_left _ _ _) as [fragment items].
  set (p1 := if negb _ then _ else _).
  assert (D : exists nodes, Faq.accordion (Faq.dom p1) = Some (Faq.AccordionContent nodes))
    by (subst p1; destruct (negb _); cbn; eauto).
  destruct (Js.truthy _); [|exact D].
  destruct (syncMobileAccordion_frame (Faq.activeId (Faq.state p1)) false false p1)
    as [F1 _].
  now rewrite F1.
Qed.

Lemma renderDesktop_timers (p : Faq.Page) :
  Faq.timers (Faq.renderDesktop p) = Faq.timers p.
Proof.
  unfold Faq.renderDesktop, Faq.ensureSidebarContent.
  destruct (Faq.sidebar (Faq.dom p)); [|reflexivity].
  destruct (fold_left _ _ _). destruct (negb _); reflexivity.
Qed.

Lemma renderMobile_timers (p : Faq.Page) :
  Faq.timers (Faq.renderMobile p) = Faq.timers p.
Proof.
  unfold Faq.renderMobile.
  destruct (Faq.accordion (Faq.dom p)); [|reflexivity].
  destruct (fold_left _ _ _).
  set (p1 := if negb _ then _ else _).
  assert (T : Faq.timers p1 = Faq.timers p) by (subst p1; destruct (negb _); reflexivity).
  destruct (Js.truthy _); [|exact T].
  destruct (syncMobileAccordion_frame (Faq.activeId (Faq.state p1)) false false p1)
    as [_ [_ [F3 _]]].
  now rewrite F3.
Qed.

(** What [hydrate] leaves in the viewer and in the address when the
    viewer holds nothing to fade out. *)
Lemma hydrate_view (doc : Document) (q : Faq.Page) :
  (forall v, Faq.viewer (Faq.dom q) = Some v -> Faq.hasExistingContent v = false) ->
  let p := Faq.hydrate doc q in
  let index := fst (Faq.buildQuestionIndex doc) in
  Faq.timers p = Faq.timers q
  /\ match Faq.activeId (Faq.state p) with
     | Some id =>
         JsMap.has id index = true
         /\ (forall v, Faq.viewer (Faq.dom q) = Some v ->
               exists e, JsMap.get id index = Some e
                         /\ Faq.viewer (Faq.dom p) = Some (Faq.ViewerQuestion e))
         /\ (hash_shape (Faq.location_hash (Faq.window q)) = true ->
             Faq.location_hash (Faq.window p) = ("#" ++ Js.encodeURIComponent id)%string)
     | None =>
         index = []
         /\ (forall v, Faq.viewer (Faq.dom q) = Some v ->
               Faq.viewer (Faq.dom p) = Some Faq.ViewerEmptyMessage)
         /\ Faq.window p = Faq.window q
     end
  /\ (Faq.viewer (Faq.dom q) = None -> Faq.viewer (Faq.dom p) = None)
  /\ (forall sb, Faq.sidebar (Faq.dom q) = Some sb ->
        exists secs, Faq.sidebar (Faq.dom p) = Some (Faq.SidebarContent secs))
  /\ (forall ac, Faq.accordion (Faq.dom q) = Some ac ->
        exists nodes, Faq.accordion (Faq.dom p) = Some (Faq.AccordionContent nodes)).
Proof.
  intros Hv. cbv zeta. rewrite hydrate_unfold.
  pose proof (hydrate_active doc q) as HA. cbv zeta in HA |- *.
  match goal with |- context [Faq.renderDesktop ?x] => set (p2 := x) in * end.
  destruct HA as [Q2 [_ [_ [_ [D2 [W2 [T2 [_ [A2 _]]]]]]]]].
  set (index := fst (Faq.buildQuestionIndex doc)) in *.
  set (p3 := Faq.renderDesktop p2).
  destruct (renderDesktop_core p2) as [DQ [_ [DA [DW [DV DAcc]]]]].
  fold p3 in DQ, DA, DW, DV, DAcc.
  pose proof (renderDesktop_timers p2) as DT. fold p3 in DT.
  set (p4 := Faq.renderMobile p3).
  destruct (renderMobile_core p3) as [MQ [_ [MA [MW [MV MSb]]]]].
  fold p4 in MQ, MA, MW, MV, MSb.
  pose proof (renderMobile_timers p3) as MT. fold p4 in MT.
  assert (Q4 : Faq.questions (Faq.state p4) = index) by (now rewrite MQ, DQ).
  assert (A4 : Faq.activeId (Faq.state p4) = Faq.activeId (Faq.state p2))
    by (now rewrite MA, DA).
  assert (W4 : Faq.window p4 = Faq.window q) by (now rewrite MW, DW).
  assert (V4 : Faq.viewer (Faq.dom p4) = Faq.viewer (Faq.dom q))
    by (now rewrite MV, DV, D2).
  assert (T4 : Faq.timers p4 = Faq.timers q) by (now rewrite MT, DT).
  assert (Hosts : (forall sb, Faq.sidebar (Faq.dom q) = Some sb ->
                     exists secs, Faq.sidebar (Faq.dom (hydrate_show p4))
                                  = Some (Faq.SidebarContent secs))
                  /\ (forall ac, Faq.accordion (Faq.dom q) = Some ac ->
                        exists nodes, Faq.accordion (Faq.dom (hydrate_show p4))
                                      = Some (Faq.AccordionContent nodes))).
  { destruct (hydrate_show_frame p4) as [_ [_ [_ [S4 S5]]]]. rewrite S4, S5. split.
    - intros sb H. rewrite <- D2 in H. rewrite MSb. exact (renderDesktop_content p2 H).
    - intros ac H. rewrite <- D2, <- DAcc in H. exact (renderMobile_content p3 H). }
  destruct Hosts as [HS HA].
  unfold active_ok in A2. rewrite Q2, <- A4 in A2.
  assert (Act : Faq.activeId (Faq.state (hydrate_show p4)) = Faq.activeId (Faq.state p4))
    by (now destruct (hydrate_show_frame p4) as [_ [_ [E _]]]).
  rewrite Act.
  unfold hydrate_show in *. unfold Faq.has_active in *. rewrite Q4 in *.
  destruct (Faq.activeId (Faq.state p4)) as [id|] eqn:Ea.
  - destruct A2 as [Hi Hk]. pose proof Hi as Hi'. apply is_empty_false in Hi'.
    cbn [Js.truthy] in *. rewrite Hi', Hk in *. cbn [negb andb] in *. cbv zeta in *.
    destruct (renderDesktopQuestion_frame (Some id) p4) as [R1 [R2 _]].
    set (p5 := Faq.renderDesktopQuestion (Some id) p4) in *.
    assert (E5 : Faq.activeId (Faq.state p5) = Some id) by (now rewrite R1).
    rewrite E5 in *.
    destruct (updateSidebarActive_frame (Some id) p5) as [U1 [U2 [U3 [_ [_ [_ [U7 _]]]]]]].
    set (p6 := Faq.updateSidebarActive (Some id) p5) in *.
    assert (E6 : Faq.activeId (Faq.state p6) = Some id) by (now rewrite U7).
    rewrite E6 in *.
    destruct (setHashQuestionId_frame (Some id) p6) as [S1 [S2 [S3 _]]].
    set (p7 := Faq.setHashQuestionId (Some id) p6) in *.
    assert (E7 : Faq.activeId (Faq.state p7) = Some id) by (now rewrite S1).
    rewrite E7 in *.
    destruct (syncMobileAccordion_frame (Some id) false false p7) as [F1 [F2 [F3 _]]].
    rewrite F1, F2, F3, S2, S3, U1, U3.
    destruct (JsMap.get id index) as [e|] eqn:G;
      [|apply get_None in G; congruence].
    assert (R : (forall v, Faq.viewer (Faq.dom q) = Some v ->
                           Faq.viewer (Faq.dom p5) = Some (Faq.ViewerQuestion e))
                /\ (Faq.viewer (Faq.dom q) = None -> Faq.viewer (Faq.dom p5) = None)
                /\ Faq.timers p5 = Faq.timers q).
    { subst p5. unfold Faq.renderDesktopQuestion. rewrite V4.
      destruct (Faq.viewer (Faq.dom q)) as [v|] eqn:Ev.
      - cbn [Faq.lookup]. rewrite Q4, G, (Hv v eq_refl). cbn [andb].
        split; [intros v0 _; reflexivity|]. split; [discriminate | exact T4].
      - split; [discriminate|]. split; [intros _; now rewrite V4 | exact T4]. }
    destruct R as [R3 [R4 R5]].
    split; [exact R5|]. split; [|split; [exact R4 | split]].
    2: { intros sb H. destruct (HS sb H) as [c Hc]. exists c.
         now rewrite <- U1, <- S2, <- F1. }
    2: { intros ac H. destruct (HA ac H) as [c Hc]. exists c.
         now rewrite <- U1, <- S2, <- F1. }
    split; [reflexivity|]. split.
    + intros v H. exists e. split; [reflexivity | exact (R3 v H)].
    + intros Hs. subst p7. apply setHashQuestionId_hash; [exact Hi|].
      now rewrite U2, R2, W4.
  - cbn [Js.truthy andb] in *.
    assert (E : Faq.timers (match Faq.viewer (Faq.dom p4) with
                            | Some _ =>
                                Faq.on_dom (Faq.set_viewer (Some Faq.ViewerEmptyMessage)) p4
                            | None => p4
                            end) = Faq.timers p4
                /\ Faq.window (match Faq.viewer (Faq.dom p4) with
                               | Some _ =>
                                   Faq.on_dom (Faq.set_viewer (Some Faq.ViewerEmptyMessage)) p4
                               | None => p4
                               end) = Faq.window p4)
      by (destruct (Faq.viewer (Faq.dom p4)); split; reflexivity).
    destruct E as [E1 E2]. rewrite E1, E2.
    split; [exact T4|]. split; [|split; [|split; assumption]].
    + split; [exact A2|]. split; [|exact W4].
      intros v H. rewrite V4, H. reflexivity.
    + intros H. rewrite V4, H. exact (eq_trans V4 H).
Qed.

(** X12.  The first load, when the request comes back with an array:
    once [init] has run no viewer update is pending; the viewer, when the
    page has one, shows the record of the active question at once, or
    the empty message when the document has no question; the loading
    skeletons of the sidebar and of the accordion are replaced by
    rendered content; a question is active exactly when the document has
    one; and the address carries the encoded active id, or is left alone
    when there is no question. *)
Theorem first_load_shows_the_active_question (doc : Document) (d : Faq.Dom)
    (w : Faq.Window) (status : nat) :
  let p := Faq.init (Response true status (Some (JsonArray doc))) (Faq.fresh d w) in
  let index := fst (Faq.buildQuestionIndex doc) in
  Faq.timers p = []
  /\ (forall v, Faq.viewer d = Some v ->
        match Faq.activeId (Faq.state p) with
        | Some id => exists e, JsMap.get id index = Some e
                               /\ Faq.viewer (Faq.dom p) = Some (Faq.ViewerQuestion e)
        | None => Faq.viewer (Faq.dom p) = Some Faq.ViewerEmptyMessage
        end)
  /\ (Faq.viewer d = None -> Faq.viewer (Faq.dom p) = None)
  /\ (forall sb, Faq.sidebar d = Some sb ->
        exists secs, Faq.sidebar (Faq.dom p) = Some (Faq.SidebarContent secs))
  /\ (forall ac, Faq.accordion d = Some ac ->
        exists nodes, Faq.accordion (Faq.dom p) = Some (Faq.AccordionContent nodes))
  /\ (Faq.activeId (Faq.state p) = None <-> unique_ids doc = [])
  /\ match Faq.activeId (Faq.state p) with
     | Some id =>
         hash_shape (Faq.location_hash w) = true ->
         Faq.location_hash (Faq.window p) = ("#" ++ Js.encodeURIComponent id)%string
     | None => Faq.window p = w
     end.
Proof.
  cbv zeta. unfold Faq.init, Faq.loadFaqData. cbn [negb].
  set (q := Faq.log _ (Faq.showLoadingState (Faq.fresh d w))).
  assert (Q : Faq.timers q = [] /\ Faq.window q = w
              /\ Faq.viewer (Faq.dom q)
                 = match Faq.viewer d with Some _ => Some Faq.ViewerSkeleton | None => None end
              /\ (forall sb, Faq.sidebar d = Some sb -> exists c, Faq.sidebar (Faq.dom q) = Some c)
              /\ (forall ac, Faq.accordion d = Some ac ->
                    exists c, Faq.accordion (Faq.dom q) = Some c)).
  { subst q. destruct d as [[v|] [sb|] [ac|] kb]; cbn; repeat split;
      intros; try discriminate; eauto. }
  destruct Q as [QT [QW [QV [QS QA]]]].
  assert (Hv : forall v, Faq.viewer (Faq.dom q) = Some v -> Faq.hasExistingContent v = false).
  { intros v H. rewrite QV in H. destruct (Faq.viewer d); inversion H. reflexivity. }
  destruct (hydrate_view doc q Hv) as [T [A [V [S C]]]].
  rewrite QT, QW in *.
  assert (KU : JsMap.keys (fst (Faq.buildQuestionIndex doc)) = unique_ids doc).
  { rewrite buildQuestionIndex_flat. apply flat_index_keys. }
  split; [exact T|].
  split; [|split; [|split; [|split; [|split]]]].
  - intros v H. rewrite H in QV.
    destruct (Faq.activeId (Faq.state (Faq.hydrate doc q))) as [id|].
    + destruct A as [_ [A _]]. exact (A _ QV).
    + destruct A as [_ [A _]]. exact (A _ QV).
  - intros H. apply V. now rewrite QV, H.
  - intros sb H. destruct (QS sb H) as [c Hc]. exact (S c Hc).
  - intros ac H. destruct (QA ac H) as [c Hc]. exact (C c Hc).
  - destruct (Faq.activeId (Faq.state (Faq.hydrate doc q))) as [id|].
    + destruct A as [A _]. split; [discriminate|]. intros H. exfalso.
      apply has_In in A. rewrite KU, H in A. exact A.
    + destruct A as [A _]. split; [|reflexivity]. intros _. now rewrite <- KU, A.
  - destruct (Faq.activeId (Faq.state (Faq.hydrate doc q))) as [id|].
    + destruct A as [_ [_ A]]. exact A.
    + destruct A as [_ [_ A]]. exact A.
Qed.

(* ===================================================================== *)
(** ** The sections [buildQuestionIndex] hands to the renderers *)
(* ===================================================================== *)

(** What a processed section keeps of the raw section it comes from. *)
Definition section_of (raw : option RawSection) (s : Faq.FaqSection) : Prop :=
  Faq.s_section s = name_of raw
  /\ Faq.s_hideHeading s = hideHeading_of raw
  /\ forall e, In e (Faq.s_validItems s) ->
       exists it, In (Some it) (items_of raw) /\ Js.truthy (item_id it) = true
                  /\ e = record_of (Faq.e_order e) (raw, it).

Lemma add_valid_new (xs : list (option RawSection * RawItem)) :
  forall q, exists new,
    fold_left add_valid xs q = q ++ new
    /\ forall k e, In (k, e) new -> exists x, In x xs /\ e = record_of (Faq.e_order e) x.
Proof.
  induction xs as [|x xs IH]; intros q.
  - exists []. split; [simpl; now rewrite app_nil_r | intros k e []].
  - simpl. unfold add_valid at 2. destruct (JsMap.has (id_of x) q).
    + destruct (IH q) as [new [E N]]. exists new. split; [exact E|].
      intros k e H. destruct (N k e H) as [y [Hy R]]. exists y. split; [now right | exact R].
    + destruct (IH (q ++ [(id_of x, record_of (JsMap.size q) x)])) as [new [E N]].
      exists ((id_of x, record_of (JsMap.size q) x) :: new). split.
      * rewrite E, <- app_assoc. reflexivity.
      * intros k e [H|H].
        -- inversion H; subst. exists x. split; [now left | reflexivity].
        -- destruct (N k e H) as [y [Hy R]]. exists y. split; [now right | exact R].
Qed.

Lemma In_valid_item (it : RawItem) (items : list (option RawItem)) :
  In it (flat_map valid_item items) ->
  In (Some it) items /\ Js.truthy (item_id it) = true.
Proof.
  intros H. apply in_flat_map in H. destruct H as [o [Ho H]].
  destruct o as [it'|]; simpl in H; [|contradiction].
  destruct (Js.truthy (item_id it')) eqn:T; [|contradiction].
  destruct H as [<-|[]]. now split.
Qed.

Lemma index_sections_processed (doc : Document) :
  forall (q : Faq.Index) (processed : list Faq.FaqSection),
  exists tail,
    snd (fold_left Faq.index_section doc (q, processed)) = processed ++ tail
    /\ Forall2 section_of doc tail.
Proof.
  induction doc as [|section doc IH]; intros q processed.
  - exists []. simpl. rewrite app_nil_r. split; [reflexivity | constructor].
  - simpl fold_left.
    destruct (index_items_spec section (items_of section) q []) as [new1 [E1 E2]].
    rewrite E1. simpl app.
    set (s := {| Faq.s_section := name_of section;
                 Faq.s_hideHeading := hideHeading_of section;
                 Faq.s_validItems := map snd new1 |}).
    destruct (IH (q ++ new1) (processed ++ [s])) as [tail [F1 F2]].
    exists (s :: tail). split; [rewrite F1, <- app_assoc; reflexivity|].
    constructor; [|exact F2].
    split; [reflexivity|]. split; [reflexivity|].
    intros e He. simpl in He. apply in_map_iff in He. destruct He as [[k e'] [Ee He]].
    simpl in Ee. subst e'.
    destruct (add_valid_new
                (map (fun it => (section, it)) (flat_map valid_item (items_of section))) q)
      as [new [A1 A2]].
    rewrite <- E2 in A1. apply app_inv_head in A1. subst new.
    destruct (A2 k e He) as [x [Hx R]].
    apply in_map_iff in Hx. destruct Hx as [it [<- Hit]].
    apply In_valid_item in Hit. destruct Hit as [H1 H2].
    exists it. repeat split; assumption.
Qed.

(** X13.  The sections [buildQuestionIndex] returns: one per section of
    the document, in order, with its name and its [hideHeading] flag;
    every entry listed under a section is the record of an item of that
    very section whose id is truthy; over all sections every id is
    listed once, and the entries listed, section after section, are the
    records of the index in its order.  So a question whose id comes
    again, in the same or in a later section, is listed only where it
    comes first. *)
Theorem sections_list_each_question_once (doc : Document) :
  let index := fst (Faq.buildQuestionIndex doc) in
  let processed := snd (Faq.buildQuestionIndex doc) in
  Forall2 section_of doc processed
  /\ NoDup (map Faq.e_id (flat_map Faq.s_validItems processed))
  /\ flat_map Faq.s_validItems processed = JsMap.values index.
Proof.
  cbv zeta. split; [|split].
  - unfold Faq.buildQuestionIndex.
    destruct (index_sections_processed doc JsMap.empty []) as [tail [E F]].
    unfold Faq.Index, JsMap.t, JsMap.empty in *. rewrite E. exact F.
  - rewrite buildQuestionIndex_validItems, buildQuestionIndex_flat, flat_index_ids,
      flat_index_keys.
    apply first_seen_NoDup.
  - apply buildQuestionIndex_validItems.
Qed.

(* ===================================================================== *)
(** ** What no interaction touches *)
(* ===================================================================== *)

(** The loaded data, the rendered lists and the requests sent are the
    same on both pages. *)
Definition same_data (p p' : Faq.Page) : Prop :=
  Faq.questions (Faq.state p') = Faq.questions (Faq.state p)
  /\ Faq.sections (Faq.state p') = Faq.sections (Faq.state p)
  /\ Faq.sidebar (Faq.dom p') = Faq.sidebar (Faq.dom p)
  /\ Faq.accordion (Faq.dom p') = Faq.accordion (Faq.dom p)
  /\ requests (Faq.effects p') = requests (Faq.effects p).

(** The events of a visitor and of the browser, as opposed to the load. *)
Definition is_interaction (ev : Faq.Event) : bool :=
  match ev with
  | Faq.Init _ | Faq.Hydrate _ => false
  | _ => true
  end.

Lemma same_data_refl (p : Faq.Page) : same_data p p.
Proof. repeat split. Qed.

Lemma same_data_trans (p q r : Faq.Page) : same_data p q -> same_data q r -> same_data p r.
Proof.
  intros [A1 [A2 [A3 [A4 A5]]]] [B1 [B2 [B3 [B4 B5]]]].
  unfold same_data. rewrite B1, B2, B3, B4, B5. repeat split; assumption.
Qed.

Lemma same_data_renderDesktopQuestion (id : option string) (p : Faq.Page) :
  same_data p (Faq.renderDesktopQuestion id p).
Proof.
  destruct (renderDesktopQuestion_frame id p) as [R1 [_ [R3 [R4 _]]]].
  unfold same_data. rewrite R1, R3, R4, requests_renderDesktopQuestion. repeat split.
Qed.

Lemma same_data_updateSidebarActive (id : option string) (p : Faq.Page) :
  same_data p (Faq.updateSidebarActive id p).
Proof. repeat split. Qed.

Lemma same_data_setHashQuestionId (id : option string) (p : Faq.Page) :
  same_data p (Faq.setHashQuestionId id p).
Proof.
  destruct (setHashQuestionId_frame id p) as [S1 [S2 _]].
  unfold same_data. rewrite S1, S2, requests_setHashQuestionId. repeat split.
Qed.

Lemma same_data_syncMobileAccordion (id : option string) (scroll focus : bool)
    (p : Faq.Page) :
  same_data p (Faq.syncMobileAccordion id scroll focus p).
Proof.
  destruct (syncMobileAccordion_frame id scroll focus p) as [F1 [_ [_ [F4 [F5 _]]]]].
  unfold same_data. rewrite F1, F4, F5, requests_syncMobileAccordion. repeat split.
Qed.

Lemma same_data_applyActiveQuestion (id : option string) (syncHash scrollMobile : bool)
    (p : Faq.Page) :
  same_data p (Faq.applyActiveQuestion id syncHash scrollMobile p).
Proof.
  unfold Faq.applyActiveQuestion, Faq.triggerSocialGlow.
  destruct id as [i|]; [|apply same_data_refl].
  destruct (Js.is_empty i || _); [apply same_data_refl|].
  set (p0 := Faq.on_state (Faq.set_activeId (Some i)) p).
  assert (H0 : same_data p p0) by (repeat split).
  pose proof (same_data_renderDesktopQuestion (Some i) p0) as H1.
  set (p1 := Faq.renderDesktopQuestion (Some i) p0) in *.
  pose proof (same_data_updateSidebarActive (Some i) p1) as H2.
  set (p2 := Faq.updateSidebarActive (Some i) p1) in *.
  set (p3 := if syncHash then Faq.setHashQuestionId (Some i) p2 else p2).
  assert (H3 : same_data p2 p3).
  { subst p3. destruct syncHash; [apply same_data_setHashQuestionId | apply same_data_refl]. }
  pose proof (same_data_syncMobileAccordion (Some i) scrollMobile false p3) as H4.
  set (p4 := Faq.syncMobileAccordion (Some i) scrollMobile false p3) in *.
  assert (H5 : same_data p p4).
  { eapply same_data_trans; [|exact H4]. eapply same_data_trans; [|exact H3].
    eapply same_data_trans; [|exact H2]. eapply same_data_trans; [exact H0 | exact H1]. }
  destruct (JsMap.get i Faq.SOCIAL_GLOW_MAPPING); [|exact H5].
  eapply same_data_trans; [exact H5|]. repeat split.
Qed.

Lemma same_data_handleSidebarClick (target : option string) (p : Faq.Page) :
  same_data p (Faq.handleSidebarClick target p).
Proof.
  unfold Faq.handleSidebarClick, Faq.scrollQuestionToTop.
  destruct target as [id|]; [|apply same_data_refl].
  destruct (Js.is_empty id || _); [apply same_data_refl|].
  destruct (Faq.same_id id _); [|apply same_data_applyActiveQuestion].
  destruct (Faq.viewer (Faq.dom p)); repeat split.
Qed.

Lemma same_data_handleAccordionClick (target : option string) (p : Faq.Page) :
  same_data p (Faq.handleAccordionClick target p).
Proof.
  unfold Faq.handleAccordionClick.
  destruct target as [id|]; [|apply same_data_refl].
  destruct (Js.is_empty id); [apply same_data_refl|].
  destruct (JsMap.get id _) as [item|]; [|apply same_data_refl].
  destruct (Faq.ai_open item); [repeat split|].
  eapply same_data_trans; [|apply same_data_applyActiveQuestion].
  unfold Faq.expandPanel, Faq.AUTO_SCROLL. repeat split.
Qed.

Lemma same_data_handleHashChange (p : Faq.Page) : same_data p (Faq.handleHashChange p).
Proof.
  unfold Faq.handleHashChange.
  destruct (Faq.resolveQuestionId _ _) as [c|]; [|apply same_data_refl].
  destruct (Js.is_empty c); [apply same_data_refl|].
  destruct (Faq.same_id c _);
    [apply same_data_syncMobileAccordion | apply same_data_applyActiveQuestion].
Qed.

Lemma same_data_handleLayoutChange (p : Faq.Page) : same_data p (Faq.handleLayoutChange p).
Proof.
  unfold Faq.handleLayoutChange.
  destruct (Nat.eqb _ 0); [apply same_data_refl|].
  destruct (Faq.layout_mobile _); [apply same_data_syncMobileAccordion|].
  eapply same_data_trans; [apply same_data_renderDesktopQuestion|].
  apply same_data_updateSidebarActive.
Qed.

Lemma same_data_dispatch (p : Faq.Page) (ev : Faq.Event) :
  is_interaction ev = true -> same_data p (Faq.dispatch p ev).
Proof.
  destruct ev as [net|doc|id syncHash scrollMobile|target|target|hash|mobile|reduce| | |event];
    intros H; try discriminate; cbn [Faq.dispatch].
  - apply same_data_applyActiveQuestion.
  - apply same_data_handleSidebarClick.
  - apply same_data_handleAccordionClick.
  - eapply same_data_trans; [|apply same_data_handleHashChange]. repeat split.
  - eapply same_data_trans; [|apply same_data_handleLayoutChange]. repeat split.
  - unfold Faq.handleMotionPreferenceChange, Faq.refreshOpenPanels.
    destruct (negb _); repeat split.
  - apply same_data_refl.
  - unfold Faq.timer_fires. destruct (Faq.timers p); repeat split.
  - unfold Faq.on_keydown, Faq.handleKeyboardNavigation.
    destruct (Faq.is_navigation_key _ && _), (Faq.target event);
      try destruct (Faq.ctrlKey event || Faq.metaKey event); repeat split.
Qed.

(** X14.  No interaction reloads or re-renders: over any sequence of
    clicks, key presses, hash changes, layout and motion changes, resizes
    and timer callbacks, the question index and the sections stay as they
    were loaded, the sidebar and the accordion keep the nodes they were
    rendered with, and no request is sent. *)
Theorem interaction_keeps_the_data (p : Faq.Page) (evs : list Faq.Event) :
  forallb is_interaction evs = true ->
  let p' := Faq.run p evs in
  Faq.questions (Faq.state p') = Faq.questions (Faq.state p)
  /\ Faq.sections (Faq.state p') = Faq.sections (Faq.state p)
  /\ Faq.sidebar (Faq.dom p') = Faq.sidebar (Faq.dom p)
  /\ Faq.accordion (Faq.dom p') = Faq.accordion (Faq.dom p)
  /\ requests (Faq.effects p') = requests (Faq.effects p).
Proof.
  intros H. cbv zeta. change (same_data p (Faq.run p evs)).
  revert p. induction evs as [|ev evs IH]; intros p; [apply same_data_refl|].
  simpl in H. apply andb_true_iff in H. destruct H as [H1 H2].
  unfold Faq.run. cbn [fold_left]. fold (Faq.run (Faq.dispatch p ev) evs).
  eapply same_data_trans; [apply same_data_dispatch; exact H1 | apply IH; exact H2].
Qed.

(** The theorem on the loaded two-question page: a click on the second
    link, a click on its panel, a hash change, a key press and a timer. *)
Lemma interaction_keeps_the_data_witness :
  let evs := [Faq.SidebarClick (Some "b"); Faq.AccordionClick (Some "b");
              Faq.HashChange "#a"; Faq.Keydown (press "ArrowDown"); Faq.TimerFires] in
  let p := hydrated "" in
  let p' := Faq.run p evs in
  forallb is_interaction evs = true
  /\ Faq.activeId (Faq.state p') = Some "a"
  /\ Faq.questions (Faq.state p') = Faq.questions (Faq.state p)
  /\ Faq.sections (Faq.state p') = Faq.sections (Faq.state p)
  /\ Faq.sidebar (Faq.dom p') = Faq.sidebar (Faq.dom p)
  /\ Faq.accordion (Faq.dom p') = Faq.accordion (Faq.dom p)
  /\ requests (Faq.effects p') = requests (Faq.effects p).
Proof.
  cbv zeta. split; [reflexivity|]. split; [vm_compute; reflexivity|].
  apply (@interaction_keeps_the_data (hydrated "")
           [Faq.SidebarClick (Some "b"); Faq.AccordionClick (Some "b");
            Faq.HashChange "#a"; Faq.Keydown (press "ArrowDown"); Faq.TimerFires]).
  reflexivity.
Defined.

(* ===================================================================== *)
(** ** The first iteration: what an activation shows *)
(* ===================================================================== *)

(** The [.acc-item] elements among the nodes of the accordion. *)
Definition legacy_panels (nodes : list Legacy.AccordionNode) : list Legacy.AccordionItem :=
  flat_map (fun n => match n with
                     | Legacy.AccItem item => [item]
                     | Legacy.AccHeading _ => []
                     end) nodes.

Lemma legacy_collapsed_none_open (nodes : list Legacy.AccordionNode) :
  filter Legacy.ai_open (legacy_panels (map Legacy.collapse_if_open nodes)) = [].
Proof.
  induction nodes as [|[t|item] nodes IH]; simpl; [reflexivity | exact IH |].
  destruct (Legacy.ai_open item) eqn:O; simpl; [exact IH|]. now rewrite O.
Qed.

(** After the panels are synchronised on an id that has an item, the one
    open panel is that of the first item with the id. *)
Lemma legacy_sync_nodes_open (id : string) (nodes : list Legacy.AccordionNode) :
  forall t, Legacy.query_item id nodes = Some t ->
  filter Legacy.ai_open (legacy_panels (Legacy.sync_nodes id nodes))
  = [if Legacy.ai_open t then t else Legacy.open_item t].
Proof.
  unfold Legacy.query_item.
  induction nodes as [|[h|item] nodes IH]; intros t H; simpl in *; [discriminate | now apply IH |].
  destruct (String.eqb (Legacy.ai_id item) id) eqn:E; simpl.
  - inversion H; subst t. rewrite legacy_collapsed_none_open.
    destruct (Legacy.ai_open item) eqn:O; simpl; [now rewrite O | reflexivity].
  - destruct (Legacy.ai_open item) eqn:O; simpl; [|rewrite O]; now apply IH.
Qed.

Lemma legacy_marked_mark (id : string) (b : Legacy.SidebarButton) :
  Legacy.marked (Legacy.mark (Some id) b) = String.eqb (Legacy.sb_id b) id.
Proof.
  unfold Legacy.marked, Legacy.mark. simpl.
  destruct (String.eqb (Legacy.sb_id b) id); reflexivity.
Qed.

Lemma legacy_marked_links (id : string) (p : Legacy.Page) (b : Legacy.SidebarButton) :
  In b (Legacy.sidebar_links (Legacy.updateSidebarActive (Some id) p)) ->
  (Legacy.marked b = true <-> Legacy.sb_id b = id).
Proof.
  unfold Legacy.updateSidebarActive, Legacy.sidebar_links.
  destruct (Legacy.sidebar p) as [[secs|]|] eqn:E; simpl; rewrite ?E; try contradiction.
  intros H. apply in_flat_map in H. destruct H as [s [Hs Hb]].
  apply in_map_iff in Hs. destruct Hs as [s0 [<- _]]. simpl in Hb.
  apply in_map_iff in Hb. destruct Hb as [b0 [<- _]].
  rewrite legacy_marked_mark. simpl. apply String.eqb_eq.
Qed.

(** X15.  An activation in the first iteration, for a non-empty id
    (known or not): the id becomes the active one; the sidebar keeps its
    links, and a link is marked exactly when it carries the id, so every
    link with the id when the document repeats it and none when no link
    has it; when the accordion has an item with the id, the one panel
    left open is that of the first such item, every other panel is
    closed; when it has none, the accordion is left as it was. *)
Theorem legacy_activation_marks_and_opens (id : string) (syncHash scrollMobile : bool)
    (p : Legacy.Page) :
  id <> "" ->
  let p' := Legacy.applyActiveQuestion (Some id) syncHash scrollMobile p in
  Legacy.activeDesktopId p' = Some id
  /\ map Legacy.sb_id (Legacy.sidebar_links p') = map Legacy.sb_id (Legacy.sidebar_links p)
  /\ (forall b, In b (Legacy.sidebar_links p') ->
        (Legacy.marked b = true <-> Legacy.sb_id b = id))
  /\ match Legacy.query_item id (Legacy.rendered_nodes p) with
     | Some t =>
         filter Legacy.ai_open (legacy_panels (Legacy.rendered_nodes p'))
         = [if Legacy.ai_open t then t else Legacy.open_item t]
     | None => Legacy.accordion p' = Legacy.accordion p
     end.
Proof.
  intros Hi. cbv zeta. unfold Legacy.applyActiveQuestion.
  apply is_empty_false in Hi. rewrite Hi.
  set (p0 := Legacy.set_activeDesktopId (Some id) p).
  destruct (legacy_renderDesktopQuestion_frame (Some id) p0) as [_ [_ [R3 [R4 [R5 _]]]]].
  set (p1 := Legacy.renderDesktopQuestion (Some id) p0) in *.
  destruct (legacy_updateSidebarActive_frame (Some id) p1)
    as [_ [_ [U3 [_ [U5 [_ [_ U8]]]]]]].
  pose proof (legacy_marked_links id p1) as UM.
  set (p2 := Legacy.updateSidebarActive (Some id) p1) in *.
  set (p3 := if syncHash then Legacy.setHashQuestionId (Some id) p2 else p2).
  assert (H3 : Legacy.activeDesktopId p3 = Legacy.activeDesktopId p2
               /\ Legacy.sidebar p3 = Legacy.sidebar p2
               /\ Legacy.accordion p3 = Legacy.accordion p2).
  { subst p3. destruct syncHash; [|repeat split].
    destruct (legacy_setHashQuestionId_frame (Some id) p2) as [_ [_ [S3 [_ [S5 S6]]]]].
    repeat split; assumption. }
  destruct H3 as [S3 [S5 S6]].
  destruct (legacy_syncMobileAccordion_frame (Some id) scrollMobile false p3)
    as [_ [_ [F3 [_ [F5 _]]]]].
  assert (A3 : Legacy.accordion p3 = Legacy.accordion p)
    by (rewrite S6, U5, R5; reflexivity).
  assert (L : Legacy.sidebar_links (Legacy.syncMobileAccordion (Some id) scrollMobile false p3)
              = Legacy.sidebar_links p2).
  { unfold Legacy.sidebar_links. now rewrite F5, S5. }
  split; [rewrite F3, S3, U3, R3; reflexivity|].
  split; [rewrite L, U8; unfold Legacy.sidebar_links; rewrite R4; reflexivity|].
  split; [intros b H; rewrite L in H; exact (UM b H)|].
  assert (N3 : Legacy.rendered_nodes p3 = Legacy.rendered_nodes p)
    by (unfold Legacy.rendered_nodes; now rewrite A3).
  unfold Legacy.syncMobileAccordion. rewrite Hi, N3.
  destruct (Legacy.query_item id (Legacy.rendered_nodes p)) as [t|] eqn:Q.
  - destruct (Legacy.accordion p3) as [a|] eqn:A.
    + assert (E : Legacy.rendered_nodes
                    (Legacy.set_accordion
                       (Some (Some (Legacy.sync_nodes id (Legacy.rendered_nodes p)))) p3)
                  = Legacy.sync_nodes id (Legacy.rendered_nodes p)) by reflexivity.
      destruct (negb (Legacy.ai_open t)), scrollMobile; cbn [Legacy.log Legacy.rendered_nodes Legacy.accordion] in *;
        rewrite ?E; now apply legacy_sync_nodes_open.
    + exfalso. unfold Legacy.rendered_nodes in Q. rewrite <- A3 in Q. discriminate.
  - destruct (Legacy.accordion p3) eqn:A; rewrite A; exact A3.
Qed.

(** The theorem on the loaded two-question page, for the second id. *)
Lemma legacy_activation_marks_and_opens_witness :
  let p' := Legacy.applyActiveQuestion (Some "b") true false legacy_loaded in
  "b" <> ""
  /\ Legacy.activeDesktopId p' = Some "b"
  /\ map Legacy.marked (Legacy.sidebar_links p') = [false; true]
  /\ map Legacy.ai_id (filter Legacy.ai_open (legacy_panels (Legacy.rendered_nodes p')))
     = ["b"].
Proof.
  cbv zeta.
  assert (N : "b" <> "") by discriminate.
  pose proof (@legacy_activation_marks_and_opens "b" true false legacy_loaded N) as T.
  cbv zeta in T. destruct T as [T1 _].
  split; [exact N|]. split; [exact T1|]. split; vm_compute; reflexivity.
Defined.

(* ===================================================================== *)
(** ** Formatting an answer twice *)
(* ===================================================================== *)

(** A string without a line feed. *)
Definition nl_free (s : string) : Prop := ~ In Js.newline (list_ascii_of_string s).

(** A line [formatBulletPoints] keeps as it is. *)
Definition plain (line : string) : Prop := is_bullet line = false /\ is_blank line = false.

Lemma list_ascii_app (a b : string) :
  list_ascii_of_string (a ++ b) = list_ascii_of_string a ++ list_ascii_of_string b.
Proof. induction a as [|c a IH]; simpl; [reflexivity | now rewrite IH]. Qed.

Lemma nl_free_app (a b : string) : nl_free (a ++ b) <-> nl_free a /\ nl_free b.
Proof. unfold nl_free. rewrite list_ascii_app, in_app_iff. tauto. Qed.

Lemma nl_free_rev (s : string) : nl_free (Js.rev s) <-> nl_free s.
Proof.
  unfold nl_free, Js.rev. rewrite list_ascii_of_string_of_list_ascii, <- in_rev. tauto.
Qed.

Lemma strip_suffix (w2 : ascii -> ascii -> bool) (w3 : ascii -> ascii -> ascii -> bool) :
  forall n s, String.length s <= n -> exists pre, s = (pre ++ Js.strip w2 w3 s)%string.
Proof.
  induction n as [|n IH]; intros s L.
  - destruct s; [exists ""; reflexivity | simpl in L; lia].
  - destruct s as [|a s1]; [exists ""; reflexivity|]. simpl in L.
    cbn [Js.strip]. destruct (Js.ws1 a).
    { destruct (IH s1) as [pre E]; [lia|]. exists (String a pre). simpl. now rewrite <- E. }
    destruct s1 as [|b s2]; [exists ""; reflexivity|]. simpl in L.
    destruct (w2 a b).
    { destruct (IH s2) as [pre E]; [lia|]. exists (String a (String b pre)).
      simpl. now rewrite <- E. }
    destruct s2 as [|c s3]; [exists ""; reflexivity|]. simpl in L.
    destruct (w3 a b c); [|exists ""; reflexivity].
    destruct (IH s3) as [pre E]; [lia|]. exists (String a (String b (String c pre))).
    simpl. now rewrite <- E.
Qed.

Lemma nl_free_strip (w2 : ascii -> ascii -> bool) (w3 : ascii -> ascii -> ascii -> bool)
    (s : string) :
  nl_free s -> nl_free (Js.strip w2 w3 s).
Proof.
  intros H. destruct (@strip_suffix w2 w3 (String.length s) s (le_n _)) as [pre E].
  rewrite E in H. now apply nl_free_app in H.
Qed.

Lemma nl_free_trim (s : string) : nl_free s -> nl_free (Js.trim s).
Proof.
  intros H. unfold Js.trim, Js.trimEnd, Js.trimStart.
  apply nl_free_rev, nl_free_strip, nl_free_rev, nl_free_strip, H.
Qed.

Lemma nl_free_drop (n : nat) : forall s, nl_free s -> nl_free (Js.drop n s).
Proof.
  induction n as [|n IH]; intros s H; [exact H|].
  destruct s as [|a s]; [exact H|]. simpl. apply IH.
  unfold nl_free in *. simpl in H. tauto.
Qed.

Lemma nl_free_items (items : list string) :
  Forall nl_free items ->
  nl_free (Js.join "" (map (fun item => "<li>" ++ item ++ "</li>")%string items)).
Proof.
  induction 1 as [|x l Hx Hl IH]; [intros []|].
  assert (X : nl_free ("<li>" ++ x ++ "</li>")).
  { apply nl_free_app. split; [vm_compute; intuition discriminate|].
    apply nl_free_app. split; [exact Hx | vm_compute; intuition discriminate]. }
  destruct l as [|y l]; [exact X|].
  change (nl_free (("<li>" ++ x ++ "</li>") ++ ""
                   ++ Js.join "" (map (fun item => "<li>" ++ item ++ "</li>")%string
                                    (y :: l)))).
  apply nl_free_app. split; [exact X | exact IH].
Qed.

Lemma nl_free_list_html (items : list string) :
  Forall nl_free items -> nl_free (Faq.list_html items).
Proof.
  intros H. unfold Faq.list_html.
  apply nl_free_app. split; [vm_compute; intuition discriminate|].
  apply nl_free_app. split; [now apply nl_free_items | vm_compute; intuition discriminate].
Qed.

(** *** [split] and [join] *)

Lemma split_lines_nonempty (s : string) : Js.split_lines s <> [].
Proof.
  destruct s as [|a s]; simpl; [discriminate|].
  destruct (Ascii.eqb a Js.newline); [discriminate|].
  destruct (Js.split_lines s); discriminate.
Qed.

Lemma join_split (s : string) : Js.join Js.LF (Js.split_lines s) = s.
Proof.
  induction s as [|a s IH]; [reflexivity|]. simpl.
  pose proof (split_lines_nonempty s) as N.
  destruct (Ascii.eqb a Js.newline) eqn:E.
  - apply Ascii.eqb_eq in E. subst a.
    destruct (Js.split_lines s) as [|l ls]; [contradiction|].
    change (Js.join Js.LF ("" :: l :: ls))
      with ("" ++ Js.LF ++ Js.join Js.LF (l :: ls))%string.
    rewrite IH. reflexivity.
  - destruct (Js.split_lines s) as [|l ls]; [contradiction|].
    destruct ls as [|l' ls].
    + simpl in IH. subst s. reflexivity.
    + change (Js.join Js.LF (String a l :: l' :: ls))
        with (String a (l ++ Js.LF ++ Js.join Js.LF (l' :: ls)))%string.
      change (Js.join Js.LF (l :: l' :: ls))
        with (l ++ Js.LF ++ Js.join Js.LF (l' :: ls))%string in IH.
      now rewrite IH.
Qed.

Lemma split_lines_one (s : string) : nl_free s -> Js.split_lines s = [s].
Proof.
  induction s as [|a s IH]; intros H; [reflexivity|].
  unfold nl_free in *. simpl in *.
  destruct (Ascii.eqb a Js.newline) eqn:E.
  - apply Ascii.eqb_eq in E. exfalso. apply H. left. now symmetry.
  - rewrite IH by tauto. reflexivity.
Qed.

Lemma split_lines_cons (p r : string) :
  nl_free p -> Js.split_lines (p ++ Js.LF ++ r) = p :: Js.split_lines r.
Proof.
  induction p as [|a p IH]; intros H.
  - simpl. rewrite ?Ascii.eqb_refl. reflexivity.
  - unfold nl_free in *. simpl in *.
    destruct (Ascii.eqb a Js.newline) eqn:E.
    + apply Ascii.eqb_eq in E. exfalso. apply H. left. now symmetry.
    + unfold Js.LF in IH. simpl in IH. rewrite IH by tauto. reflexivity.
Qed.

Lemma split_join (ls : list string) :
  ls <> [] -> Forall nl_free ls -> Js.split_lines (Js.join Js.LF ls) = ls.
Proof.
  intros N F. induction F as [|x l Hx Hl IH]; [contradiction|].
  destruct l as [|y l]; [now apply split_lines_one|].
  change (Js.join Js.LF (x :: y :: l)) with (x ++ Js.LF ++ Js.join Js.LF (y :: l))%string.
  rewrite split_lines_cons by exact Hx. rewrite IH by discriminate. reflexivity.
Qed.

Lemma nl_free_split_lines (s : string) : Forall nl_free (Js.split_lines s).
Proof.
  induction s as [|a s IH]; simpl; [repeat constructor; intros []|].
  destruct (Ascii.eqb a Js.newline) eqn:E; [constructor; [intros []|exact IH]|].
  destruct (Js.split_lines s) as [|l ls]; [repeat constructor|].
  - unfold nl_free. simpl. intros [H|[]]. subst a. now rewrite Ascii.eqb_refl in E.
  - inversion IH as [|? ? H1 H2]; subst. constructor; [|exact H2].
    unfold nl_free in *. simpl. intros [H|H]; [|contradiction].
    subst a. now rewrite Ascii.eqb_refl in E.
Qed.

(** *** The lines of the result *)

Lemma rev_app (a b : string) : Js.rev (a ++ b) = (Js.rev b ++ Js.rev a)%string.
Proof.
  unfold Js.rev. rewrite list_ascii_app, rev_app_distr.
  generalize (rev (list_ascii_of_string b)) (rev (list_ascii_of_string a)).
  intros x y. induction x as [|c x IH]; simpl; [reflexivity | now rewrite IH].
Qed.

Lemma rev_rev (s : string) : Js.rev (Js.rev s) = s.
Proof.
  unfold Js.rev. rewrite list_ascii_of_string_of_list_ascii, rev_involutive.
  apply string_of_list_ascii_of_string.
Qed.

(** A [<ul>] element has no white space around it. *)
Lemma trim_list_html (items : list string) :
  Js.trim (Faq.list_html items) = Faq.list_html items.
Proof.
  unfold Js.trim, Js.trimStart, Js.trimEnd, Faq.list_html.
  set (body := Js.join "" _).
  change (Js.strip Js.ws2 Js.ws3 ("<ul>" ++ body ++ "</ul>"))
    with ("<ul>" ++ body ++ "</ul>")%string.
  assert (R : Js.rev ("<ul>" ++ body ++ "</ul>")
              = (">lu/<" ++ (Js.rev body ++ Js.rev "<ul>"))%string).
  { rewrite (rev_app "<ul>" (body ++ "</ul>")), (rev_app body "</ul>"). reflexivity. }
  rewrite R.
  change (Js.strip (fun a b => Js.ws2 b a) (fun a b c => Js.ws3 c b a)
            (">lu/<" ++ (Js.rev body ++ Js.rev "<ul>")))
    with (">lu/<" ++ (Js.rev body ++ Js.rev "<ul>"))%string.
  rewrite <- R. apply rev_rev.
Qed.

Lemma plain_list_html (items : list string) : plain (Faq.list_html items).
Proof.
  unfold plain, is_bullet, is_blank. rewrite trim_list_html. split; reflexivity.
Qed.

Lemma run_of_incl (lines : list string) : incl (run_of lines) lines.
Proof.
  induction lines as [|l rest IH]; simpl; [intros x []|].
  destruct (is_bullet l); [|intros x []].
  intros x [<-|H]; [now left | right; now apply IH].
Qed.

Lemma after_run_incl (lines : list string) : incl (after_run lines) lines.
Proof.
  induction lines as [|l rest IH]; simpl; [intros x []|].
  destruct (is_bullet l); [|apply incl_refl].
  intros x H. right. now apply IH.
Qed.

(** A line of the result is a [<ul>] made of lines of the text, or a
    line of the text that is neither a bullet nor empty. *)
Lemma grouped_lines :
  forall n lines, List.length lines <= n ->
  forall x, In x (grouped lines) ->
    (exists ls, x = Faq.list_html (map bullet_text ls) /\ incl ls lines)
    \/ (In x lines /\ plain x).
Proof.
  induction n as [|n IH]; intros lines L x H.
  - destruct lines; [simp grouped in H; contradiction | simpl in L; lia].
  - destruct lines as [|l rest]; [simp grouped in H; contradiction|]. simpl in L.
    destruct (is_bullet l) eqn:B.
    + rewrite grouped_bullet in H by exact B. destruct H as [<-|H].
      * left. exists (l :: run_of rest). split; [reflexivity|].
        intros y [<-|Hy]; [now left | right; now apply run_of_incl].
      * pose proof (after_run_length rest) as A.
        destruct (IH (after_run rest) ltac:(lia) x H) as [[ls [E I]]|[I P]].
        -- left. exists ls. split; [exact E|]. intros y Hy. right.
           apply after_run_incl. now apply I.
        -- right. split; [right; now apply after_run_incl | exact P].
    + rewrite grouped_other in H by exact B.
      destruct (is_blank l) eqn:K.
      * destruct (IH rest ltac:(lia) x H) as [[ls [E I]]|[I P]].
        -- left. exists ls. split; [exact E|]. intros y Hy. right. now apply I.
        -- right. split; [now right | exact P].
      * destruct H as [<-|H]; [right; split; [now left | now split]|].
        destruct (IH rest ltac:(lia) x H) as [[ls [E I]]|[I P]].
        -- left. exists ls. split; [exact E|]. intros y Hy. right. now apply I.
        -- right. split; [now right | exact P].
Qed.

Lemma grouped_plain (lines : list string) : Forall plain lines -> grouped lines = lines.
Proof.
  induction 1 as [|l rest [B K] _ IH]; [now simp grouped|].
  rewrite grouped_other by exact B. rewrite K, IH. reflexivity.
Qed.

Lemma nl_free_bullet_text (l : string) : nl_free l -> nl_free (bullet_text l).
Proof.
  intros H. unfold bullet_text. now apply nl_free_trim, nl_free_drop, nl_free_trim.
Qed.

(** X16.  Formatting is idempotent: [formatBulletPoints] applied to its
    own result returns that result, for every value; and a text none of
    whose lines is a bullet or empty once trimmed is returned as it
    is. *)
Theorem formatBulletPoints_idempotent :
  (forall text : Faq.JsValue,
     Faq.formatBulletPoints (Faq.formatBulletPoints text) = Faq.formatBulletPoints text)
  /\ (forall s : string,
        (forall l, In l (Js.split_lines s) -> is_bullet l = false /\ is_blank l = false) ->
        Faq.formatBulletPoints (Faq.VString s) = Faq.VString s).
Proof.
  split.
  - intros [| | | | |s]; try reflexivity.
    unfold Faq.formatBulletPoints at 2 3.
    destruct (Js.is_empty s) eqn:E; [cbn [Faq.formatBulletPoints]; now rewrite E|].
    rewrite format_lines_grouped.
    set (G := grouped (Js.split_lines s)).
    assert (P : Forall plain G /\ Forall nl_free G).
    { pose proof (nl_free_split_lines s) as NL. rewrite Forall_forall in NL.
      split; apply Forall_forall; intros x H;
        destruct (@grouped_lines _ _ (le_n _) x H) as [[ls [-> I]]|[I P]].
      - apply plain_list_html.
      - exact P.
      - apply nl_free_list_html. apply Forall_forall. intros y Hy.
        apply in_map_iff in Hy. destruct Hy as [l [<- Hl]].
        apply nl_free_bullet_text, NL, I, Hl.
      - now apply NL. }
    destruct P as [P N].
    cbn [Faq.formatBulletPoints].
    destruct (Js.is_empty (Js.join Js.LF G)) eqn:E2; [reflexivity|].
    rewrite format_lines_grouped.
    assert (G0 : G <> []) by (intros H; rewrite H in E2; discriminate).
    rewrite (split_join G0 N), (grouped_plain P). reflexivity.
  - intros s H. unfold Faq.formatBulletPoints.
    destruct (Js.is_empty s); [reflexivity|].
    rewrite format_lines_grouped, grouped_plain, join_split; [reflexivity|].
    apply Forall_forall. intros l Hl. exact (H l Hl).
Qed.

(* ===================================================================== *)
(** ** The intermediate iteration's index *)
(* ===================================================================== *)

(** An entry of the current iteration without its [order]. *)
Definition forget_order (e : Faq.Entry) : Intermediate.Entry :=
  {| Intermediate.e_id := Faq.e_id e;
     Intermediate.e_section := Faq.e_section e;
     Intermediate.e_question := Faq.e_question e;
     Intermediate.e_answer := Faq.e_answer e |}.

(** [flatList] and [questionMap] that go with an index. *)
Definition intermediate_of (index : Faq.Index)
  : list Intermediate.Entry * JsMap.t Intermediate.Entry :=
  (map forget_order (JsMap.values index),
   map (fun kv => (fst kv, forget_order (snd kv))) index).

Lemma keys_intermediate_of (index : Faq.Index) :
  JsMap.keys (snd (intermediate_of index)) = JsMap.keys index.
Proof. unfold intermediate_of, JsMap.keys. simpl. rewrite map_map. reflexivity. Qed.

Lemma has_intermediate_of (k : string) (index : Faq.Index) :
  JsMap.has k (snd (intermediate_of index)) = JsMap.has k index.
Proof. now rewrite !has_keys, keys_intermediate_of. Qed.

Lemma intermediate_item (section : option RawSection) (item : option RawItem)
    (index : Faq.Index) :
  Intermediate.index_item section (intermediate_of index) item
  = intermediate_of
      (fold_left add_valid (map (fun it => (section, it)) (valid_item item)) index).
Proof.
  destruct item as [it|]; [|reflexivity].
  unfold Intermediate.index_item, valid_item.
  unfold intermediate_of at 1. cbv beta iota.
  destruct (Js.truthy (item_id it)); [|reflexivity]. cbn [negb map fold_left].
  unfold add_valid. change (id_of (section, it)) with (Js.or_empty (item_id it)).
  change (map (fun kv : string * Faq.Entry => (fst kv, forget_order (snd kv))) index)
    with (snd (intermediate_of index)).
  rewrite has_intermediate_of.
  destruct (JsMap.has (Js.or_empty (item_id it)) index) eqn:H; [reflexivity|].
  rewrite set_new by (now rewrite has_intermediate_of).
  unfold intermediate_of, JsMap.values. simpl. rewrite !map_app. reflexivity.
Qed.

Lemma intermediate_items (section : option RawSection) (items : list (option RawItem)) :
  forall index,
  fold_left (Intermediate.index_item section) items (intermediate_of index)
  = intermediate_of
      (fold_left add_valid
         (map (fun it => (section, it)) (flat_map valid_item items)) index).
Proof.
  induction items as [|item items IH]; intros index; [reflexivity|].
  cbn [fold_left flat_map]. rewrite intermediate_item, IH, map_app, fold_left_app.
  reflexivity.
Qed.

Lemma intermediate_sections (doc : Document) :
  forall index,
  fold_left (fun acc section =>
               fold_left (Intermediate.index_item section) (items_of section) acc)
    doc (intermediate_of index)
  = intermediate_of (fold_left add_valid (valid_items doc) index).
Proof.
  induction doc as [|section doc IH]; intros index; [reflexivity|].
  cbn [fold_left]. rewrite intermediate_items, IH, valid_items_cons, fold_left_app.
  reflexivity.
Qed.

Lemma intermediate_buildQuestionIndex (doc : Document) :
  Intermediate.buildQuestionIndex doc
  = intermediate_of (fst (Faq.buildQuestionIndex doc)).
Proof.
  rewrite buildQuestionIndex_flat. unfold Intermediate.buildQuestionIndex, flat_index.
  exact (intermediate_sections doc []).
Qed.

(** X17.  The index of the intermediate iteration against the current
    one: for every document [questionMap] holds the records of
    [flatList] in the same order, one per id in order of first
    occurrence; these are the records of the current index without their
    [order]; and an id resolves against [questionMap] exactly as it does
    against the current index. *)
Theorem intermediate_index_matches (doc : Document) :
  let flatList := fst (Intermediate.buildQuestionIndex doc) in
  let questionMap := snd (Intermediate.buildQuestionIndex doc) in
  let index := fst (Faq.buildQuestionIndex doc) in
  JsMap.values questionMap = flatList
  /\ JsMap.keys questionMap = unique_ids doc
  /\ map Intermediate.e_id flatList = unique_ids doc
  /\ flatList = map forget_order (JsMap.values index)
  /\ (forall id, JsMap.get id questionMap = option_map forget_order (JsMap.get id index))
  /\ (forall candidate,
        Intermediate.resolveQuestionId questionMap candidate
        = Faq.resolveQuestionId index candidate).
Proof.
  cbv zeta. rewrite intermediate_buildQuestionIndex.
  set (index := fst (Faq.buildQuestionIndex doc)).
  assert (K : JsMap.keys index = unique_ids doc).
  { subst index. rewrite buildQuestionIndex_flat. apply flat_index_keys. }
  split; [|split; [|split; [|split; [|split]]]].
  - unfold intermediate_of, JsMap.values. simpl. rewrite !map_map. reflexivity.
  - now rewrite keys_intermediate_of.
  - unfold intermediate_of. simpl. rewrite map_map.
    change (map (fun x => Intermediate.e_id (forget_order x)) (JsMap.values index))
      with (map Faq.e_id (JsMap.values index)).
    subst index. rewrite buildQuestionIndex_flat, flat_index_ids, flat_index_keys.
    reflexivity.
  - reflexivity.
  - intros id. unfold intermediate_of, JsMap.get. simpl. clear K.
    induction index as [|[k e] m IH]; [reflexivity|]. simpl.
    unfold JsMap.key_is at 1 3. simpl.
    destruct (String.eqb k id); [reflexivity | exact IH].
  - intros [c|]; [|reflexivity].
    unfold Intermediate.resolveQuestionId, Faq.resolveQuestionId.
    rewrite !has_intermediate_of.
    replace (JsMap.size (snd (intermediate_of index))) with (JsMap.size index)
      by (unfold intermediate_of, JsMap.size; simpl; now rewrite length_map).
    reflexivity.
Qed.

(* ===================================================================== *)
(** ** A click in the sidebar *)
(* ===================================================================== *)

Lemma applyActiveQuestion_marks (i : string) (syncHash scrollMobile : bool) (p : Faq.Page) :
  i <> "" -> JsMap.has i (Faq.questions (Faq.state p)) = true ->
  forall k b,
    In (k, b) (Faq.elements_sidebar
                 (Faq.state (Faq.applyActiveQuestion (Some i) syncHash scrollMobile p))) ->
    Faq.marked b = String.eqb k i.
Proof.
  intros Hi Hq. unfold Faq.applyActiveQuestion, Faq.triggerSocialGlow.
  rewrite Hq. apply is_empty_false in Hi. rewrite Hi. cbn [orb negb].
  set (p1 := Faq.renderDesktopQuestion (Some i)
               (Faq.on_state (Faq.set_activeId (Some i)) p)).
  assert (A1 : Faq.activeId (Faq.state p1) = Some i).
  { subst p1.
    destruct (renderDesktopQuestion_frame (Some i)
                (Faq.on_state (Faq.set_activeId (Some i)) p)) as [R1 _].
    now rewrite R1. }
  pose proof (@marks_mark (Some i) p1 A1) as M2.
  set (p2 := Faq.updateSidebarActive (Some i) p1) in *.
  set (p3 := if syncHash then Faq.setHashQuestionId (Some i) p2 else p2).
  assert (E3 : Faq.state p3 = Faq.state p2).
  { subst p3. destruct syncHash; [|reflexivity].
    now destruct (setHashQuestionId_frame (Some i) p2) as [S1 _]. }
  destruct (syncMobileAccordion_frame (Some i) scrollMobile false p3)
    as [_ [_ [_ [_ [_ [_ F7]]]]]].
  set (p4 := Faq.syncMobileAccordion (Some i) scrollMobile false p3) in *.
  assert (E : Faq.elements_sidebar
                (Faq.state match JsMap.get i Faq.SOCIAL_GLOW_MAPPING with
                           | Some glowIndices => Faq.log (SocialGlow glowIndices) p4
                           | None => p4
                           end) = Faq.elements_sidebar (Faq.state p2)).
  { destruct (JsMap.get i Faq.SOCIAL_GLOW_MAPPING); cbn [Faq.log Faq.state];
      now rewrite F7, E3. }
  rewrite E. intros k b H. rewrite (M2 k b H).
  assert (A2 : Faq.activeId (Faq.state p2) = Some i) by exact A1.
  now rewrite A2.
Qed.

(** X18.  A click in the sidebar.  A click that hits no link, or a link
    whose id is empty or not in the index, leaves the page as it is.  A
    click on the link of the active question only scrolls the viewer to
    the top: nothing is rendered again and the address is not touched.
    A click on the link of another question of the index makes it the
    active one, writes its encoded id to the hash, leaves exactly its
    link marked and, when it has a panel, leaves that panel open and no
    other. *)
Theorem sidebar_click_selects (p : Faq.Page) :
  (forall target,
     match target with
     | Some id => id = "" \/ JsMap.has id (Faq.questions (Faq.state p)) = false
     | None => True
     end ->
     Faq.handleSidebarClick target p = p)
  /\ (forall id,
        id <> "" -> JsMap.has id (Faq.questions (Faq.state p)) = true ->
        let p' := Faq.handleSidebarClick (Some id) p in
        Faq.activeId (Faq.state p') = Some id
        /\ (Faq.activeId (Faq.state p) = Some id ->
            Faq.state p' = Faq.state p /\ Faq.dom p' = Faq.dom p
            /\ Faq.window p' = Faq.window p /\ Faq.timers p' = Faq.timers p
            /\ Faq.effects p'
               = match Faq.viewer (Faq.dom p) with
                 | Some _ => ScrollViewerTop :: Faq.effects p
                 | None => Faq.effects p
                 end)
        /\ (Faq.activeId (Faq.state p) <> Some id ->
            Faq.without_hash_sign (Faq.location_hash (Faq.window p'))
            = Js.encodeURIComponent id
            /\ (forall k b, In (k, b) (Faq.elements_sidebar (Faq.state p')) ->
                  (Faq.marked b = true <-> k = id))
            /\ (JsMap.has id (Faq.elements_accordion (Faq.state p)) = true ->
                (forall k t, In (k, t) (Faq.elements_accordion (Faq.state p')) ->
                   Faq.ai_open t = true -> k = id)
                /\ exists t, JsMap.get id (Faq.elements_accordion (Faq.state p')) = Some t
                             /\ Faq.ai_open t = true))).
Proof.
  split.
  - intros [id|] H; [|reflexivity]. unfold Faq.handleSidebarClick.
    destruct H as [->|H]; [reflexivity|]. rewrite H.
    now rewrite orb_true_r.
  - intros id Hi Hq. cbv zeta. unfold Faq.handleSidebarClick.
    pose proof Hi as Hi'. apply is_empty_false in Hi'. rewrite Hi', Hq. cbn [orb negb].
    destruct (Faq.same_id id (Faq.activeId (Faq.state p))) eqn:S.
    + assert (A : Faq.activeId (Faq.state p) = Some id).
      { unfold Faq.same_id in S. destruct (Faq.activeId (Faq.state p)) as [a|];
          [|discriminate]. apply String.eqb_eq in S. now subst. }
      unfold Faq.scrollQuestionToTop.
      split; [destruct (Faq.viewer (Faq.dom p)); exact A|].
      split; [intros _; destruct (Faq.viewer (Faq.dom p)); repeat split|].
      intros N. contradiction.
    + destruct (@applyActiveQuestion_known id true false p Hi Hq) as [K1 K2].
      split; [exact K1|]. split.
      * intros A. rewrite A in S. simpl in S. now rewrite String.eqb_refl in S.
      * intros _. split; [exact (K2 eq_refl)|]. split.
        -- intros k b H. rewrite (@applyActiveQuestion_marks id true false p Hi Hq k b H).
           apply String.eqb_eq.
        -- intros Ha.
           destruct (@applyActiveQuestion_panels id true false p Hi Hq Ha) as [P1 P2].
           split; [|exact P2].
           intros k t Hin Ho. destruct (string_dec k id) as [E|N]; [exact E|].
           rewrite (P1 k t Hin N) in Ho. discriminate.
Qed.

(* ===================================================================== *)
(** ** The session history *)
(* ===================================================================== *)

(** From [p] to [p'] the script has kept [history.replaceState] and,
    where it is available, added no entry to the history. *)
Definition no_entry (p p' : Faq.Page) : Prop :=
  Faq.history_replaceState (Faq.window p') = Faq.history_replaceState (Faq.window p)
  /\ (Faq.history_replaceState (Faq.window p) = true ->
      Faq.history_length (Faq.window p') = Faq.history_length (Faq.window p)).

Lemma no_entry_same (p p' : Faq.Page) : Faq.window p' = Faq.window p -> no_entry p p'.
Proof. intros E. unfold no_entry. rewrite E. now split. Qed.

Lemma no_entry_trans (p q r : Faq.Page) : no_entry p q -> no_entry q r -> no_entry p r.
Proof.
  intros [A1 A2] [B1 B2]. unfold no_entry. rewrite B1, A1. split; [reflexivity|].
  intros H. rewrite B2 by (now rewrite A1). now apply A2.
Qed.

Lemma no_entry_setHashQuestionId (id : option string) (p : Faq.Page) :
  no_entry p (Faq.setHashQuestionId id p).
Proof.
  unfold Faq.setHashQuestionId. destruct id as [i|]; [|now apply no_entry_same].
  destruct (Js.is_empty i); [now apply no_entry_same|].
  destruct (String.eqb _ _); [now apply no_entry_same|].
  destruct (Faq.history_replaceState (Faq.window p)) eqn:R; unfold no_entry; cbn;
    rewrite R; split; congruence.
Qed.

Lemma no_entry_show (a : option string) (syncHash scroll focus : bool) (p : Faq.Page) :
  no_entry p
    (Faq.syncMobileAccordion a scroll focus
       (if syncHash
        then Faq.setHashQuestionId a
               (Faq.updateSidebarActive a (Faq.renderDesktopQuestion a p))
        else Faq.updateSidebarActive a (Faq.renderDesktopQuestion a p))).
Proof.
  destruct (renderDesktopQuestion_frame a p) as [_ [R2 _]].
  set (p1 := Faq.renderDesktopQuestion a p) in *.
  set (p2 := Faq.updateSidebarActive a p1).
  assert (W2 : Faq.window p2 = Faq.window p) by exact R2.
  set (p3 := if syncHash then Faq.setHashQuestionId a p2 else p2).
  assert (H3 : no_entry p p3).
  { apply (@no_entry_trans p p2 p3); [now apply no_entry_same|].
    subst p3. destruct syncHash; [apply no_entry_setHashQuestionId | now apply no_entry_same]. }
  apply (@no_entry_trans p p3 _ H3). apply no_entry_same.
  now destruct (syncMobileAccordion_frame a scroll focus p3) as [_ [F2 _]].
Qed.

Lemma no_entry_applyActiveQuestion (id : option string) (syncHash scrollMobile : bool)
    (p : Faq.Page) :
  no_entry p (Faq.applyActiveQuestion id syncHash scrollMobile p).
Proof.
  unfold Faq.applyActiveQuestion, Faq.triggerSocialGlow.
  destruct id as [i|]; [|now apply no_entry_same].
  destruct (Js.is_empty i || _); [now apply no_entry_same|].
  pose proof (no_entry_show (Some i) syncHash scrollMobile false
                (Faq.on_state (Faq.set_activeId (Some i)) p)) as H.
  destruct (JsMap.get i Faq.SOCIAL_GLOW_MAPPING); exact H.
Qed.

Lemma no_entry_hydrate (doc : Document) (p : Faq.Page) : no_entry p (Faq.hydrate doc p).
Proof.
  rewrite hydrate_unfold.
  pose proof (hydrate_active doc p) as HA. cbv zeta in HA |- *.
  match goal with |- context [Faq.renderDesktop ?x] => set (p2 := x) in * end.
  destruct HA as [_ [_ [_ [_ [_ [W2 _]]]]]].
  destruct (renderDesktop_core p2) as [_ [_ [_ [DW _]]]].
  set (p3 := Faq.renderDesktop p2) in *.
  destruct (renderMobile_core p3) as [_ [_ [_ [MW _]]]].
  set (p4 := Faq.renderMobile p3) in *.
  assert (W4 : Faq.window p4 = Faq.window p) by (now rewrite MW, DW).
  apply (@no_entry_trans p p4); [now apply no_entry_same|].
  unfold hydrate_show. destruct (Js.truthy _ && _).
  - cbv zeta. set (a := Faq.activeId (Faq.state p4)).
    destruct (renderDesktopQuestion_frame a p4) as [R1 _].
    assert (E1 : Faq.activeId (Faq.state (Faq.renderDesktopQuestion a p4)) = a)
      by now rewrite R1.
    rewrite E1.
    assert (E2 : Faq.activeId
                   (Faq.state (Faq.updateSidebarActive a (Faq.renderDesktopQuestion a p4)))
                 = a) by exact E1.
    rewrite E2.
    destruct (setHashQuestionId_frame a
                (Faq.updateSidebarActive a (Faq.renderDesktopQuestion a p4))) as [S1 _].
    rewrite S1, E2.
    exact (no_entry_show a true false false p4).
  - apply no_entry_same. destruct (Faq.viewer (Faq.dom p4)); reflexivity.
Qed.

Lemma no_entry_init (net : FetchResult) (p : Faq.Page) : no_entry p (Faq.init net p).
Proof.
  unfold Faq.init.
  assert (L : Faq.window (Faq.showLoadingState p) = Faq.window p).
  { unfold Faq.showLoadingState. cbv zeta.
    destruct p as [st [v sb ac kb] w t e]. destruct v, sb, ac; reflexivity. }
  destruct (Faq.loadFaqData net (Faq.showLoadingState p)) as [q [error|doc]] eqn:E.
  - apply no_entry_same.
    assert (Q : Faq.window q = Faq.window p).
    { unfold Faq.loadFaqData in E. destruct net as [|ok status body].
      - inversion E; subst. exact L.
      - destruct (negb ok); [inversion E; subst; exact L|].
        destruct body as [[]|]; inversion E; subst; exact L. }
    unfold Faq.handleDataLoadError, Faq.showErrorState. cbv zeta.
    destruct q as [st [v sb ac kb] w t e]. simpl in Q. subst w.
    destruct v, sb, ac; reflexivity.
  - apply (@no_entry_trans p q); [apply no_entry_same|apply no_entry_hydrate].
    unfold Faq.loadFaqData in E. destruct net as [|ok status body].
    + inversion E.
    + destruct (negb ok); [inversion E|].
      destruct body as [[]|]; inversion E; subst; exact L.
Qed.

Lemma no_entry_dispatch (p : Faq.Page) (ev : Faq.Event) : no_entry p (Faq.dispatch p ev).
Proof.
  destruct ev as [net|doc|id syncHash scrollMobile|target|target|hash|mobile|reduce| | |event];
    cbn [Faq.dispatch].
  - apply no_entry_init.
  - apply no_entry_hydrate.
  - apply no_entry_applyActiveQuestion.
  - unfold Faq.handleSidebarClick, Faq.scrollQuestionToTop.
    destruct target as [id|]; [|now apply no_entry_same].
    destruct (Js.is_empty id || _); [now apply no_entry_same|].
    destruct (Faq.same_id id _); [|apply no_entry_applyActiveQuestion].
    apply no_entry_same. destruct (Faq.viewer (Faq.dom p)); reflexivity.
  - unfold Faq.handleAccordionClick.
    destruct target as [id|]; [|now apply no_entry_same].
    destruct (Js.is_empty id); [now apply no_entry_same|].
    destruct (JsMap.get id _) as [item|]; [|now apply no_entry_same].
    destruct (Faq.ai_open item); [now apply no_entry_same|].
    eapply no_entry_trans; [|apply no_entry_applyActiveQuestion].
    apply no_entry_same. unfold Faq.expandPanel, Faq.AUTO_SCROLL. reflexivity.
  - eapply no_entry_trans with (q := Faq.on_window (Faq.set_location_hash hash) p);
      [unfold no_entry; cbn; now split|].
    apply no_entry_same. unfold Faq.handleHashChange.
    destruct (Faq.resolveQuestionId _ _) as [c|]; [|reflexivity].
    destruct (Js.is_empty c); [reflexivity|].
    destruct (Faq.same_id c _); [|apply applyActiveQuestion_window].
    now destruct (syncMobileAccordion_frame (Some c)
                    (Faq.layout_mobile
                       (Faq.window (Faq.on_window (Faq.set_location_hash hash) p)))
                    false (Faq.on_window (Faq.set_location_hash hash) p)) as [_ [F2 _]].
  - eapply no_entry_trans with (q := Faq.on_window (Faq.set_layout_mobile mobile) p);
      [unfold no_entry; cbn; now split|].
    apply no_entry_same. unfold Faq.handleLayoutChange.
    destruct (Nat.eqb _ 0); [reflexivity|].
    destruct (Faq.layout_mobile _).
    + now destruct (syncMobileAccordion_frame
                      (Faq.activeId
                         (Faq.state (Faq.on_window (Faq.set_layout_mobile mobile) p)))
                      false false (Faq.on_window (Faq.set_layout_mobile mobile) p))
        as [_ [F2 _]].
    + now destruct (renderDesktopQuestion_frame
                      (Faq.activeId
                         (Faq.state (Faq.on_window (Faq.set_layout_mobile mobile) p)))
                      (Faq.on_window (Faq.set_layout_mobile mobile) p)) as [_ [R2 _]].
  - unfold Faq.handleMotionPreferenceChange, Faq.refreshOpenPanels, no_entry.
    destruct (negb _); cbn; now split.
  - now apply no_entry_same.
  - apply no_entry_same. unfold Faq.timer_fires. destruct (Faq.timers p); reflexivity.
  - apply no_entry_same. unfold Faq.on_keydown, Faq.handleKeyboardNavigation.
    destruct (Faq.is_navigation_key _ && _), (Faq.target event);
      try destruct (Faq.ctrlKey event || Faq.metaKey event); reflexivity.
Qed.

(** X19.  Where [history.replaceState] is available the script adds no
    entry to the session history, whatever happens: over any sequence
    of loads, activations, clicks, key presses, hash changes, layout and
    motion changes and timer callbacks, [history.length] stays as it
    was; every write of the address replaces the current entry. *)
Theorem script_adds_no_history_entry (p : Faq.Page) (evs : list Faq.Event) :
  Faq.history_replaceState (Faq.window p) = true ->
  Faq.history_length (Faq.window (Faq.run p evs)) = Faq.history_length (Faq.window p)
  /\ Faq.history_replaceState (Faq.window (Faq.run p evs)) = true.
Proof.
  intros H.
  assert (N : no_entry p (Faq.run p evs)).
  { clear H. revert p. induction evs as [|ev evs IH]; intros p; [now apply no_entry_same|].
    unfold Faq.run. cbn [fold_left]. fold (Faq.run (Faq.dispatch p ev) evs).
    eapply no_entry_trans; [apply no_entry_dispatch | apply IH]. }
  destruct N as [N1 N2]. split; [now apply N2 | now rewrite N1].
Qed.

(** The theorem on a fresh desktop page: a load, two clicks and a hash
    change rewrite the address and leave the history at its one entry. *)
Lemma script_adds_no_history_entry_witness :
  let evs := [Faq.Init (Response true 200 (Some (JsonArray two_questions)));
              Faq.SidebarClick (Some "b"); Faq.AccordionClick (Some "a");
              Faq.HashChange "#b"] in
  let p := Faq.fresh Faq.full_dom (Faq.desktop "") in
  Faq.history_replaceState (Faq.window p) = true
  /\ Faq.location_hash (Faq.window (Faq.run p (firstn 3 evs))) = "#a"
  /\ Faq.history_length (Faq.window (Faq.run p evs)) = 1.
Proof.
  cbv zeta. split; [reflexivity|]. split; [vm_compute; reflexivity|].
  exact (proj1 (@script_adds_no_history_entry
                  (Faq.fresh Faq.full_dom (Faq.desktop ""))
                  [Faq.Init (Response true 200 (Some (JsonArray two_questions)));
                   Faq.SidebarClick (Some "b"); Faq.AccordionClick (Some "a");
                   Faq.HashChange "#b"] eq_refl)).
Defined.

(* ===================================================================== *)
(** ** Events that select nothing *)
(* ===================================================================== *)







